(** * Data-access layer of the D1 (SQLite) port of the CRM server

    A shallow embedding of
    - the value transformers (json, array, timestamp, boolean),
    - the LIKE query helpers,
    - the D1 query builder ([buildWhereClause], [executeSelect], ...),
    - the search resolver ([escapeSearchQuery], [buildSearchQuery]),
    - the object record resolvers ([createFindManyResolver], ...),
    - the workspace scoping utility and the environment detection it
      reads,
    together with executable models of the platform functions they call
    ([JSON.parse], [JSON.stringify], [btoa], [atob], [Date]) and of the
    storage engine that runs the generated statements. *)

From Stdlib Require Import String Ascii List ZArith NArith Bool Lia.
From Stdlib Require Import DecimalString DecimalN.
From Stdlib Require DecimalFacts.
From Stdlib Require Permutation Sorted.
Import ListNotations.

Local Open Scope string_scope.
Local Open Scope Z_scope.

(* ================================================================= *)
(** * Part I. Definitions *)
(* ================================================================= *)

(** ** Text

    A JavaScript string is modelled by its UTF-8 bytes; SQLite stores text
    the same way. *)

Definition ascii_N (c : ascii) : N := N_of_ascii c.

(** The double quote, and a text between double quotes. *)
Definition dquote : ascii := "034"%char.
Definition dq : string := String dquote EmptyString.
Definition dquoted (s : string) : string := dq ++ s ++ dq.

Definition is_digit (c : ascii) : bool :=
  (48 <=? ascii_N c)%N && (ascii_N c <=? 57)%N.

Fixpoint span (p : ascii -> bool) (s : string) : string * string :=
  match s with
  | EmptyString => (EmptyString, EmptyString)
  | String c r =>
      if p c then let (a, b) := span p r in (String c a, b)
      else (EmptyString, s)
  end.

Fixpoint string_forallb (p : ascii -> bool) (s : string) : bool :=
  match s with
  | EmptyString => true
  | String c r => p c && string_forallb p r
  end.

Definition string_flat_map (f : ascii -> string) (s : string) : string :=
  String.concat "" (map f (list_ascii_of_string s)).

(** Number to text, as [String(n)] and template literals do for integers. *)
Definition N_to_string (n : N) : string := NilZero.string_of_uint (N.to_uint n).

Definition Z_to_string (z : Z) : string :=
  if z <? 0 then "-" ++ N_to_string (Z.abs_N z) else N_to_string (Z.to_N z).

Definition digits_to_N (ds : string) : N :=
  match NilZero.uint_of_string ds with
  | Some d => N.of_uint d
  | None => 0%N
  end.

(** ** Exceptions *)

Inductive jsError : Type :=
| SyntaxError
| RangeError
| TypeError
| InvalidCharacterError
| D1_ERROR (message : string).

Inductive outcome (A : Type) : Type :=
| Returned (a : A)
| Thrown (e : jsError).

Arguments Returned {A} a.
Arguments Thrown {A} e.

Definition bind {A B : Type} (m : outcome A) (k : A -> outcome B) : outcome B :=
  match m with
  | Returned a => k a
  | Thrown e => Thrown e
  end.

Notation "'let*' x ':=' m 'in' k" := (bind m (fun x => k))
  (at level 10, x pattern, m at level 100, k at level 200).

(** [try { m } catch (e) { h e }] *)
Definition try_catch {A : Type} (m : outcome A) (h : jsError -> outcome A)
  : outcome A :=
  match m with
  | Returned a => Returned a
  | Thrown e => h e
  end.

(** ** JavaScript values

    A finite number is held by the decimal text that [Number::toString]
    writes for it: [JNum n] is an integer below 10^21 in magnitude, which is
    written with all its digits, and [JFloat literal] is any other number,
    [literal] being its text, such as [0.5], [1.5e-7] or [1e+21]. The
    arithmetic that the code under study does is on integers and is exact
    below 2^53. Objects keep their properties in insertion order. *)

#[local] Unset Elimination Schemes.

Inductive jsval : Type :=
| JUndefined
| JNull
| JBool (b : bool)
| JNum (n : Z)
| JFloat (literal : string)
| JStr (s : string)
| JArr (items : list jsval)
| JObj (props : list (string * jsval)).

#[local] Set Elimination Schemes.

Definition object : Type := list (string * jsval).

(** [o[k]] *)
Fixpoint obj_get (o : object) (k : string) : jsval :=
  match o with
  | [] => JUndefined
  | (k', v) :: r => if String.eqb k' k then v else obj_get r k
  end.

(** [k in o] (own properties) *)
Fixpoint obj_has (o : object) (k : string) : bool :=
  match o with
  | [] => false
  | (k', _) :: r => String.eqb k' k || obj_has r k
  end.

(** [o[k] = v]: an existing key keeps its position. *)
Fixpoint obj_set (o : object) (k : string) (v : jsval) : object :=
  match o with
  | [] => [(k, v)]
  | (k', v') :: r =>
      if String.eqb k' k then (k', v) :: r else (k', v') :: obj_set r k v
  end.

(** [{ ...a, ...b }] *)
Definition obj_spread (a b : object) : object :=
  fold_left (fun acc kv => obj_set acc (fst kv) (snd kv)) b a.

Definition Object_keys (o : object) : list string := map fst o.
Definition Object_values (o : object) : list jsval := map snd o.
Definition Object_entries (o : object) : list (string * jsval) := o.

(** Truthiness, [Boolean(v)]. *)
Definition truthy (v : jsval) : bool :=
  match v with
  | JUndefined | JNull => false
  | JBool b => b
  | JNum n => negb (n =? 0)
  | JFloat _ => true
  | JStr s => negb (String.eqb s "")
  | JArr _ | JObj _ => true
  end.

(** ** Numbers

    The decimal literals of JSON, which are also the texts that
    [Number::toString] writes, and the number that a literal denotes. A
    literal is read digit by digit; one with more digits than a binary64
    number distinguishes is not rounded. *)

Module Number.

Fixpoint zeros (n : nat) : string :=
  match n with
  | O => EmptyString
  | S k => String "0" (zeros k)
  end.

Fixpoint strip_zeros (s : string) : string :=
  match s with
  | String c r => if (ascii_N c =? 48)%N then strip_zeros r else s
  | EmptyString => EmptyString
  end.

Fixpoint drop_trailing_zeros (s : string) : string :=
  match s with
  | EmptyString => EmptyString
  | String c r =>
      match drop_trailing_zeros r with
      | EmptyString => if (ascii_N c =? 48)%N then EmptyString else String c EmptyString
      | r' => String c r'
      end
  end.

Fixpoint take (n : nat) (s : string) : string :=
  match n, s with
  | S k, String c r => String c (take k r)
  | _, _ => EmptyString
  end.

Fixpoint drop (n : nat) (s : string) : string :=
  match n, s with
  | S k, String _ r => drop k r
  | _, _ => s
  end.

(** The parts of a literal: sign, digits before the point, digits after
    it (none when there is no point) and exponent (0 when there is none). *)
Record literal : Type := {
  negative : bool;
  integer : string;
  fraction : string;
  exponent : Z
}.

(** No leading zero, at least one digit. *)
Definition canonical_digits (ds : string) : bool :=
  match ds with
  | EmptyString => false
  | String c EmptyString => true
  | String c _ => negb (ascii_N c =? 48)%N
  end.

Definition read_fraction (s : string) : option (string * string) :=
  match s with
  | String "." r =>
      let (fs, r') := span is_digit r in
      match fs with
      | EmptyString => None
      | _ => Some (fs, r')
      end
  | _ => Some ("", s)
  end.

Definition read_exponent (s : string) : option (Z * string) :=
  match s with
  | String c r =>
      if (ascii_N c =? 101)%N || (ascii_N c =? 69)%N then
        let (minus, r1) :=
          match r with
          | String "+" r1 => (false, r1)
          | String "-" r1 => (true, r1)
          | _ => (false, r)
          end in
        let (es, r2) := span is_digit r1 in
        match es with
        | EmptyString => None
        | _ =>
            let e := Z.of_N (digits_to_N es) in
            Some (if minus then - e else e, r2)
        end
      else Some (0, s)
  | EmptyString => Some (0, s)
  end.

(** The literal at the head of a text and the text that follows it: an
    optional minus, digits without leading zero, an optional point with
    digits, an optional exponent with sign and digits. *)
Definition read (s : string) : option (literal * string) :=
  let (neg, s1) :=
    match s with
    | String "-" r => (true, r)
    | _ => (false, s)
    end in
  let (ds, s2) := span is_digit s1 in
  if canonical_digits ds then
    match read_fraction s2 with
    | Some (fs, s3) =>
        match read_exponent s3 with
        | Some (e, s4) =>
            Some ({| negative := neg; integer := ds; fraction := fs; exponent := e |},
                  s4)
        | None => None
        end
    | None => None
    end
  else None.

(** The significant digits [s] of a literal, without leading or trailing
    zero and empty for zero, and the power [n] with which its value is
    [0.s] times [10^n]. *)
Definition normal (l : literal) : string * Z :=
  let all := integer l ++ fraction l in
  let lead := strip_zeros all in
  (drop_trailing_zeros lead,
   Z.of_nat (String.length (integer l)) + exponent l
   - Z.of_nat (String.length all - String.length lead)).

(** [Number::toString] of a number that is not an integer below 10^21,
    from its digits [s] and power [n]: with a point among the digits, with
    zeros after the point, or with an exponent. *)
Definition text (s : string) (n : Z) : string :=
  if (0 <? n) && (n <=? 21) then
    take (Z.to_nat n) s ++ "." ++ drop (Z.to_nat n) s
  else if (-6 <? n) && (n <=? 0) then
    "0." ++ zeros (Z.to_nat (- n)) ++ s
  else
    let e := n - 1 in
    match s with
    | String c EmptyString => s
    | String c r => String c ("." ++ r)
    | EmptyString => EmptyString
    end ++ "e" ++ (if e <? 0 then "-" else "+") ++ N_to_string (Z.abs_N e).

(** The value of a literal: a mantissa and a power of ten. *)
Definition value_of (l : literal) : Z * Z :=
  let m := Z.of_N (digits_to_N (integer l ++ fraction l)) in
  (if negative l then - m else m,
   exponent l - Z.of_nat (String.length (fraction l))).

(** The value of a text that is a literal; 0 for any other text. *)
Definition value (lit : string) : Z * Z :=
  match read lit with
  | Some (l, _) => value_of l
  | None => (0, 0)
  end.

Definition scale (v : Z * Z) (q : Z) : Z := fst v * 10 ^ (snd v - q).

(** Comparison of [m1 * 10^p1] with [m2 * 10^p2]. *)
Definition compare (a b : Z * Z) : comparison :=
  let q := Z.min (snd a) (snd b) in
  Z.compare (scale a q) (scale b q).

(** The number that a literal denotes. *)
Definition of_literal (l : literal) : jsval :=
  let signed (n : Z) := if negative l then - n else n in
  let plain := Z.of_N (digits_to_N (integer l)) in
  if String.eqb (fraction l) "" && (exponent l =? 0) && (plain <? 10 ^ 21) then
    JNum (signed plain)
  else
    let (s, n) := normal l in
    let k := Z.of_nat (String.length s) in
    match s with
    | EmptyString => JNum 0
    | _ =>
        if (k <=? n) && (n <=? 21) then
          JNum (signed (Z.of_N (digits_to_N s) * 10 ^ (n - k)))
        else JFloat ((if negative l then "-" else "") ++ text s n)
    end.

End Number.

(** ** UTF-8 *)

Definition chr (n : N) : ascii := ascii_of_N n.

Definition utf8_encode (cp : N) : string :=
  if (cp <? 128)%N then String (chr cp) ""
  else if (cp <? 2048)%N then
    String (chr (192 + N.shiftr cp 6))
      (String (chr (128 + N.land cp 63)) "")
  else if (cp <? 65536)%N then
    String (chr (224 + N.shiftr cp 12))
      (String (chr (128 + N.land (N.shiftr cp 6) 63))
         (String (chr (128 + N.land cp 63)) ""))
  else
    String (chr (240 + N.shiftr cp 18))
      (String (chr (128 + N.land (N.shiftr cp 12) 63))
         (String (chr (128 + N.land (N.shiftr cp 6) 63))
            (String (chr (128 + N.land cp 63)) ""))).

(** ** JSON *)

Module JSON.

Definition hex_digit (n : N) : ascii :=
  if (n <? 10)%N then chr (48 + n) else chr (87 + n).

(** [QuoteJSONString] on one character. *)
Definition quote_char (c : ascii) : string :=
  let n := ascii_N c in
  if (n =? 34)%N then "\" ++ dq
  else if (n =? 92)%N then "\\"
  else if (n =? 8)%N then "\b"
  else if (n =? 12)%N then "\f"
  else if (n =? 10)%N then "\n"
  else if (n =? 13)%N then "\r"
  else if (n =? 9)%N then "\t"
  else if (n <? 32)%N then
    "\u00" ++ String (hex_digit (N.shiftr n 4))
                (String (hex_digit (N.land n 15)) "")
  else String c "".

Fixpoint quote_body (s : string) : string :=
  match s with
  | EmptyString => EmptyString
  | String c r => quote_char c ++ quote_body r
  end.

Definition quote (s : string) : string :=
  dq ++ quote_body s ++ dq.

Definition is_undefined (v : jsval) : bool :=
  match v with JUndefined => true | _ => false end.

Fixpoint somes {A : Type} (l : list (option A)) : list A :=
  match l with
  | [] => []
  | Some a :: r => a :: somes r
  | None :: r => somes r
  end.

(** [SerializeJSONProperty] for a value in array position: [undefined]
    is written as [null]. *)
Fixpoint stringify_value (v : jsval) : string :=
  match v with
  | JUndefined | JNull => "null"
  | JBool true => "true"
  | JBool false => "false"
  | JNum n => Z_to_string n
  | JFloat lit => lit
  | JStr s => quote s
  | JArr items => "[" ++ String.concat "," (map stringify_value items) ++ "]"
  | JObj props =>
      "{" ++ String.concat ","
               (somes (map (fun kv : string * jsval =>
                              if is_undefined (snd kv) then None
                              else Some (quote (fst kv) ++ ":" ++
                                         stringify_value (snd kv)))
                           props)) ++ "}"
  end.

(** [JSON.stringify(v)]: [undefined] for [undefined], text otherwise. *)
Definition stringify (v : jsval) : option string :=
  match v with
  | JUndefined => None
  | _ => Some (stringify_value v)
  end.

Definition is_ws (c : ascii) : bool :=
  let n := ascii_N c in
  (n =? 32)%N || (n =? 9)%N || (n =? 10)%N || (n =? 13)%N.

Fixpoint skip_ws (s : string) : string :=
  match s with
  | String c r => if is_ws c then skip_ws r else s
  | EmptyString => EmptyString
  end.

Definition hex_value (c : ascii) : option N :=
  let n := ascii_N c in
  if (48 <=? n)%N && (n <=? 57)%N then Some (n - 48)%N
  else if (97 <=? n)%N && (n <=? 102)%N then Some (n - 87)%N
  else if (65 <=? n)%N && (n <=? 70)%N then Some (n - 55)%N
  else None.

Definition hex4 (a b c d : ascii) : option N :=
  match hex_value a, hex_value b, hex_value c, hex_value d with
  | Some x, Some y, Some z, Some w => Some (x * 4096 + y * 256 + z * 16 + w)%N
  | _, _, _, _ => None
  end.

Definition is_high_surrogate (u : N) : bool := (55296 <=? u)%N && (u <=? 56319)%N.
Definition is_low_surrogate (u : N) : bool := (56320 <=? u)%N && (u <=? 57343)%N.

Definition flush (pending : option N) : string :=
  match pending with
  | Some hi => utf8_encode hi
  | None => ""
  end.

Definition simple_escape (e : ascii) : option ascii :=
  let n := ascii_N e in
  if (n =? 34)%N then Some e
  else if (n =? 92)%N then Some e
  else if (n =? 47)%N then Some e
  else if (n =? 98)%N then Some (chr 8)
  else if (n =? 102)%N then Some (chr 12)
  else if (n =? 110)%N then Some (chr 10)
  else if (n =? 114)%N then Some (chr 13)
  else if (n =? 116)%N then Some (chr 9)
  else None.

Definition prepend (p : string) (r : option (string * string))
  : option (string * string) :=
  match r with
  | Some (t, rest) => Some (p ++ t, rest)
  | None => None
  end.

(** The characters of a string literal after its opening quote; [pending]
    holds a high surrogate read from a [\u] escape that may still pair
    with a following low surrogate. *)
Fixpoint parse_string_body (pending : option N) (s : string)
  : option (string * string) :=
  match s with
  | EmptyString => None
  | String c r =>
      if (ascii_N c =? 34)%N then Some (flush pending, r)
      else if (ascii_N c =? 92)%N then
        match r with
        | String e r1 =>
            if (ascii_N e =? 117)%N then
              match r1 with
              | String a (String b (String c' (String d r2))) =>
                  match hex4 a b c' d with
                  | Some u =>
                      match pending with
                      | Some hi =>
                          if is_low_surrogate u then
                            prepend
                              (utf8_encode (65536 + (hi - 55296) * 1024 + (u - 56320))%N)
                              (parse_string_body None r2)
                          else if is_high_surrogate u then
                            prepend (utf8_encode hi) (parse_string_body (Some u) r2)
                          else
                            prepend (utf8_encode hi ++ utf8_encode u)
                              (parse_string_body None r2)
                      | None =>
                          if is_high_surrogate u then parse_string_body (Some u) r2
                          else prepend (utf8_encode u) (parse_string_body None r2)
                      end
                  | None => None
                  end
              | _ => None
              end
            else
              match simple_escape e with
              | Some ch =>
                  prepend (flush pending ++ String ch "") (parse_string_body None r1)
              | None => None
              end
        | EmptyString => None
        end
      else if (ascii_N c <? 32)%N then None
      else prepend (flush pending ++ String c "") (parse_string_body None r)
  end.

(** A number literal at the head of a text. *)
Definition parse_number (s : string) : option (jsval * string) :=
  match Number.read s with
  | Some (l, rest) => Some (Number.of_literal l, rest)
  | None => None
  end.

(** Recursive descent; [fuel] bounds the nesting depth plus the number
    of elements still to read. *)
Fixpoint parse_value (fuel : nat) (s : string) : option (jsval * string) :=
  match fuel with
  | O => None
  | S fuel' =>
      match skip_ws s with
      | String "n" (String "u" (String "l" (String "l" r))) => Some (JNull, r)
      | String "t" (String "r" (String "u" (String "e" r))) => Some (JBool true, r)
      | String "f" (String "a" (String "l" (String "s" (String "e" r)))) =>
          Some (JBool false, r)
      | String "034"%char r =>
          match parse_string_body None r with
          | Some (t, r') => Some (JStr t, r')
          | None => None
          end
      | String "[" r =>
          match skip_ws r with
          | String "]" r' => Some (JArr [], r')
          | r1 =>
              match parse_elements fuel' r1 with
              | Some (items, r') => Some (JArr items, r')
              | None => None
              end
          end
      | String "{" r =>
          match skip_ws r with
          | String "}" r' => Some (JObj [], r')
          | r1 =>
              match parse_members fuel' r1 with
              | Some (props, r') => Some (JObj props, r')
              | None => None
              end
          end
      | s' => parse_number s'
      end
  end

with parse_elements (fuel : nat) (s : string) : option (list jsval * string) :=
  match fuel with
  | O => None
  | S fuel' =>
      match parse_value fuel' s with
      | Some (v, r) =>
          match skip_ws r with
          | String "," r' =>
              match parse_elements fuel' r' with
              | Some (vs, r'') => Some (v :: vs, r'')
              | None => None
              end
          | String "]" r' => Some ([v], r')
          | _ => None
          end
      | None => None
      end
  end

with parse_members (fuel : nat) (s : string) : option (object * string) :=
  match fuel with
  | O => None
  | S fuel' =>
      match skip_ws s with
      | String "034"%char r =>
          match parse_string_body None r with
          | Some (k, r1) =>
              match skip_ws r1 with
              | String ":" r2 =>
                  match parse_value fuel' r2 with
                  | Some (v, r3) =>
                      match skip_ws r3 with
                      | String "," r4 =>
                          match parse_members fuel' r4 with
                          | Some (ps, r5) => Some ((k, v) :: ps, r5)
                          | None => None
                          end
                      | String "}" r4 => Some ([(k, v)], r4)
                      | _ => None
                      end
                  | None => None
                  end
              | _ => None
              end
          | None => None
          end
      | _ => None
      end
  end.

(** A later duplicate of a key wins and keeps the first position, as
    property creation on the result object does. *)
Fixpoint normalize (v : jsval) : jsval :=
  match v with
  | JArr items => JArr (map normalize items)
  | JObj props =>
      JObj (fold_left (fun acc kv => obj_set acc (fst kv) (snd kv))
              (map (fun kv : string * jsval => (fst kv, normalize (snd kv))) props)
              [])
  | _ => v
  end.

(** [JSON.parse(text)] *)
Definition parse (text : string) : outcome jsval :=
  match parse_value (S (String.length text)) text with
  | Some (v, r) =>
      match skip_ws r with
      | EmptyString => Returned (normalize v)
      | _ => Thrown SyntaxError
      end
  | None => Thrown SyntaxError
  end.

End JSON.

(** ** Base64: [btoa] and [atob]

    [btoa] takes a string of code units below 256 (one byte each) and
    throws on any other character; under the UTF-8 reading of text these
    are the ASCII bytes and the two-byte sequences led by C2 or C3. *)

Module Base64.

Fixpoint latin1_bytes_fuel (fuel : nat) (s : string) : option (list N) :=
  match fuel with
  | O => None
  | S fuel' =>
      match s with
      | EmptyString => Some []
      | String c r =>
          let n := ascii_N c in
          if (n <? 128)%N then option_map (cons n) (latin1_bytes_fuel fuel' r)
          else if (n =? 194)%N || (n =? 195)%N then
            match r with
            | String c2 r' =>
                let m := ascii_N c2 in
                if (128 <=? m)%N && (m <? 192)%N then
                  option_map (cons ((n - 192) * 64 + (m - 128))%N)
                    (latin1_bytes_fuel fuel' r')
                else None
            | EmptyString => None
            end
          else None
      end
  end.

Definition latin1_bytes (s : string) : option (list N) :=
  latin1_bytes_fuel (S (String.length s)) s.

Fixpoint bytes_to_text (bs : list N) : string :=
  match bs with
  | [] => ""
  | b :: r => utf8_encode b ++ bytes_to_text r
  end.

Definition alphabet (n : N) : ascii :=
  if (n <? 26)%N then chr (65 + n)
  else if (n <? 52)%N then chr (97 + (n - 26))
  else if (n <? 62)%N then chr (48 + (n - 52))
  else if (n =? 62)%N then "+"%char
  else "/"%char.

Definition sextet (c : ascii) : option N :=
  let n := ascii_N c in
  if (65 <=? n)%N && (n <=? 90)%N then Some (n - 65)%N
  else if (97 <=? n)%N && (n <=? 122)%N then Some (n - 71)%N
  else if (48 <=? n)%N && (n <=? 57)%N then Some (n + 4)%N
  else if (n =? 43)%N then Some 62%N
  else if (n =? 47)%N then Some 63%N
  else None.

Fixpoint encode (bs : list N) : string :=
  match bs with
  | [] => ""
  | [a] =>
      String (alphabet (N.shiftr a 2))
        (String (alphabet (N.land a 3 * 16)) "==")
  | [a; b] =>
      String (alphabet (N.shiftr a 2))
        (String (alphabet (N.land a 3 * 16 + N.shiftr b 4))
           (String (alphabet (N.land b 15 * 4)) "="))
  | a :: b :: c :: r =>
      String (alphabet (N.shiftr a 2))
        (String (alphabet (N.land a 3 * 16 + N.shiftr b 4))
           (String (alphabet (N.land b 15 * 4 + N.shiftr c 6))
              (String (alphabet (N.land c 63)) (encode r))))
  end.

Definition btoa (s : string) : outcome string :=
  match latin1_bytes s with
  | Some bs => Returned (encode bs)
  | None => Thrown InvalidCharacterError
  end.

Definition is_ascii_ws (c : ascii) : bool :=
  let n := ascii_N c in
  (n =? 9)%N || (n =? 10)%N || (n =? 12)%N || (n =? 13)%N || (n =? 32)%N.

Fixpoint strip_ws (s : string) : list ascii :=
  match s with
  | EmptyString => []
  | String c r => if is_ascii_ws c then strip_ws r else c :: strip_ws r
  end.

(** Drop one or two trailing [=] when the length is a multiple of 4. *)
Definition strip_padding (cs : list ascii) : list ascii :=
  if (Nat.modulo (List.length cs) 4 =? 0)%nat then
    match rev cs with
    | "="%char :: "="%char :: r => rev r
    | "="%char :: r => rev r
    | _ => cs
    end
  else cs.

Fixpoint sextets (cs : list ascii) : option (list N) :=
  match cs with
  | [] => Some []
  | c :: r =>
      match sextet c, sextets r with
      | Some n, Some ns => Some (n :: ns)
      | _, _ => None
      end
  end.

Fixpoint decode (ns : list N) : list N :=
  match ns with
  | a :: b :: c :: d :: r =>
      (a * 4 + N.shiftr b 4)%N
        :: (N.land b 15 * 16 + N.shiftr c 2)%N
        :: (N.land c 3 * 64 + d)%N :: decode r
  | [a; b; c] =>
      [(a * 4 + N.shiftr b 4)%N; (N.land b 15 * 16 + N.shiftr c 2)%N]
  | [a; b] => [(a * 4 + N.shiftr b 4)%N]
  | _ => []
  end.

(** The forgiving-base64 decode of the HTML standard. *)
Definition atob (s : string) : outcome string :=
  let cs := strip_padding (strip_ws s) in
  if (Nat.modulo (List.length cs) 4 =? 1)%nat then Thrown InvalidCharacterError
  else
    match sextets cs with
    | Some ns => Returned (bytes_to_text (decode ns))
    | None => Thrown InvalidCharacterError
    end.

End Base64.

(** ** Dates

    A [Date] holds a time value, the milliseconds since the epoch, or is
    invalid (NaN). The text format is the date-time string format of
    ECMAScript; other formats, whose reading is left to the implementation,
    are read as invalid. The local time zone is UTC. *)

Module Date.

Definition t : Type := option Z.

Definition msPerDay : Z := 86400000.
Definition maxTime : Z := 8640000000000000.

Definition isNaN (d : t) : bool :=
  match d with Some _ => false | None => true end.

Definition is_leap (y : Z) : bool :=
  ((y mod 4 =? 0) && negb (y mod 100 =? 0)) || (y mod 400 =? 0).

Definition days_in_month (y m : Z) : Z :=
  if m =? 2 then (if is_leap y then 29 else 28)
  else if (m =? 4) || (m =? 6) || (m =? 9) || (m =? 11) then 30
  else 31.

(** Day number (days since 1970-01-01) of a civil date. *)
Definition days_from_civil (y m d : Z) : Z :=
  let y' := if m <=? 2 then y - 1 else y in
  let era := y' / 400 in
  let yoe := y' - era * 400 in
  let doy := (153 * (if 2 <? m then m - 3 else m + 9) + 2) / 5 + d - 1 in
  let doe := yoe * 365 + yoe / 4 - yoe / 100 + doy in
  era * 146097 + doe - 719468.

(** Civil date of a day number, within one 400-year era. *)
Definition civil_of_doe (doe : Z) : Z * Z * Z :=
  let yoe := (doe - doe / 1460 + doe / 36524 - doe / 146096) / 365 in
  let doy := doe - (365 * yoe + yoe / 4 - yoe / 100) in
  let mp := (5 * doy + 2) / 153 in
  let d := doy - (153 * mp + 2) / 5 + 1 in
  let m := if mp <? 10 then mp + 3 else mp - 9 in
  (if m <=? 2 then yoe + 1 else yoe, m, d).

Definition civil_from_days (z : Z) : Z * Z * Z :=
  let z' := z + 719468 in
  let era := z' / 146097 in
  let doe := z' - era * 146097 in
  let '(y, m, d) := civil_of_doe doe in
  (y + era * 400, m, d).

Definition digit (n : Z) : ascii := chr (Z.to_N (48 + n)).

(** [n] written with exactly [w] digits. *)
Fixpoint pad (w : nat) (n : Z) : string :=
  match w with
  | O => ""
  | S w' => String (digit ((n / 10 ^ Z.of_nat w') mod 10)) (pad w' n)
  end.

Definition year_text (y : Z) : string :=
  if (0 <=? y) && (y <=? 9999) then pad 4 y
  else if y <? 0 then "-" ++ pad 6 (- y)
  else "+" ++ pad 6 y.

(** The text of a valid time value. *)
Definition iso_string (tv : Z) : string :=
  let day := tv / msPerDay in
  let ms := tv mod msPerDay in
  let '(y, m, d) := civil_from_days day in
  year_text y ++ "-" ++ pad 2 m ++ "-" ++ pad 2 d ++ "T" ++
  pad 2 (ms / 3600000) ++ ":" ++ pad 2 (ms / 60000 mod 60) ++ ":" ++
  pad 2 (ms / 1000 mod 60) ++ "." ++ pad 3 (ms mod 1000) ++ "Z".

(** [d.toISOString()] *)
Definition toISOString (d : t) : outcome string :=
  match d with
  | Some tv => Returned (iso_string tv)
  | None => Thrown RangeError
  end.

Fixpoint read_digits (w : nat) (acc : Z) (s : string) : option (Z * string) :=
  match w with
  | O => Some (acc, s)
  | S w' =>
      match s with
      | String c r =>
          if is_digit c then read_digits w' (acc * 10 + (Z.of_N (ascii_N c) - 48)) r
          else None
      | EmptyString => None
      end
  end.

Definition read_year (s : string) : option (Z * string) :=
  match s with
  | String c r =>
      if is_digit c then read_digits 4 0 s
      else if (ascii_N c =? 43)%N then read_digits 6 0 r
      else if (ascii_N c =? 45)%N then
        match read_digits 6 0 r with
        | Some (y, r') => if y =? 0 then None else Some (- y, r')
        | None => None
        end
      else None
  | EmptyString => None
  end.

(** [-MM] and [-DD], each optional. *)
Definition read_month_day (s : string) : option (Z * Z * string) :=
  match s with
  | String "-" r =>
      match read_digits 2 0 r with
      | Some (m, String "-" r1) =>
          match read_digits 2 0 r1 with
          | Some (d, r2) => Some (m, d, r2)
          | None => None
          end
      | Some (m, r1) => Some (m, 1, r1)
      | None => None
      end
  | _ => Some (1, 1, s)
  end.

(** [:ss] and [.sss], each optional. *)
Definition read_seconds (s : string) : option (Z * string) :=
  match s with
  | String ":" r =>
      match read_digits 2 0 r with
      | Some (sec, String "." r1) =>
          match read_digits 3 0 r1 with
          | Some (ms, r2) => Some (sec * 1000 + ms, r2)
          | None => None
          end
      | Some (sec, r1) => Some (sec * 1000, r1)
      | None => None
      end
  | _ => Some (0, s)
  end.

(** [Z] or [+HH:mm] or [-HH:mm] or nothing (local time, which is UTC);
    the offset in milliseconds. *)
Definition read_offset (s : string) : option Z :=
  match s with
  | EmptyString => Some 0
  | String "Z" EmptyString => Some 0
  | String c r =>
      if (ascii_N c =? 43)%N || (ascii_N c =? 45)%N then
        match read_digits 2 0 r with
        | Some (h, String ":" r1) =>
            match read_digits 2 0 r1 with
            | Some (mi, EmptyString) =>
                if (h <? 24) && (mi <? 60) then
                  let off := h * 3600000 + mi * 60000 in
                  Some (if (ascii_N c =? 45)%N then - off else off)
                else None
            | _ => None
            end
        | _ => None
        end
      else None
  end.

(** Milliseconds within the day minus the offset, after [T]. *)
Definition read_time (s : string) : option Z :=
  match s with
  | EmptyString => Some 0
  | String "T" r =>
      match read_digits 2 0 r with
      | Some (h, String ":" r1) =>
          match read_digits 2 0 r1 with
          | Some (mi, r2) =>
              match read_seconds r2 with
              | Some (sms, r3) =>
                  match read_offset r3 with
                  | Some off =>
                      if ((h <? 24) && (mi <? 60) && (sms <? 60000))
                         || ((h =? 24) && (mi =? 0) && (sms =? 0))
                      then Some (h * 3600000 + mi * 60000 + sms - off)
                      else None
                  | None => None
                  end
              | None => None
              end
          | None => None
          end
      | _ => None
      end
  | _ => None
  end.

(** [Date.parse(text)] *)
Definition parse (text : string) : t :=
  match read_year text with
  | Some (y, r) =>
      match read_month_day r with
      | Some (m, d, r1) =>
          match read_time r1 with
          | Some ms =>
              if (1 <=? m) && (m <=? 12) && (1 <=? d) && (d <=? days_in_month y m)
              then
                let tv := days_from_civil y m d * msPerDay + ms in
                if (- maxTime <=? tv) && (tv <=? maxTime) then Some tv else None
              else None
          | None => None
          end
      | None => None
      end
  | None => None
  end.

(** [new Date(text)] *)
Definition of_string (text : string) : t := parse text.

(** [d.getTime()] is NaN exactly for an invalid date. *)
Definition getTime (d : t) : t := d.

End Date.

(** ** Value transformers *)

Definition lower_char (c : ascii) : ascii :=
  let n := ascii_N c in
  if (65 <=? n)%N && (n <=? 90)%N then chr (n + 32) else c.

Definition upper_char (c : ascii) : ascii :=
  let n := ascii_N c in
  if (97 <=? n)%N && (n <=? 122)%N then chr (n - 32) else c.

Fixpoint string_map (f : ascii -> ascii) (s : string) : string :=
  match s with
  | EmptyString => EmptyString
  | String c r => String (f c) (string_map f r)
  end.

(** [s.toLowerCase()] and [s.toUpperCase()] on ASCII letters. *)
Definition toLowerCase (s : string) : string := string_map lower_char s.
Definition toUpperCase (s : string) : string := string_map upper_char s.

(** Storage text or SQL NULL. *)
Definition stored : Type := option string.

Module jsonTransformer.

Definition to (value : jsval) : outcome stored :=
  match value with
  | JNull | JUndefined => Returned None
  | _ => try_catch (Returned (JSON.stringify value)) (fun _ => Returned None)
  end.

Definition from (value : stored) : outcome jsval :=
  match value with
  | None => Returned JNull
  | Some text => try_catch (JSON.parse text) (fun _ => Returned JNull)
  end.

End jsonTransformer.

Module arrayTransformer.

Definition to (value : jsval) : outcome stored :=
  match value with
  | JNull | JUndefined => Returned None
  | JArr _ => try_catch (Returned (JSON.stringify value)) (fun _ => Returned None)
  | _ => Returned (JSON.stringify (JArr [value]))
  end.

Definition from (value : stored) : outcome jsval :=
  match value with
  | None => Returned (JArr [])
  | Some text =>
      try_catch
        (let* parsed := JSON.parse text in
         Returned (match parsed with
                   | JArr _ => parsed
                   | _ => JArr [parsed]
                   end))
        (fun _ => Returned (JArr []))
  end.

End arrayTransformer.

(** [createTypedArrayTransformer<T>()] *)
Module typedArrayTransformer.

Definition to (value : jsval) : outcome stored :=
  match value with
  | JNull | JUndefined => Returned None
  | _ => try_catch (Returned (JSON.stringify value)) (fun _ => Returned None)
  end.

Definition from (value : stored) : outcome jsval :=
  match value with
  | None => Returned (JArr [])
  | Some text =>
      try_catch
        (let* parsed := JSON.parse text in
         Returned (match parsed with
                   | JArr _ => parsed
                   | _ => JArr []
                   end))
        (fun _ => Returned (JArr []))
  end.

End typedArrayTransformer.

(** What [timestampTransformer.to] may be handed: [null] or [undefined],
    a [Date], a string, or a value of another type. *)
Inductive timestampInput : Type :=
| TsNullish
| TsDate (d : Date.t)
| TsString (s : string)
| TsOther (v : jsval).

Module timestampTransformer.

Definition to (value : timestampInput) : outcome stored :=
  match value with
  | TsNullish => Returned None
  | TsDate d => let* text := Date.toISOString d in Returned (Some text)
  | TsString s =>
      let date := Date.of_string s in
      if Date.isNaN (Date.getTime date) then Returned (Some s)
      else let* text := Date.toISOString date in Returned (Some text)
  | TsOther _ => Returned None
  end.

(** [Date | null]: [None] is [null], [Some d] the date [d]. *)
Definition from (value : stored) : outcome (option Date.t) :=
  match value with
  | None => Returned None
  | Some text =>
      try_catch
        (let date := Date.of_string text in
         if Date.isNaN (Date.getTime date) then Returned None
         else Returned (Some date))
        (fun _ => Returned None)
  end.

End timestampTransformer.

Module booleanTransformer.

Definition to (value : option bool) : option Z :=
  match value with
  | None => None
  | Some b => Some (if b then 1 else 0)
  end.

Definition from (value : jsval) : option bool :=
  match value with
  | JNull | JUndefined => None
  | JNum n => Some (n =? 1)
  | JFloat _ => Some false
  | JStr s => Some (String.eqb s "1" || String.eqb (toLowerCase s) "true")
  | _ => Some (truthy value)
  end.

End booleanTransformer.

(** ** LIKE query helpers *)

Definition is_like_special (c : ascii) : bool :=
  let n := ascii_N c in (n =? 37)%N || (n =? 95)%N || (n =? 92)%N.


Definition likeNoCase (column paramPlaceholder : string) : string :=
  column ++ " LIKE " ++ paramPlaceholder ++ " COLLATE NOCASE".

Definition notLikeNoCase (column paramPlaceholder : string) : string :=
  column ++ " NOT LIKE " ++ paramPlaceholder ++ " COLLATE NOCASE".


Definition equalsNoCase (column paramPlaceholder : string) : string :=
  "LOWER(" ++ column ++ ") = LOWER(" ++ paramPlaceholder ++ ")".

(** ** Query builder *)

Definition nl : string := String (chr 10) "".

(** [String(v)], as a template literal converts an interpolated value. *)
Fixpoint js_to_string (v : jsval) : string :=
  match v with
  | JUndefined => "undefined"
  | JNull => "null"
  | JBool true => "true"
  | JBool false => "false"
  | JNum n => Z_to_string n
  | JFloat lit => lit
  | JStr s => s
  | JArr items =>
      String.concat ","
        (map (fun x => match x with
                       | JUndefined | JNull => ""
                       | _ => js_to_string x
                       end) items)
  | JObj _ => "[object Object]"
  end.

(** [v.id] and the like; a primitive has no such property. *)
Definition js_prop (v : jsval) (k : string) : jsval :=
  match v with
  | JObj props => obj_get props k
  | _ => JUndefined
  end.

Record PaginationArgs : Type := {
  first : option Z;
  last : option Z;
  before : option string;
  after : option string
}.

Inductive Direction : Type := ASC | DESC.
Inductive NullsOrder : Type := FIRST | LAST.

Record OrderBySpec : Type := {
  field : string;
  direction : option Direction;
  nulls : option NullsOrder
}.

Record PageInfo : Type := {
  hasNextPage : bool;
  hasPreviousPage : bool;
  startCursor : option string;
  endCursor : option string
}.

Definition Direction_text (d : Direction) : string :=
  match d with ASC => "ASC" | DESC => "DESC" end.

Definition NullsOrder_text (n : NullsOrder) : string :=
  match n with FIRST => "FIRST" | LAST => "LAST" end.

(** [a.push(x)] and [a.push(...xs)] *)
Definition push {A : Type} (a : list A) (x : A) : list A := (a ++ [x])%list.
Definition push_all {A : Type} (a xs : list A) : list A := (a ++ xs)%list.

(** One turn of the loop over [Object.entries(filter)]. *)
Definition where_entry (acc : list string * list jsval) (entry : string * jsval)
  : list string * list jsval :=
  let (field, value) := entry in
  match value with
  | JNull => (push (fst acc) (dquoted field ++ " IS NULL"), snd acc)
  | JObj ops =>
      let acc1 :=
        if obj_has ops "eq"
        then (push (fst acc) (dquoted field ++ " = ?"),
              push (snd acc) (obj_get ops "eq"))
        else acc in
      let acc2 :=
        if obj_has ops "neq"
        then (push (fst acc1) (dquoted field ++ " != ?"),
              push (snd acc1) (obj_get ops "neq"))
        else acc1 in
      let acc3 :=
        if obj_has ops "in" then
          match obj_get ops "in" with
          | JArr items =>
              let placeholders := String.concat ", " (map (fun _ => "?") items) in
              (push (fst acc2) (dquoted field ++ " IN (" ++ placeholders ++ ")"),
               push_all (snd acc2) items)
          | _ => acc2
          end
        else acc2 in
      if obj_has ops "like"
      then (push (fst acc3) (dquoted field ++ " LIKE ? COLLATE NOCASE"),
            push (snd acc3) (JStr ("%" ++ js_to_string (obj_get ops "like") ++ "%")))
      else acc3
  | JArr _ => acc
  | _ => (push (fst acc) (dquoted field ++ " = ?"), push (snd acc) value)
  end.

Definition buildWhereClause (filter : option object) (workspaceId : string)
  : string * list jsval :=
  let conditions := ["workspaceId = ?"] in
  let params := [JStr workspaceId] in
  let conditions := push conditions ("(" ++ dquoted "deletedAt" ++ " IS NULL)") in
  match filter with
  | None => (String.concat " AND " conditions, params)
  | Some f =>
      let (conditions, params) :=
        fold_left where_entry (Object_entries f) (conditions, params) in
      (String.concat " AND " conditions, params)
  end.

Definition buildOrderByClause (orderBy : option (list OrderBySpec)) : string :=
  match orderBy with
  | None | Some [] =>
      "ORDER BY " ++ dquoted "createdAt" ++ " DESC, " ++ dquoted "id" ++ " ASC"
  | Some specs =>
      let orderClauses :=
        map (fun spec =>
               let direction :=
                 match direction spec with Some d => d | None => ASC end in
               let nullsHandling :=
                 match nulls spec with
                 | Some n => " NULLS " ++ NullsOrder_text n
                 | None =>
                     match direction with
                     | ASC => " NULLS FIRST"
                     | DESC => " NULLS LAST"
                     end
                 end in
               dquoted (field spec) ++ " " ++ Direction_text direction ++ nullsHandling)
            specs in
      let orderClauses := push orderClauses (dquoted "id" ++ " ASC") in
      "ORDER BY " ++ String.concat ", " orderClauses
  end.

Definition buildPaginationClause (pagination : PaginationArgs) : string * Z :=
  let limit :=
    match first pagination with
    | Some n => n
    | None => match last pagination with Some n => n | None => 50 end
    end in
  ("LIMIT " ++ Z_to_string (limit + 1), limit).

(** [btoa(JSON.stringify({ id }))] *)
Definition encodeCursor (id : jsval) : outcome string :=
  Base64.btoa (match JSON.stringify (JObj [("id", id)]) with
               | Some text => text
               | None => "undefined"
               end).

(** The decoded value, or [null] when decoding throws. *)
Definition decodeCursor (cursor : string) : outcome jsval :=
  try_catch (let* text := Base64.atob cursor in JSON.parse text)
    (fun _ => Returned JNull).

(** [records.slice(0, end)] *)
Definition slice0 {A : Type} (l : list A) (e : Z) : list A :=
  let len := Z.of_nat (List.length l) in
  let e' := if e <? 0 then Z.max (len + e) 0 else Z.min e len in
  firstn (Z.to_nat e') l.

Definition some_nonzero (n : option Z) : bool :=
  match n with Some k => negb (k =? 0) | None => false end.

Definition some_nonempty (s : option string) : bool :=
  match s with Some t => negb (String.eqb t "") | None => false end.

Definition buildPageInfo (records : list object) (limit : Z) (args : PaginationArgs)
  : outcome (list object * PageInfo) :=
  let hasExtraRecord := Z.of_nat (List.length records) >? limit in
  let trimmedRecords := if hasExtraRecord then slice0 records limit else records in
  let trimmedRecords :=
    if some_nonzero (last args) && negb (some_nonzero (first args))
    then rev trimmedRecords else trimmedRecords in
  let* startCursor :=
    match trimmedRecords with
    | r :: _ => let* c := encodeCursor (obj_get r "id") in Returned (Some c)
    | [] => Returned None
    end in
  let* endCursor :=
    match rev trimmedRecords with
    | r :: _ => let* c := encodeCursor (obj_get r "id") in Returned (Some c)
    | [] => Returned None
    end in
  Returned
    (trimmedRecords,
     {| hasNextPage :=
          if some_nonzero (first args) then hasExtraRecord
          else some_nonempty (before args);
        hasPreviousPage :=
          if some_nonzero (last args) then hasExtraRecord
          else some_nonempty (after args);
        startCursor := startCursor;
        endCursor := endCursor |}).

(** ** Storage engine

    The statements the builder emits are text; what they mean is decided by
    the engine. This is a model of the fragment of SQLite that the emitted
    statements (and text injected into them) can reach: a lexer, a parser
    with SQLite's operator precedence (OR below AND below the comparison
    operators), three-valued logic, ORDER BY, LIMIT, and the four statement
    kinds. A table is the list of its rows and declares no columns: a row
    lists the columns that were given a value, every other name reads as
    NULL, and a value is stored as it was bound (there is no column type,
    no default, no foreign key, and [id] is the one unique column). Column
    names are matched exactly. Numbers are compared by value, text by
    bytes. *)

Module SQLite.

(** *** Lexer *)

Inductive token : Type :=
| TWord (w : string)      (* keyword or bare identifier, as written *)
| TIdent (name : string)  (* identifier between double quotes *)
| TStr (s : string)       (* string literal between single quotes *)
| TNum (n : Z)
| TParam                  (* ? *)
| TNeq                    (* != *)
| TSym (c : ascii).       (* = ( ) , * and other punctuation *)

Inductive lstate : Type :=
| LNormal
| LWord (acc : string)
| LIdent (acc : string)    (* inside a quoted identifier *)
| LIdentQ (acc : string)   (* after a double quote inside it: its end, or an escaped quote *)
| LStr (acc : string)      (* inside a string literal *)
| LStrQ (acc : string)     (* after a single quote inside it: its end, or an escaped quote *)
| LBang
| LMinus
| LComment.

Definition is_space (c : ascii) : bool :=
  let n := ascii_N c in
  (n =? 32)%N || (n =? 9)%N || (n =? 10)%N || (n =? 12)%N || (n =? 13)%N.

Definition is_word_char (c : ascii) : bool :=
  let n := ascii_N c in
  ((65 <=? n)%N && (n <=? 90)%N) || ((97 <=? n)%N && (n <=? 122)%N)
  || is_digit c || (n =? 95)%N || (128 <=? n)%N.

Definition is_sym (c : ascii) : bool :=
  let n := ascii_N c in
  (n =? 61)%N || (n =? 40)%N || (n =? 41)%N || (n =? 44)%N || (n =? 42)%N
  || (n =? 60)%N || (n =? 62)%N || (n =? 46)%N || (n =? 59)%N || (n =? 43)%N
  || (n =? 47)%N.

Definition word_token (w : string) : token :=
  if string_forallb is_digit w then TNum (Z.of_N (digits_to_N w)) else TWord w.

Definition start (c : ascii) : option (lstate * list token) :=
  let n := ascii_N c in
  if is_space c then Some (LNormal, [])
  else if is_word_char c then Some (LWord (String c ""), [])
  else if (n =? 34)%N then Some (LIdent "", [])
  else if (n =? 39)%N then Some (LStr "", [])
  else if (n =? 63)%N then Some (LNormal, [TParam])
  else if (n =? 33)%N then Some (LBang, [])
  else if (n =? 45)%N then Some (LMinus, [])
  else if is_sym c then Some (LNormal, [TSym c])
  else None.

Definition emit_then (t : token) (c : ascii) : option (lstate * list token) :=
  match start c with
  | Some (st, out) => Some (st, t :: out)
  | None => None
  end.

Definition step (st : lstate) (c : ascii) : option (lstate * list token) :=
  match st with
  | LNormal => start c
  | LWord acc =>
      if is_word_char c then Some (LWord (acc ++ String c ""), [])
      else emit_then (word_token acc) c
  | LIdent acc =>
      if (ascii_N c =? 34)%N then Some (LIdentQ acc, [])
      else Some (LIdent (acc ++ String c ""), [])
  | LIdentQ acc =>
      if (ascii_N c =? 34)%N then Some (LIdent (acc ++ String c ""), [])
      else emit_then (TIdent acc) c
  | LStr acc =>
      if (ascii_N c =? 39)%N then Some (LStrQ acc, [])
      else Some (LStr (acc ++ String c ""), [])
  | LStrQ acc =>
      if (ascii_N c =? 39)%N then Some (LStr (acc ++ String c ""), [])
      else emit_then (TStr acc) c
  | LBang => if (ascii_N c =? 61)%N then Some (LNormal, [TNeq]) else None
  | LMinus =>
      if (ascii_N c =? 45)%N then Some (LComment, [])
      else emit_then (TSym "-") c
  | LComment =>
      if (ascii_N c =? 10)%N then Some (LNormal, []) else Some (LComment, [])
  end.

Definition finish (st : lstate) : option (list token) :=
  match st with
  | LNormal | LComment => Some []
  | LWord acc => Some [word_token acc]
  | LIdentQ acc => Some [TIdent acc]
  | LStrQ acc => Some [TStr acc]
  | LMinus => Some [TSym "-"]
  | LIdent _ | LStr _ | LBang => None
  end.

(** The state reached and the tokens emitted on the way. *)
Fixpoint run (st : lstate) (s : string) : option (lstate * list token) :=
  match s with
  | EmptyString => Some (st, [])
  | String c r =>
      match step st c with
      | Some (st', out) =>
          match run st' r with
          | Some (st'', out') => Some (st'', (out ++ out')%list)
          | None => None
          end
      | None => None
      end
  end.

Definition lex (s : string) : option (list token) :=
  match run LNormal s with
  | Some (st, out) =>
      match finish st with
      | Some out' => Some (out ++ out')%list
      | None => None
      end
  | None => None
  end.

(** *** Syntax *)

#[local] Unset Elimination Schemes.

Inductive expr : Type :=
| EParam (i : nat)
| ECol (name : string)
| EStr (s : string)
| ENum (n : Z)
| ENull
| ECollate (e : expr) (collation : string)
| EEq (a b : expr)
| ENeq (a b : expr)
| EIsNull (a : expr)
| EIsNotNull (a : expr)
| EIn (a : expr) (items : list expr)
| ELike (a pattern : expr) (escape : option expr)
| EAnd (a b : expr)
| EOr (a b : expr)
| ECoalesce (args : list expr)
| ESubstr (s from len : expr)
| ECase (arms : list (expr * expr)) (default : expr).

#[local] Set Elimination Schemes.

Definition is_kw (k : string) (t : token) : bool :=
  match t with
  | TWord w => String.eqb (toUpperCase w) k
  | _ => false
  end.

Definition is_sym_tok (c : ascii) (t : token) : bool :=
  match t with
  | TSym c' => Ascii.eqb c c'
  | _ => false
  end.

Definition reserved (w : string) : bool :=
  existsb (String.eqb (toUpperCase w))
    ["SELECT"; "FROM"; "WHERE"; "AND"; "OR"; "NOT"; "IS"; "IN"; "LIKE";
     "ORDER"; "BY"; "LIMIT"; "AS"; "WHEN"; "THEN"; "ELSE"; "END"; "COLLATE";
     "ESCAPE"; "INSERT"; "INTO"; "VALUES"; "UPDATE"; "SET"; "DELETE";
     "ASC"; "DESC"; "NULLS"; "UNION"].

(** What a parser returns: the tree, the tokens left, the number of [?]
    read so far. *)
Definition presult (A : Type) : Type := option (A * list token * nat).

Definition parser (A : Type) : Type := list token -> nat -> presult A.

(** [item (sep item)*], folded to the left; [k] bounds the number of
    separators. *)
Fixpoint chain (sep : token -> bool) (item : parser expr)
    (mk : expr -> expr -> expr) (k : nat) (lhs : expr) : parser expr :=
  fun ts n =>
    match ts with
    | t :: ts1 =>
        if sep t then
          match k with
          | O => None
          | S k' =>
              match item ts1 n with
              | Some (b, ts2, n2) => chain sep item mk k' (mk lhs b) ts2 n2
              | None => None
              end
          end
        else Some (lhs, ts, n)
    | [] => Some (lhs, ts, n)
    end.

(** [item (, item)*] *)
Fixpoint comma_list {A : Type} (item : parser A) (k : nat) : parser (list A) :=
  fun ts n =>
    match k with
    | O => None
    | S k' =>
        match item ts n with
        | Some (a, TSym "," :: ts1, n1) =>
            match comma_list item k' ts1 n1 with
            | Some (l, ts2, n2) => Some (a :: l, ts2, n2)
            | None => None
            end
        | Some (a, ts1, n1) => Some ([a], ts1, n1)
        | None => None
        end
    end.

(** [(WHEN cond THEN value)*] *)
Fixpoint case_arms (sub : parser expr) (k : nat) : parser (list (expr * expr)) :=
  fun ts n =>
    match ts with
    | t :: ts1 =>
        if is_kw "WHEN" t then
          match k with
          | O => None
          | S k' =>
              match sub ts1 n with
              | Some (c, t2 :: ts2, n2) =>
                  if is_kw "THEN" t2 then
                    match sub ts2 n2 with
                    | Some (v, ts3, n3) =>
                        match case_arms sub k' ts3 n3 with
                        | Some (arms, ts4, n4) => Some ((c, v) :: arms, ts4, n4)
                        | None => None
                        end
                    | None => None
                    end
                  else None
              | _ => None
              end
          end
        else Some ([], ts, n)
    | [] => Some ([], ts, n)
    end.

(** [operand (COLLATE name)*] *)
Fixpoint collations (k : nat) (e : expr) (ts : list token) : expr * list token :=
  match k with
  | O => (e, ts)
  | S k' =>
      match ts with
      | t :: TWord c :: ts1 =>
          if is_kw "COLLATE" t then collations k' (ECollate e c) ts1 else (e, ts)
      | _ => (e, ts)
      end
  end.

Section Layer.

(** The parser for a nested expression (in parentheses, as an
    argument, inside CASE). *)
Variable sub : parser expr.

Definition parse_atom : parser expr :=
  fun ts n =>
    match ts with
    | TParam :: ts1 => Some (EParam n, ts1, S n)
    | TIdent c :: ts1 => Some (ECol c, ts1, n)
    | TStr s :: ts1 => Some (EStr s, ts1, n)
    | TNum z :: ts1 => Some (ENum z, ts1, n)
    | TSym "-" :: TNum z :: ts1 => Some (ENum (- z), ts1, n)
    | TSym "(" :: ts1 =>
        match sub ts1 n with
        | Some (e, TSym ")" :: ts2, n2) => Some (e, ts2, n2)
        | _ => None
        end
    | TWord w :: ts1 =>
        let u := toUpperCase w in
        if String.eqb u "NULL" then Some (ENull, ts1, n)
        else if String.eqb u "CASE" then
          match case_arms sub (List.length ts1) ts1 n with
          | Some (arms, t2 :: ts2, n2) =>
              if is_kw "ELSE" t2 then
                match sub ts2 n2 with
                | Some (d, t3 :: ts3, n3) =>
                    if is_kw "END" t3 then Some (ECase arms d, ts3, n3) else None
                | _ => None
                end
              else if is_kw "END" t2 then Some (ECase arms ENull, ts2, n2)
              else None
          | _ => None
          end
        else if String.eqb u "COALESCE" then
          match ts1 with
          | TSym "(" :: ts2 =>
              match comma_list sub (List.length ts2) ts2 n with
              | Some (args, TSym ")" :: ts3, n3) => Some (ECoalesce args, ts3, n3)
              | _ => None
              end
          | _ => None
          end
        else if String.eqb u "SUBSTR" then
          match ts1 with
          | TSym "(" :: ts2 =>
              match comma_list sub (List.length ts2) ts2 n with
              | Some ([s; f; l], TSym ")" :: ts3, n3) =>
                  Some (ESubstr s f l, ts3, n3)
              | _ => None
              end
          | _ => None
          end
        else if reserved w then None
        else Some (ECol w, ts1, n)
    | _ => None
    end.

Definition parse_operand : parser expr :=
  fun ts n =>
    match parse_atom ts n with
    | Some (e, ts1, n1) =>
        let (e', ts2) := collations (List.length ts1) e ts1 in
        Some (e', ts2, n1)
    | None => None
    end.

Definition parse_cmp : parser expr :=
  fun ts n =>
    match parse_operand ts n with
    | Some (a, ts1, n1) =>
        match ts1 with
        | TSym "=" :: ts2 =>
            match parse_operand ts2 n1 with
            | Some (b, ts3, n3) => Some (EEq a b, ts3, n3)
            | None => None
            end
        | TNeq :: ts2 =>
            match parse_operand ts2 n1 with
            | Some (b, ts3, n3) => Some (ENeq a b, ts3, n3)
            | None => None
            end
        | TWord w :: ts2 =>
            let u := toUpperCase w in
            if String.eqb u "IS" then
              match ts2 with
              | TWord w1 :: TWord w2 :: ts3 =>
                  if String.eqb (toUpperCase w1) "NULL"
                  then Some (EIsNull a, TWord w2 :: ts3, n1)
                  else if String.eqb (toUpperCase w1) "NOT"
                            && String.eqb (toUpperCase w2) "NULL"
                  then Some (EIsNotNull a, ts3, n1)
                  else None
              | TWord w1 :: ts3 =>
                  if String.eqb (toUpperCase w1) "NULL"
                  then Some (EIsNull a, ts3, n1) else None
              | _ => None
              end
            else if String.eqb u "IN" then
              match ts2 with
              | TSym "(" :: TSym ")" :: ts4 => Some (EIn a [], ts4, n1)
              | TSym "(" :: ts3 =>
                  match comma_list sub (List.length ts3) ts3 n1 with
                  | Some (items, TSym ")" :: ts4, n4) => Some (EIn a items, ts4, n4)
                  | _ => None
                  end
              | _ => None
              end
            else if String.eqb u "LIKE" then
              match parse_operand ts2 n1 with
              | Some (p, t3 :: ts3, n3) =>
                  if is_kw "ESCAPE" t3 then
                    match parse_operand ts3 n3 with
                    | Some (e, ts4, n4) => Some (ELike a p (Some e), ts4, n4)
                    | None => None
                    end
                  else Some (ELike a p None, t3 :: ts3, n3)
              | Some (p, [], n3) => Some (ELike a p None, [], n3)
              | None => None
              end
            else Some (a, ts1, n1)
        | _ => Some (a, ts1, n1)
        end
    | None => None
    end.

Definition parse_and : parser expr :=
  fun ts n =>
    match parse_cmp ts n with
    | Some (a, ts1, n1) => chain (is_kw "AND") parse_cmp EAnd (List.length ts1) a ts1 n1
    | None => None
    end.

Definition parse_or : parser expr :=
  fun ts n =>
    match parse_and ts n with
    | Some (a, ts1, n1) => chain (is_kw "OR") parse_and EOr (List.length ts1) a ts1 n1
    | None => None
    end.

End Layer.

Fixpoint parse_expr_depth (depth : nat) : parser expr :=
  match depth with
  | O => fun _ _ => None
  | S d => parse_or (parse_expr_depth d)
  end.

(** Nesting cannot be deeper than the text is long. *)
Definition parse_expr : parser expr :=
  fun ts n => parse_expr_depth (S (S (List.length ts))) ts n.

(** *** Statements *)

Inductive columns : Type :=
| SelStar
| SelCount (alias : string)
| SelItems (items : list (expr * string)).

Record order_term : Type := {
  ord_expr : expr;
  ord_desc : bool;
  ord_nulls_first : bool
}.

Inductive stmt : Type :=
| Select (cols : columns) (table : string) (cond : option expr)
    (order : list order_term) (limit : option expr)
| Insert (table : string) (cols : list string) (values : list expr)
| Update (table : string) (sets : list (string * expr)) (cond : option expr)
| Delete (table : string) (cond : option expr).

Definition parse_name (ts : list token) : option (string * list token) :=
  match ts with
  | TIdent c :: ts1 => Some (c, ts1)
  | TWord w :: ts1 => if reserved w then None else Some (w, ts1)
  | _ => None
  end.

(** [expr (AS? alias)?]; an item without alias is named by its column. *)
Definition parse_item : parser (expr * string) :=
  fun ts n =>
    match parse_expr ts n with
    | Some (e, ts1, n1) =>
        let default := match e with ECol c => c | _ => "?column?" end in
        match ts1 with
        | t :: ts2 =>
            if is_kw "AS" t then
              match parse_name ts2 with
              | Some (a, ts3) => Some ((e, a), ts3, n1)
              | None => None
              end
            else Some ((e, default), ts1, n1)
        | [] => Some ((e, default), ts1, n1)
        end
    | None => None
    end.

Definition parse_columns : parser columns :=
  fun ts n =>
    match ts with
    | TSym "*" :: ts1 => Some (SelStar, ts1, n)
    | TWord w :: TSym "(" :: TSym "*" :: TSym ")" :: ts1 =>
        if String.eqb (toUpperCase w) "COUNT" then
          match ts1 with
          | t :: ts2 =>
              if is_kw "AS" t then
                match parse_name ts2 with
                | Some (a, ts3) => Some (SelCount a, ts3, n)
                | None => None
                end
              else Some (SelCount "COUNT(*)", ts1, n)
          | [] => None
          end
        else None
    | _ =>
        match comma_list parse_item (List.length ts) ts n with
        | Some (items, ts1, n1) => Some (SelItems items, ts1, n1)
        | None => None
        end
    end.

Definition parse_order_term : parser order_term :=
  fun ts n =>
    match parse_expr ts n with
    | Some (e, ts1, n1) =>
        let (desc, ts2) :=
          match ts1 with
          | t :: r =>
              if is_kw "DESC" t then (true, r)
              else if is_kw "ASC" t then (false, r)
              else (false, ts1)
          | [] => (false, ts1)
          end in
        match ts2 with
        | t :: TWord w :: r =>
            if is_kw "NULLS" t then
              if String.eqb (toUpperCase w) "FIRST"
              then Some ({| ord_expr := e; ord_desc := desc; ord_nulls_first := true |}, r, n1)
              else if String.eqb (toUpperCase w) "LAST"
              then Some ({| ord_expr := e; ord_desc := desc; ord_nulls_first := false |}, r, n1)
              else None
            else Some ({| ord_expr := e; ord_desc := desc;
                          ord_nulls_first := negb desc |}, ts2, n1)
        | _ => Some ({| ord_expr := e; ord_desc := desc;
                        ord_nulls_first := negb desc |}, ts2, n1)
        end
    | None => None
    end.

Definition parse_where : parser (option expr) :=
  fun ts n =>
    match ts with
    | t :: ts1 =>
        if is_kw "WHERE" t then
          match parse_expr ts1 n with
          | Some (e, ts2, n2) => Some (Some e, ts2, n2)
          | None => None
          end
        else Some (None, ts, n)
    | [] => Some (None, ts, n)
    end.

Definition parse_order : parser (list order_term) :=
  fun ts n =>
    match ts with
    | t :: t' :: ts1 =>
        if is_kw "ORDER" t then
          if is_kw "BY" t' then comma_list parse_order_term (List.length ts1) ts1 n
          else None
        else Some ([], ts, n)
    | _ => Some ([], ts, n)
    end.

Definition parse_limit : parser (option expr) :=
  fun ts n =>
    match ts with
    | t :: ts1 =>
        if is_kw "LIMIT" t then
          match parse_expr ts1 n with
          | Some (e, ts2, n2) => Some (Some e, ts2, n2)
          | None => None
          end
        else Some (None, ts, n)
    | [] => Some (None, ts, n)
    end.

Definition parse_set : parser (string * expr) :=
  fun ts n =>
    match parse_name ts with
    | Some (c, TSym "=" :: ts1) =>
        match parse_expr ts1 n with
        | Some (e, ts2, n2) => Some ((c, e), ts2, n2)
        | None => None
        end
    | _ => None
    end.

Definition parse_column_name : parser string :=
  fun ts n =>
    match parse_name ts with
    | Some (c, ts1) => Some (c, ts1, n)
    | None => None
    end.

Definition parse_stmt : parser stmt :=
  fun ts n =>
    match ts with
    | TWord w :: ts1 =>
        let u := toUpperCase w in
        if String.eqb u "SELECT" then
          match parse_columns ts1 n with
          | Some (cols, t2 :: ts2, n2) =>
              if is_kw "FROM" t2 then
                match parse_name ts2 with
                | Some (table, ts3) =>
                    match parse_where ts3 n2 with
                    | Some (cond, ts4, n4) =>
                        match parse_order ts4 n4 with
                        | Some (order, ts5, n5) =>
                            match parse_limit ts5 n5 with
                            | Some (limit, ts6, n6) =>
                                Some (Select cols table cond order limit, ts6, n6)
                            | None => None
                            end
                        | None => None
                        end
                    | None => None
                    end
                | None => None
                end
              else None
          | _ => None
          end
        else if String.eqb u "INSERT" then
          match ts1 with
          | t2 :: ts2 =>
              if is_kw "INTO" t2 then
                match parse_name ts2 with
                | Some (table, TSym "(" :: ts3) =>
                    match comma_list parse_column_name (List.length ts3) ts3 n with
                    | Some (cols, TSym ")" :: t4 :: TSym "(" :: ts4, n4) =>
                        if is_kw "VALUES" t4 then
                          match comma_list parse_expr (List.length ts4) ts4 n4 with
                          | Some (vals, TSym ")" :: ts5, n5) =>
                              Some (Insert table cols vals, ts5, n5)
                          | _ => None
                          end
                        else None
                    | _ => None
                    end
                | _ => None
                end
              else None
          | [] => None
          end
        else if String.eqb u "UPDATE" then
          match parse_name ts1 with
          | Some (table, t2 :: ts2) =>
              if is_kw "SET" t2 then
                match comma_list parse_set (List.length ts2) ts2 n with
                | Some (sets, ts3, n3) =>
                    match parse_where ts3 n3 with
                    | Some (cond, ts4, n4) => Some (Update table sets cond, ts4, n4)
                    | None => None
                    end
                | None => None
                end
              else None
          | _ => None
          end
        else if String.eqb u "DELETE" then
          match ts1 with
          | t2 :: ts2 =>
              if is_kw "FROM" t2 then
                match parse_name ts2 with
                | Some (table, ts3) =>
                    match parse_where ts3 n with
                    | Some (cond, ts4, n4) => Some (Delete table cond, ts4, n4)
                    | None => None
                    end
                | None => None
                end
              else None
          | [] => None
          end
        else None
    | _ => None
    end.

(** The statement and the number of its [?] placeholders. *)
Definition prepare (sql : string) : option (stmt * nat) :=
  match lex sql with
  | Some ts =>
      match parse_stmt ts O with
      | Some (st, [], n) => Some (st, n)
      | Some (st, [TSym ";"], n) => Some (st, n)
      | _ => None
      end
  | None => None
  end.

(** *** Values and rows

    A number is held as in [jsval]: [SInt n] is an integer and
    [SReal literal] any other number, by its text. *)

Inductive sqlval : Type :=
| SNull
| SInt (n : Z)
| SReal (literal : string)
| SText (s : string).

Definition row : Type := list (string * sqlval).

Fixpoint row_get (r : row) (c : string) : sqlval :=
  match r with
  | [] => SNull
  | (c', v) :: r' => if String.eqb c' c then v else row_get r' c
  end.

Fixpoint row_set (r : row) (c : string) (v : sqlval) : row :=
  match r with
  | [] => [(c, v)]
  | (c', v') :: r' =>
      if String.eqb c' c then (c', v) :: r' else (c', v') :: row_set r' c v
  end.

Definition sql_eqb (a b : sqlval) : bool :=
  match a, b with
  | SInt x, SInt y => x =? y
  | SReal x, SReal y => String.eqb x y
  | SText x, SText y => String.eqb x y
  | _, _ => false
  end.

Definition is_null (v : sqlval) : bool :=
  match v with SNull => true | _ => false end.

Definition of_bool (b : bool) : sqlval := SInt (if b then 1 else 0).

(** Three-valued truth: [None] is unknown. *)
Definition truth (v : sqlval) : option bool :=
  match v with
  | SNull => None
  | SInt n => Some (negb (n =? 0))
  | SReal _ => Some true
  | SText _ => Some false
  end.

Definition of_truth (t : option bool) : sqlval :=
  match t with
  | Some b => of_bool b
  | None => SNull
  end.

Definition and3 (a b : option bool) : option bool :=
  match a, b with
  | Some false, _ | _, Some false => Some false
  | Some true, Some true => Some true
  | _, _ => None
  end.

Definition or3 (a b : option bool) : option bool :=
  match a, b with
  | Some true, _ | _, Some true => Some true
  | Some false, Some false => Some false
  | _, _ => None
  end.

Definition text_of (v : sqlval) : string :=
  match v with
  | SNull => ""
  | SInt n => Z_to_string n
  | SReal lit => lit
  | SText s => s
  end.

(** A byte that continues a character of UTF-8 text. *)
Definition is_continuation (c : ascii) : bool :=
  (128 <=? ascii_N c)%N && (ascii_N c <? 192)%N.

Fixpoint skip_continuation (t : string) : string :=
  match t with
  | String c r => if is_continuation c then skip_continuation r else t
  | EmptyString => EmptyString
  end.

(** LIKE: [%] matches any run of characters, [_] any one character (the
    byte that starts it and the continuation bytes after it), letters
    match without regard to ASCII case; [esc], when given, makes the
    character after it literal. Without an ESCAPE clause no character
    escapes. *)
Fixpoint like_match (esc : option ascii) (p : string) : string -> bool :=
  match p with
  | EmptyString => fun t => match t with EmptyString => true | _ => false end
  | String c p' =>
      if match esc with Some e => Ascii.eqb e c | None => false end then
        match p' with
        | String c2 p'' =>
            fun t =>
              match t with
              | String d t' =>
                  Ascii.eqb (lower_char c2) (lower_char d) && like_match esc p'' t'
              | EmptyString => false
              end
        | EmptyString => fun _ => false
        end
      else if (ascii_N c =? 37)%N then
        fix star (t : string) : bool :=
          like_match esc p' t
          || match t with
             | String _ t' => star t'
             | EmptyString => false
             end
      else if (ascii_N c =? 95)%N then
        fun t =>
          match t with
          | String d t' =>
              negb (is_continuation d) && like_match esc p' (skip_continuation t')
          | EmptyString => false
          end
      else
        fun t =>
          match t with
          | String d t' =>
              Ascii.eqb (lower_char c) (lower_char d) && like_match esc p' t'
          | EmptyString => false
          end
  end.

Definition collation_of (e : expr) : option string :=
  match e with
  | ECollate _ c => Some (toUpperCase c)
  | _ => None
  end.

Definition nocase (a b : expr) : bool :=
  match collation_of a, collation_of b with
  | Some c, _ => String.eqb c "NOCASE"
  | None, Some c => String.eqb c "NOCASE"
  | None, None => false
  end.

Definition fold_case (nc : bool) (v : sqlval) : sqlval :=
  match v with
  | SText s => if nc then SText (toLowerCase s) else v
  | _ => v
  end.

Definition eq3 (nc : bool) (a b : sqlval) : option bool :=
  if is_null a || is_null b then None
  else Some (sql_eqb (fold_case nc a) (fold_case nc b)).

Definition substr (s : string) (from len : Z) : string :=
  String.substring (Z.to_nat (from - 1)) (Z.to_nat len) s.

Section Eval.

Variable params : list sqlval.
Variable r : row.

Fixpoint eval (e : expr) : sqlval :=
  match e with
  | EParam i => nth i params SNull
  | ECol c => row_get r c
  | EStr s => SText s
  | ENum n => SInt n
  | ENull => SNull
  | ECollate a _ => eval a
  | EEq a b => of_truth (eq3 (nocase a b) (eval a) (eval b))
  | ENeq a b => of_truth (option_map negb (eq3 (nocase a b) (eval a) (eval b)))
  | EIsNull a => of_bool (is_null (eval a))
  | EIsNotNull a => of_bool (negb (is_null (eval a)))
  | EIn a items =>
      let v := eval a in
      of_truth
        (fold_left (fun acc x => or3 acc (eq3 false v (eval x))) items
           (Some false))
  | ELike a p esc =>
      let v := eval a in
      let pv := eval p in
      if is_null v || is_null pv then SNull
      else
        let e :=
          match esc with
          | Some x =>
              match eval x with
              | SText (String c EmptyString) => Some c
              | _ => None
              end
          | None => None
          end in
        of_bool (like_match e (text_of pv) (text_of v))
  | EAnd a b => of_truth (and3 (truth (eval a)) (truth (eval b)))
  | EOr a b => of_truth (or3 (truth (eval a)) (truth (eval b)))
  | ECoalesce args =>
      fold_right (fun x rest => let v := eval x in if is_null v then rest else v)
        SNull args
  | ESubstr s f l =>
      match eval s, eval f, eval l with
      | SNull, _, _ => SNull
      | v, SInt i, SInt n => SText (substr (text_of v) i n)
      | _, _, _ => SNull
      end
  | ECase arms d =>
      fold_right
        (fun arm rest =>
           match truth (eval (fst arm)) with
           | Some true => eval (snd arm)
           | _ => rest
           end)
        (eval d) arms
  end.

(** A row is kept when the condition is true (not false, not unknown). *)
Definition holds (cond : option expr) : bool :=
  match cond with
  | Some e =>
      match truth (eval e) with
      | Some true => true
      | _ => false
      end
  | None => true
  end.

End Eval.

(** *** Ordering: NULL, then numbers by value, then text by bytes. *)

Definition rank (v : sqlval) : Z :=
  match v with SNull => 0 | SInt _ | SReal _ => 1 | SText _ => 2 end.

Definition number_of (v : sqlval) : option (Z * Z) :=
  match v with
  | SInt n => Some (n, 0)
  | SReal lit => Some (Number.value lit)
  | _ => None
  end.

Definition compare_values (a b : sqlval) : comparison :=
  match number_of a, number_of b with
  | Some x, Some y => Number.compare x y
  | _, _ =>
      match a, b with
      | SText x, SText y => String.compare x y
      | _, _ => Z.compare (rank a) (rank b)
      end
  end.

Definition compare_term (params : list sqlval) (t : order_term) (r1 r2 : row)
  : comparison :=
  let a := eval params r1 (ord_expr t) in
  let b := eval params r2 (ord_expr t) in
  match is_null a, is_null b with
  | true, true => Eq
  | true, false => if ord_nulls_first t then Lt else Gt
  | false, true => if ord_nulls_first t then Gt else Lt
  | false, false =>
      if ord_desc t then CompOpp (compare_values a b) else compare_values a b
  end.

Fixpoint compare_rows (params : list sqlval) (ts : list order_term) (r1 r2 : row)
  : comparison :=
  match ts with
  | [] => Eq
  | t :: ts' =>
      match compare_term params t r1 r2 with
      | Eq => compare_rows params ts' r1 r2
      | c => c
      end
  end.

Fixpoint insert_sorted (le : row -> row -> bool) (x : row) (l : list row) : list row :=
  match l with
  | [] => [x]
  | y :: l' => if le x y then x :: l else y :: insert_sorted le x l'
  end.

(** A stable sort. *)
Definition sort_rows (params : list sqlval) (ts : list order_term) (l : list row)
  : list row :=
  fold_right
    (insert_sorted
       (fun a b => match compare_rows params ts a b with Gt => false | _ => true end))
    [] l.

(** *** Execution *)

Definition table : Type := list row.
Definition store : Type := list (string * table).

Fixpoint get_table (s : store) (name : string) : option table :=
  match s with
  | [] => None
  | (n, t) :: s' => if String.eqb n name then Some t else get_table s' name
  end.

Fixpoint set_table (s : store) (name : string) (t : table) : store :=
  match s with
  | [] => [(name, t)]
  | (n, t') :: s' =>
      if String.eqb n name then (n, t) :: s' else (n, t') :: set_table s' name t
  end.

Record result : Type := {
  rows : list row;
  changes : Z
}.

Definition no_such_table : jsError := D1_ERROR "no such table".
Definition datatype_mismatch : jsError := D1_ERROR "datatype mismatch".
Definition unique_failed : jsError := D1_ERROR "UNIQUE constraint failed".
Definition column_count : jsError := D1_ERROR "values for columns".

(** LIMIT: a negative limit is no limit. *)
Definition apply_limit (params : list sqlval) (limit : option expr) (l : list row)
  : outcome (list row) :=
  match limit with
  | None => Returned l
  | Some e =>
      match eval params [] e with
      | SInt n => Returned (if n <? 0 then l else firstn (Z.to_nat n) l)
      | _ => Thrown datatype_mismatch
      end
  end.

Definition project (params : list sqlval) (cols : columns) (l : list row) : list row :=
  match cols with
  | SelStar => l
  | SelCount alias => [[(alias, SInt (Z.of_nat (List.length l)))]]
  | SelItems items =>
      map (fun r => map (fun it : expr * string => (snd it, eval params r (fst it))) items) l
  end.

(** The rows of [t] that a SELECT reads, before projection. *)
Definition selected (params : list sqlval) (cond : option expr)
    (order : list order_term) (limit : option expr) (t : table)
  : outcome (list row) :=
  apply_limit params limit
    (sort_rows params order (filter (fun r => holds params r cond) t)).

(** The primary key: no two rows of a table share a non-NULL [id]. *)
Definition id_taken (t : table) (r : row) : bool :=
  match row_get r "id" with
  | SNull => false
  | v => existsb (fun r' => sql_eqb (row_get r' "id") v) t
  end.

Definition exec (st : stmt) (params : list sqlval) (s : store)
  : outcome (result * store) :=
  match st with
  | Select cols name cond order limit =>
      match get_table s name with
      | Some t =>
          let* l := selected params cond order limit t in
          Returned ({| rows := project params cols l; changes := 0 |}, s)
      | None => Thrown no_such_table
      end
  | Insert name cols vals =>
      match get_table s name with
      | Some t =>
          if negb (List.length cols =? List.length vals)%nat then Thrown column_count
          else
            let r :=
              fold_left (fun acc cv => row_set acc (fst cv) (eval params [] (snd cv)))
                (combine cols vals) [] in
            if id_taken t r then Thrown unique_failed
            else Returned ({| rows := []; changes := 1 |},
                           set_table s name (t ++ [r])%list)
      | None => Thrown no_such_table
      end
  | Update name sets cond =>
      match get_table s name with
      | Some t =>
          let hit := fun r => holds params r cond in
          let t' :=
            map (fun r =>
                   if hit r then
                     fold_left (fun acc cv => row_set acc (fst cv) (eval params r (snd cv)))
                       sets r
                   else r) t in
          Returned ({| rows := []; changes := Z.of_nat (List.length (filter hit t)) |},
                    set_table s name t')
      | None => Thrown no_such_table
      end
  | Delete name cond =>
      match get_table s name with
      | Some t =>
          let hit := fun r => holds params r cond in
          Returned ({| rows := []; changes := Z.of_nat (List.length (filter hit t)) |},
                    set_table s name (filter (fun r => negb (hit r)) t))
      | None => Thrown no_such_table
      end
  end.

End SQLite.

(** ** The D1 binding

    [db.prepare(sql).bind(...params)] followed by [all], [first] or [run].
    [reject_surplus] says whether the engine refuses a statement bound with
    more values than it has placeholders (D1 does); binding fewer is always
    refused. *)

Record D1Database : Type := {
  data : SQLite.store;
  reject_surplus : bool
}.

Module D1.

Import SQLite.

Definition syntax_error : jsError := D1_ERROR "syntax error".
Definition type_error : jsError := D1_ERROR "D1_TYPE_ERROR".
Definition wrong_bindings : jsError :=
  D1_ERROR "Wrong number of parameter bindings for SQL query.".

Definition to_sql (v : jsval) : outcome sqlval :=
  match v with
  | JNull => Returned SNull
  | JBool b => Returned (of_bool b)
  | JNum n => Returned (SInt n)
  | JFloat lit => Returned (SReal lit)
  | JStr s => Returned (SText s)
  | JUndefined | JArr _ | JObj _ => Thrown type_error
  end.

Fixpoint to_sql_all (vs : list jsval) : outcome (list sqlval) :=
  match vs with
  | [] => Returned []
  | v :: r =>
      let* x := to_sql v in
      let* xs := to_sql_all r in
      Returned (x :: xs)
  end.

Definition of_sql (v : sqlval) : jsval :=
  match v with
  | SNull => JNull
  | SInt n => JNum n
  | SReal lit => JFloat lit
  | SText s => JStr s
  end.

Definition of_row (r : row) : object := map (fun cv => (fst cv, of_sql (snd cv))) r.

(** A bound statement. *)
Record statement : Type := {
  sql : string;
  bound : list jsval
}.

Definition execute (db : D1Database) (q : statement)
  : outcome (result * D1Database) :=
  let* vals := to_sql_all (bound q) in
  match prepare (sql q) with
  | Some (st, n) =>
      if (List.length vals <? n)%nat then Thrown wrong_bindings
      else if reject_surplus db && (n <? List.length vals)%nat then Thrown wrong_bindings
      else
        let* (res, s') := exec st vals (data db) in
        Returned (res, {| data := s'; reject_surplus := reject_surplus db |})
  | None => Thrown syntax_error
  end.

(** [.all()]: the result rows. *)
Definition all (db : D1Database) (q : statement) : outcome (list object) :=
  let* (res, _) := execute db q in
  Returned (map of_row (rows res)).

(** [.first()]: the first result row or [null]. *)
Definition first (db : D1Database) (q : statement) : outcome (option object) :=
  let* (res, _) := execute db q in
  Returned (match rows res with
            | r :: _ => Some (of_row r)
            | [] => None
            end).

(** [.run()]: [meta.changes] and the database after the write. *)
Definition run (db : D1Database) (q : statement) : outcome (Z * D1Database) :=
  let* (res, db') := execute db q in
  Returned (changes res, db').

Definition no_statements : jsError := D1_ERROR "No SQL statements detected.".

Fixpoint run_all (db : D1Database) (qs : list statement) : outcome D1Database :=
  match qs with
  | [] => Returned db
  | q :: r =>
      let* (_, db') := run db q in
      run_all db' r
  end.

(** [db.batch(statements)]: all of them or none; an empty list is
    refused. *)
Definition batch (db : D1Database) (qs : list statement) : outcome D1Database :=
  match qs with
  | [] => Thrown no_statements
  | _ => run_all db qs
  end.

End D1.

(** ** Query execution *)

(** What the platform supplies to a write: the successive results of
    [crypto.randomUUID()] and the time read by [new Date()]. *)
Record Env : Type := {
  randomUUID : nat -> string;
  clock : Z
}.

Record SelectOptions : Type := {
  opt_filter : option object;
  opt_orderBy : option (list OrderBySpec);
  opt_pagination : option PaginationArgs;
  opt_columns : option (list string)
}.

Record SelectResult : Type := {
  records : list object;
  pageInfo : PageInfo;
  totalCount : jsval
}.

Definition no_pagination : PaginationArgs :=
  {| first := None; last := None; before := None; after := None |}.

(** The statement text of [executeSelect]. *)
Definition select_query (columnList tableName whereClause orderByClause
                           paginationClause : string) : string :=
  nl ++ "    SELECT " ++ columnList ++ nl ++
  "    FROM " ++ dquoted tableName ++ nl ++
  "    WHERE " ++ whereClause ++ nl ++
  "    " ++ orderByClause ++ nl ++
  "    " ++ paginationClause ++ nl ++ "  ".

Definition count_query (tableName whereClause : string) : string :=
  nl ++ "    SELECT COUNT(*) as count" ++ nl ++
  "    FROM " ++ dquoted tableName ++ nl ++
  "    WHERE " ++ whereClause ++ nl ++ "  ".

(** The parameters [executeSelect] binds: those of the WHERE clause and,
    for a cursor that decodes, the parameter of a cursor condition whose
    text is never added to the statement. *)
Definition select_params (params : list jsval) (workspaceId : string)
    (pagination : PaginationArgs) : outcome (list jsval) :=
  match after pagination with
  | Some cursor =>
      if negb (String.eqb cursor "") then
        let* decoded := decodeCursor cursor in
        if truthy decoded then
          let cursorFilter := [("id", JObj [("neq", js_prop decoded "id")])] in
          let (cursorWhere, cursorParams) :=
            buildWhereClause (Some cursorFilter) workspaceId in
          Returned (push_all params (skipn 1 cursorParams))
        else Returned params
      else Returned params
  | None => Returned params
  end.

Definition executeSelect (db : D1Database) (tableName workspaceId : string)
    (options : SelectOptions) : outcome SelectResult :=
  let filter := opt_filter options in
  let orderBy := opt_orderBy options in
  let pagination :=
    match opt_pagination options with Some p => p | None => no_pagination end in
  let columns :=
    match opt_columns options with Some c => c | None => ["*"] end in
  let (whereClause, params) := buildWhereClause filter workspaceId in
  let orderByClause := buildOrderByClause orderBy in
  let (paginationClause, limit) := buildPaginationClause pagination in
  let* params := select_params params workspaceId pagination in
  let columnList := String.concat ", " columns in
  let query :=
    select_query columnList tableName whereClause orderByClause paginationClause in
  let* result := D1.all db {| D1.sql := query; D1.bound := params |} in
  let countQuery := count_query tableName whereClause in
  let* countResult :=
    D1.first db {| D1.sql := countQuery; D1.bound := params |} in
  let* (paginatedRecords, pageInfo) := buildPageInfo result limit pagination in
  Returned
    {| records := paginatedRecords;
       pageInfo := pageInfo;
       totalCount :=
         match countResult with
         | Some o =>
             match obj_get o "count" with
             | JUndefined | JNull => JNum 0
             | n => n
             end
         | None => JNum 0
         end |}.

Definition select_one_query (tableName whereClause : string) : string :=
  nl ++ "    SELECT *" ++ nl ++
  "    FROM " ++ dquoted tableName ++ nl ++
  "    WHERE " ++ whereClause ++ nl ++
  "    LIMIT 1" ++ nl ++ "  ".

Definition executeSelectOne (db : D1Database) (tableName workspaceId : string)
    (filter : object) : outcome (option object) :=
  let (whereClause, params) := buildWhereClause (Some filter) workspaceId in
  let query := select_one_query tableName whereClause in
  D1.first db {| D1.sql := query; D1.bound := params |}.

(** [{ id, ...data, workspaceId, createdAt: now, updatedAt: now }] *)
Definition insert_record (id : string) (data : object) (workspaceId now : string)
  : object :=
  obj_set
    (obj_set
       (obj_set (obj_spread [("id", JStr id)] data) "workspaceId" (JStr workspaceId))
       "createdAt" (JStr now))
    "updatedAt" (JStr now).

Definition insert_statement (tableName : string) (record : object) : D1.statement :=
  let columns := Object_keys record in
  let placeholders := String.concat ", " (map (fun _ => "?") columns) in
  let values := Object_values record in
  {| D1.sql :=
       nl ++ "    INSERT INTO " ++ dquoted tableName ++ " (" ++
       String.concat ", " (map dquoted columns) ++ ")" ++ nl ++
       "    VALUES (" ++ placeholders ++ ")" ++ nl ++ "  ";
     D1.bound := values |}.

Definition executeInsert (env : Env) (db : D1Database) (tableName workspaceId : string)
    (data : object) : outcome (object * D1Database) :=
  let id := randomUUID env 0 in
  let now := Date.iso_string (clock env) in
  let record := insert_record id data workspaceId now in
  let* (_, db') := D1.run db (insert_statement tableName record) in
  Returned (record, db').

Fixpoint insert_records (env : Env) (k : nat) (workspaceId now : string)
    (dataArray : list object) : list object :=
  match dataArray with
  | [] => []
  | data :: r =>
      insert_record (randomUUID env k) data workspaceId now
        :: insert_records env (S k) workspaceId now r
  end.

Definition executeInsertMany (env : Env) (db : D1Database)
    (tableName workspaceId : string) (dataArray : list object)
  : outcome (list object * D1Database) :=
  let now := Date.iso_string (clock env) in
  let records := insert_records env 0 workspaceId now dataArray in
  let statements := map (insert_statement tableName) records in
  let* db' := D1.batch db statements in
  Returned (records, db').

Definition update_statement (tableName workspaceId id : string) (updates : object)
  : D1.statement :=
  let setClauses :=
    String.concat ", " (map (fun key => dquoted key ++ " = ?") (Object_keys updates)) in
  let values := (Object_values updates ++ [JStr workspaceId; JStr id])%list in
  {| D1.sql :=
       nl ++ "    UPDATE " ++ dquoted tableName ++ nl ++
       "    SET " ++ setClauses ++ nl ++
       "    WHERE workspaceId = ? AND id = ?" ++ nl ++ "  ";
     D1.bound := values |}.

Definition executeUpdate (env : Env) (db : D1Database)
    (tableName workspaceId id : string) (data : object)
  : outcome (option object * D1Database) :=
  let now := Date.iso_string (clock env) in
  let updates := obj_set (obj_spread [] data) "updatedAt" (JStr now) in
  let* (_, db') := D1.run db (update_statement tableName workspaceId id updates) in
  let* record := executeSelectOne db' tableName workspaceId [("id", JStr id)] in
  Returned (record, db').

Definition soft_delete_query (tableName : string) : string :=
  nl ++ "    UPDATE " ++ dquoted tableName ++ nl ++
  "    SET " ++ dquoted "deletedAt" ++ " = ?, " ++ dquoted "updatedAt" ++ " = ?" ++ nl ++
  "    WHERE workspaceId = ? AND id = ? AND " ++ dquoted "deletedAt" ++ " IS NULL" ++ nl ++
  "  ".

(** The re-read of [executeSoftDelete]: by tenant and id only. *)
Definition reread_query (tableName : string) : string :=
  nl ++ "    SELECT * FROM " ++ dquoted tableName ++ nl ++
  "    WHERE workspaceId = ? AND id = ?" ++ nl ++ "  ".

Definition executeSoftDelete (env : Env) (db : D1Database)
    (tableName workspaceId id : string) : outcome (option object * D1Database) :=
  let now := Date.iso_string (clock env) in
  let query := soft_delete_query tableName in
  let* (_, db') :=
    D1.run db {| D1.sql := query;
                 D1.bound := [JStr now; JStr now; JStr workspaceId; JStr id] |} in
  let selectQuery := reread_query tableName in
  let* record :=
    D1.first db' {| D1.sql := selectQuery; D1.bound := [JStr workspaceId; JStr id] |} in
  Returned (record, db').

Definition hard_delete_query (tableName : string) : string :=
  nl ++ "    DELETE FROM " ++ dquoted tableName ++ nl ++
  "    WHERE workspaceId = ? AND id = ?" ++ nl ++ "  ".

Definition executeHardDelete (db : D1Database) (tableName workspaceId id : string)
  : outcome (bool * D1Database) :=
  let query := hard_delete_query tableName in
  let* (changes, db') :=
    D1.run db {| D1.sql := query; D1.bound := [JStr workspaceId; JStr id] |} in
  Returned (changes >? 0, db').

(** ** Search resolver *)

Record ObjectConfig : Type := {
  tableName : string;
  labelSingular : string;
  labelPlural : string
}.

Definition STANDARD_OBJECTS : list (string * ObjectConfig) :=
  [("company", {| tableName := "company"; labelSingular := "Company";
                  labelPlural := "Companies" |});
   ("person", {| tableName := "person"; labelSingular := "Person";
                 labelPlural := "People" |});
   ("opportunity", {| tableName := "opportunity"; labelSingular := "Opportunity";
                      labelPlural := "Opportunities" |});
   ("note", {| tableName := "note"; labelSingular := "Note"; labelPlural := "Notes" |});
   ("task", {| tableName := "task"; labelSingular := "Task"; labelPlural := "Tasks" |});
   ("attachment", {| tableName := "attachment"; labelSingular := "Attachment";
                     labelPlural := "Attachments" |});
   ("favorite", {| tableName := "favorite"; labelSingular := "Favorite";
                   labelPlural := "Favorites" |});
   ("favoriteFolder", {| tableName := "favoriteFolder";
                         labelSingular := "Favorite Folder";
                         labelPlural := "Favorite Folders" |})].

Definition SEARCHABLE_FIELDS : list (string * list string) :=
  [("company", ["name"; "domainName"]);
   ("person", ["firstName"; "lastName"; "email"]);
   ("opportunity", ["name"]);
   ("note", ["title"; "body"]);
   ("task", ["title"; "body"])].

(** The own property [key] of a constant table. *)
Fixpoint lookup {A : Type} (table : list (string * A)) (key : string) : option A :=
  match table with
  | [] => None
  | (k, v) :: r => if String.eqb k key then Some v else lookup r key
  end.

(** The properties that every object inherits from [Object.prototype]:
    functions, and the prototype itself under [__proto__]. *)
Definition Object_prototype : list string :=
  ["constructor"; "__defineGetter__"; "__defineSetter__"; "hasOwnProperty";
   "__lookupGetter__"; "__lookupSetter__"; "isPrototypeOf";
   "propertyIsEnumerable"; "toString"; "valueOf"; "__proto__";
   "toLocaleString"].

(** What [table[key]] gives on an object literal: the value of its own
    property, an inherited member, or [undefined]. *)
Inductive member (A : Type) : Type :=
| Own (a : A)
| Inherited
| Absent.

Arguments Own {A} a.
Arguments Inherited {A}.
Arguments Absent {A}.

(** [table[key]] *)
Definition property {A : Type} (table : list (string * A)) (key : string) : member A :=
  match lookup table key with
  | Some v => Own v
  | None =>
      if existsb (String.eqb key) Object_prototype then Inherited else Absent
  end.

(** [Boolean(table[key])]: an own value of these tables is an object or a
    list, an inherited member is a function or an object. *)
Definition present {A : Type} (m : member A) : bool :=
  match m with
  | Own _ | Inherited => true
  | Absent => false
  end.

(** [query.replace(/[%_]/g, '\\$&')] *)
Definition escapeSearchQuery (query : string) : string :=
  string_flat_map
    (fun c =>
       if (ascii_N c =? 37)%N || (ascii_N c =? 95)%N
       then String "\" (String c "") else String c "")
    query.

(** [text.replace(/'/g, "''")] *)
Definition double_single_quotes (text : string) : string :=
  string_flat_map (fun c => if (ascii_N c =? 39)%N then "''" else String c "") text.

Definition buildSearchQuery (tableName objectName : string) (searchFields : list string)
    (workspaceId query : string) (limit : Z) : string * list jsval :=
  let escapedQuery := escapeSearchQuery query in
  let likePattern := "%" ++ escapedQuery ++ "%" in
  let fieldConditions :=
    String.concat " OR "
      (map (fun field => dquoted field ++ " LIKE ? COLLATE NOCASE") searchFields) in
  let snippetCase :=
    String.concat " "
      (map (fun field =>
              "WHEN " ++ dquoted field ++ " LIKE '" ++ double_single_quotes likePattern ++
              "' COLLATE NOCASE THEN SUBSTR(" ++ dquoted field ++ ", 1, 100)")
           searchFields) in
  let label :=
    match searchFields with
    | [f] => dquoted f
    | _ => "COALESCE(" ++ String.concat ", " (map dquoted searchFields) ++ ")"
    end in
  let sql :=
    nl ++ "    SELECT" ++ nl ++
    "      id," ++ nl ++
    "      '" ++ objectName ++ "' as objectName," ++ nl ++
    "      id as recordId," ++ nl ++
    "      " ++ label ++ " as label," ++ nl ++
    "      CASE " ++ snippetCase ++ " ELSE '' END as snippet," ++ nl ++
    "      1 as score" ++ nl ++
    "    FROM " ++ dquoted tableName ++ nl ++
    "    WHERE workspaceId = ?" ++ nl ++
    "      AND " ++ dquoted "deletedAt" ++ " IS NULL" ++ nl ++
    "      AND (" ++ fieldConditions ++ ")" ++ nl ++
    "    LIMIT ?" ++ nl ++ "  " in
  let params :=
    ([JStr workspaceId] ++ map (fun _ => JStr likePattern) searchFields
       ++ [JNum limit])%list in
  (sql, params).

Record SearchArgs : Type := {
  query : string;
  objectNames : option (list string);
  limit : option Z
}.

(** The white space and line terminators of ECMAScript at the head of a
    text, in UTF-8: TAB, LF, VT, FF, CR, SP, U+00A0, U+1680, U+2000 to
    U+200A, U+2028, U+2029, U+202F, U+205F, U+3000 and U+FEFF. *)
Fixpoint trim_left (s : string) : string :=
  match s with
  | String c r =>
      let n := ascii_N c in
      if ((9 <=? n)%N && (n <=? 13)%N) || (n =? 32)%N then trim_left r
      else
        match r with
        | String c1 r1 =>
            let n1 := ascii_N c1 in
            if (n =? 194)%N && (n1 =? 160)%N then trim_left r1
            else
              match r1 with
              | String c2 r2 =>
                  let n2 := ascii_N c2 in
                  if ((n =? 225)%N && (n1 =? 154)%N && (n2 =? 128)%N)
                     || ((n =? 226)%N && (n1 =? 128)%N
                         && (((128 <=? n2)%N && (n2 <=? 138)%N)
                             || (n2 =? 168)%N || (n2 =? 169)%N || (n2 =? 175)%N))
                     || ((n =? 226)%N && (n1 =? 129)%N && (n2 =? 159)%N)
                     || ((n =? 227)%N && (n1 =? 128)%N && (n2 =? 128)%N)
                     || ((n =? 239)%N && (n1 =? 187)%N && (n2 =? 191)%N)
                  then trim_left r2
                  else s
              | EmptyString => s
              end
        | EmptyString => s
        end
  | EmptyString => EmptyString
  end.

Definition score_of (item : object) : Z :=
  match obj_get item "score" with JNum n => n | _ => 0 end.

Fixpoint insert_by_score (x : object) (l : list object) : list object :=
  match l with
  | [] => [x]
  | y :: l' =>
      if score_of y <? score_of x then x :: l else y :: insert_by_score x l'
  end.

(** [items.sort((a, b) => b.score - a.score)]: stable, highest first. *)
Definition sort_by_score (items : list object) : list object :=
  fold_right insert_by_score [] items.

(** [Math.ceil(a / b)] for a positive [b]. *)
Definition ceil_div (a b : Z) : Z := - ((- a) / b).

(** The resolver returned by [createSearchResolver()]. *)
Definition search (db : D1Database) (workspaceId : string) (args : SearchArgs)
  : outcome (list object) :=
  let limit := match limit args with Some n => n | None => 20 end in
  if String.eqb (trim_left (query args)) "" then Returned []
  else
    let objectsToSearch :=
      match objectNames args with
      | Some ((_ :: _) as names) =>
          List.filter (fun name => present (property STANDARD_OBJECTS name)) names
      | _ => map fst STANDARD_OBJECTS
      end in
    let limitPerType := ceil_div limit (Z.of_nat (List.length objectsToSearch)) in
    let* allResults :=
      fold_left
        (fun acc objectName =>
           let* allResults := acc in
           match property STANDARD_OBJECTS objectName,
                 property SEARCHABLE_FIELDS objectName with
           | Absent, _ | _, Absent => Returned allResults
           | _, Inherited =>
               (* [searchFields.map] is no function *)
               Thrown TypeError
           | config, Own searchFields =>
               (* [config.tableName] of a function is [undefined] *)
               let table :=
                 match config with
                 | Own c => tableName c
                 | _ => "undefined"
                 end in
               let (sql, params) :=
                 buildSearchQuery table objectName searchFields
                   workspaceId (query args) limitPerType in
               try_catch
                 (let* items := D1.all db {| D1.sql := sql; D1.bound := params |} in
                  Returned (push_all allResults items))
                 (fun _ => Returned allResults)
           end)
        objectsToSearch (Returned []) in
    Returned (slice0 (sort_by_score allResults) limit).

(** ** Further value transformers *)

Definition is_string (v : jsval) : bool :=
  match v with JStr _ => true | _ => false end.

(** [stringArrayTransformer]: [value.filter] is a type error on a value
    that has no such method. *)
Module stringArrayTransformer.

Definition to (value : jsval) : outcome stored :=
  match value with
  | JNull | JUndefined => Returned None
  | JArr items => Returned (JSON.stringify (JArr (List.filter is_string items)))
  | _ => Thrown TypeError
  end.

Definition from (value : stored) : outcome jsval :=
  match value with
  | None => Returned (JArr [])
  | Some text =>
      try_catch
        (let* parsed := JSON.parse text in
         Returned (match parsed with
                   | JArr items => JArr (List.filter is_string items)
                   | _ => JArr []
                   end))
        (fun _ => Returned (JArr []))
  end.

End stringArrayTransformer.

(** [timestampStringTransformer]: a value that is neither nullish nor a
    [Date] is written as it is. *)
Module timestampStringTransformer.

Definition to (value : timestampInput) : outcome jsval :=
  match value with
  | TsNullish => Returned JNull
  | TsDate d => let* text := Date.toISOString d in Returned (JStr text)
  | TsString s => Returned (JStr s)
  | TsOther v => Returned v
  end.

Definition from (value : stored) : stored := value.

End timestampStringTransformer.

(** [timestampWithDefaultTransformer]: the time of [new Date()] is the
    clock of the platform. *)
Module timestampWithDefaultTransformer.

Definition to (env : Env) (value : timestampInput) : outcome jsval :=
  match value with
  | TsNullish =>
      let* text := Date.toISOString (Some (clock env)) in Returned (JStr text)
  | TsDate d => let* text := Date.toISOString d in Returned (JStr text)
  | TsString s => Returned (JStr s)
  | TsOther v => Returned v
  end.

Definition from (value : stored) : outcome (option Date.t) :=
  match value with
  | None => Returned None
  | Some text =>
      try_catch (Returned (Some (Date.of_string text))) (fun _ => Returned None)
  end.

End timestampWithDefaultTransformer.

(** What a flag column gives back: NULL, an integer or text. *)
Inductive flag : Type :=
| FlagNull
| FlagNumber (n : Z)
| FlagText (s : string).

Module booleanWithDefaultTransformer.

Definition to (value : option bool) : Z :=
  match value with
  | None => 0
  | Some b => if b then 1 else 0
  end.

Definition from (value : flag) : bool :=
  match value with
  | FlagNull => false
  | FlagNumber n => n =? 1
  | FlagText s => String.eqb s "1" || String.eqb (toLowerCase s) "true"
  end.

End booleanWithDefaultTransformer.

Module booleanTextTransformer.

Definition to (value : option bool) : stored :=
  match value with
  | None => None
  | Some b => Some (if b then "true" else "false")
  end.

Definition from (value : stored) : option bool :=
  match value with
  | None => None
  | Some s => Some (String.eqb (toLowerCase s) "true")
  end.

End booleanTextTransformer.

(** ** Environment detection

    The globals that the detection reads: [navigator.userAgent] (absent
    when [navigator] or the property is undefined), whether [caches] has
    a [default] cache, and [process.env.DATABASE_TYPE]. *)

Record Globals : Type := {
  userAgent : option string;
  caches_default : bool;
  DATABASE_TYPE : option string
}.

(** [s.includes(sub)] *)
Fixpoint includes (s sub : string) : bool :=
  String.prefix sub s
  || match s with
     | EmptyString => false
     | String _ r => includes r sub
     end.

Definition isCloudflareWorker (g : Globals) : bool :=
  match userAgent g with
  | Some ua =>
      if negb (String.eqb ua "") then includes ua "Cloudflare-Workers"
      else caches_default g
  | None => caches_default g
  end.

Definition isD1Environment (g : Globals) : bool :=
  if isCloudflareWorker g then true
  else
    match DATABASE_TYPE g with
    | Some t => String.eqb t "sqlite" || String.eqb t "d1"
    | None => false
    end.

Definition supportsDatabaseSchemas (g : Globals) : bool :=
  negb (isD1Environment g).

Module DatabaseType.

Inductive t : Type := postgres | sqlite | d1.

End DatabaseType.

Definition getDatabaseType (g : Globals) : DatabaseType.t :=
  if isCloudflareWorker g then DatabaseType.d1
  else if isD1Environment g then DatabaseType.sqlite
  else DatabaseType.postgres.

(** ** Workspace scoping

    A [where] option is absent, one condition or a list of conditions. *)

Inductive whereOption : Type :=
| WhereAbsent
| WhereOne (condition : object)
| WhereMany (conditions : list object).

(** [{ ...condition, workspaceId }] *)
Definition scoped (condition : object) (workspaceId : string) : object :=
  obj_set (obj_spread [] condition) "workspaceId" (JStr workspaceId).

Definition addWorkspaceScopeToWhere (g : Globals) (where' : whereOption)
    (workspaceId : string) : whereOption :=
  if negb (isD1Environment g) then
    match where' with
    | WhereAbsent => WhereOne []
    | _ => where'
    end
  else
    match where' with
    | WhereAbsent => WhereOne [("workspaceId", JStr workspaceId)]
    | WhereMany conditions =>
        WhereMany (map (fun condition => scoped condition workspaceId) conditions)
    | WhereOne condition => WhereOne (scoped condition workspaceId)
    end.

(** Find options: the [where] option and the other options. *)
Record FindOptions : Type := {
  where_option : whereOption;
  other_options : object
}.

Definition addWorkspaceScope (g : Globals) (options : option FindOptions)
    (workspaceId : string) : FindOptions :=
  if negb (isD1Environment g) then
    match options with
    | Some o => o
    | None => {| where_option := WhereAbsent; other_options := [] |}
    end
  else
    let scopedOptions :=
      match options with
      | Some o => {| where_option := where_option o;
                     other_options := obj_spread [] (other_options o) |}
      | None => {| where_option := WhereAbsent; other_options := [] |}
      end in
    {| where_option :=
         match where_option scopedOptions with
         | WhereAbsent => WhereOne [("workspaceId", JStr workspaceId)]
         | WhereMany conditions =>
             WhereMany (map (fun condition => scoped condition workspaceId) conditions)
         | WhereOne condition => WhereOne (scoped condition workspaceId)
         end;
       other_options := other_options scopedOptions |}.

(** An entity or a list of entities. *)
Inductive entities : Type :=
| OneEntity (e : object)
| ManyEntities (es : list object).

Definition addWorkspaceIdToEntity (g : Globals) (entity : entities)
    (workspaceId : string) : entities :=
  if negb (isD1Environment g) then entity
  else
    match entity with
    | ManyEntities es => ManyEntities (map (fun e => scoped e workspaceId) es)
    | OneEntity e => OneEntity (scoped e workspaceId)
    end.


Definition hasWorkspaceId (entity : jsval) : bool :=
  match entity with
  | JObj props => obj_has props "workspaceId" && is_string (obj_get props "workspaceId")
  | JArr _ => false
  | _ => false
  end.

(** ** Object record resolvers *)

Record FindManyArgs : Type := {
  args_first : option Z;
  args_last : option Z;
  args_before : option string;
  args_after : option string;
  args_filter : option object;
  args_orderBy : option (list OrderBySpec)
}.

Module Connection.

Record edge : Type := {
  node : object;
  cursor : string
}.

Record t : Type := {
  edges : list edge;
  pageInfo : PageInfo;
  totalCount : jsval
}.

End Connection.

(** [records.map((record) => ({ node: record, cursor: btoa(...) }))] *)
Fixpoint to_edges (records : list object) : outcome (list Connection.edge) :=
  match records with
  | [] => Returned []
  | record :: rest =>
      let* cursor :=
        Base64.btoa (match JSON.stringify (JObj [("id", obj_get record "id")]) with
                     | Some text => text
                     | None => "undefined"
                     end) in
      let* edges := to_edges rest in
      Returned ({| Connection.node := record; Connection.cursor := cursor |} :: edges)
  end.

(** The resolver returned by [createFindManyResolver(tableName)], applied
    to its arguments and to the workspace and database of its context. *)
Definition createFindManyResolver (tableName : string) (args : FindManyArgs)
    (workspaceId : string) (db : D1Database) : outcome Connection.t :=
  let* result :=
    executeSelect db tableName workspaceId
      {| opt_filter := args_filter args;
         opt_orderBy := args_orderBy args;
         opt_pagination :=
           Some {| first := args_first args; last := args_last args;
                   before := args_before args; after := args_after args |};
         opt_columns := None |} in
  let* edges := to_edges (records result) in
  Returned {| Connection.edges := edges;
              Connection.pageInfo := pageInfo result;
              Connection.totalCount := totalCount result |}.

Definition createFindOneResolver (tableName : string) (filter : object)
    (workspaceId : string) (db : D1Database) : outcome (option object) :=
  executeSelectOne db tableName workspaceId filter.

Definition createCreateOneResolver (env : Env) (tableName : string) (data : object)
    (workspaceId : string) (db : D1Database) : outcome (object * D1Database) :=
  executeInsert env db tableName workspaceId data.

Definition createCreateManyResolver (env : Env) (tableName : string)
    (data : list object) (workspaceId : string) (db : D1Database)
  : outcome (list object * D1Database) :=
  executeInsertMany env db tableName workspaceId data.

Definition createUpdateOneResolver (env : Env) (tableName id : string) (data : object)
    (workspaceId : string) (db : D1Database)
  : outcome (option object * D1Database) :=
  executeUpdate env db tableName workspaceId id data.

Definition createDeleteOneResolver (env : Env) (tableName id : string)
    (workspaceId : string) (db : D1Database)
  : outcome (option object * D1Database) :=
  executeSoftDelete env db tableName workspaceId id.

(** ** The shape of a generated WHERE clause

    The conditions [buildWhereClause] writes, one constructor per template,
    with the tokens and the tree that the engine is expected to read. These
    are compared with what the lexer and parser above compute. *)

Definition no_dquote (s : string) : bool :=
  string_forallb (fun c => negb (ascii_N c =? 34)%N) s.

Inductive cond : Type :=
| CTenant
| CNotDeleted
| CIsNull (f : string)
| CEq (f : string)
| CNeq (f : string)
| CIn (f : string) (k : nat)
| CLike (f : string).

Definition cond_text (c : cond) : string :=
  match c with
  | CTenant => "workspaceId = ?"
  | CNotDeleted => "(" ++ dquoted "deletedAt" ++ " IS NULL)"
  | CIsNull f => dquoted f ++ " IS NULL"
  | CEq f => dquoted f ++ " = ?"
  | CNeq f => dquoted f ++ " != ?"
  | CIn f k => dquoted f ++ " IN (" ++ String.concat ", " (repeat "?" k) ++ ")"
  | CLike f => dquoted f ++ " LIKE ? COLLATE NOCASE"
  end.

Definition cond_field_ok (c : cond) : bool :=
  match c with
  | CTenant | CNotDeleted => true
  | CIsNull f | CEq f | CNeq f | CIn f _ | CLike f => no_dquote f
  end.

(** The conditions of one filter entry, in the order [where_entry] adds
    them. *)
Definition entry_conds (entry : string * jsval) : list cond :=
  let (field, value) := entry in
  match value with
  | JNull => [CIsNull field]
  | JObj ops =>
      ((if obj_has ops "eq" then [CEq field] else [])
       ++ (if obj_has ops "neq" then [CNeq field] else [])
       ++ (if obj_has ops "in" then
             match obj_get ops "in" with
             | JArr items => [CIn field (List.length items)]
             | _ => []
             end
           else [])
       ++ (if obj_has ops "like" then [CLike field] else []))%list
  | JArr _ => []
  | _ => [CEq field]
  end.

Definition entry_params (entry : string * jsval) : list jsval :=
  let (field, value) := entry in
  match value with
  | JNull => []
  | JObj ops =>
      ((if obj_has ops "eq" then [obj_get ops "eq"] else [])
       ++ (if obj_has ops "neq" then [obj_get ops "neq"] else [])
       ++ (if obj_has ops "in" then
             match obj_get ops "in" with
             | JArr items => items
             | _ => []
             end
           else [])
       ++ (if obj_has ops "like"
           then [JStr ("%" ++ js_to_string (obj_get ops "like") ++ "%")] else []))%list
  | JArr _ => []
  | _ => [value]
  end.

Definition filter_entries (filter : option object) : object :=
  match filter with Some f => f | None => [] end.

Definition where_conds (filter : option object) : list cond :=
  CTenant :: CNotDeleted :: flat_map entry_conds (filter_entries filter).

Definition where_params (filter : option object) : list jsval :=
  flat_map entry_params (filter_entries filter).

(** Every field name of the filter is free of double quotes. *)
Definition fields_ok (filter : option object) : bool :=
  forallb (fun e : string * jsval => no_dquote (fst e)) (filter_entries filter).

Module Shape.

Import SQLite.

Fixpoint commas (ts : list token) : list token :=
  match ts with
  | [] => []
  | [t] => [t]
  | t :: r => t :: TSym "," :: commas r
  end.

Definition cond_tokens (c : cond) : list token :=
  match c with
  | CTenant => [TWord "workspaceId"; TSym "="; TParam]
  | CNotDeleted => [TSym "("; TIdent "deletedAt"; TWord "IS"; TWord "NULL"; TSym ")"]
  | CIsNull f => [TIdent f; TWord "IS"; TWord "NULL"]
  | CEq f => [TIdent f; TSym "="; TParam]
  | CNeq f => [TIdent f; TNeq; TParam]
  | CIn f k =>
      ([TIdent f; TWord "IN"; TSym "("] ++ commas (repeat TParam k) ++ [TSym ")"])%list
  | CLike f => [TIdent f; TWord "LIKE"; TParam; TWord "COLLATE"; TWord "NOCASE"]
  end.

(** Number of placeholders of a condition. *)
Definition cond_arity (c : cond) : nat :=
  match c with
  | CTenant => 1
  | CNotDeleted | CIsNull _ => 0
  | CEq _ | CNeq _ | CLike _ => 1
  | CIn _ k => k
  end.

(** The tree of a condition whose first placeholder is number [n]. *)
Definition cond_expr (c : cond) (n : nat) : expr :=
  match c with
  | CTenant => EEq (ECol "workspaceId") (EParam n)
  | CNotDeleted => EIsNull (ECol "deletedAt")
  | CIsNull f => EIsNull (ECol f)
  | CEq f => EEq (ECol f) (EParam n)
  | CNeq f => ENeq (ECol f) (EParam n)
  | CIn f k => EIn (ECol f) (map EParam (seq n k))
  | CLike f => ELike (ECol f) (ECollate (EParam n) "NOCASE") None
  end.

Fixpoint conds_tokens (cs : list cond) : list token :=
  match cs with
  | [] => []
  | [c] => cond_tokens c
  | c :: r => (cond_tokens c ++ TWord "AND" :: conds_tokens r)%list
  end.

(** The conjunction, nested to the left as AND associates. *)
Fixpoint conj (lhs : expr) (cs : list cond) (n : nat) : expr :=
  match cs with
  | [] => lhs
  | c :: r => conj (EAnd lhs (cond_expr c n)) r (n + cond_arity c)
  end.

Definition arity (cs : list cond) : nat :=
  fold_right (fun c k => (cond_arity c + k)%nat) O cs.

(** The tree of a whole WHERE clause. *)
Definition where_expr (cs : list cond) : expr :=
  match cs with
  | [] => ENull
  | c :: r => conj (cond_expr c O) r (cond_arity c)
  end.

Definition head_is (k : string) (ts : list token) : bool :=
  match ts with
  | t :: _ => is_kw k t
  | [] => false
  end.

(** The ORDER BY clause. *)

Definition spec_direction (s : OrderBySpec) : Direction :=
  match direction s with Some d => d | None => ASC end.

Definition spec_nulls (s : OrderBySpec) : NullsOrder :=
  match nulls s with
  | Some n => n
  | None => match spec_direction s with ASC => FIRST | DESC => LAST end
  end.

Definition spec_term (s : OrderBySpec) : order_term :=
  {| ord_expr := ECol (field s);
     ord_desc := match spec_direction s with DESC => true | ASC => false end;
     ord_nulls_first := match spec_nulls s with FIRST => true | LAST => false end |}.

Definition id_term : order_term :=
  {| ord_expr := ECol "id"; ord_desc := false; ord_nulls_first := true |}.

Definition created_term : order_term :=
  {| ord_expr := ECol "createdAt"; ord_desc := true; ord_nulls_first := false |}.

Definition order_terms (orderBy : option (list OrderBySpec)) : list order_term :=
  match orderBy with
  | None | Some [] => [created_term; id_term]
  | Some specs => (map spec_term specs ++ [id_term])%list
  end.

Definition spec_tokens (s : OrderBySpec) : list token :=
  [TIdent (field s); TWord (Direction_text (spec_direction s));
   TWord "NULLS"; TWord (NullsOrder_text (spec_nulls s))].

Fixpoint specs_tokens (specs : list OrderBySpec) : list token :=
  match specs with
  | [] => [TIdent "id"; TWord "ASC"]
  | s :: r => (spec_tokens s ++ TSym "," :: specs_tokens r)%list
  end.

Definition order_tokens (orderBy : option (list OrderBySpec)) : list token :=
  TWord "ORDER" :: TWord "BY"
    :: match orderBy with
       | None | Some [] =>
           [TIdent "createdAt"; TWord "DESC"; TSym ","; TIdent "id"; TWord "ASC"]
       | Some specs => specs_tokens specs
       end.

(** The statements of the three reads. *)

Definition select_stmt (table : string) (filter : option object)
    (orderBy : option (list OrderBySpec)) (limit : Z) : stmt :=
  Select SelStar table (Some (where_expr (where_conds filter)))
    (order_terms orderBy) (Some (ENum (limit + 1))).

Definition count_stmt (table : string) (filter : option object) : stmt :=
  Select (SelCount "count") table (Some (where_expr (where_conds filter))) [] None.

Definition select_one_stmt (table : string) (filter : option object) : stmt :=
  Select SelStar table (Some (where_expr (where_conds filter))) [] (Some (ENum 1)).

End Shape.

(** Every field name of the order specification is free of double quotes. *)
Definition order_ok (orderBy : option (list OrderBySpec)) : bool :=
  forallb (fun s => no_dquote (field s))
    (match orderBy with Some l => l | None => [] end).

(** ** Scenarios

    Concrete databases and requests used by the examples below. *)

Module Scenario.

Import SQLite.

Definition engine (strict : bool) (s : store) : D1Database :=
  {| data := s; reject_surplus := strict |}.

Definition env_at (id : string) (time : Z) : Env :=
  {| randomUUID := fun _ => id; clock := time |}.

Definition empty_store : store :=
  [("company", []); ("person", []); ("opportunity", []); ("note", []); ("task", [])].

(** The database after [executeInsert], or the same database if it threw. *)
Definition after_insert (env : Env) (db : D1Database) (table workspaceId : string)
    (data : object) : D1Database :=
  match executeInsert env db table workspaceId data with
  | Returned (_, db') => db'
  | Thrown _ => db
  end.

(** Three tasks of tenant T1 created one millisecond apart. *)
Definition three_tasks (strict : bool) : D1Database :=
  after_insert (env_at "r3" 1700000000003)
    (after_insert (env_at "r2" 1700000000002)
       (after_insert (env_at "r1" 1700000000001) (engine strict empty_store)
          "task" "T1" [("title", JStr "one")])
       "task" "T1" [("title", JStr "two")])
    "task" "T1" [("title", JStr "three")].

Definition newest_first : list OrderBySpec :=
  [{| field := "createdAt"; direction := Some DESC; nulls := None |}].

Definition page (size : Z) (cursor : option string) : SelectOptions :=
  {| opt_filter := None;
     opt_orderBy := Some newest_first;
     opt_pagination :=
       Some {| first := Some size; last := None; before := None; after := cursor |};
     opt_columns := None |}.

Definition last_page (size : Z) : SelectOptions :=
  {| opt_filter := None;
     opt_orderBy := Some newest_first;
     opt_pagination :=
       Some {| first := None; last := Some size; before := None; after := None |};
     opt_columns := None |}.

Definition ids (l : list object) : list jsval := map (fun r => obj_get r "id") l.

(** One company, owned by tenant T2. *)
Definition acme : row :=
  [("id", SText "c1"); ("workspaceId", SText "T2"); ("name", SText "Acme 100%")].

Definition other_tenant : D1Database :=
  engine true [("company", [acme]); ("person", []); ("opportunity", []);
               ("note", []); ("task", [])].

(** A filter key that closes the quoted identifier it is written into. *)
Definition breaking_field : string :=
  "deletedAt" ++ dq ++ " IS NULL OR " ++ dq ++ "deletedAt".

(** [encodeCursor] of the id r2. *)
Definition cursor_r2 : string := "eyJpZCI6InIyIn0=".

(** One task of tenant T1. *)
Definition one_task : D1Database :=
  after_insert (env_at "r1" 1700000000001) (engine true empty_store)
    "task" "T1" [("title", JStr "one")].

Definition stored_rows (db : D1Database) (table : string) : list row :=
  match get_table (data db) table with
  | Some t => t
  | None => []
  end.

End Scenario.

(** ** Vocabulary of the properties

    Relations, shapes and scenarios that the statements of Parts II to
    IV are written with. *)

Import SQLite.
Import Shape.

(** *** Lexing *)

Definition Lexes (st : lstate) (s : string) (st' : lstate) (out : list token) : Prop :=
  run st s = Some (st', out).

(** A state in which a white-space character ends the pending token. *)
Definition settles (st : lstate) (out : list token) : Prop :=
  forall x, is_space x = true -> step st x = Some (LNormal, out).

(** *** What may follow a condition *)

(** What may follow a condition: nothing, or one of the key words the
    builder writes after one. *)
Definition ends_cond (ts : list token) : Prop :=
  ts = [] \/ exists w r, ts = TWord w :: r
                         /\ (w = "AND" \/ w = "ORDER" \/ w = "LIMIT").

(** What may follow a WHERE clause. *)
Definition ends_where (ts : list token) : Prop :=
  ts = [] \/ exists w r, ts = TWord w :: r /\ (w = "ORDER" \/ w = "LIMIT").

Definition and_tokens (cs : list cond) : list token :=
  flat_map (fun c => TWord "AND" :: cond_tokens c) cs.

(** *** Numbers and ORDER BY *)

(** The tokens of an integer written by [Z_to_string]. *)
Definition number_tokens (z : Z) : list token :=
  if z <? 0 then [TSym "-"; TNum (- z)] else [TNum z].

Definition id_asc : string := dquoted "id" ++ " ASC".

Definition spec_text (s : OrderBySpec) : string :=
  dquoted (field s) ++ " " ++ Direction_text (spec_direction s)
  ++ " NULLS " ++ NullsOrder_text (spec_nulls s).

(** *** Clauses *)

(** The text of a WHERE clause. *)
Definition where_text (filter : option object) : string :=
  String.concat " AND " (map cond_text (where_conds filter)).

Definition page_limit (p : PaginationArgs) : Z :=
  match first p with
  | Some n => n
  | None => match last p with Some n => n | None => 50 end
  end.

(** What may follow an ORDER BY clause. *)
Definition ends_order (ts : list token) : Prop :=
  ts = [] \/ exists r, ts = TWord "LIMIT" :: r.

(** *** The head of a read *)

(** The text of the read up to the key words ORDER BY. *)
Definition select_head (table : string) (filter : option object) : string :=
  nl ++ "    SELECT " ++ "*" ++ nl ++ "    FROM " ++ dquoted table ++ nl
  ++ "    WHERE " ++ where_text filter ++ nl ++ "    ORDER BY ".

(** *** Writes *)

Definition by_tenant_and_id : expr :=
  EAnd (EEq (ECol "workspaceId") (EParam 0)) (EEq (ECol "id") (EParam 1)).

Definition soft_delete_stmt (table : string) : stmt :=
  Update table [("deletedAt", EParam 0); ("updatedAt", EParam 1)]
    (Some (EAnd (EAnd (EEq (ECol "workspaceId") (EParam 2)) (EEq (ECol "id") (EParam 3)))
             (EIsNull (ECol "deletedAt")))).

(** The row of tenant [ws] with identifier [id]. *)
Definition is_row (ws id : string) (r : row) : bool :=
  sql_eqb (row_get r "workspaceId") (SText ws) && sql_eqb (row_get r "id") (SText id).

Definition live (r : row) : bool := is_null (row_get r "deletedAt").

Definition mark_deleted (now : string) (r : row) : row :=
  row_set (row_set r "deletedAt" (SText now)) "updatedAt" (SText now).

(** What the UPDATE of [executeSoftDelete] makes of a table. *)
Definition soft_delete_table (ws id now : string) (t : table) : table :=
  map (fun r => if is_row ws id r && live r then mark_deleted now r else r) t.

Definition with_data (db : D1Database) (s : store) : D1Database :=
  {| data := s; reject_surplus := reject_surplus db |}.

(** The record re-read after a delete: the first row of the tenant with the
    identifier, soft-deleted or not. *)
Definition reread (ws id : string) (t : table) : option object :=
  match List.filter (is_row ws id) t with
  | r :: _ => Some (D1.of_row r)
  | [] => None
  end.

(** *** The search statement *)

Definition like_param (f : string) (i : nat) : expr :=
  ELike (ECol f) (ECollate (EParam i) "NOCASE") None.

Fixpoint likes (lhs : expr) (fields : list string) (i : nat) : expr :=
  match fields with
  | [] => lhs
  | f :: r => likes (EOr lhs (like_param f i)) r (S i)
  end.

Definition label_expr (fields : list string) : expr :=
  match fields with
  | [f] => ECol f
  | _ => ECoalesce (map ECol fields)
  end.

Definition search_condition (fields : list string) : expr :=
  EAnd (EAnd (EEq (ECol "workspaceId") (EParam 0)) (EIsNull (ECol "deletedAt")))
    (match fields with
     | [] => ENull
     | f :: r => likes (like_param f 1) r 2
     end).

(** The statement of a keyword search over one table, for the pattern
    written into its snippet expression. *)
Definition search_stmt (table objectName : string) (fields : list string)
    (pattern : string) : stmt :=
  Select
    (SelItems
       [(ECol "id", "id"); (EStr objectName, "objectName"); (ECol "id", "recordId");
        (label_expr fields, "label");
        (ECase
           (map (fun f => (ELike (ECol f) (ECollate (EStr pattern) "NOCASE") None,
                           ESubstr (ECol f) (ENum 1) (ENum 100))) fields)
           (EStr ""), "snippet");
        (ENum 1, "score")])
    table (Some (search_condition fields)) [] (Some (EParam (S (List.length fields)))).

Definition search_pattern (query : string) : string :=
  "%" ++ escapeSearchQuery query ++ "%".

(** A search result that stands for a stored row of the tenant that is not
    soft-deleted. *)
Definition search_hit (db : D1Database) (ws : string) (item : object) : Prop :=
  exists objectName config tbl r,
    lookup STANDARD_OBJECTS objectName = Some config
    /\ get_table (data db) (tableName config) = Some tbl /\ In r tbl
    /\ obj_get item "recordId" = D1.of_sql (row_get r "id")
    /\ obj_get item "objectName" = JStr objectName
    /\ row_get r "workspaceId" = SText ws /\ row_get r "deletedAt" = SNull.

(** One turn of the loop of the search resolver. *)
Definition search_step (db : D1Database) (ws q : string) (lim : Z)
    (acc : outcome (list object)) (objectName : string) : outcome (list object) :=
  let* allResults := acc in
  match property STANDARD_OBJECTS objectName,
        property SEARCHABLE_FIELDS objectName with
  | Absent, _ | _, Absent => Returned allResults
  | _, Inherited => Thrown TypeError
  | config, Own searchFields =>
      let table :=
        match config with
        | Own c => tableName c
        | _ => "undefined"
        end in
      let (sql, params) :=
        buildSearchQuery table objectName searchFields ws q lim in
      try_catch
        (let* items := D1.all db {| D1.sql := sql; D1.bound := params |} in
         Returned (push_all allResults items))
        (fun _ => Returned allResults)
  end.

(** *** Hard delete *)

Definition hard_delete_table (ws id : string) (t : table) : table :=
  List.filter (fun r => negb (is_row ws id r)) t.

(** *** Reads *)

(** A record that is a stored row of the tenant and is not soft-deleted. *)
Definition live_row_of (db : D1Database) (table ws : string) (rec : object) : Prop :=
  exists tbl r,
    get_table (data db) table = Some tbl /\ In r tbl /\ rec = D1.of_row r
    /\ row_get r "workspaceId" = SText ws /\ row_get r "deletedAt" = SNull.

(** Two tasks of tenant T1, the second soft-deleted. *)
Definition two_tasks_one_deleted : D1Database :=
  match executeSoftDelete (Scenario.env_at "unused" 1700000000005)
          (Scenario.after_insert (Scenario.env_at "r2" 1700000000002) Scenario.one_task
             "task" "T1" [("title", JStr "two")])
          "task" "T1" "r2" with
  | Returned (_, db') => db'
  | Thrown _ => Scenario.one_task
  end.

Definition read_all : SelectOptions :=
  {| opt_filter := None; opt_orderBy := None; opt_pagination := None;
     opt_columns := None |}.

(** A filter on one field, whose name closes its quote and goes on with a
    condition of its own: the clause reads
    [... AND "title" IS NULL OR "id" = ?]. *)
Definition closing_field : string :=
  "title" ++ dq ++ " IS NULL OR " ++ dq ++ "id".

Definition by_closing_field (id : string) : SelectOptions :=
  {| opt_filter := Some [(closing_field, JStr id)]; opt_orderBy := None;
     opt_pagination := None; opt_columns := None |}.

(** *** Pages *)

Definition pagination_of (options : SelectOptions) : PaginationArgs :=
  match opt_pagination options with Some p => p | None => no_pagination end.

(** The rows of the tenant that match the filter, in the requested order. *)
Definition ordered_rows (vals : list sqlval) (filter : option object)
    (orderBy : option (list OrderBySpec)) (tbl : table) : list row :=
  sort_rows vals (order_terms orderBy)
    (List.filter (fun r => holds vals r (Some (where_expr (where_conds filter)))) tbl).

(** *** Cursors *)

(** The options of a read with its [after] cursor replaced. *)
Definition with_after (options : SelectOptions) (cursor : option string)
  : SelectOptions :=
  let p := pagination_of options in
  {| opt_filter := opt_filter options;
     opt_orderBy := opt_orderBy options;
     opt_pagination :=
       Some {| first := first p; last := last p; before := before p; after := cursor |};
     opt_columns := opt_columns options |}.

(** A result with [hasPreviousPage] recomputed for a read that was given
    the [after] cursor [cursor]. *)
Definition seen_after (p : PaginationArgs) (cursor : string) (r : SelectResult)
  : SelectResult :=
  {| records := records r;
     pageInfo :=
       {| hasNextPage := hasNextPage (pageInfo r);
          hasPreviousPage :=
            if some_nonzero (last p) then hasPreviousPage (pageInfo r)
            else some_nonempty (Some cursor);
          startCursor := startCursor (pageInfo r);
          endCursor := endCursor (pageInfo r) |};
     totalCount := totalCount r |}.

(** The options of a read with its [before] cursor replaced. *)
Definition with_before (options : SelectOptions) (cursor : option string)
  : SelectOptions :=
  let p := pagination_of options in
  {| opt_filter := opt_filter options;
     opt_orderBy := opt_orderBy options;
     opt_pagination :=
       Some {| first := first p; last := last p; before := cursor; after := after p |};
     opt_columns := opt_columns options |}.

(** A result with [hasNextPage] recomputed for a read that was given the
    [before] cursor [cursor]. *)
Definition seen_before (p : PaginationArgs) (cursor : string) (r : SelectResult)
  : SelectResult :=
  {| records := records r;
     pageInfo :=
       {| hasNextPage :=
            if some_nonzero (first p) then hasNextPage (pageInfo r)
            else some_nonempty (Some cursor);
          hasPreviousPage := hasPreviousPage (pageInfo r);
          startCursor := startCursor (pageInfo r);
          endCursor := endCursor (pageInfo r) |};
     totalCount := totalCount r |}.

(** What the [try] block of [decodeCursor] computes. *)
Definition decoded (cursor : string) : outcome jsval :=
  let* text := Base64.atob cursor in JSON.parse text.

(** *** LIKE patterns *)





(** *** Stored text *)

Definition is_array (v : jsval) : bool :=
  match v with JArr _ => true | _ => false end.

(** *** JSON data values *)

Section Json_vocabulary.

Import JSON.

(** What may follow a number in a text: no digit, point or exponent. *)
Definition number_end (rest : string) : bool :=
  match rest with
  | EmptyString => true
  | String c _ =>
      negb (is_digit c) && negb (ascii_N c =? 46)%N
      && negb ((ascii_N c =? 101)%N || (ascii_N c =? 69)%N)
  end.

(** The texts of the numbers that are no integer below 10^21: the
    literals that are read as a number with that very text. They include
    every text that [Number::toString] writes for such a number
    ([float_text_of_number] below). *)
Definition float_text (lit : string) : bool :=
  match parse_number lit with
  | Some (JFloat l, EmptyString) => String.eqb l lit
  | _ => false
  end.

(** The significant digits of a number that is not zero: digits, the
    first and the last of which are not 0. *)
Definition significand (s : string) : bool :=
  string_forallb is_digit s
  && match s with
     | String c _ => negb (ascii_N c =? 48)%N
     | EmptyString => false
     end
  && String.eqb (Number.drop_trailing_zeros s) s.

Fixpoint distinct (keys : list string) : bool :=
  match keys with
  | [] => true
  | k :: r => negb (existsb (String.eqb k) r) && distinct r
  end.

(** The values that JSON text carries: [null], booleans, finite numbers
    (an integer below 10^21 in magnitude, or the text of any other number),
    strings, and lists and objects of these, the keys of an object being
    distinct. *)
Fixpoint json_data (v : jsval) : bool :=
  match v with
  | JUndefined => false
  | JNull | JBool _ | JStr _ => true
  | JNum n => (- 10 ^ 21 <? n) && (n <? 10 ^ 21)
  | JFloat lit => float_text lit
  | JArr items => forallb json_data items
  | JObj props =>
      forallb (fun kv : string * jsval => json_data (snd kv)) props
      && distinct (map fst props)
  end.

(** Fuel that reading a value back takes. *)
Fixpoint weight (v : jsval) : nat :=
  match v with
  | JArr items => S (fold_right (fun x n => S (weight x + n)) O items)
  | JObj props =>
      S (fold_right (fun (kv : string * jsval) n => S (weight (snd kv) + n)) O props)
  | _ => 1
  end.

(** A character that can begin a value. *)
Definition value_start (c : ascii) : bool :=
  negb (is_ws c) && negb (ascii_N c =? 93)%N && negb (ascii_N c =? 125)%N.

(** The hypothesis of the induction: the text of [v], followed by anything
    that cannot continue a number, is read back as [v]. *)
Definition reads_back (v : jsval) : Prop :=
  json_data v = true ->
  forall fuel rest,
    (weight v <= fuel)%nat -> number_end rest = true ->
    parse_value fuel (stringify_value v ++ rest) = Some (v, rest).

Definition member_text (kv : string * jsval) : string :=
  quote (fst kv) ++ ":" ++ stringify_value (snd kv).

End Json_vocabulary.

(** *** Civil dates *)

Section Timestamps_vocabulary.

Import Date.

(** Month and day of the day [doy] of a year that begins on 1 March. *)
Definition month_day_ok (doy : Z) : bool :=
  let mp := (5 * doy + 2) / 153 in
  let d := doy - (153 * mp + 2) / 5 + 1 in
  let m := if mp <? 10 then mp + 3 else mp - 9 in
  (0 <=? mp) && (mp <=? 11) && (1 <=? d)
  && (d <=? (if m =? 2 then (if doy =? 365 then 29 else 28) else days_in_month 1 m)).

End Timestamps_vocabulary.

(** *** Transformers *)



(** *** Connections *)

(** The arguments of a list query as [executeSelect] receives them. *)
Definition select_options (args : FindManyArgs) : SelectOptions :=
  {| opt_filter := args_filter args;
     opt_orderBy := args_orderBy args;
     opt_pagination :=
       Some {| first := args_first args; last := args_last args;
               before := args_before args; after := args_after args |};
     opt_columns := None |}.

Definition first_page (size : Z) : FindManyArgs :=
  {| args_first := Some size; args_last := None; args_before := None;
     args_after := None; args_filter := None; args_orderBy := None |}.

(** *** Rows that a read matches *)

(** The live rows of the tenant that a filter keeps. *)
Definition matching (vals : list sqlval) (filter : option object) (tbl : table)
  : list row :=
  List.filter (fun r => holds vals r (Some (where_expr (where_conds filter)))) tbl.

(** The live row of the tenant with an identifier. *)
Definition find_live (ws id : string) (t : table) : option object :=
  match List.filter (fun r => is_row ws id r && live r) t with
  | r :: _ => Some (D1.of_row r)
  | [] => None
  end.

Definition first_two : SelectOptions :=
  {| opt_filter := None; opt_orderBy := None;
     opt_pagination :=
       Some {| first := Some 2; last := None; before := None; after := None |};
     opt_columns := None |}.

(** *** Identifiers and values that are accepted *)

Definition ascii_text (s : string) : bool :=
  string_forallb (fun c => (ascii_N c <? 128)%N) s.

(** An identifier that gives a cursor: a text in ASCII, a number, a
    boolean, [null] or [undefined]. *)
Definition ascii_id (v : jsval) : bool :=
  match v with
  | JStr s => ascii_text s
  | JFloat lit => ascii_text lit
  | JArr _ | JObj _ => false
  | _ => true
  end.

Definition bindable (v : jsval) : bool :=
  match v with
  | JUndefined | JArr _ | JObj _ => false
  | _ => true
  end.

(** Records with identifiers in ASCII, and one with an identifier that
    [btoa] refuses. *)
Definition ascii_records : list object :=
  [[("id", JStr "r1"); ("title", JStr "one")]; [("id", JNum 2)]; [("title", JStr "three")]].

Definition snowman_record : object := [("id", JStr (utf8_encode 9731))].

(** *** Rows of records *)

(** The tokens of [k1 = ?, k2 = ?, ...]. *)
Fixpoint set_tokens (ks : list string) : list token :=
  match ks with
  | [] => []
  | [k] => [TIdent k; TSym "="; TParam]
  | k :: r => TIdent k :: TSym "=" :: TParam :: TSym "," :: set_tokens r
  end.

(** The value that binding stores. *)
Definition sql_of (v : jsval) : sqlval :=
  match v with
  | JBool b => of_bool b
  | JNum n => SInt n
  | JFloat lit => SReal lit
  | JStr s => SText s
  | _ => SNull
  end.

(** The row that stores a record. *)
Definition row_of (record : object) : row :=
  map (fun kv : string * jsval => (fst kv, sql_of (snd kv))) record.



(** *** Names of columns

    The engine matches the name of a column without regard to ASCII case,
    so that two keys of a record may name one column. *)

Definition same_column (a b : string) : bool :=
  String.eqb (toLowerCase a) (toLowerCase b).

(** No two of the keys name the same column. *)
Fixpoint columns_distinct (keys : list string) : bool :=
  match keys with
  | [] => true
  | k :: r => negb (existsb (same_column k) r) && columns_distinct r
  end.

(** One of the keys names the column [c]. *)
Definition names_column (keys : list string) (c : string) : bool :=
  existsb (same_column c) keys.

(** The keys that name the column [c] spell it as [c]. *)
Definition spelled (c : string) (keys : list string) : bool :=
  forallb (fun k => negb (same_column c k) || String.eqb k c) keys.

(** A value that the binding refuses whatever it holds: [undefined] and
    an object that is no list. *)
Definition unsupported (v : jsval) : bool :=
  match v with
  | JUndefined | JObj _ => true
  | _ => false
  end.


(** *** Rows after an update *)

(** The condition of the UPDATE, after [k] assignments. *)
Definition by_tenant_and_id_after (k : nat) : expr :=
  EAnd (EEq (ECol "workspaceId") (EParam k)) (EEq (ECol "id") (EParam (S k))).

(** The assignments of a SET clause applied to a row, in order. *)
Definition assign (sets : row) (r : row) : row :=
  fold_left (fun acc kv => row_set acc (fst kv) (snd kv)) sets r.

(** What the UPDATE of [executeUpdate] makes of a table. *)
Definition update_table (ws id : string) (sets : row) (t : table) : table :=
  map (fun r => if is_row ws id r then assign sets r else r) t.

(** The assignments of [executeUpdate]: the data and the time of update. *)
Definition updates_of (env : Env) (d : object) : object :=
  obj_set (obj_spread [] d) "updatedAt" (JStr (Date.iso_string (clock env))).

Definition retitled : object := [("title", JStr "two, again")].

(** *** Batches *)

Definition two_new_tasks : list object :=
  [[("title", JStr "four")]; [("title", JStr "five"); ("workspaceId", JStr "T2")]].

Definition counting_env : Env :=
  {| randomUUID := fun k => "n" ++ N_to_string (N.of_nat k); clock := 1700000000009 |}.

(** *** The names and the limit of a search *)

(** A name that every object inherits from [Object.prototype]. *)
Definition inherited_name (name : string) : bool :=
  existsb (String.eqb name) Object_prototype.

(** The object names that a search asks for. *)
Definition asked (args : SearchArgs) : list string :=
  match objectNames args with Some names => names | None => [] end.

(** The limit of a search: 20 when none is given. *)
Definition limit_of (args : SearchArgs) : Z :=
  match limit args with Some n => n | None => 20 end.

Definition blank (args : SearchArgs) : bool :=
  String.eqb (trim_left (query args)) "".

(** The names that the loop of a search goes through. *)
Definition searched (args : SearchArgs) : list string :=
  match objectNames args with
  | Some ((_ :: _) as names) =>
      List.filter (fun name => present (property STANDARD_OBJECTS name)) names
  | _ => map fst STANDARD_OBJECTS
  end.

(** *** Matches of a LIKE helper *)



(** The text has no character that LIKE reads as a wild card or that
    [escapeLikePattern] escapes. *)
Definition plain (v : string) : bool :=
  string_forallb (fun c => negb (is_like_special c)) v.


(** *** Columns of the transformer variants *)

(** The text that a transformer wrote, as the column gives it back. *)
Definition as_stored (v : jsval) : stored :=
  match v with JStr s => Some s | _ => None end.

(** The value of a flag column as a JavaScript value. *)
Definition flag_value (f : flag) : jsval :=
  match f with
  | FlagNull => JNull
  | FlagNumber n => JNum n
  | FlagText s => JStr s
  end.

(** *** Scoped conditions *)

(** The conditions of a [where] option. *)
Definition conditions_of (w : whereOption) : list object :=
  match w with
  | WhereAbsent => []
  | WhereOne c => [c]
  | WhereMany cs => cs
  end.

(** A Worker: the user agent names the runtime. *)
Definition worker : Globals :=
  {| userAgent := Some "Cloudflare-Workers"; caches_default := false;
     DATABASE_TYPE := None |}.

(** A Node.js process with no database type set. *)
Definition node_process : Globals :=
  {| userAgent := None; caches_default := false; DATABASE_TYPE := None |}.

(** The entities of a value passed to [addWorkspaceIdToEntity]. *)
Definition entities_of (e : entities) : list object :=
  match e with
  | OneEntity x => [x]
  | ManyEntities xs => xs
  end.


(** *** The order of a read *)

(** The value that an ORDER BY term compares. *)
Definition compare_keys (t : order_term) (a b : sqlval) : comparison :=
  match is_null a, is_null b with
  | true, true => Eq
  | true, false => if ord_nulls_first t then Lt else Gt
  | false, true => if ord_nulls_first t then Gt else Lt
  | false, false =>
      if ord_desc t then CompOpp (compare_values a b) else compare_values a b
  end.







(** *** What a filter keeps *)

(** Comparison as the engine decides it: NULL is neither equal to a value
    nor different from it. *)
Definition sql_equal (a b : sqlval) : bool :=
  negb (is_null a) && negb (is_null b) && sql_eqb a b.

Definition sql_differ (a b : sqlval) : bool :=
  negb (is_null a) && negb (is_null b) && negb (sql_eqb a b).

(** The rows that one entry of a filter keeps: [field: null] those where
    the column is NULL; [eq], [neq], [in] and [like] those where the
    comparison with the bound value is true; a plain value those where the
    column equals it. *)
Definition entry_keeps (r : row) (entry : string * jsval) : bool :=
  let (field, value) := entry in
  let v := row_get r field in
  match value with
  | JNull => is_null v
  | JObj ops =>
      (if obj_has ops "eq" then sql_equal v (sql_of (obj_get ops "eq")) else true)
      && ((if obj_has ops "neq" then sql_differ v (sql_of (obj_get ops "neq")) else true)
          && ((if obj_has ops "in" then
                 match obj_get ops "in" with
                 | JArr items => existsb (fun x => sql_equal v (sql_of x)) items
                 | _ => true
                 end
               else true)
              && (if obj_has ops "like" then
                    negb (is_null v)
                    && like_match None ("%" ++ js_to_string (obj_get ops "like") ++ "%")
                         (text_of v)
                  else true)))
  | JArr _ => true
  | _ => sql_equal v (sql_of value)
  end.

(** The rows that a scoped read keeps: the live rows of the workspace that
    every entry of the filter keeps. *)
Definition keeps (ws : string) (filter : option object) (r : row) : bool :=
  sql_equal (row_get r "workspaceId") (SText ws)
  && live r
  && forallb (entry_keeps r) (filter_entries filter).

(** A value that is bound as a text or as NULL. *)
Definition plain_text (v : jsval) : bool :=
  match v with JStr _ | JNull => true | _ => false end.

(** An entry of a filter that compares with texts and NULL only. *)
Definition text_entry (entry : string * jsval) : bool :=
  match snd entry with
  | JNull | JStr _ | JArr _ => true
  | JObj ops =>
      (if obj_has ops "eq" then plain_text (obj_get ops "eq") else true)
      && (if obj_has ops "neq" then plain_text (obj_get ops "neq") else true)
      && (if obj_has ops "in" then
            match obj_get ops "in" with
            | JArr items => forallb plain_text items
            | _ => true
            end
          else true)
  | _ => false
  end.

(** The row has the column, with a text or NULL in it. *)
Definition text_at (r : row) (field : string) : bool :=
  existsb (String.eqb field) (map fst r)
  && match row_get r field with SText _ | SNull => true | _ => false end.

(** Every field of the filter is such a column of every row. *)
Definition text_columns (filter : option object) (tbl : table) : bool :=
  forallb (fun r => forallb (fun e : string * jsval => text_at r (fst e))
                      (filter_entries filter)) tbl.

Definition is_true3 (t : option bool) : bool :=
  match t with Some true => true | _ => false end.

(** The conditions [cs], the first placeholder of the first one being
    number [n], all hold. *)
Fixpoint conds_hold (ps : list sqlval) (r : row) (cs : list cond) (n : nat) : bool :=
  match cs with
  | [] => true
  | c :: rest =>
      holds ps r (Some (cond_expr c n)) && conds_hold ps r rest (n + cond_arity c)
  end.

(** Filters whose comparisons no row passes. *)
Definition eq_null : object := [("title", JObj [("eq", JNull)])].

Definition in_nothing : object := [("title", JObj [("in", JArr [])])].

Definition not_one : object := [("title", JObj [("neq", JStr "one")])].

Definition filtered (filter : object) : SelectOptions :=
  {| opt_filter := Some filter; opt_orderBy := None; opt_pagination := None;
     opt_columns := None |}.

(** *** Rows of a workspace *)

(** The rows of a workspace. *)
Definition of_workspace (ws : string) (r : row) : bool :=
  sql_eqb (row_get r "workspaceId") (SText ws).

Definition rows_of (ws : string) (t : table) : table :=
  List.filter (of_workspace ws) t.

(** Two databases hold the same rows of a workspace in a table, in the
    same order. *)
Definition same_rows_of (ws table : string) (db1 db2 : D1Database) : Prop :=
  reject_surplus db1 = reject_surplus db2
  /\ match get_table (data db1) table, get_table (data db2) table with
     | Some t1, Some t2 => rows_of ws t1 = rows_of ws t2
     | None, None => True
     | _, _ => False
     end.

(** One company of each of two tenants, and a request for all of them. *)
Definition two_tenants : D1Database :=
  Scenario.engine true
    [("company",
      [[("id", SText "c1"); ("workspaceId", SText "T1"); ("name", SText "Acme")];
       [("id", SText "c2"); ("workspaceId", SText "T2"); ("name", SText "Bolt")]])].

Definition all_rows : SelectOptions :=
  {| opt_filter := None; opt_orderBy := None; opt_pagination := None;
     opt_columns := None |}.

(* ================================================================= *)
(** * Part II. Lemmas *)
(* ================================================================= *)

(** ** Text *)

Lemma append_assoc (a b c : string) : (a ++ b) ++ c = a ++ (b ++ c).
Proof. induction a; simpl; congruence. Qed.

Lemma append_nil_r (a : string) : a ++ "" = a.
Proof. induction a; simpl; congruence. Qed.

Lemma concat_cons2 (sep x y : string) (l : list string) :
  String.concat sep (x :: y :: l) = x ++ sep ++ String.concat sep (y :: l).
Proof. reflexivity. Qed.

Lemma map_const_repeat {A B : Type} (b : B) (l : list A) :
  map (fun _ => b) l = repeat b (List.length l).
Proof. induction l; simpl; congruence. Qed.

(** ** The WHERE clause as a list of conditions *)

Lemma where_entry_shape (acc : list string * list jsval) (e : string * jsval) :
  where_entry acc e
  = ((fst acc ++ map cond_text (entry_conds e))%list,
     (snd acc ++ entry_params e)%list).
Proof.
  destruct acc as [cs ps], e as [f v]. unfold where_entry, entry_conds, entry_params.
  destruct v; simpl; unfold push, push_all; simpl;
    rewrite ?app_nil_r; try reflexivity.
  destruct (obj_has props "eq"), (obj_has props "neq"), (obj_has props "in"),
    (obj_has props "like"); simpl;
    try (destruct (obj_get props "in"); simpl);
    rewrite ?map_const_repeat, ?app_nil_r, <- ?app_assoc; simpl; reflexivity.
Qed.

Lemma where_fold_shape (l : object) (acc : list string * list jsval) :
  fold_left where_entry l acc
  = ((fst acc ++ map cond_text (flat_map entry_conds l))%list,
     (snd acc ++ flat_map entry_params l)%list).
Proof.
  revert acc. induction l as [|e l IH]; intros acc.
  - simpl. rewrite !app_nil_r. destruct acc; reflexivity.
  - simpl. rewrite IH, where_entry_shape. simpl.
    rewrite map_app, <- !app_assoc. reflexivity.
Qed.

Lemma buildWhereClause_shape (filter : option object) (workspaceId : string) :
  buildWhereClause filter workspaceId
  = (String.concat " AND " (map cond_text (where_conds filter)),
     JStr workspaceId :: where_params filter).
Proof.
  unfold buildWhereClause, where_conds, where_params, filter_entries.
  destruct filter as [f|]; [|reflexivity].
  unfold Object_entries. rewrite where_fold_shape. reflexivity.
Qed.

(** ** Lexing *)

Lemma Lexes_app st a st1 o1 b st2 o2 :
  Lexes st a st1 o1 -> Lexes st1 b st2 o2 -> Lexes st (a ++ b) st2 (o1 ++ o2).
Proof.
  unfold Lexes. revert st o1. induction a as [|c a IH]; intros st o1 Ha Hb.
  - simpl in *. inversion Ha; subst. simpl. exact Hb.
  - simpl in *. destruct (step st c) as [[s1 out1]|]; [|discriminate].
    destruct (run s1 a) as [[s2 out2]|] eqn:E; [|discriminate].
    inversion Ha; subst.
    rewrite (IH s1 out2 E Hb). rewrite app_assoc. reflexivity.
Qed.

Lemma Lexes_ident acc f :
  no_dquote f = true -> Lexes (LIdent acc) f (LIdent (acc ++ f)) [].
Proof.
  unfold Lexes, no_dquote. revert acc. induction f as [|c f IH]; intros acc H.
  - simpl. rewrite append_nil_r. reflexivity.
  - simpl in H. apply andb_true_iff in H as [Hc Hf].
    simpl. apply negb_true_iff in Hc. rewrite Hc.
    rewrite (IH _ Hf). rewrite append_assoc. reflexivity.
Qed.

Lemma Lexes_dquoted f :
  no_dquote f = true -> Lexes LNormal (dquoted f) (LIdentQ f) [].
Proof.
  intros H. unfold dquoted.
  change [] with (@nil token ++ ([] ++ []))%list.
  eapply Lexes_app; [vm_compute; reflexivity|].
  eapply Lexes_app; [apply Lexes_ident; exact H|].
  vm_compute. reflexivity.
Qed.

Lemma space_not_word x : is_space x = true -> is_word_char x = false.
Proof.
  destruct x as [[] [] [] [] [] [] [] []]; vm_compute; congruence.
Qed.

Lemma start_space x : is_space x = true -> start x = Some (LNormal, []).
Proof. intros H. unfold start. rewrite H. reflexivity. Qed.

Lemma settles_normal : settles LNormal [].
Proof. intros x H. simpl. apply start_space, H. Qed.

Lemma settles_word acc : settles (LWord acc) [word_token acc].
Proof.
  intros x H. simpl. rewrite (space_not_word x H). unfold emit_then.
  rewrite (start_space x H). reflexivity.
Qed.

Lemma settles_identq acc : settles (LIdentQ acc) [TIdent acc].
Proof.
  intros x H. simpl.
  assert (E : (ascii_N x =? 34)%N = false).
  { destruct x as [[] [] [] [] [] [] [] []]; vm_compute in H |- *; congruence. }
  rewrite E. unfold emit_then. rewrite (start_space x H). reflexivity.
Qed.

(** A text followed by white space. *)
Lemma Lexes_then_space st s st1 o1 o2 x rest st' out :
  Lexes st s st1 o1 -> settles st1 o2 -> is_space x = true ->
  Lexes LNormal rest st' out ->
  Lexes st (s ++ String x rest) st' (o1 ++ o2 ++ out).
Proof.
  intros Hs Hset Hx Hr.
  eapply Lexes_app; [exact Hs|].
  unfold Lexes in *. simpl. rewrite (Hset x Hx), Hr. reflexivity.
Qed.

Lemma Lexes_placeholders k :
  Lexes LNormal (String.concat ", " (repeat "?" k)) LNormal
    (Shape.commas (repeat TParam k)).
Proof.
  induction k as [|k IH]; [reflexivity|].
  destruct k as [|k]; [reflexivity|].
  change (repeat "?" (S (S k))) with ("?" :: "?" :: repeat "?" k).
  rewrite concat_cons2.
  change (Shape.commas (repeat TParam (S (S k))))
    with ([TParam; TSym ","] ++ Shape.commas (repeat TParam (S k)))%list.
  change ("?" ++ ", " ++ String.concat ", " ("?" :: repeat "?" k))
    with ("?, " ++ String.concat ", " (repeat "?" (S k))).
  eapply Lexes_app; [vm_compute; reflexivity|exact IH].
Qed.

(** The text of a condition, read up to the state that a following white
    space settles. *)
Lemma Lexes_cond c :
  cond_field_ok c = true ->
  exists st o1 o2,
    Lexes LNormal (cond_text c) st o1 /\ settles st o2
    /\ (o1 ++ o2)%list = Shape.cond_tokens c.
Proof.
  intros H. destruct c; simpl in H; cbn [cond_text].
  - exists LNormal, [TWord "workspaceId"; TSym "="; TParam], [].
    split; [vm_compute; reflexivity|]. split; [apply settles_normal|reflexivity].
  - exists LNormal, (Shape.cond_tokens CNotDeleted), [].
    split; [vm_compute; reflexivity|]. split; [apply settles_normal|apply app_nil_r].
  - exists (LWord "NULL"), [TIdent f; TWord "IS"], [word_token "NULL"].
    split; [|split; [apply settles_word|reflexivity]].
    change [TIdent f; TWord "IS"] with ([] ++ [TIdent f; TWord "IS"])%list.
    eapply Lexes_app; [apply Lexes_dquoted, H|vm_compute; reflexivity].
  - exists LNormal, [TIdent f; TSym "="; TParam], [].
    split; [|split; [apply settles_normal|reflexivity]].
    change [TIdent f; TSym "="; TParam] with ([] ++ [TIdent f; TSym "="; TParam])%list.
    eapply Lexes_app; [apply Lexes_dquoted, H|vm_compute; reflexivity].
  - exists LNormal, [TIdent f; TNeq; TParam], [].
    split; [|split; [apply settles_normal|reflexivity]].
    change [TIdent f; TNeq; TParam] with ([] ++ [TIdent f; TNeq; TParam])%list.
    eapply Lexes_app; [apply Lexes_dquoted, H|vm_compute; reflexivity].
  - exists LNormal, (Shape.cond_tokens (CIn f k)), [].
    split; [|split; [apply settles_normal|apply app_nil_r]].
    change (Shape.cond_tokens (CIn f k))
      with ([] ++ [TIdent f; TWord "IN"; TSym "("]
               ++ Shape.commas (repeat TParam k) ++ [TSym ")"])%list.
    eapply Lexes_app; [apply Lexes_dquoted, H|].
    eapply Lexes_app; [vm_compute; reflexivity|].
    eapply Lexes_app; [apply Lexes_placeholders|vm_compute; reflexivity].
  - exists (LWord "NOCASE"), [TIdent f; TWord "LIKE"; TParam; TWord "COLLATE"],
      [word_token "NOCASE"].
    split; [|split; [apply settles_word|reflexivity]].
    change [TIdent f; TWord "LIKE"; TParam; TWord "COLLATE"]
      with ([] ++ [TIdent f; TWord "LIKE"; TParam; TWord "COLLATE"])%list.
    eapply Lexes_app; [apply Lexes_dquoted, H|vm_compute; reflexivity].
Qed.

(** A WHERE clause followed by white space. *)
Lemma Lexes_conds cs x rest st' out :
  cs <> [] -> forallb cond_field_ok cs = true -> is_space x = true ->
  Lexes LNormal rest st' out ->
  Lexes LNormal (String.concat " AND " (map cond_text cs) ++ String x rest) st'
    (Shape.conds_tokens cs ++ out).
Proof.
  intros Hne Hok Hx Hr. induction cs as [|c cs IH]; [congruence|].
  simpl in Hok. apply andb_true_iff in Hok as [Hc Hcs].
  destruct (Lexes_cond c Hc) as (st & o1 & o2 & Hl & Hset & Ho).
  destruct cs as [|c' cs].
  - simpl. rewrite <- Ho, <- app_assoc.
    eapply Lexes_then_space; eassumption.
  - change (map cond_text (c :: c' :: cs))
      with (cond_text c :: cond_text c' :: map cond_text cs).
    rewrite concat_cons2.
    change (Shape.conds_tokens (c :: c' :: cs))
      with (Shape.cond_tokens c ++ TWord "AND" :: Shape.conds_tokens (c' :: cs))%list.
    rewrite <- Ho, !append_assoc, <- !app_assoc.
    change (" AND " ++ String.concat " AND " (cond_text c' :: map cond_text cs)
              ++ String x rest)
      with (String " " ("AND " ++ String.concat " AND " (map cond_text (c' :: cs))
              ++ String x rest)).
    eapply Lexes_then_space; [exact Hl|exact Hset|reflexivity|].
    change (Lexes LNormal
              ("AND " ++ String.concat " AND " (map cond_text (c' :: cs))
                 ++ String x rest) st'
              ([TWord "AND"] ++ (Shape.conds_tokens (c' :: cs) ++ out))%list).
    eapply Lexes_app; [vm_compute; reflexivity|].
    apply IH; [congruence|exact Hcs].
Qed.

Lemma Lexes_app' st a st1 o1 b st2 o2 all :
  Lexes st a st1 o1 -> Lexes st1 b st2 o2 -> all = (o1 ++ o2)%list ->
  Lexes st (a ++ b) st2 all.
Proof. intros Ha Hb ->. eapply Lexes_app; eassumption. Qed.

Lemma Lexes_then_space' st s st1 o1 o2 x rest st' out all :
  Lexes st s st1 o1 -> settles st1 o2 -> is_space x = true ->
  Lexes LNormal rest st' out -> all = (o1 ++ o2 ++ out)%list ->
  Lexes st (s ++ String x rest) st' all.
Proof. intros Hs Hset Hx Hr ->. eapply Lexes_then_space; eassumption. Qed.

(** ** Parsing *)

Lemma collations_stop k e ts :
  head_is "COLLATE" ts = false -> collations k e ts = (e, ts).
Proof.
  intros H. destruct k as [|k]; [reflexivity|].
  destruct ts as [|t [|[] ts]]; try reflexivity;
    simpl in H |- *; rewrite H; reflexivity.
Qed.

Lemma chain_stop sep item mk k lhs ts n :
  match ts with t :: _ => sep t = false | [] => True end ->
  chain sep item mk k lhs ts n = Some (lhs, ts, n).
Proof.
  intros H. destruct ts as [|t ts]; destruct k; simpl; try reflexivity;
    rewrite H; reflexivity.
Qed.

Lemma collations_collate k e c ts :
  collations (S k) e (TWord "COLLATE" :: TWord c :: ts) = collations k (ECollate e c) ts.
Proof. reflexivity. Qed.

Lemma comma_list_S {A : Type} (item : parser A) k ts n :
  comma_list item (S k) ts n
  = match item ts n with
    | Some (a, TSym "," :: ts1, n1) =>
        match comma_list item k ts1 n1 with
        | Some (l, ts2, n2) => Some (a :: l, ts2, n2)
        | None => None
        end
    | Some (a, ts1, n1) => Some ([a], ts1, n1)
    | None => None
    end.
Proof. reflexivity. Qed.

Section Parser_steps.

#[local] Arguments collations : simpl never.
#[local] Arguments chain : simpl never.
#[local] Arguments comma_list : simpl never.

Section Operand.

Variable sub : parser expr.

Lemma parse_operand_ident f ts n :
  head_is "COLLATE" ts = false ->
  parse_operand sub (TIdent f :: ts) n = Some (ECol f, ts, n).
Proof.
  intros H. unfold parse_operand. simpl. rewrite collations_stop by exact H.
  reflexivity.
Qed.

Lemma parse_operand_word w ts n :
  String.eqb (toUpperCase w) "NULL" = false ->
  String.eqb (toUpperCase w) "CASE" = false ->
  String.eqb (toUpperCase w) "COALESCE" = false ->
  String.eqb (toUpperCase w) "SUBSTR" = false ->
  reserved w = false ->
  head_is "COLLATE" ts = false ->
  parse_operand sub (TWord w :: ts) n = Some (ECol w, ts, n).
Proof.
  intros H1 H2 H3 H4 H5 H. unfold parse_operand. simpl.
  rewrite H1, H2, H3, H4, H5. rewrite collations_stop by exact H.
  reflexivity.
Qed.

Lemma parse_operand_param ts n :
  head_is "COLLATE" ts = false ->
  parse_operand sub (TParam :: ts) n = Some (EParam n, ts, S n).
Proof.
  intros H. unfold parse_operand. simpl. rewrite collations_stop by exact H.
  reflexivity.
Qed.

Lemma parse_operand_param_nocase ts n :
  head_is "COLLATE" ts = false ->
  parse_operand sub (TParam :: TWord "COLLATE" :: TWord "NOCASE" :: ts) n
  = Some (ECollate (EParam n) "NOCASE", ts, S n).
Proof.
  intros H. unfold parse_operand. simpl.
  rewrite collations_collate, collations_stop by exact H.
  reflexivity.
Qed.

Lemma parse_operand_num z ts n :
  head_is "COLLATE" ts = false ->
  parse_operand sub (TNum z :: ts) n = Some (ENum z, ts, n).
Proof.
  intros H. unfold parse_operand. simpl. rewrite collations_stop by exact H.
  reflexivity.
Qed.

Lemma parse_operand_neg z ts n :
  head_is "COLLATE" ts = false ->
  parse_operand sub (TSym "-" :: TNum z :: ts) n = Some (ENum (- z), ts, n).
Proof.
  intros H. unfold parse_operand. simpl. rewrite collations_stop by exact H.
  reflexivity.
Qed.

Lemma parse_operand_paren e ts ts' n n' :
  sub ts n = Some (e, TSym ")" :: ts', n') ->
  head_is "COLLATE" ts' = false ->
  parse_operand sub (TSym "(" :: ts) n = Some (e, ts', n').
Proof.
  intros Hs H. unfold parse_operand. simpl. rewrite Hs.
  rewrite collations_stop by exact H. reflexivity.
Qed.

End Operand.

#[local] Arguments parse_operand : simpl never.

End Parser_steps.

Ltac ends_cases H :=
  destruct H as [->|(?w & ?r & -> & [->|[->| ->]])].

Section Parser_conditions.

#[local] Arguments collations : simpl never.
#[local] Arguments chain : simpl never.
#[local] Arguments comma_list : simpl never.
#[local] Arguments parse_operand : simpl never.

Lemma parse_or_param sub t ts n :
  t = TSym "," \/ t = TSym ")" ->
  parse_or sub (TParam :: t :: ts) n = Some (EParam n, t :: ts, S n).
Proof.
  intros [->| ->]; unfold parse_or, parse_and, parse_cmp;
    rewrite parse_operand_param by reflexivity; simpl;
    rewrite !chain_stop by reflexivity; reflexivity.
Qed.

Lemma comma_list_params sub k K rest n :
  (k <= K)%nat -> (0 < k)%nat ->
  comma_list (parse_or sub) K (commas (repeat TParam k) ++ TSym ")" :: rest)%list n
  = Some (map EParam (seq n k), TSym ")" :: rest, (n + k)%nat).
Proof.
  revert K n. induction k as [|k IH]; intros K n HK Hk; [lia|].
  destruct K as [|K]; [lia|].
  destruct k as [|k].
  - cbn [repeat commas app]. rewrite comma_list_S.
    rewrite parse_or_param by (right; reflexivity).
    simpl. replace (n + 1)%nat with (S n) by lia. reflexivity.
  - change (commas (repeat TParam (S (S k))) ++ TSym ")" :: rest)%list
      with (TParam :: TSym "," :: (commas (repeat TParam (S k)) ++ TSym ")" :: rest))%list.
    rewrite comma_list_S, parse_or_param by (left; reflexivity).
    rewrite IH by lia. simpl. replace (n + S (S k))%nat with (S (n + S k)) by lia.
    reflexivity.
Qed.

Lemma length_commas_params k rest :
  (k <= List.length (commas (repeat TParam k) ++ TSym ")" :: rest)%list)%nat.
Proof.
  induction k as [|k IH]; [lia|].
  destruct k as [|k]; [simpl; lia|].
  change (commas (repeat TParam (S (S k))) ++ TSym ")" :: rest)%list
    with (TParam :: TSym "," :: (commas (repeat TParam (S k)) ++ TSym ")" :: rest))%list.
  simpl List.length. simpl in IH. lia.
Qed.

Lemma cond_tokens_in f k rest :
  (cond_tokens (CIn f k) ++ rest)%list
  = TIdent f :: TWord "IN" :: TSym "("
      :: (commas (repeat TParam k) ++ TSym ")" :: rest)%list.
Proof. simpl. rewrite <- app_assoc. reflexivity. Qed.

(** One condition, read by the comparison level of the parser. *)
Lemma parse_cmp_cond sub c rest n :
  ends_cond rest ->
  parse_cmp (parse_or sub) (cond_tokens c ++ rest)%list n
  = Some (cond_expr c n, rest, (n + cond_arity c)%nat).
Proof.
  intros H. destruct c; [| | | | |rewrite cond_tokens_in|];
    cbn [cond_tokens cond_expr cond_arity app]; unfold parse_cmp.
  - rewrite parse_operand_word by reflexivity. cbn iota.
    rewrite parse_operand_param by (ends_cases H; reflexivity).
    replace (n + 1)%nat with (S n) by lia. reflexivity.
  - erewrite parse_operand_paren;
      [|unfold parse_or, parse_and, parse_cmp;
        rewrite parse_operand_ident by reflexivity; simpl;
        rewrite !chain_stop by reflexivity; reflexivity
       |ends_cases H; reflexivity].
    replace (n + 0)%nat with n by lia.
    ends_cases H; reflexivity.
  - rewrite parse_operand_ident by reflexivity. simpl.
    replace (n + 0)%nat with n by lia.
    ends_cases H; reflexivity.
  - rewrite parse_operand_ident by reflexivity. cbn iota.
    rewrite parse_operand_param by (ends_cases H; reflexivity).
    replace (n + 1)%nat with (S n) by lia. reflexivity.
  - rewrite parse_operand_ident by reflexivity. cbn iota.
    rewrite parse_operand_param by (ends_cases H; reflexivity).
    replace (n + 1)%nat with (S n) by lia. reflexivity.
  - rewrite parse_operand_ident by reflexivity.
    destruct k as [|k].
    + simpl. replace (n + 0)%nat with n by lia. reflexivity.
    + assert (E : exists t ts, (commas (repeat TParam (S k)) ++ TSym ")" :: rest)%list
                              = t :: ts /\ t <> TSym ")").
      { destruct k; simpl; eexists; eexists; (split; [reflexivity|discriminate]). }
      destruct E as (t & ts & E & Ht).
      pose proof (length_commas_params (S k) rest) as HL.
      pose proof (comma_list_params sub (S k) _ rest n HL ltac:(lia)) as HP.
      rewrite E in HP |- *. simpl. cbn [List.length] in HP.
      destruct t as [?w|?i|?s|?z| | |c]; try (rewrite HP; reflexivity).
      destruct c as [[] [] [] [] [] [] [] []]; try (rewrite HP; reflexivity).
      congruence.
  - rewrite parse_operand_ident by reflexivity. simpl.
    rewrite parse_operand_param_nocase by (ends_cases H; reflexivity).
    replace (n + 1)%nat with (S n) by lia.
    ends_cases H; reflexivity.
Qed.

Lemma chain_S sep item mk k lhs t ts n :
  sep t = true ->
  chain sep item mk (S k) lhs (t :: ts) n
  = match item ts n with
    | Some (b, ts2, n2) => chain sep item mk k (mk lhs b) ts2 n2
    | None => None
    end.
Proof. intros H. unfold chain at 1. rewrite H. reflexivity. Qed.

Lemma ends_where_cond ts : ends_where ts -> ends_cond ts.
Proof.
  intros [->|(w & r & -> & [->| ->])]; [left; reflexivity| |];
    right; eexists; eexists; (split; [reflexivity|tauto]).
Qed.

Lemma conds_tokens_cons c cs :
  conds_tokens (c :: cs) = (cond_tokens c ++ and_tokens cs)%list.
Proof.
  revert c. induction cs as [|c' cs IH]; intros c.
  - simpl. rewrite app_nil_r. reflexivity.
  - change (conds_tokens (c :: c' :: cs))
      with (cond_tokens c ++ TWord "AND" :: conds_tokens (c' :: cs))%list.
    rewrite IH. reflexivity.
Qed.

Lemma and_tokens_ends cs rest :
  ends_where rest -> ends_cond (and_tokens cs ++ rest)%list.
Proof.
  intros H. destruct cs as [|c cs].
  - apply ends_where_cond, H.
  - right. simpl. eexists; eexists. split; [reflexivity|tauto].
Qed.

Lemma chain_conds sub cs lhs n k rest :
  ends_where rest -> (List.length cs <= k)%nat ->
  chain (is_kw "AND") (parse_cmp (parse_or sub)) EAnd k lhs
    (and_tokens cs ++ rest)%list n
  = Some (conj lhs cs n, rest, (n + arity cs)%nat).
Proof.
  intros Hr. revert lhs n k. induction cs as [|c cs IH]; intros lhs n k Hk.
  - simpl. replace (n + 0)%nat with n by lia.
    apply chain_stop. destruct Hr as [->|(w & r & -> & [->| ->])]; reflexivity.
  - destruct k as [|k]; [simpl in Hk; lia|].
    change (and_tokens (c :: cs) ++ rest)%list
      with (TWord "AND" :: (cond_tokens c ++ (and_tokens cs ++ rest)))%list
      || (simpl; rewrite <- app_assoc).
    rewrite chain_S by reflexivity.
    rewrite parse_cmp_cond by (apply and_tokens_ends, Hr).
    rewrite IH by (simpl in Hk; lia).
    simpl. replace (n + cond_arity c + arity cs)%nat
      with (n + (cond_arity c + arity cs))%nat by lia.
    reflexivity.
Qed.

Lemma length_and_tokens cs rest :
  (List.length cs <= List.length (and_tokens cs ++ rest)%list)%nat.
Proof.
  induction cs as [|c cs IH]; [simpl; lia|].
  simpl. rewrite <- app_assoc, !length_app in *. lia.
Qed.

Lemma parse_or_where sub cs rest :
  cs <> [] -> ends_where rest ->
  parse_or (parse_or sub) (conds_tokens cs ++ rest)%list O
  = Some (where_expr cs, rest, arity cs).
Proof.
  intros Hne Hr. destruct cs as [|c cs]; [congruence|].
  rewrite conds_tokens_cons, <- app_assoc.
  unfold parse_or at 1, parse_and.
  rewrite parse_cmp_cond by (apply and_tokens_ends, Hr).
  rewrite chain_conds by (exact Hr || apply length_and_tokens).
  rewrite chain_stop.
  - reflexivity.
  - destruct Hr as [->|(w & r & -> & [->| ->])]; [exact I|reflexivity|reflexivity].
Qed.

Lemma parse_expr_where cs rest :
  cs <> [] -> ends_where rest ->
  parse_expr (conds_tokens cs ++ rest)%list O
  = Some (where_expr cs, rest, arity cs).
Proof.
  intros Hne Hr. unfold parse_expr. cbn [parse_expr_depth].
  apply parse_or_where; assumption.
Qed.

End Parser_conditions.

(** ** Decimal numbers *)

Lemma digits_of_uint d : string_forallb is_digit (NilEmpty.string_of_uint d) = true.
Proof. induction d; simpl; auto. Qed.

Lemma N_to_string_digits n : string_forallb is_digit (N_to_string n) = true.
Proof.
  unfold N_to_string, NilZero.string_of_uint.
  destruct (N.to_uint n); try reflexivity; apply (digits_of_uint (_ _)).
Qed.

Lemma N_to_string_nonempty n : N_to_string n <> "".
Proof.
  unfold N_to_string, NilZero.string_of_uint.
  destruct (N.to_uint n); simpl; discriminate.
Qed.

Lemma N_to_uint_nonnil n : N.to_uint n <> Decimal.Nil.
Proof.
  destruct n; simpl; [discriminate|].
  apply DecimalPos.Unsigned.to_uint_nonnil.
Qed.

Lemma digits_to_N_to_string n : digits_to_N (N_to_string n) = n.
Proof.
  unfold digits_to_N, N_to_string.
  rewrite NilZero.usu by apply N_to_uint_nonnil.
  apply DecimalN.Unsigned.of_to.
Qed.

Lemma digit_word c : is_digit c = true -> is_word_char c = true /\ is_space c = false.
Proof.
  destruct c as [[] [] [] [] [] [] [] []]; vm_compute; intuition congruence.
Qed.

Lemma Lexes_word acc w :
  string_forallb is_digit w = true -> Lexes (LWord acc) w (LWord (acc ++ w)) [].
Proof.
  unfold Lexes. revert acc. induction w as [|c w IH]; intros acc H.
  - simpl. rewrite append_nil_r. reflexivity.
  - simpl in H. apply andb_true_iff in H as [Hc Hw].
    simpl. rewrite (proj1 (digit_word c Hc)).
    rewrite (IH _ Hw), append_assoc. reflexivity.
Qed.

Lemma Lexes_number n :
  Lexes LNormal (N_to_string n) (LWord (N_to_string n)) [].
Proof.
  pose proof (N_to_string_digits n) as H. pose proof (N_to_string_nonempty n) as Hne.
  destruct (N_to_string n) as [|c w]; [congruence|].
  simpl in H. apply andb_true_iff in H as [Hc Hw].
  unfold Lexes. simpl. unfold start.
  rewrite (proj2 (digit_word c Hc)), (proj1 (digit_word c Hc)).
  pose proof (Lexes_word (String c "") w Hw) as E. unfold Lexes in E. simpl in E.
  rewrite E. reflexivity.
Qed.

Lemma word_token_number n : word_token (N_to_string n) = TNum (Z.of_N n).
Proof.
  unfold word_token. rewrite N_to_string_digits, digits_to_N_to_string. reflexivity.
Qed.

Lemma digit_not_minus c : is_digit c = true -> (ascii_N c =? 45)%N = false.
Proof.
  destruct c as [[] [] [] [] [] [] [] []]; vm_compute; congruence.
Qed.

Lemma Lexes_minus_number n :
  Lexes LMinus (N_to_string n) (LWord (N_to_string n)) [TSym "-"].
Proof.
  pose proof (N_to_string_digits n) as H. pose proof (N_to_string_nonempty n) as Hne.
  destruct (N_to_string n) as [|c w]; [congruence|].
  simpl in H. apply andb_true_iff in H as [Hc Hw].
  pose proof (Lexes_word (String c "") w Hw) as E.
  unfold Lexes in *. cbn [run step]. rewrite (digit_not_minus c Hc).
  unfold emit_then, start.
  rewrite (proj2 (digit_word c Hc)), (proj1 (digit_word c Hc)).
  simpl in E. rewrite E. reflexivity.
Qed.

Lemma Lexes_Z z :
  exists o1,
    Lexes LNormal (Z_to_string z) (LWord (N_to_string (Z.abs_N z))) o1
    /\ (o1 ++ [word_token (N_to_string (Z.abs_N z))])%list = number_tokens z.
Proof.
  unfold Z_to_string, number_tokens. destruct (z <? 0) eqn:E.
  - exists [TSym "-"]. split.
    + change [TSym "-"] with ([] ++ [TSym "-"])%list.
      eapply Lexes_app; [vm_compute; reflexivity|apply Lexes_minus_number].
    + rewrite word_token_number. simpl. f_equal. f_equal. f_equal.
      apply Z.ltb_lt in E. rewrite N2Z.inj_abs_N. lia.
  - exists []. split.
    + apply Z.ltb_ge in E.
      replace (Z.to_N z) with (Z.abs_N z) by (destruct z; simpl; try reflexivity; lia).
      apply Lexes_number.
    + rewrite word_token_number. simpl. f_equal. f_equal.
      apply Z.ltb_ge in E. rewrite N2Z.inj_abs_N. lia.
Qed.

(** ** ORDER BY *)

Lemma buildOrderByClause_shape s specs :
  buildOrderByClause (Some (s :: specs))
  = "ORDER BY " ++ String.concat ", "
                     (map spec_text (s :: specs) ++ [id_asc])%list.
Proof.
  unfold buildOrderByClause, push. f_equal. f_equal. f_equal.
  apply map_ext. intros [f [[]|] [[]|]]; reflexivity.
Qed.

Lemma concat_cons_app (sep x : string) (l : list string) (y : string) :
  String.concat sep (x :: l ++ [y])%list = x ++ sep ++ String.concat sep (l ++ [y])%list.
Proof. destruct l; reflexivity. Qed.

Lemma Lexes_spec s :
  no_dquote (field s) = true ->
  Lexes LNormal (spec_text s ++ ", ") LNormal (spec_tokens s ++ [TSym ","]).
Proof.
  intros H. unfold spec_text, spec_tokens. rewrite !append_assoc.
  change (([TIdent (field s); TWord (Direction_text (spec_direction s)); TWord "NULLS";
            TWord (NullsOrder_text (spec_nulls s))] ++ [TSym ","])%list)
    with ([] ++ [TIdent (field s); TWord (Direction_text (spec_direction s));
                 TWord "NULLS"; TWord (NullsOrder_text (spec_nulls s)); TSym ","])%list.
  eapply Lexes_app; [apply Lexes_dquoted, H|].
  generalize (field s). intros f.
  destruct (spec_direction s), (spec_nulls s); vm_compute; reflexivity.
Qed.

Lemma Lexes_specs specs x rest st' out :
  forallb (fun s => no_dquote (field s)) specs = true -> is_space x = true ->
  Lexes LNormal rest st' out ->
  Lexes LNormal
    (String.concat ", " (map spec_text specs ++ [id_asc])%list
       ++ String x rest) st' (specs_tokens specs ++ out).
Proof.
  intros Hok Hx Hr. induction specs as [|s specs IH].
  - cbn [map app String.concat specs_tokens]. unfold id_asc.
    eapply Lexes_then_space';
      [vm_compute; reflexivity|apply settles_word|exact Hx|exact Hr|reflexivity].
  - simpl in Hok. apply andb_true_iff in Hok as [Hs Hok].
    cbn [map specs_tokens]. rewrite <- app_comm_cons, concat_cons_app.
    rewrite !append_assoc.
    change (", " ++ String.concat ", " (map spec_text specs ++ [id_asc])
              ++ String x rest)
      with (", " ++ (String.concat ", " (map spec_text specs ++ [id_asc])
              ++ String x rest)).
    rewrite <- append_assoc.
    replace ((spec_tokens s ++ TSym "," :: specs_tokens specs) ++ out)%list
      with ((spec_tokens s ++ [TSym ","]) ++ (specs_tokens specs ++ out))%list
      by (rewrite <- !app_assoc; reflexivity).
    eapply Lexes_app; [apply Lexes_spec, Hs|apply IH, Hok].
Qed.

Lemma Lexes_order ob x rest st' out :
  order_ok ob = true -> is_space x = true ->
  Lexes LNormal rest st' out ->
  Lexes LNormal (buildOrderByClause ob ++ String x rest) st' (order_tokens ob ++ out).
Proof.
  intros Hok Hx Hr.
  destruct ob as [[|s specs]|].
  - cbn [buildOrderByClause order_tokens].
    eapply Lexes_then_space';
      [vm_compute; reflexivity|apply settles_word|exact Hx|exact Hr|reflexivity].
  - rewrite buildOrderByClause_shape, append_assoc.
    eapply Lexes_app';
      [vm_compute; reflexivity|apply Lexes_specs; [exact Hok|exact Hx|exact Hr]|].
    reflexivity.
  - cbn [buildOrderByClause order_tokens].
    eapply Lexes_then_space';
      [vm_compute; reflexivity|apply settles_word|exact Hx|exact Hr|reflexivity].
Qed.

Lemma nl_space : is_space "010" = true.
Proof. reflexivity. Qed.

Lemma Lexes_conds_nl cs rest st' out :
  cs <> [] -> forallb cond_field_ok cs = true ->
  Lexes LNormal rest st' out ->
  Lexes LNormal (String.concat " AND " (map cond_text cs) ++ nl ++ rest) st'
    (conds_tokens cs ++ out).
Proof. intros. apply (Lexes_conds cs "010" rest); auto. Qed.

Lemma Lexes_order_nl ob rest st' out :
  order_ok ob = true -> Lexes LNormal rest st' out ->
  Lexes LNormal (buildOrderByClause ob ++ nl ++ rest) st' (order_tokens ob ++ out).
Proof. intros. apply (Lexes_order ob "010" rest); auto. Qed.

Lemma Lexes_Z_nl z rest st' out :
  Lexes LNormal rest st' out ->
  Lexes LNormal (Z_to_string z ++ nl ++ rest) st' (number_tokens z ++ out).
Proof.
  intros Hr. destruct (Lexes_Z z) as (o1 & Hl & Ho).
  rewrite <- Ho, <- app_assoc.
  apply (Lexes_then_space _ _ _ _ _ "010" rest _ _ Hl (settles_word _) nl_space Hr).
Qed.

Lemma where_conds_ok filter :
  fields_ok filter = true -> forallb cond_field_ok (where_conds filter) = true.
Proof.
  unfold fields_ok, where_conds. intros H. simpl.
  induction (filter_entries filter) as [|[f v] l IH]; [reflexivity|].
  simpl in H. apply andb_true_iff in H as [Hf Hl].
  simpl. rewrite forallb_app, (IH Hl), andb_true_r.
  unfold entry_conds.
  destruct v; simpl; rewrite ?Hf; try reflexivity.
  destruct (obj_has props "eq"), (obj_has props "neq"), (obj_has props "in"),
    (obj_has props "like"); simpl; rewrite ?Hf; try reflexivity;
    destruct (obj_get props "in"); simpl; rewrite ?Hf; reflexivity.
Qed.

Lemma where_conds_nonempty filter : where_conds filter <> [].
Proof. discriminate. Qed.

Ltac lex_piece :=
  first
    [ apply Lexes_dquoted; assumption
    | vm_compute; reflexivity ].

Ltac lex_go :=
  repeat first
    [ apply Lexes_conds_nl;
        [apply where_conds_nonempty|apply where_conds_ok; assumption|]
    | apply Lexes_order_nl; [assumption|]
    | apply Lexes_Z_nl
    | eapply Lexes_app; [lex_piece|]
    | lex_piece ].

(** The tokens of the three reads. *)

Lemma buildWhereClause_text filter ws :
  buildWhereClause filter ws = (where_text filter, JStr ws :: where_params filter).
Proof. apply buildWhereClause_shape. Qed.

Lemma buildPaginationClause_text p :
  buildPaginationClause p = ("LIMIT " ++ Z_to_string (page_limit p + 1), page_limit p).
Proof. reflexivity. Qed.

Lemma lex_select table filter orderBy p :
  no_dquote table = true -> fields_ok filter = true -> order_ok orderBy = true ->
  lex (select_query "*" table (where_text filter)
         (buildOrderByClause orderBy) ("LIMIT " ++ Z_to_string (page_limit p + 1)))
  = Some ([TWord "SELECT"; TSym "*"; TWord "FROM"; TIdent table; TWord "WHERE"]
            ++ conds_tokens (where_conds filter)
            ++ order_tokens orderBy
            ++ TWord "LIMIT" :: number_tokens (page_limit p + 1))%list.
Proof.
  intros Ht Hf Ho. unfold where_text, page_limit.
  unfold lex, select_query.
  assert (E : exists out,
             Lexes LNormal
               (nl ++ "    SELECT " ++ "*" ++ nl ++ "    FROM " ++ dquoted table ++ nl
                  ++ "    WHERE "
                  ++ String.concat " AND " (map cond_text (where_conds filter)) ++ nl
                  ++ "    " ++ buildOrderByClause orderBy ++ nl ++ "    "
                  ++ ("LIMIT " ++ Z_to_string
                        (match first p with
                         | Some n => n
                         | None => match last p with Some n => n | None => 50 end
                         end + 1)) ++ nl ++ "  ") LNormal out
             /\ out = ([TWord "SELECT"; TSym "*"; TWord "FROM"; TIdent table; TWord "WHERE"]
                        ++ conds_tokens (where_conds filter)
                        ++ order_tokens orderBy
                        ++ TWord "LIMIT" :: number_tokens
                             (match first p with
                              | Some n => n
                              | None => match last p with Some n => n | None => 50 end
                              end + 1))%list).
  { eexists. split.
    - rewrite (append_assoc "LIMIT "). lex_go.
    - simpl. rewrite !app_nil_r. reflexivity. }
  destruct E as (out & E & ->). unfold Lexes in E. rewrite E. simpl.
  rewrite !app_nil_r. reflexivity.
Qed.

(** ** Parsing the statements *)

Section Parser_statements.

#[local] Arguments collations : simpl never.
#[local] Arguments chain : simpl never.
#[local] Arguments comma_list : simpl never.
#[local] Arguments parse_operand : simpl never.

Lemma parse_or_sort_key sub f w ts n :
  w = "ASC" \/ w = "DESC" ->
  parse_or sub (TIdent f :: TWord w :: ts) n = Some (ECol f, TWord w :: ts, n).
Proof.
  intros H. unfold parse_or, parse_and, parse_cmp.
  rewrite parse_operand_ident by (destruct H as [->| ->]; reflexivity).
  destruct H as [->| ->]; simpl; rewrite !chain_stop by reflexivity; reflexivity.
Qed.

Lemma parse_expr_sort_key f w ts n :
  w = "ASC" \/ w = "DESC" ->
  parse_expr (TIdent f :: TWord w :: ts) n = Some (ECol f, TWord w :: ts, n).
Proof.
  intros H. unfold parse_expr. cbn [parse_expr_depth].
  apply parse_or_sort_key, H.
Qed.

Lemma parse_order_term_spec s rest n :
  parse_order_term (spec_tokens s ++ rest)%list n = Some (spec_term s, rest, n).
Proof.
  unfold parse_order_term, spec_tokens, spec_term. cbn [app].
  rewrite parse_expr_sort_key by (destruct (spec_direction s); auto).
  destruct (spec_direction s), (spec_nulls s); reflexivity.
Qed.

Lemma parse_order_term_id rest n :
  ends_order rest ->
  parse_order_term (TIdent "id" :: TWord "ASC" :: rest) n = Some (id_term, rest, n).
Proof.
  intros H. unfold parse_order_term.
  rewrite parse_expr_sort_key by auto.
  destruct H as [->|(r & ->)]; [reflexivity|].
  destruct r as [|[] r]; reflexivity.
Qed.

Lemma parse_order_specs specs K rest n :
  ends_order rest -> (List.length specs < K)%nat ->
  comma_list parse_order_term K (specs_tokens specs ++ rest)%list n
  = Some ((map spec_term specs ++ [id_term])%list, rest, n).
Proof.
  intros Hr. revert K. induction specs as [|s specs IH]; intros K HK.
  - destruct K as [|K]; [simpl in HK; lia|].
    cbn [specs_tokens app map]. rewrite comma_list_S.
    rewrite parse_order_term_id by exact Hr.
    destruct Hr as [->|(r & ->)]; reflexivity.
  - destruct K as [|K]; [simpl in HK; lia|].
    cbn [specs_tokens map]. rewrite <- !app_assoc, comma_list_S.
    rewrite parse_order_term_spec. cbn [app].
    rewrite IH by (simpl in HK; lia). reflexivity.
Qed.

Lemma length_specs_tokens specs rest :
  (List.length specs < List.length (specs_tokens specs ++ rest)%list)%nat.
Proof.
  induction specs as [|s specs IH]; [simpl; lia|].
  cbn [specs_tokens]. rewrite <- app_assoc. cbn [spec_tokens app List.length].
  simpl in IH |- *. lia.
Qed.

Lemma parse_order_clause ob rest n :
  ends_order rest ->
  parse_order (order_tokens ob ++ rest)%list n = Some (order_terms ob, rest, n).
Proof.
  intros Hr.
  assert (D : parse_order
                (TWord "ORDER" :: TWord "BY" :: TIdent "createdAt" :: TWord "DESC"
                   :: TSym "," :: TIdent "id" :: TWord "ASC" :: rest) n
              = Some ([created_term; id_term], rest, n)).
  { unfold parse_order. simpl. rewrite !comma_list_S.
    unfold parse_order_term at 1. rewrite parse_expr_sort_key by auto. simpl.
    rewrite comma_list_S, parse_order_term_id by exact Hr.
    destruct Hr as [->|(r & ->)]; reflexivity. }
  destruct ob as [[|s specs]|]; [exact D| |exact D].
  unfold order_tokens, order_terms, parse_order. cbn [app]. simpl is_kw. cbn iota.
  apply parse_order_specs; [exact Hr|apply length_specs_tokens].
Qed.

Lemma parse_or_number sub z n :
  parse_or sub (number_tokens z) n = Some (ENum z, [], n).
Proof.
  unfold number_tokens, parse_or, parse_and, parse_cmp.
  destruct (z <? 0) eqn:E.
  - rewrite parse_operand_neg by reflexivity. cbn iota.
    rewrite !chain_stop by exact I. rewrite Z.opp_involutive. reflexivity.
  - rewrite parse_operand_num by reflexivity. cbn iota.
    rewrite !chain_stop by exact I. reflexivity.
Qed.

Lemma number_tokens_parse z n :
  parse_limit (TWord "LIMIT" :: number_tokens z) n = Some (Some (ENum z), [], n).
Proof.
  unfold parse_limit. simpl is_kw. cbn iota.
  unfold parse_expr. cbn [parse_expr_depth]. rewrite parse_or_number. reflexivity.
Qed.

#[local] Arguments parse_expr : simpl never.
#[local] Arguments parse_order : simpl never.
#[local] Arguments parse_limit : simpl never.

Lemma parse_select_star table ts n :
  parse_stmt (TWord "SELECT" :: TSym "*" :: TWord "FROM" :: TIdent table
                :: TWord "WHERE" :: ts) n
  = match parse_expr ts n with
    | Some (e, ts2, n2) =>
        match parse_order ts2 n2 with
        | Some (order, ts5, n5) =>
            match parse_limit ts5 n5 with
            | Some (limit, ts6, n6) =>
                Some (Select SelStar table (Some e) order limit, ts6, n6)
            | None => None
            end
        | None => None
        end
    | None => None
    end.
Proof.
  unfold parse_stmt, parse_where. simpl.
  destruct (parse_expr ts n) as [[[e ts2] n2]|]; reflexivity.
Qed.

Lemma prepare_select table filter orderBy p :
  no_dquote table = true -> fields_ok filter = true -> order_ok orderBy = true ->
  prepare (select_query "*" table (where_text filter)
             (buildOrderByClause orderBy) ("LIMIT " ++ Z_to_string (page_limit p + 1)))
  = Some (select_stmt table filter orderBy (page_limit p),
          arity (where_conds filter)).
Proof.
  intros Ht Hf Ho. unfold prepare. rewrite lex_select by assumption.
  cbn [app]. rewrite parse_select_star.
  rewrite parse_expr_where;
    [|apply where_conds_nonempty
     |unfold order_tokens; right; eexists; eexists; split; [reflexivity|tauto]].
  rewrite parse_order_clause by (right; eexists; reflexivity).
  rewrite number_tokens_parse. reflexivity.
Qed.

Lemma lex_of_Lexes s st out out' :
  Lexes LNormal s st out -> finish st = Some out' -> lex s = Some (out ++ out')%list.
Proof. unfold Lexes, lex. intros -> ->. reflexivity. Qed.

Lemma lex_select_one table filter :
  no_dquote table = true -> fields_ok filter = true ->
  lex (select_one_query table (where_text filter))
  = Some ([TWord "SELECT"; TSym "*"; TWord "FROM"; TIdent table; TWord "WHERE"]
            ++ conds_tokens (where_conds filter)
            ++ [TWord "LIMIT"; TNum 1])%list.
Proof.
  intros Ht Hf. unfold where_text, select_one_query.
  assert (E : exists out,
             Lexes LNormal
               (nl ++ "    SELECT *" ++ nl ++ "    FROM " ++ dquoted table ++ nl
                  ++ "    WHERE "
                  ++ String.concat " AND " (map cond_text (where_conds filter)) ++ nl
                  ++ "    LIMIT 1" ++ nl ++ "  ") LNormal out
             /\ out = ([TWord "SELECT"; TSym "*"; TWord "FROM"; TIdent table; TWord "WHERE"]
                        ++ conds_tokens (where_conds filter)
                        ++ [TWord "LIMIT"; TNum 1])%list).
  { eexists. split; [lex_go|]. simpl. reflexivity. }
  destruct E as (out & E & ->).
  rewrite (lex_of_Lexes _ _ _ [] E eq_refl), app_nil_r. reflexivity.
Qed.

Lemma prepare_select_one table filter :
  no_dquote table = true -> fields_ok filter = true ->
  prepare (select_one_query table (where_text filter))
  = Some (select_one_stmt table filter, arity (where_conds filter)).
Proof.
  intros Ht Hf. unfold prepare. rewrite lex_select_one by assumption.
  cbn [app]. rewrite parse_select_star.
  rewrite parse_expr_where;
    [|apply where_conds_nonempty
     |right; eexists; eexists; split; [reflexivity|tauto]].
  reflexivity.
Qed.

Lemma lex_count table filter :
  no_dquote table = true -> fields_ok filter = true ->
  lex (count_query table (where_text filter))
  = Some ([TWord "SELECT"; TWord "COUNT"; TSym "("; TSym "*"; TSym ")"; TWord "as";
           TWord "count"; TWord "FROM"; TIdent table; TWord "WHERE"]
            ++ conds_tokens (where_conds filter))%list.
Proof.
  intros Ht Hf. unfold where_text, count_query.
  assert (E : exists out,
             Lexes LNormal
               (nl ++ "    SELECT COUNT(*) as count" ++ nl ++ "    FROM "
                  ++ dquoted table ++ nl ++ "    WHERE "
                  ++ String.concat " AND " (map cond_text (where_conds filter)) ++ nl
                  ++ "  ") LNormal out
             /\ out = ([TWord "SELECT"; TWord "COUNT"; TSym "("; TSym "*"; TSym ")";
                       TWord "as"; TWord "count"; TWord "FROM"; TIdent table;
                       TWord "WHERE"]
                        ++ conds_tokens (where_conds filter))%list).
  { eexists. split; [lex_go|]. simpl. rewrite app_nil_r. reflexivity. }
  destruct E as (out & E & ->).
  rewrite (lex_of_Lexes _ _ _ [] E eq_refl), app_nil_r. reflexivity.
Qed.

Lemma parse_select_count table ts n :
  parse_stmt (TWord "SELECT" :: TWord "COUNT" :: TSym "(" :: TSym "*" :: TSym ")"
                :: TWord "as" :: TWord "count" :: TWord "FROM" :: TIdent table
                :: TWord "WHERE" :: ts) n
  = match parse_expr ts n with
    | Some (e, ts2, n2) =>
        match parse_order ts2 n2 with
        | Some (order, ts5, n5) =>
            match parse_limit ts5 n5 with
            | Some (limit, ts6, n6) =>
                Some (Select (SelCount "count") table (Some e) order limit, ts6, n6)
            | None => None
            end
        | None => None
        end
    | None => None
    end.
Proof.
  unfold parse_stmt, parse_where. simpl.
  destruct (parse_expr ts n) as [[[e ts2] n2]|]; reflexivity.
Qed.

Lemma prepare_count table filter :
  no_dquote table = true -> fields_ok filter = true ->
  prepare (count_query table (where_text filter))
  = Some (count_stmt table filter, arity (where_conds filter)).
Proof.
  intros Ht Hf. unfold prepare. rewrite lex_count by assumption.
  cbn [app]. rewrite parse_select_count.
  rewrite <- (app_nil_r (conds_tokens (where_conds filter))).
  rewrite parse_expr_where; [|apply where_conds_nonempty|left; reflexivity].
  reflexivity.
Qed.

End Parser_statements.

(** ** Meaning of a generated WHERE clause *)

Lemma and3_true a b : and3 a b = Some true -> a = Some true /\ b = Some true.
Proof. destruct a as [[]|], b as [[]|]; simpl; intuition congruence. Qed.

Lemma truth_of_truth t : truth (of_truth t) = t.
Proof. destruct t as [[]|]; reflexivity. Qed.

Lemma holds_and ps r a b :
  holds ps r (Some (EAnd a b)) = true ->
  holds ps r (Some a) = true /\ holds ps r (Some b) = true.
Proof.
  unfold holds. cbn [eval]. rewrite truth_of_truth.
  destruct (and3 (truth (eval ps r a)) (truth (eval ps r b))) as [[]|] eqn:E;
    try discriminate.
  apply and3_true in E as [-> ->]. auto.
Qed.

Lemma holds_conj ps r lhs cs n :
  holds ps r (Some (conj lhs cs n)) = true -> holds ps r (Some lhs) = true.
Proof.
  revert lhs n. induction cs as [|c cs IH]; intros lhs n H; [exact H|].
  simpl in H. apply IH in H. apply holds_and in H. tauto.
Qed.

Lemma sql_eqb_eq a b : sql_eqb a b = true -> a = b.
Proof.
  destruct a, b; simpl; try discriminate; intros H.
  - apply Z.eqb_eq in H. congruence.
  - apply String.eqb_eq in H. congruence.
  - apply String.eqb_eq in H. congruence.
Qed.

(** A row that satisfies the WHERE clause of a scoped read belongs to the
    tenant and is not soft-deleted. *)
Lemma holds_where ps r filter :
  holds ps r (Some (where_expr (where_conds filter))) = true ->
  row_get r "workspaceId" = nth 0 ps SNull /\ row_get r "deletedAt" = SNull.
Proof.
  unfold where_conds, where_expr. cbn [conj cond_expr cond_arity].
  intros H. apply holds_conj in H. apply holds_and in H as [H1 H2].
  split.
  - unfold holds in H1. cbn [eval] in H1. rewrite truth_of_truth in H1.
    unfold eq3 in H1. cbn [nocase collation_of] in H1.
    destruct (is_null (row_get r "workspaceId") || is_null (nth 0 ps SNull));
      [discriminate|].
    cbn [fold_case] in H1.
    destruct (sql_eqb _ _) eqn:E in H1; [|discriminate].
    unfold fold_case in E.
    destruct (row_get r "workspaceId"), (nth 0 ps SNull); simpl in E;
      try discriminate; apply sql_eqb_eq; exact E.
  - unfold holds in H2. cbn [eval] in H2.
    destruct (row_get r "deletedAt"); simpl in H2; try discriminate. reflexivity.
Qed.

(** ** Sorting and limiting keep rows *)

Lemma In_insert_sorted le x l y :
  In y (insert_sorted le x l) <-> y = x \/ In y l.
Proof.
  induction l as [|z l IH]; simpl; [intuition|].
  destruct (le x z); simpl; rewrite ?IH; intuition.
Qed.

Lemma In_sort_rows ps ts l y : In y (sort_rows ps ts l) <-> In y l.
Proof.
  unfold sort_rows. induction l as [|x l IH]; simpl; [tauto|].
  rewrite In_insert_sorted, IH. intuition.
Qed.

Lemma length_insert_sorted le x l :
  List.length (insert_sorted le x l) = S (List.length l).
Proof.
  induction l as [|z l IH]; simpl; [reflexivity|].
  destruct (le x z); simpl; rewrite ?IH; reflexivity.
Qed.

Lemma length_sort_rows ps ts l : List.length (sort_rows ps ts l) = List.length l.
Proof.
  unfold sort_rows. induction l as [|x l IH]; simpl; [reflexivity|].
  rewrite length_insert_sorted, IH. reflexivity.
Qed.

Lemma In_firstn {A : Type} (n : nat) (l : list A) (x : A) : In x (firstn n l) -> In x l.
Proof.
  revert l. induction n as [|n IH]; intros [|y l]; simpl; try tauto.
  intros [->|H]; auto.
Qed.

Lemma In_apply_limit ps limit l l' y :
  apply_limit ps limit l = Returned l' -> In y l' -> In y l.
Proof.
  unfold apply_limit. destruct limit as [e|]; [|intros [= <-]; auto].
  destruct (eval ps [] e); try discriminate.
  intros [= <-]. destruct (n <? 0); [auto|apply In_firstn].
Qed.

Lemma In_selected ps cond order limit t l y :
  selected ps cond order limit t = Returned l -> In y l ->
  In y t /\ holds ps y cond = true.
Proof.
  unfold selected. intros H Hy.
  apply (In_apply_limit _ _ _ _ _ H) in Hy.
  apply In_sort_rows in Hy. apply filter_In in Hy. exact Hy.
Qed.

Lemma In_slice0 {A : Type} (l : list A) (e : Z) (x : A) : In x (slice0 l e) -> In x l.
Proof. unfold slice0. apply In_firstn. Qed.

Ltac unbind :=
  repeat match goal with
         | |- context [bind ?m _] =>
             let E := fresh "E" in
             destruct m eqn:E; cbn [bind]; [|discriminate]
         end.

Lemma In_buildPageInfo records limit args recs info y :
  buildPageInfo records limit args = Returned (recs, info) ->
  In y recs -> In y records.
Proof.
  unfold buildPageInfo. unbind. intros [= <- _] Hy.
  assert (Hy' : In y (if Z.of_nat (List.length records) >? limit
                      then slice0 records limit else records)).
  { destruct (some_nonzero (last args) && negb (some_nonzero (first args)));
      [apply in_rev in Hy|]; exact Hy. }
  destruct (Z.of_nat (List.length records) >? limit);
    [apply In_slice0 in Hy'|]; exact Hy'.
Qed.

(** ** What a read returns *)

Lemma D1_execute_inv db q res db' :
  D1.execute db q = Returned (res, db') ->
  exists vals st n,
    D1.to_sql_all (D1.bound q) = Returned vals
    /\ prepare (D1.sql q) = Some (st, n)
    /\ (n <= List.length vals)%nat
    /\ exists s', exec st vals (data db) = Returned (res, s')
                  /\ db' = {| data := s'; reject_surplus := reject_surplus db |}.
Proof.
  unfold D1.execute. destruct (D1.to_sql_all (D1.bound q)) as [vals|]; [|discriminate].
  cbn [bind]. destruct (prepare (D1.sql q)) as [[st n]|]; [|discriminate].
  destruct (List.length vals <? n)%nat eqn:E1; [discriminate|].
  destruct (reject_surplus db && (n <? List.length vals)%nat); [discriminate|].
  destruct (exec st vals (data db)) as [[r s']|] eqn:E; [|discriminate].
  cbn [bind]. intros [= <- <-].
  exists vals, st, n. repeat split; auto.
  - apply Nat.ltb_ge in E1. exact E1.
  - exists s'. split; [exact E|reflexivity].
Qed.

Lemma exec_select_inv cols t cond order limit vals s res s' :
  exec (Select cols t cond order limit) vals s = Returned (res, s') ->
  exists tbl l,
    get_table s t = Some tbl
    /\ selected vals cond order limit tbl = Returned l
    /\ rows res = project vals cols l /\ s' = s.
Proof.
  unfold exec. destruct (get_table s t) as [rs|]; [|discriminate].
  destruct (selected vals cond order limit rs) as [l|] eqn:E; [|discriminate].
  cbn [bind]. intros [= <- <-]. exists rs, l. auto.
Qed.

Lemma to_sql_all_cons v ps vals :
  D1.to_sql_all (v :: ps) = Returned vals ->
  exists x xs, D1.to_sql v = Returned x /\ D1.to_sql_all ps = Returned xs
               /\ vals = x :: xs.
Proof.
  cbn [D1.to_sql_all]. destruct (D1.to_sql v) as [x|]; [|discriminate].
  cbn [bind]. destruct (D1.to_sql_all ps) as [xs|]; [|discriminate].
  cbn [bind]. intros [= <-]. eauto.
Qed.

Lemma to_sql_all_tenant ws ps vals :
  D1.to_sql_all (JStr ws :: ps) = Returned vals -> nth 0 vals SNull = SText ws.
Proof.
  intros H. apply to_sql_all_cons in H as (x & xs & Hx & _ & ->).
  simpl in Hx. inversion Hx. reflexivity.
Qed.

Lemma select_params_head ws ps p ps' :
  select_params (JStr ws :: ps) ws p = Returned ps' ->
  exists tl, ps' = JStr ws :: tl.
Proof.
  unfold select_params. destruct (after p) as [c|]; [|intros [= <-]; eauto].
  destruct (negb (String.eqb c "")); [|intros [= <-]; eauto].
  destruct (decodeCursor c) as [d|]; [|discriminate]. cbn [bind].
  destruct (truthy d); [|intros [= <-]; eauto].
  destruct (buildWhereClause _ ws). unfold push_all. intros [= <-].
  simpl. eauto.
Qed.

(** The rows behind the records of a statement that reads whole rows. *)
Lemma D1_all_rows db q recs t cond order limit n :
  D1.all db q = Returned recs ->
  prepare (D1.sql q) = Some (Select SelStar t cond order limit, n) ->
  exists vals tbl l,
    D1.to_sql_all (D1.bound q) = Returned vals
    /\ get_table (data db) t = Some tbl
    /\ selected vals cond order limit tbl = Returned l
    /\ recs = map D1.of_row l.
Proof.
  unfold D1.all. destruct (D1.execute db q) as [[res db']|] eqn:E; [|discriminate].
  cbn [bind]. intros [= <-] Hp.
  apply D1_execute_inv in E as (vals & st & n' & Hv & Hp' & _ & s' & He & _).
  rewrite Hp in Hp'. inversion Hp'; subst.
  apply exec_select_inv in He as (rs & l & Ht & Hs & Hr & _).
  exists vals, rs, l. rewrite Hr. auto.
Qed.

Lemma D1_first_rows db q rec t cond order limit n :
  D1.first db q = Returned (Some rec) ->
  prepare (D1.sql q) = Some (Select SelStar t cond order limit, n) ->
  exists vals tbl l,
    D1.to_sql_all (D1.bound q) = Returned vals
    /\ get_table (data db) t = Some tbl
    /\ selected vals cond order limit tbl = Returned l
    /\ exists r, In r l /\ rec = D1.of_row r.
Proof.
  unfold D1.first. destruct (D1.execute db q) as [[res db']|] eqn:E; [|discriminate].
  cbn [bind]. intros H Hp.
  apply D1_execute_inv in E as (vals & st & n' & Hv & Hp' & _ & s' & He & _).
  rewrite Hp in Hp'. inversion Hp'; subst.
  apply exec_select_inv in He as (rs & l & Ht & Hs & Hr & _).
  exists vals, rs, l. repeat split; auto.
  rewrite Hr in H. simpl in H. destruct l as [|r l]; [discriminate|].
  inversion H. exists r. split; [left|]; reflexivity.
Qed.

(** ** A read under any ORDER BY clause *)

Lemma run_app st a b :
  run st (a ++ b)
  = match run st a with
    | Some (st1, o1) =>
        match run st1 b with
        | Some (st2, o2) => Some (st2, (o1 ++ o2)%list)
        | None => None
        end
    | None => None
    end.
Proof.
  revert st. induction a as [|c a IH]; intros st.
  - cbn [append run]. destruct (run st b) as [[st2 o2]|]; reflexivity.
  - cbn [append run]. destruct (step st c) as [[st1 o1]|]; [|reflexivity].
    rewrite IH. destruct (run st1 a) as [[st2 o2]|]; [|reflexivity].
    destruct (run st2 b) as [[st3 o3]|]; [|reflexivity].
    rewrite app_assoc. reflexivity.
Qed.

Lemma buildOrderByClause_head orderBy :
  exists tail, buildOrderByClause orderBy = "ORDER BY " ++ tail.
Proof.
  unfold buildOrderByClause. destruct orderBy as [[|s specs]|]; eexists; reflexivity.
Qed.

Lemma select_query_head table filter tail limitText :
  select_query "*" table (where_text filter) ("ORDER BY " ++ tail) limitText
  = select_head table filter ++ tail ++ nl ++ "    " ++ limitText ++ nl ++ "  ".
Proof.
  unfold select_query, select_head. rewrite !append_assoc. reflexivity.
Qed.

Lemma Lexes_select_head table filter :
  no_dquote table = true -> fields_ok filter = true ->
  Lexes LNormal (select_head table filter) LNormal
    ([TWord "SELECT"; TSym "*"; TWord "FROM"; TIdent table; TWord "WHERE"]
       ++ conds_tokens (where_conds filter) ++ [TWord "ORDER"; TWord "BY"])%list.
Proof.
  intros Ht Hf. unfold select_head, where_text.
  assert (E : exists out,
             Lexes LNormal
               (nl ++ "    SELECT " ++ "*" ++ nl ++ "    FROM " ++ dquoted table ++ nl
                  ++ "    WHERE "
                  ++ String.concat " AND " (map cond_text (where_conds filter)) ++ nl
                  ++ "    ORDER BY ") LNormal out
             /\ out = ([TWord "SELECT"; TSym "*"; TWord "FROM"; TIdent table;
                        TWord "WHERE"]
                        ++ conds_tokens (where_conds filter)
                        ++ [TWord "ORDER"; TWord "BY"])%list).
  { eexists. split; [lex_go|]. simpl. reflexivity. }
  destruct E as (out & E & ->). exact E.
Qed.

Lemma prepare_inv sql st n :
  prepare sql = Some (st, n) ->
  exists ts rest, lex sql = Some ts /\ parse_stmt ts O = Some (st, rest, n).
Proof.
  unfold prepare. destruct (lex sql) as [ts|]; [|discriminate].
  destruct (parse_stmt ts O) as [[[st' rest] n']|] eqn:E; [|discriminate].
  destruct rest as [|t [|t' rest]]; try discriminate.
  - intros [= <- <-]. eauto.
  - destruct t as [w|f|s|z| | |c]; try discriminate.
    destruct c as [[] [] [] [] [] [] [] []]; try discriminate.
    intros [= <- <-]. eauto.
  - destruct t as [w|f|s|z| | |c]; try discriminate.
    destruct c as [[] [] [] [] [] [] [] []]; discriminate.
Qed.

(** Whatever follows ORDER BY, a statement that the engine accepts is a
    read of whole rows under the WHERE clause of the filter. *)
Lemma prepare_select_where table filter tail st n :
  no_dquote table = true -> fields_ok filter = true ->
  prepare (select_head table filter ++ tail) = Some (st, n) ->
  exists order limit,
    st = Select SelStar table (Some (where_expr (where_conds filter))) order limit.
Proof.
  intros Ht Hf Hp. apply prepare_inv in Hp as (ts & rest & Hlex & Hparse).
  unfold lex in Hlex. rewrite run_app in Hlex.
  pose proof (Lexes_select_head table filter Ht Hf) as Hl. unfold Lexes in Hl.
  rewrite Hl in Hlex. destruct (run LNormal tail) as [[st2 o2]|]; [|discriminate].
  destruct (finish st2) as [o3|]; [|discriminate].
  match type of Hlex with
  | Some ?x = Some _ => assert (Hts : ts = x) by congruence
  end.
  subst ts. clear Hlex.
  rewrite <- !app_assoc in Hparse.
  change ([TWord "SELECT"; TSym "*"; TWord "FROM"; TIdent table; TWord "WHERE"] ++ ?x)%list
    with (TWord "SELECT" :: TSym "*" :: TWord "FROM" :: TIdent table :: TWord "WHERE" :: x)
    in Hparse.
  change ([TWord "ORDER"; TWord "BY"] ++ ?x)%list
    with (TWord "ORDER" :: TWord "BY" :: x) in Hparse.
  rewrite parse_select_star in Hparse.
  rewrite parse_expr_where in Hparse;
    [|apply where_conds_nonempty
     |right; eexists; eexists; split; [reflexivity|tauto]].
  destruct (parse_order _ _) as [[[order ts5] n5]|]; [|discriminate].
  destruct (parse_limit ts5 n5) as [[[limit ts6] n6]|]; [|discriminate].
  injection Hparse as <- _ _. eauto.
Qed.

(** Every record of [executeSelect] is a stored row of the tenant that is
    not soft-deleted, for any order specification. *)
Lemma executeSelect_sound db table ws options res rec :
  no_dquote table = true ->
  fields_ok (opt_filter options) = true ->
  opt_columns options = None ->
  executeSelect db table ws options = Returned res ->
  In rec (records res) ->
  exists tbl r,
    get_table (data db) table = Some tbl /\ In r tbl /\ rec = D1.of_row r
    /\ row_get r "workspaceId" = SText ws /\ row_get r "deletedAt" = SNull.
Proof.
  intros Ht Hf Hc. unfold executeSelect.
  rewrite buildWhereClause_text, buildPaginationClause_text, Hc.
  set (p := match opt_pagination options with Some p => p | None => no_pagination end).
  destruct (select_params _ ws p) as [ps|] eqn:Eps; [|discriminate]. cbn [bind].
  apply select_params_head in Eps as (tl & ->).
  destruct (D1.all db _) as [result|] eqn:Ea; [|discriminate]. cbn [bind].
  destruct (D1.first db _) as [cnt|]; [|discriminate]. cbn [bind].
  destruct (buildPageInfo result (page_limit p) p) as [[recs info]|] eqn:Eb;
    [|discriminate].
  cbn [bind]. intros [= <-] Hin. cbn [records] in Hin.
  apply (In_buildPageInfo _ _ _ _ _ _ Eb) in Hin.
  unfold D1.all in Ea.
  destruct (D1.execute db _) as [[qres db']|] eqn:Ee; [|discriminate].
  cbn [bind] in Ea. injection Ea as <-.
  apply D1_execute_inv in Ee as (vals & st & n & Hv & Hp & _ & s' & He & _).
  cbn [D1.sql D1.bound] in Hp, Hv.
  destruct (buildOrderByClause_head (opt_orderBy options)) as (tail & Etail).
  rewrite Etail, select_query_head in Hp.
  apply (prepare_select_where table _ _ _ _ Ht Hf) in Hp as (order & limit & ->).
  apply exec_select_inv in He as (tbl & l & Hrows & Hsel & Hr & _).
  rewrite Hr in Hin. cbn [project] in Hin.
  apply in_map_iff in Hin as (r & <- & Hin).
  apply (In_selected _ _ _ _ _ _ _ Hsel) in Hin as [Hin Hh].
  apply holds_where in Hh as [Hw Hd].
  rewrite (to_sql_all_tenant _ _ _ Hv) in Hw.
  exists tbl, r. auto.
Qed.

Lemma executeSelectOne_sound db table ws filter rec :
  no_dquote table = true ->
  fields_ok (Some filter) = true ->
  executeSelectOne db table ws filter = Returned (Some rec) ->
  exists tbl r,
    get_table (data db) table = Some tbl /\ In r tbl /\ rec = D1.of_row r
    /\ row_get r "workspaceId" = SText ws /\ row_get r "deletedAt" = SNull.
Proof.
  intros Ht Hf. unfold executeSelectOne. rewrite buildWhereClause_text.
  intros H. eapply D1_first_rows in H; [|apply prepare_select_one; assumption].
  destruct H as (vals & tbl & l & Hv & Hrows & Hsel & r & Hr & ->).
  apply (In_selected _ _ _ _ _ _ _ Hsel) in Hr as [Hr Hh].
  apply holds_where in Hh as [Hw Hd].
  cbn [D1.bound] in Hv. rewrite (to_sql_all_tenant _ _ _ Hv) in Hw.
  exists tbl, r. auto.
Qed.

(** ** The statements with a fixed WHERE clause *)

Lemma prepare_of_tokens sql out st n :
  Lexes LNormal sql LNormal out -> parse_stmt out O = Some (st, [], n) ->
  prepare sql = Some (st, n).
Proof.
  intros Hl Hp. unfold prepare.
  rewrite (lex_of_Lexes _ _ _ [] Hl eq_refl), app_nil_r, Hp. reflexivity.
Qed.

Lemma prepare_soft_delete table :
  no_dquote table = true ->
  prepare (soft_delete_query table) = Some (soft_delete_stmt table, 4%nat).
Proof.
  intros Ht. unfold soft_delete_query.
  eapply prepare_of_tokens; [lex_go|vm_compute; reflexivity].
Qed.

Lemma prepare_reread table :
  no_dquote table = true ->
  prepare (reread_query table)
  = Some (Select SelStar table (Some by_tenant_and_id) [] None, 2%nat).
Proof.
  intros Ht. unfold reread_query.
  eapply prepare_of_tokens; [lex_go|vm_compute; reflexivity].
Qed.

Lemma prepare_hard_delete table :
  no_dquote table = true ->
  prepare (hard_delete_query table) = Some (Delete table (Some by_tenant_and_id), 2%nat).
Proof.
  intros Ht. unfold hard_delete_query.
  eapply prepare_of_tokens; [lex_go|vm_compute; reflexivity].
Qed.

(** ** Tables *)

Lemma get_set_table s t x : get_table (set_table s t x) t = Some x.
Proof.
  induction s as [|[n y] s IH]; simpl.
  - rewrite String.eqb_refl. reflexivity.
  - destruct (String.eqb n t) eqn:E; simpl; rewrite E; auto.
Qed.

Lemma get_set_table_other s t t' x :
  t' <> t -> get_table (set_table s t x) t' = get_table s t'.
Proof.
  intros Hne. induction s as [|[n y] s IH]; simpl.
  - destruct (String.eqb t t') eqn:E; [apply String.eqb_eq in E; congruence|reflexivity].
  - destruct (String.eqb n t) eqn:E; simpl.
    + apply String.eqb_eq in E. subst n.
      destruct (String.eqb t t') eqn:E'; [apply String.eqb_eq in E'; congruence|].
      reflexivity.
    + destruct (String.eqb n t'); auto.
Qed.

Lemma set_table_same s t x : get_table s t = Some x -> set_table s t x = s.
Proof.
  induction s as [|[n y] s IH]; simpl; [discriminate|].
  destruct (String.eqb n t) eqn:E.
  - intros [= ->]. reflexivity.
  - intros H. rewrite (IH H). reflexivity.
Qed.

Lemma row_get_set_same r c v : row_get (row_set r c v) c = v.
Proof.
  induction r as [|[c' v'] r IH]; simpl.
  - rewrite String.eqb_refl. reflexivity.
  - destruct (String.eqb c' c) eqn:E; simpl; rewrite E; auto.
Qed.

Lemma row_get_set_other r c c' v : c' <> c -> row_get (row_set r c v) c' = row_get r c'.
Proof.
  intros Hne. induction r as [|[k w] r IH]; simpl.
  - destruct (String.eqb c c') eqn:E; [apply String.eqb_eq in E; congruence|reflexivity].
  - destruct (String.eqb k c) eqn:E; simpl.
    + apply String.eqb_eq in E. subst k.
      destruct (String.eqb c c') eqn:E'; [apply String.eqb_eq in E'; congruence|].
      reflexivity.
    + destruct (String.eqb k c'); auto.
Qed.

Lemma sort_rows_unordered ps l : sort_rows ps [] l = l.
Proof.
  unfold sort_rows. induction l as [|x l IH]; cbn [fold_right]; [reflexivity|].
  rewrite IH. destruct l; reflexivity.
Qed.

(** ** Soft delete *)

Lemma eq3_text v s :
  match eq3 false v (SText s) with Some true => true | _ => false end
  = sql_eqb v (SText s).
Proof.
  destruct v; try reflexivity. unfold eq3. simpl.
  destruct (String.eqb s0 s); reflexivity.
Qed.

Lemma holds_by_tenant_and_id ws id tl r :
  holds (SText ws :: SText id :: tl) r (Some by_tenant_and_id) = is_row ws id r.
Proof.
  unfold holds, by_tenant_and_id, is_row. cbn [eval nth nocase collation_of].
  rewrite truth_of_truth.
  rewrite <- (eq3_text (row_get r "workspaceId") ws), <- (eq3_text (row_get r "id") id).
  destruct (eq3 false (row_get r "workspaceId") (SText ws)) as [[]|],
    (eq3 false (row_get r "id") (SText id)) as [[]|]; reflexivity.
Qed.

Lemma holds_soft_delete now ws id r :
  holds [SText now; SText now; SText ws; SText id] r
    (Some (EAnd (EAnd (EEq (ECol "workspaceId") (EParam 2)) (EEq (ECol "id") (EParam 3)))
             (EIsNull (ECol "deletedAt"))))
  = is_row ws id r && live r.
Proof.
  unfold holds, is_row, live. cbn [eval nth nocase collation_of].
  rewrite !truth_of_truth.
  rewrite <- (eq3_text (row_get r "workspaceId") ws), <- (eq3_text (row_get r "id") id).
  destruct (eq3 false (row_get r "workspaceId") (SText ws)) as [[]|],
    (eq3 false (row_get r "id") (SText id)) as [[]|],
    (is_null (row_get r "deletedAt")); reflexivity.
Qed.

Lemma is_row_mark_deleted ws id now r : is_row ws id (mark_deleted now r) = is_row ws id r.
Proof.
  unfold is_row, mark_deleted.
  rewrite !row_get_set_other by discriminate. reflexivity.
Qed.

Lemma live_mark_deleted now r : live (mark_deleted now r) = false.
Proof.
  unfold live, mark_deleted.
  rewrite row_get_set_other by discriminate. rewrite row_get_set_same. reflexivity.
Qed.

(** Deleting again changes nothing, whatever the time. *)
Lemma soft_delete_table_idem ws id now now' t :
  soft_delete_table ws id now' (soft_delete_table ws id now t)
  = soft_delete_table ws id now t.
Proof.
  unfold soft_delete_table. rewrite map_map. apply map_ext. intros r.
  destruct (is_row ws id r && live r) eqn:E.
  - rewrite is_row_mark_deleted, live_mark_deleted, andb_false_r. reflexivity.
  - rewrite E. reflexivity.
Qed.

Lemma with_data_same db : with_data db (data db) = db.
Proof. destruct db; reflexivity. Qed.

Lemma D1_first_reread db table ws id t :
  no_dquote table = true -> get_table (data db) table = Some t ->
  D1.first db {| D1.sql := reread_query table; D1.bound := [JStr ws; JStr id] |}
  = Returned (reread ws id t).
Proof.
  intros Ht Hg. unfold D1.first, D1.execute. cbn [D1.bound D1.sql D1.to_sql_all D1.to_sql bind].
  rewrite prepare_reread by exact Ht. cbn [List.length Nat.ltb Nat.leb].
  rewrite andb_false_r. unfold exec. rewrite Hg.
  unfold selected. rewrite sort_rows_unordered. cbn [apply_limit bind rows project].
  unfold reread.
  rewrite (filter_ext _ (is_row ws id))
    by (intros r; apply holds_by_tenant_and_id).
  destruct (List.filter (is_row ws id) t); reflexivity.
Qed.

Lemma executeSoftDelete_run env db table ws id t :
  no_dquote table = true -> get_table (data db) table = Some t ->
  executeSoftDelete env db table ws id
  = let t' := soft_delete_table ws id (Date.iso_string (clock env)) t in
    Returned (reread ws id t', with_data db (set_table (data db) table t')).
Proof.
  intros Ht Hg. unfold executeSoftDelete, D1.run, D1.execute.
  cbn [D1.bound D1.sql D1.to_sql_all D1.to_sql bind].
  rewrite prepare_soft_delete by exact Ht. cbn [List.length Nat.ltb Nat.leb].
  rewrite andb_false_r. unfold soft_delete_stmt, exec. rewrite Hg. cbn [bind changes].
  match goal with
  | |- context [set_table _ _ ?m] =>
      replace m with (soft_delete_table ws id (Date.iso_string (clock env)) t)
  end.
  2:{ unfold soft_delete_table. apply map_ext. intros r.
      rewrite holds_soft_delete. destruct (is_row ws id r && live r); reflexivity. }
  rewrite (D1_first_reread _ table ws id
             (soft_delete_table ws id (Date.iso_string (clock env)) t))
    by (exact Ht || apply get_set_table).
  reflexivity.
Qed.

(** ** The search statement *)

Lemma concat_empty_cons (x : string) (l : list string) :
  String.concat "" (x :: l) = x ++ String.concat "" l.
Proof. destruct l; simpl; [rewrite append_nil_r|]; reflexivity. Qed.

Lemma string_flat_map_cons f c s :
  string_flat_map f (String c s) = f c ++ string_flat_map f s.
Proof. unfold string_flat_map. simpl map. apply concat_empty_cons. Qed.

(** A text with its single quotes doubled, inside a string literal, is read
    back as that text. *)
Lemma Lexes_literal acc s :
  Lexes (LStr acc) (double_single_quotes s) (LStr (acc ++ s)) [].
Proof.
  unfold Lexes, double_single_quotes. revert acc.
  induction s as [|c s IH]; intros acc.
  - simpl. rewrite append_nil_r. reflexivity.
  - rewrite string_flat_map_cons. cbv beta.
    destruct (ascii_N c =? 39)%N eqn:E.
    + assert (c = "'"%char) as ->.
      { apply N.eqb_eq in E. unfold ascii_N in E.
        rewrite <- (ascii_N_embedding c), E. reflexivity. }
      change ("''" ++ ?x) with (String "'" (String "'" x)).
      cbn [run].
      change (step (LStr acc) "'") with (Some (LStrQ acc, @nil token)). cbn iota.
      change (step (LStrQ acc) "'") with (Some (LStr (acc ++ "'"), @nil token)).
      cbn iota. rewrite IH, append_assoc. reflexivity.
    + change (String c "" ++ ?x) with (String c x).
      cbn [run]. unfold step at 1. rewrite E.
      rewrite IH, append_assoc. reflexivity.
Qed.

Ltac lex_search :=
  repeat first
    [ eapply Lexes_app; [apply Lexes_literal|]
    | eapply Lexes_app; [vm_compute; reflexivity|]
    | vm_compute; reflexivity ].

(** The object types that have searchable fields. *)
Lemma searchable_names objectName fields :
  lookup SEARCHABLE_FIELDS objectName = Some fields ->
  objectName = "company" \/ objectName = "person" \/ objectName = "opportunity"
  \/ objectName = "note" \/ objectName = "task".
Proof.
  intros Hf. unfold SEARCHABLE_FIELDS in Hf. cbn [lookup] in Hf.
  destruct (String.eqb "company" objectName) eqn:E1;
    [apply String.eqb_eq in E1; auto|].
  destruct (String.eqb "person" objectName) eqn:E2;
    [apply String.eqb_eq in E2; auto|].
  destruct (String.eqb "opportunity" objectName) eqn:E3;
    [apply String.eqb_eq in E3; auto|].
  destruct (String.eqb "note" objectName) eqn:E4;
    [apply String.eqb_eq in E4; auto|].
  destruct (String.eqb "task" objectName) eqn:E5;
    [apply String.eqb_eq in E5; auto 6|].
  discriminate.
Qed.

(** They are object types of the resolvers. *)
Lemma searchable_is_standard objectName fields :
  lookup SEARCHABLE_FIELDS objectName = Some fields ->
  exists config, lookup STANDARD_OBJECTS objectName = Some config.
Proof.
  intros Hf.
  destruct (searchable_names objectName fields Hf) as [H|[H|[H|[H|H]]]];
    subst objectName; eexists; reflexivity.
Qed.

(** [table[key]] is an own property exactly when [lookup] finds it. *)
Lemma property_own {A : Type} (table : list (string * A)) key v :
  property table key = Own v <-> lookup table key = Some v.
Proof.
  unfold property. destruct (lookup table key) as [x|].
  - split; intros [= ->]; reflexivity.
  - destruct (existsb _ _); split; discriminate.
Qed.

Lemma prepare_search objectName config fields ws query limit :
  lookup STANDARD_OBJECTS objectName = Some config ->
  lookup SEARCHABLE_FIELDS objectName = Some fields ->
  prepare (fst (buildSearchQuery (tableName config) objectName fields ws query limit))
  = Some (search_stmt (tableName config) objectName fields (search_pattern query),
          (2 + List.length fields)%nat).
Proof.
  intros Hc Hf.
  pose proof (searchable_names objectName fields Hf) as Hcases.
  unfold buildSearchQuery, search_pattern. cbn [fst].
  generalize (escapeSearchQuery query). intros q.
  destruct Hcases as [H|[H|[H|[H|H]]]]; subst objectName;
    vm_compute in Hc, Hf; injection Hc as <-; injection Hf as <-;
    cbn [map String.concat List.length tableName];
    rewrite ?append_assoc;
    (eapply prepare_of_tokens; [unfold dquoted; rewrite ?append_assoc; lex_search|]);
    vm_compute; reflexivity.
Qed.

Lemma D1_all_inv db q recs cols t cond order limit n :
  D1.all db q = Returned recs ->
  prepare (D1.sql q) = Some (Select cols t cond order limit, n) ->
  exists vals tbl l,
    D1.to_sql_all (D1.bound q) = Returned vals
    /\ get_table (data db) t = Some tbl
    /\ selected vals cond order limit tbl = Returned l
    /\ recs = map D1.of_row (project vals cols l).
Proof.
  unfold D1.all. destruct (D1.execute db q) as [[res db']|] eqn:E; [|discriminate].
  cbn [bind]. intros [= <-] Hp.
  apply D1_execute_inv in E as (vals & st & n' & Hv & Hp' & _ & s' & He & _).
  rewrite Hp in Hp'. inversion Hp'; subst.
  apply exec_select_inv in He as (rs & l & Ht & Hs & Hr & _).
  exists vals, rs, l. rewrite Hr. auto.
Qed.

Lemma holds_search ps r fields :
  holds ps r (Some (search_condition fields)) = true ->
  row_get r "workspaceId" = nth 0 ps SNull /\ row_get r "deletedAt" = SNull.
Proof.
  unfold search_condition. intros H. apply holds_and in H as [H _].
  apply (holds_where ps r None). exact H.
Qed.

Lemma In_insert_by_score x l y : In y (insert_by_score x l) <-> y = x \/ In y l.
Proof.
  induction l as [|z l IH]; simpl; [intuition|].
  destruct (score_of z <? score_of x); simpl; rewrite ?IH; intuition.
Qed.

Lemma In_sort_by_score l y : In y (sort_by_score l) <-> In y l.
Proof.
  unfold sort_by_score. induction l as [|x l IH]; simpl; [tauto|].
  rewrite In_insert_by_score, IH. intuition.
Qed.

Lemma search_step_sound db ws q lim objectName acc0 acc1 :
  Forall (search_hit db ws) acc0 ->
  search_step db ws q lim (Returned acc0) objectName = Returned acc1 ->
  Forall (search_hit db ws) acc1.
Proof.
  intros H0. unfold search_step. cbn [bind].
  destruct (property SEARCHABLE_FIELDS objectName) as [fields| |] eqn:Ef.
  2:{ destruct (property STANDARD_OBJECTS objectName); [discriminate|discriminate|].
      intros [= <-]; exact H0. }
  2:{ destruct (property STANDARD_OBJECTS objectName); intros [= <-]; exact H0. }
  apply property_own in Ef.
  destruct (searchable_is_standard objectName fields Ef) as (config & Ec).
  rewrite (proj2 (property_own STANDARD_OBJECTS objectName config) Ec).
  pose proof (prepare_search objectName config fields ws q lim Ec Ef) as Hp.
  destruct (buildSearchQuery _ _ _ _ _ _) as [sql params] eqn:Eb.
  cbn [fst] in Hp.
  destruct (D1.all db _) as [items|] eqn:Ea; cbn [bind try_catch];
    [|intros [= <-]; exact H0].
  intros [= <-]. unfold push_all. apply Forall_app. split; [exact H0|].
  eapply D1_all_inv in Ea; [|exact Hp].
  destruct Ea as (vals & tbl & l & Hv & Hg & Hs & ->).
  apply Forall_forall. intros item Hin.
  apply in_map_iff in Hin as (pr & <- & Hin).
  unfold project in Hin. apply in_map_iff in Hin as (r & <- & Hr).
  apply (In_selected _ _ _ _ _ _ _ Hs) in Hr as [Hr Hh].
  apply holds_search in Hh as [Hw Hd].
  unfold buildSearchQuery in Eb. inversion Eb; subst params. clear Eb.
  cbn [D1.bound] in Hv.
  change ([JStr ws] ++ ?x)%list with (JStr ws :: x) in Hv.
  rewrite (to_sql_all_tenant _ _ _ Hv) in Hw.
  exists objectName, config, tbl, r. repeat split; auto.
Qed.

Lemma search_fold_sound db ws q lim names acc res :
  (forall acc0, acc = Returned acc0 -> Forall (search_hit db ws) acc0) ->
  fold_left (search_step db ws q lim) names acc = Returned res ->
  Forall (search_hit db ws) res.
Proof.
  revert acc. induction names as [|name names IH]; intros acc Hacc; cbn [fold_left].
  - intros H. apply Hacc. exact H.
  - apply IH. intros acc1 H1.
    destruct acc as [acc0|e]; [|discriminate].
    eapply search_step_sound; [|exact H1]. apply Hacc. reflexivity.
Qed.

(** Every result of the keyword search stands for a stored row of the
    caller's tenant that is not soft-deleted. *)
Lemma search_sound db ws args items item :
  search db ws args = Returned items -> In item items -> search_hit db ws item.
Proof.
  unfold search.
  destruct (String.eqb (trim_left (query args)) ""); [intros [= <-] []|].
  match goal with
  | |- context [fold_left ?f ?names (Returned [])] =>
      change f with (search_step db ws (query args)
                       (ceil_div (match limit args with Some n => n | None => 20 end)
                          (Z.of_nat (List.length names))));
      destruct (fold_left (search_step db ws (query args)
                             (ceil_div (match limit args with Some n => n | None => 20 end)
                                (Z.of_nat (List.length names))))
                  names (Returned [])) as [res|] eqn:E
  end; [|discriminate].
  cbn [bind]. intros [= <-] Hin.
  apply In_slice0 in Hin. apply -> In_sort_by_score in Hin.
  apply search_fold_sound in E.
  - rewrite Forall_forall in E. apply E. exact Hin.
  - intros acc0 [= <-]. constructor.
Qed.

(** ** Hard delete *)

Lemma executeHardDelete_run db table ws id t :
  no_dquote table = true -> get_table (data db) table = Some t ->
  executeHardDelete db table ws id
  = Returned (Z.of_nat (List.length (List.filter (is_row ws id) t)) >? 0,
              with_data db (set_table (data db) table (hard_delete_table ws id t))).
Proof.
  intros Ht Hg. unfold executeHardDelete, D1.run, D1.execute.
  cbn [D1.bound D1.sql D1.to_sql_all D1.to_sql bind].
  rewrite prepare_hard_delete by exact Ht. cbn [List.length Nat.ltb Nat.leb].
  rewrite andb_false_r. unfold exec. rewrite Hg. cbn [bind changes].
  unfold hard_delete_table, with_data.
  rewrite (filter_ext _ (is_row ws id)) by (intros r; apply holds_by_tenant_and_id).
  rewrite (filter_ext (fun r => negb (holds _ r _)) (fun r => negb (is_row ws id r)))
    by (intros r; rewrite holds_by_tenant_and_id; reflexivity).
  reflexivity.
Qed.

Lemma hard_delete_table_gone ws id t r :
  In r (hard_delete_table ws id t) -> In r t /\ is_row ws id r = false.
Proof.
  unfold hard_delete_table. intros H. apply filter_In in H as [H1 H2].
  split; [exact H1|]. destruct (is_row ws id r); [discriminate|reflexivity].
Qed.

Lemma reread_hard_delete ws id t : reread ws id (hard_delete_table ws id t) = None.
Proof.
  unfold reread.
  destruct (List.filter (is_row ws id) (hard_delete_table ws id t)) as [|r l] eqn:E;
    [reflexivity|].
  assert (H : In r (List.filter (is_row ws id) (hard_delete_table ws id t)))
    by (rewrite E; left; reflexivity).
  apply filter_In in H as [H1 H2]. apply hard_delete_table_gone in H1 as [_ H1].
  congruence.
Qed.

Lemma obj_get_of_row r c s :
  obj_get (D1.of_row r) c = JStr s -> row_get r c = SText s.
Proof.
  induction r as [|[k v] r IH]; simpl; [discriminate|].
  destruct (String.eqb k c); [|exact IH].
  destruct v; simpl; try discriminate. intros [= ->]. reflexivity.
Qed.

Lemma is_row_true ws id r :
  row_get r "workspaceId" = SText ws -> row_get r "id" = SText id -> is_row ws id r = true.
Proof.
  unfold is_row. intros -> ->. simpl. rewrite !String.eqb_refl. reflexivity.
Qed.

Lemma soft_delete_table_settled ws id now t :
  (forall r, In r t -> is_row ws id r = true -> live r = false) ->
  soft_delete_table ws id now t = t.
Proof.
  intros H. unfold soft_delete_table. rewrite <- (map_id t) at 2.
  apply map_ext_in. intros r Hr.
  destruct (is_row ws id r) eqn:E; [rewrite (H r Hr E)|]; reflexivity.
Qed.

Lemma soft_delete_table_after ws id now t r :
  In r (soft_delete_table ws id now t) -> is_row ws id r = true -> live r = false.
Proof.
  unfold soft_delete_table. intros Hin Hr.
  apply in_map_iff in Hin as (r0 & <- & _).
  destruct (is_row ws id r0 && live r0) eqn:E.
  - apply live_mark_deleted.
  - rewrite Hr in E. exact E.
Qed.

(** With a table name and filter field names free of double quotes,
    every record of [executeSelect] and [executeSelectOne], and every result
    of the keyword search, stands for a stored row of the tenant whose
    [deletedAt] is NULL, whatever the filter values, the order specification,
    the page and the search text; no filter brings a soft-deleted row back
    (the re-read of [executeSoftDelete], by tenant and id only, is the one
    statement that returns one). [executeHardDelete] removes the rows of the
    tenant with the identifier from the table: the re-read finds nothing and
    no scoped read returns a record with that identifier afterwards. *)
Lemma reads_exclude_soft_deleted db table ws :
  no_dquote table = true ->
  (forall options res rec,
      fields_ok (opt_filter options) = true ->
      opt_columns options = None ->
      executeSelect db table ws options = Returned res ->
      In rec (records res) -> live_row_of db table ws rec)
  /\ (forall filter rec,
        fields_ok (Some filter) = true ->
        executeSelectOne db table ws filter = Returned (Some rec) ->
        live_row_of db table ws rec)
  /\ (forall args items item,
        search db ws args = Returned items -> In item items -> search_hit db ws item)
  /\ (forall id t,
        get_table (data db) table = Some t ->
        exists changed db',
          executeHardDelete db table ws id = Returned (changed, db')
          /\ get_table (data db') table
             = Some (List.filter (fun r => negb (is_row ws id r)) t)
          /\ D1.first db' {| D1.sql := reread_query table;
                             D1.bound := [JStr ws; JStr id] |} = Returned None
          /\ (forall filter rec,
                fields_ok (Some filter) = true ->
                executeSelectOne db' table ws filter = Returned (Some rec) ->
                obj_get rec "id" <> JStr id)
          /\ (forall options res rec,
                fields_ok (opt_filter options) = true ->
                opt_columns options = None ->
                executeSelect db' table ws options = Returned res ->
                In rec (records res) -> obj_get rec "id" <> JStr id)).
Proof.
  intros Ht. split; [|split; [|split]].
  - intros options res rec Hf Hc Hres Hin.
    exact (executeSelect_sound db table ws options res rec Ht Hf Hc Hres Hin).
  - intros filter rec Hf Hres.
    exact (executeSelectOne_sound db table ws filter rec Ht Hf Hres).
  - intros args items item. apply search_sound.
  - intros id t Hg. rewrite (executeHardDelete_run db table ws id t Ht Hg).
    do 2 eexists. split; [reflexivity|].
    assert (Hg' : get_table (data (with_data db (set_table (data db) table
                                                  (hard_delete_table ws id t)))) table
                  = Some (hard_delete_table ws id t)) by apply get_set_table.
    assert (Hgone : forall rec, live_row_of (with_data db (set_table (data db) table
                                                          (hard_delete_table ws id t)))
                                  table ws rec -> obj_get rec "id" <> JStr id).
    { intros rec (tbl & r & Hget & Hin & -> & Hw & _) Hid.
      rewrite Hg' in Hget. inversion Hget; subst tbl.
      apply hard_delete_table_gone in Hin as [_ Hin].
      apply obj_get_of_row in Hid. rewrite (is_row_true ws id r Hw Hid) in Hin.
      discriminate. }
    split; [exact Hg'|]. split.
    + rewrite (D1_first_reread _ table ws id (hard_delete_table ws id t) Ht Hg').
      rewrite reread_hard_delete. reflexivity.
    + split.
      * intros filter rec Hf Hres. apply Hgone.
        exact (executeSelectOne_sound _ table ws filter rec Ht Hf Hres).
      * intros options res rec Hf Hc Hres Hin. apply Hgone.
        exact (executeSelect_sound _ table ws options res rec Ht Hf Hc Hres Hin).
Qed.

(** Two tasks, one of them soft-deleted: the read returns the other one. *)
Lemma reads_exclude_soft_deleted_example :
  no_dquote "task" = true
  /\ (exists res,
        executeSelect two_tasks_one_deleted "task" "T1" read_all = Returned res
        /\ Scenario.ids (records res) = [JStr "r1"]
        /\ forall rec, In rec (records res) ->
                       live_row_of two_tasks_one_deleted "task" "T1" rec)
  /\ map (fun r => row_get r "id") (Scenario.stored_rows two_tasks_one_deleted "task")
     = [SText "r1"; SText "r2"].
Proof.
  split; [reflexivity|]. split; [|vm_compute; reflexivity].
  destruct (executeSelect two_tasks_one_deleted "task" "T1" read_all) as [res|e] eqn:E;
    [|vm_compute in E; discriminate].
  exists res. split; [reflexivity|]. split.
  - vm_compute in E. injection E as <-. reflexivity.
  - intros rec Hin.
    exact (proj1 (reads_exclude_soft_deleted two_tasks_one_deleted "task" "T1"
                    eq_refl) read_all res rec eq_refl eq_refl E Hin).
Qed.

(** ** Pages *)

(** What [executeSelect] did when it returned. *)
Lemma executeSelect_inv db table ws options res :
  no_dquote table = true ->
  fields_ok (opt_filter options) = true ->
  order_ok (opt_orderBy options) = true ->
  opt_columns options = None ->
  executeSelect db table ws options = Returned res ->
  exists ps vals tbl l,
    select_params (JStr ws :: where_params (opt_filter options)) ws (pagination_of options)
    = Returned ps
    /\ D1.to_sql_all ps = Returned vals
    /\ get_table (data db) table = Some tbl
    /\ apply_limit vals (Some (ENum (page_limit (pagination_of options) + 1)))
         (ordered_rows vals (opt_filter options) (opt_orderBy options) tbl) = Returned l
    /\ buildPageInfo (map D1.of_row l) (page_limit (pagination_of options))
         (pagination_of options) = Returned (records res, pageInfo res).
Proof.
  intros Ht Hf Ho Hc. unfold executeSelect.
  rewrite buildWhereClause_text, buildPaginationClause_text, Hc.
  fold (pagination_of options). set (p := pagination_of options).
  destruct (select_params _ ws p) as [ps|] eqn:Eps; [|discriminate]. cbn [bind].
  destruct (D1.all db _) as [result|] eqn:Ea; [|discriminate]. cbn [bind].
  destruct (D1.first db _) as [cnt|]; [|discriminate]. cbn [bind].
  destruct (buildPageInfo result (page_limit p) p) as [[recs info]|] eqn:Eb;
    [|discriminate].
  cbn [bind]. intros [= <-]. cbn [records pageInfo].
  eapply D1_all_rows in Ea; [|apply prepare_select; assumption].
  destruct Ea as (vals & tbl & l & Hv & Hrows & Hsel & ->).
  exists ps, vals, tbl, l. cbn [D1.bound] in Hv. auto.
Qed.

Lemma firstn_all_le {A : Type} (n : nat) (l : list A) :
  (List.length l <= n)%nat -> firstn n l = l.
Proof. intros H. apply firstn_all2. exact H. Qed.

Lemma slice0_firstn {A : Type} (l : list A) (n : Z) :
  0 <= n -> slice0 l n = firstn (Z.to_nat n) l.
Proof.
  intros Hn. unfold slice0.
  destruct (n <? 0) eqn:E; [apply Z.ltb_lt in E; lia|].
  destruct (Z.le_gt_cases n (Z.of_nat (List.length l))) as [H|H].
  - rewrite Z.min_l by exact H. reflexivity.
  - rewrite Z.min_r by lia. rewrite Nat2Z.id.
    rewrite firstn_all. symmetry. apply firstn_all_le. lia.
Qed.

(** The page cut from the rows that the statement returned. *)
Lemma trimmed_page {A : Type} (l : list A) (n : Z) :
  0 <= n ->
  (if Z.of_nat (List.length l) >? n then slice0 l n else l) = firstn (Z.to_nat n) l.
Proof.
  intros Hn. destruct (Z.of_nat (List.length l) >? n) eqn:E.
  - apply slice0_firstn. exact Hn.
  - symmetry. apply firstn_all_le. rewrite Z.gtb_ltb in E. apply Z.ltb_ge in E. lia.
Qed.

Lemma buildPageInfo_inv rows n args recs info :
  0 <= n ->
  buildPageInfo rows n args = Returned (recs, info) ->
  recs = (if some_nonzero (last args) && negb (some_nonzero (first args))
          then rev (firstn (Z.to_nat n) rows) else firstn (Z.to_nat n) rows)
  /\ hasNextPage info
     = (if some_nonzero (first args) then Z.of_nat (List.length rows) >? n
        else some_nonempty (before args))
  /\ hasPreviousPage info
     = (if some_nonzero (last args) then Z.of_nat (List.length rows) >? n
        else some_nonempty (after args)).
Proof.
  intros Hn. unfold buildPageInfo. rewrite (trimmed_page rows n Hn).
  unbind. intros [= <- <-]. cbn [hasNextPage hasPreviousPage]. auto.
Qed.

Lemma firstn_firstn_S {A : Type} (n : nat) (l : list A) :
  firstn n (firstn (S n) l) = firstn n l.
Proof. rewrite firstn_firstn. f_equal. lia. Qed.

Lemma length_firstn_S_gt {A : Type} (n : nat) (l : list A) :
  (n <? List.length (firstn (S n) l))%nat = (n <? List.length l)%nat.
Proof.
  rewrite length_firstn.
  destruct (Nat.ltb_spec n (List.length l)) as [H|H].
  - apply Nat.ltb_lt. lia.
  - apply Nat.ltb_ge. lia.
Qed.

Lemma gtb_of_nat (k : nat) (n : Z) :
  0 <= n -> (Z.of_nat k >? n) = (Z.to_nat n <? k)%nat.
Proof.
  intros Hn. rewrite Z.gtb_ltb.
  destruct (Z.ltb_spec n (Z.of_nat k)), (Nat.ltb_spec (Z.to_nat n) k); try reflexivity; lia.
Qed.

(** The page of a read of size [n]: the statement asks for [n + 1] rows of
    the ordered result, the page holds its first [n], and the extra row
    tells whether the result goes on. *)
Lemma executeSelect_page db table ws options res n :
  no_dquote table = true ->
  fields_ok (opt_filter options) = true ->
  order_ok (opt_orderBy options) = true ->
  opt_columns options = None ->
  page_limit (pagination_of options) = n -> 0 <= n ->
  executeSelect db table ws options = Returned res ->
  exists ps vals tbl,
    select_params (JStr ws :: where_params (opt_filter options)) ws (pagination_of options)
    = Returned ps
    /\ D1.to_sql_all ps = Returned vals
    /\ get_table (data db) table = Some tbl
    /\ let ordered := ordered_rows vals (opt_filter options) (opt_orderBy options) tbl in
       let p := pagination_of options in
       let more := (Z.to_nat n <? List.length ordered)%nat in
       records res
       = (if some_nonzero (last p) && negb (some_nonzero (first p))
          then rev (map D1.of_row (firstn (Z.to_nat n) ordered))
          else map D1.of_row (firstn (Z.to_nat n) ordered))
       /\ hasNextPage (pageInfo res)
          = (if some_nonzero (first p) then more else some_nonempty (before p))
       /\ hasPreviousPage (pageInfo res)
          = (if some_nonzero (last p) then more else some_nonempty (after p)).
Proof.
  intros Ht Hf Ho Hc Hlim Hn Hres.
  destruct (executeSelect_inv db table ws options res Ht Hf Ho Hc Hres)
    as (ps & vals & tbl & l & Hps & Hv & Hg & Hl & Hb).
  exists ps, vals, tbl. repeat (split; [assumption|]).
  rewrite Hlim in Hl, Hb. cbv zeta.
  set (ordered := ordered_rows vals (opt_filter options) (opt_orderBy options) tbl) in *.
  unfold apply_limit in Hl. cbn [eval] in Hl.
  destruct (n + 1 <? 0) eqn:E; [apply Z.ltb_lt in E; lia|].
  injection Hl as <-.
  replace (Z.to_nat (n + 1)) with (S (Z.to_nat n)) in Hb by lia.
  apply (buildPageInfo_inv _ n _ _ _ Hn) in Hb as (Hrecs & Hnext & Hprev).
  rewrite length_map, gtb_of_nat, length_firstn_S_gt in Hnext, Hprev by exact Hn.
  rewrite firstn_map in Hrecs.
  rewrite firstn_firstn_S in Hrecs.
  split; [|split; assumption].
  rewrite Hrecs. reflexivity.
Qed.

(** ** Cursors that do not decode *)

Lemma decodeCursor_returns cursor : exists v, decodeCursor cursor = Returned v.
Proof.
  unfold decodeCursor.
  destruct (Base64.atob cursor) as [text|]; cbn [bind try_catch]; [|eauto].
  destruct (JSON.parse text); cbn [try_catch]; eauto.
Qed.

(** A cursor whose decoding throws decodes to [null]. *)
Lemma decodeCursor_null cursor e :
  decoded cursor = Thrown e -> decodeCursor cursor = Returned JNull.
Proof.
  unfold decoded, decodeCursor. intros ->. reflexivity.
Qed.

Lemma select_params_ignored params ws p cursor v :
  after p = Some cursor -> decodeCursor cursor = Returned v -> truthy v = false ->
  select_params params ws p = Returned params.
Proof.
  intros Ha Hd Hv. unfold select_params. rewrite Ha.
  destruct (negb (String.eqb cursor "")); [|reflexivity].
  rewrite Hd. cbn [bind]. rewrite Hv. reflexivity.
Qed.

Lemma executeSelect_ignores_cursor db table ws options cursor v :
  decodeCursor cursor = Returned v -> truthy v = false ->
  executeSelect db table ws (with_after options (Some cursor))
  = match executeSelect db table ws (with_after options None) with
    | Returned r => Returned (seen_after (pagination_of options) cursor r)
    | Thrown e => Thrown e
    end.
Proof.
  intros Hd Hv. unfold executeSelect, with_after.
  cbn [opt_filter opt_orderBy opt_pagination opt_columns].
  set (p := pagination_of options).
  destruct (buildWhereClause (opt_filter options) ws) as [whereClause params].
  unfold buildPaginationClause. cbn [first last].
  erewrite (select_params_ignored params ws _ cursor v); [|reflexivity|exact Hd|exact Hv].
  unfold select_params at 1. cbn [after bind].
  destruct (D1.all db _) as [result|]; cbn [bind]; [|reflexivity].
  destruct (D1.first db _) as [cnt|]; cbn [bind]; [|reflexivity].
  unfold buildPageInfo. cbn [first last before after].
  match goal with
  | |- context [bind ?m _] => destruct m as [sc|]; cbn [bind]; [|reflexivity]
  end.
  match goal with
  | |- context [bind ?m _] => destruct m as [ec|]; cbn [bind]; [|reflexivity]
  end.
  unfold seen_after. cbn [records pageInfo totalCount hasNextPage hasPreviousPage
                          startCursor endCursor some_nonempty].
  destruct (some_nonzero (last p)); reflexivity.
Qed.

(** The [before] cursor is never decoded: any text does as well as any
    other. *)
Lemma executeSelect_ignores_before db table ws options cursor :
  executeSelect db table ws (with_before options (Some cursor))
  = match executeSelect db table ws (with_before options None) with
    | Returned r => Returned (seen_before (pagination_of options) cursor r)
    | Thrown e => Thrown e
    end.
Proof.
  unfold executeSelect, with_before.
  cbn [opt_filter opt_orderBy opt_pagination opt_columns].
  set (p := pagination_of options).
  destruct (buildWhereClause (opt_filter options) ws) as [whereClause params].
  unfold buildPaginationClause. cbn [first last].
  unfold select_params. cbn [after].
  match goal with
  | |- context [bind ?m _] => destruct m as [ps|]; cbn [bind]; [|reflexivity]
  end.
  destruct (D1.all db _) as [result|]; cbn [bind]; [|reflexivity].
  destruct (D1.first db _) as [cnt|]; cbn [bind]; [|reflexivity].
  unfold buildPageInfo. cbn [first last before after].
  match goal with
  | |- context [bind ?m _] => destruct m as [sc|]; cbn [bind]; [|reflexivity]
  end.
  match goal with
  | |- context [bind ?m _] => destruct m as [ec|]; cbn [bind]; [|reflexivity]
  end.
  unfold seen_before. cbn [records pageInfo totalCount hasNextPage hasPreviousPage
                           startCursor endCursor some_nonempty].
  destruct (some_nonzero (first p)); reflexivity.
Qed.

(** ** Escaping of LIKE patterns *)




Section Json_facts.

Import JSON.

(** ** JSON text read back *)

Lemma parse_string_body_quote_char c r :
  parse_string_body None (quote_char c ++ r)
  = prepend (String c "") (parse_string_body None r).
Proof.
  destruct c as [[] [] [] [] [] [] [] []]; reflexivity.
Qed.

Lemma parse_string_body_quote s rest :
  parse_string_body None (quote_body s ++ dq ++ rest) = Some (s, rest).
Proof.
  induction s as [|c s IH].
  - reflexivity.
  - cbn [quote_body]. rewrite append_assoc, parse_string_body_quote_char, IH.
    reflexivity.
Qed.

(** *** Numbers *)

Lemma N_to_uint_normal n : Decimal.unorm (N.to_uint n) = N.to_uint n.
Proof.
  rewrite <- (DecimalN.Unsigned.of_to n) at 2.
  symmetry. apply DecimalN.Unsigned.to_of.
Qed.

Lemma canonical_N_to_string n : Number.canonical_digits (N_to_string n) = true.
Proof.
  unfold N_to_string. pose proof (N_to_uint_normal n) as H.
  pose proof (N_to_uint_nonnil n) as Hne.
  destruct (N.to_uint n) as [|d|d|d|d|d|d|d|d|d|d]; try congruence;
    try (cbn [NilZero.string_of_uint NilEmpty.string_of_uint];
         destruct (NilEmpty.string_of_uint d); reflexivity).
  assert (d = Decimal.Nil) as ->; [|reflexivity].
  unfold Decimal.unorm in H. rewrite DecimalFacts.nzhead_D0 in H.
  destruct (Decimal.nzhead d) eqn:E; try (exfalso; revert E; rewrite H; apply DecimalFacts.nzhead_nonzero).
  injection H as H. congruence.
Qed.

Lemma span_digits_end rest :
  number_end rest = true -> span is_digit rest = ("", rest).
Proof.
  destruct rest as [|c r]; [reflexivity|]. cbn [number_end span].
  destruct (is_digit c); [discriminate|reflexivity].
Qed.

(** Reading digits at the head of a text does not depend on what follows
    the text, when that is no digit. *)
Lemma span_digits_app a x y rest :
  span is_digit a = (x, y) -> number_end rest = true ->
  span is_digit (a ++ rest) = (x, y ++ rest).
Proof.
  intros Ha Hr. revert x y Ha. induction a as [|c a IH]; intros x y Ha.
  - cbn [span] in Ha. injection Ha as <- <-. cbn [append].
    apply span_digits_end. exact Hr.
  - cbn [span append] in *. destruct (is_digit c).
    + destruct (span is_digit a) as [x1 y1]. injection Ha as <- <-.
      rewrite (IH x1 y1 eq_refl). reflexivity.
    + injection Ha as <- <-. reflexivity.
Qed.

Lemma span_digits a rest :
  string_forallb is_digit a = true -> number_end rest = true ->
  span is_digit (a ++ rest) = (a, rest).
Proof.
  intros Ha Hr. induction a as [|c a IH].
  - apply span_digits_end. exact Hr.
  - cbn [string_forallb] in Ha. apply andb_true_iff in Ha as [Hc Ha].
    cbn [append span]. rewrite Hc, (IH Ha). reflexivity.
Qed.

Lemma read_fraction_end rest :
  number_end rest = true -> Number.read_fraction rest = Some ("", rest).
Proof.
  destruct rest as [|c r]; [reflexivity|].
  destruct c as [[] [] [] [] [] [] [] []]; intros H; try discriminate H; reflexivity.
Qed.

Lemma read_exponent_end rest :
  number_end rest = true -> Number.read_exponent rest = Some (0, rest).
Proof.
  destruct rest as [|c r]; [reflexivity|].
  destruct c as [[] [] [] [] [] [] [] []]; intros H; try discriminate H; reflexivity.
Qed.

Lemma read_fraction_app s fs y rest :
  Number.read_fraction s = Some (fs, y) -> number_end rest = true ->
  Number.read_fraction (s ++ rest) = Some (fs, y ++ rest).
Proof.
  intros Hs Hr. destruct s as [|c r].
  - injection Hs as <- <-. apply read_fraction_end. exact Hr.
  - unfold Number.read_fraction in *. cbn [append].
    destruct (Ascii.eqb c ".") eqn:Ec.
    + apply Ascii.eqb_eq in Ec. subst c.
      destruct (span is_digit r) as [x1 y1] eqn:Es.
      rewrite (span_digits_app r x1 y1 rest Es Hr).
      destruct x1; [discriminate|]. injection Hs as <- <-. reflexivity.
    + assert (Hc : c <> "."%char) by (apply Ascii.eqb_neq; exact Ec).
      destruct c as [[] [] [] [] [] [] [] []];
        try (injection Hs as <- <-; reflexivity).
      congruence.
Qed.

Lemma read_exponent_app s e y rest :
  Number.read_exponent s = Some (e, y) -> number_end rest = true ->
  Number.read_exponent (s ++ rest) = Some (e, y ++ rest).
Proof.
  intros Hs Hr. destruct s as [|c r].
  - injection Hs as <- <-. apply read_exponent_end. exact Hr.
  - unfold Number.read_exponent in *. cbn [append].
    destruct ((ascii_N c =? 101)%N || (ascii_N c =? 69)%N).
    + assert (Hsign : forall m r1,
                 (let (es, r2) := span is_digit r1 in
                  match es with
                  | "" => None
                  | String _ _ =>
                      Some (if m : bool then - Z.of_N (digits_to_N es)
                            else Z.of_N (digits_to_N es), r2)
                  end) = Some (e, y) ->
                 (let (es, r2) := span is_digit (r1 ++ rest) in
                  match es with
                  | "" => None
                  | String _ _ =>
                      Some (if m then - Z.of_N (digits_to_N es)
                            else Z.of_N (digits_to_N es), r2)
                  end) = Some (e, y ++ rest)).
      { intros m r1 H. destruct (span is_digit r1) as [x1 y1] eqn:Es.
        rewrite (span_digits_app r1 x1 y1 rest Es Hr).
        destruct x1; [discriminate|]. injection H as <- <-. reflexivity. }
      destruct r as [|d r1].
      * discriminate Hs.
      * cbn [append].
        destruct (Ascii.eqb d "+") eqn:Ep;
          [apply Ascii.eqb_eq in Ep; subst d; apply (Hsign false r1 Hs)|].
        destruct (Ascii.eqb d "-") eqn:Em;
          [apply Ascii.eqb_eq in Em; subst d; apply (Hsign true r1 Hs)|].
        assert (Hp : d <> "+"%char) by (apply Ascii.eqb_neq; exact Ep).
        assert (Hm : d <> "-"%char) by (apply Ascii.eqb_neq; exact Em).
        assert (Hsg : forall t,
                   (match String d t with
                    | String "+" t1 => (false, t1)
                    | String "-" t1 => (true, t1)
                    | _ => (false, String d t)
                    end) = (false, String d t)).
        { intros t. destruct d as [[] [] [] [] [] [] [] []]; try reflexivity;
            congruence. }
        rewrite Hsg in Hs. rewrite Hsg.
        apply (Hsign false (String d r1) Hs).
    + injection Hs as <- <-. reflexivity.
Qed.

(** A literal is read the same way when a text that cannot continue it
    follows. *)
Lemma read_app s l y rest :
  Number.read s = Some (l, y) -> number_end rest = true ->
  Number.read (s ++ rest) = Some (l, y ++ rest).
Proof.
  intros Hs Hr.
  assert (Hbody : forall neg s1,
             (let (ds, s2) := span is_digit s1 in
              if Number.canonical_digits ds then
                match Number.read_fraction s2 with
                | Some (fs, s3) =>
                    match Number.read_exponent s3 with
                    | Some (e, s4) =>
                        Some ({| Number.negative := neg; Number.integer := ds;
                                 Number.fraction := fs; Number.exponent := e |}, s4)
                    | None => None
                    end
                | None => None
                end
              else None) = Some (l, y) ->
             (let (ds, s2) := span is_digit (s1 ++ rest) in
              if Number.canonical_digits ds then
                match Number.read_fraction s2 with
                | Some (fs, s3) =>
                    match Number.read_exponent s3 with
                    | Some (e, s4) =>
                        Some ({| Number.negative := neg; Number.integer := ds;
                                 Number.fraction := fs; Number.exponent := e |}, s4)
                    | None => None
                    end
                | None => None
                end
              else None) = Some (l, y ++ rest)).
  { intros neg s1 H. destruct (span is_digit s1) as [ds s2] eqn:Es.
    rewrite (span_digits_app s1 ds s2 rest Es Hr).
    destruct (Number.canonical_digits ds); [|discriminate].
    destruct (Number.read_fraction s2) as [[fs s3]|] eqn:Ef; [|discriminate].
    rewrite (read_fraction_app s2 fs s3 rest Ef Hr).
    destruct (Number.read_exponent s3) as [[e s4]|] eqn:Ee; [|discriminate].
    rewrite (read_exponent_app s3 e s4 rest Ee Hr).
    injection H as <- <-. reflexivity. }
  unfold Number.read in *. destruct s as [|c r].
  - discriminate Hs.
  - cbn [append]. destruct (Ascii.eqb c "-") eqn:Ec.
    + apply Ascii.eqb_eq in Ec. subst c. apply (Hbody true r Hs).
    + assert (Hc : c <> "-"%char) by (apply Ascii.eqb_neq; exact Ec).
      assert (Hsg : forall t,
                 (match String c t with
                  | String "-" t1 => (true, t1)
                  | _ => (false, String c t)
                  end) = (false, String c t)).
      { intros t. destruct c as [[] [] [] [] [] [] [] []]; try reflexivity;
          congruence. }
      rewrite Hsg in Hs. rewrite Hsg.
      apply (Hbody false (String c r) Hs).
Qed.

(** A literal begins with a digit or a minus sign. *)
Lemma read_head s l y :
  Number.read s = Some (l, y) ->
  exists c tl, s = String c tl /\ is_digit c || (ascii_N c =? 45)%N = true.
Proof.
  unfold Number.read. destruct s as [|c r]; [discriminate|].
  intros H. exists c, r. split; [reflexivity|].
  destruct (Ascii.eqb c "-") eqn:Ec.
  - apply Ascii.eqb_eq in Ec. subst c. reflexivity.
  - assert (E : (match String c r with
                 | String "-" r0 => (true, r0)
                 | _ => (false, String c r)
                 end) = (false, String c r)).
    { assert (Hc : c <> "-"%char) by (apply Ascii.eqb_neq; exact Ec).
      destruct c as [[] [] [] [] [] [] [] []]; try reflexivity; congruence. }
    rewrite E in H. cbn [span] in H. destruct (is_digit c); [reflexivity|].
    discriminate H.
Qed.

Lemma parse_number_signed (neg : bool) n rest :
  number_end rest = true -> Z.of_N n < 10 ^ 21 ->
  parse_number ((if neg then "-" else "") ++ N_to_string n ++ rest)
  = Some (JNum (if neg then - Z.of_N n else Z.of_N n), rest).
Proof.
  intros Hr Hn. pose proof (N_to_string_digits n) as Hd.
  pose proof (N_to_string_nonempty n) as Hne.
  pose proof (span_digits _ _ Hd Hr) as Hs.
  pose proof (canonical_N_to_string n) as Hc.
  pose proof (digits_to_N_to_string n) as Hv.
  assert (Hlit : Number.of_literal
                   {| Number.negative := neg; Number.integer := N_to_string n;
                      Number.fraction := ""; Number.exponent := 0 |}
                 = JNum (if neg then - Z.of_N n else Z.of_N n)).
  { unfold Number.of_literal.
    cbn [Number.negative Number.integer Number.fraction Number.exponent].
    rewrite Hv. cbn [String.eqb Z.eqb andb].
    replace (Z.of_N n <? 10 ^ 21) with true by (symmetry; apply Z.ltb_lt; exact Hn).
    reflexivity. }
  unfold parse_number, Number.read. destruct neg.
  - change ("-" ++ N_to_string n ++ rest) with (String "-" (N_to_string n ++ rest)).
    cbv iota.
    rewrite Hs, Hc, (read_fraction_end _ Hr), (read_exponent_end _ Hr), Hlit.
    reflexivity.
  - change ("" ++ N_to_string n ++ rest) with (N_to_string n ++ rest).
    assert (E : (match N_to_string n ++ rest with
                 | String "-" r => (true, r)
                 | _ => (false, N_to_string n ++ rest)
                 end) = (false, N_to_string n ++ rest)).
    { destruct (N_to_string n) as [|c w]; [congruence|].
      cbn [string_forallb] in Hd. apply andb_true_iff in Hd as [Hd _].
      cbn [append]. destruct c as [[] [] [] [] [] [] [] []]; try reflexivity;
        discriminate Hd. }
    rewrite E, Hs, Hc, (read_fraction_end _ Hr), (read_exponent_end _ Hr), Hlit.
    reflexivity.
Qed.

Lemma parse_number_Z z rest :
  number_end rest = true -> - 10 ^ 21 < z < 10 ^ 21 ->
  parse_number (Z_to_string z ++ rest) = Some (JNum z, rest).
Proof.
  intros Hr Hz. unfold Z_to_string. destruct (z <? 0) eqn:E.
  - apply Z.ltb_lt in E. rewrite append_assoc.
    rewrite (parse_number_signed true (Z.abs_N z) rest Hr)
      by (rewrite N2Z.inj_abs_N; lia).
    rewrite N2Z.inj_abs_N. do 3 f_equal. lia.
  - apply Z.ltb_ge in E.
    pose proof (parse_number_signed false (Z.to_N z) rest Hr) as H.
    cbn [append] in H. rewrite H by (rewrite Z2N.id; lia).
    rewrite Z2N.id by exact E. reflexivity.
Qed.

Lemma parse_number_float lit rest :
  float_text lit = true -> number_end rest = true ->
  parse_number (lit ++ rest) = Some (JFloat lit, rest).
Proof.
  unfold float_text, parse_number. intros Hl Hr.
  destruct (Number.read lit) as [[l y]|] eqn:E; [|discriminate].
  destruct (Number.of_literal l) as [ | |b|n|t|t|items|props] eqn:Ev;
    try discriminate.
  destruct y; [|discriminate]. apply String.eqb_eq in Hl. subst t.
  rewrite (read_app lit l "" rest E Hr), Ev. reflexivity.
Qed.

Lemma float_text_head lit :
  float_text lit = true ->
  exists c tl, lit = String c tl /\ is_digit c || (ascii_N c =? 45)%N = true.
Proof.
  unfold float_text, parse_number. intros Hl.
  destruct (Number.read lit) as [[l y]|] eqn:E; [|discriminate].
  exact (read_head lit l y E).
Qed.

(** *** The texts of [Number::toString] *)

Lemma span_digits_then a c rest :
  string_forallb is_digit a = true -> is_digit c = false ->
  span is_digit (a ++ String c rest) = (a, String c rest).
Proof.
  intros Ha Hc. induction a as [|d a IH].
  - cbn [append span]. rewrite Hc. reflexivity.
  - cbn [string_forallb] in Ha. apply andb_true_iff in Ha as [Hd Ha].
    cbn [append span]. rewrite Hd, (IH Ha). reflexivity.
Qed.

Lemma span_digits_all a :
  string_forallb is_digit a = true -> span is_digit a = (a, "").
Proof.
  intros Ha. induction a as [|d a IH]; [reflexivity|].
  cbn [string_forallb] in Ha. apply andb_true_iff in Ha as [Hd Ha].
  cbn [span]. rewrite Hd, (IH Ha). reflexivity.
Qed.

Lemma append_empty (s : string) : s ++ "" = s.
Proof. induction s as [|c s IH]; cbn; congruence. Qed.

Lemma take_drop n s : Number.take n s ++ Number.drop n s = s.
Proof.
  revert s. induction n as [|n IH]; intros [|c s]; cbn; try reflexivity.
  rewrite IH. reflexivity.
Qed.

Lemma length_take n s :
  (n <= String.length s)%nat -> String.length (Number.take n s) = n.
Proof.
  revert s. induction n as [|n IH]; intros [|c s] H; cbn in *; try lia.
  rewrite IH; lia.
Qed.

Lemma length_drop n s :
  String.length (Number.drop n s) = (String.length s - n)%nat.
Proof.
  revert s. induction n as [|n IH]; intros [|c s]; cbn; try lia. apply IH.
Qed.

Lemma digits_take n s :
  string_forallb is_digit s = true -> string_forallb is_digit (Number.take n s) = true.
Proof.
  revert s. induction n as [|n IH]; intros [|c s] H; cbn in *; try reflexivity.
  apply andb_true_iff in H as [Hc H]. rewrite Hc, (IH s H). reflexivity.
Qed.

Lemma digits_drop n s :
  string_forallb is_digit s = true -> string_forallb is_digit (Number.drop n s) = true.
Proof.
  revert s. induction n as [|n IH]; intros [|c s] H; cbn in *; try reflexivity;
    try exact H.
  apply andb_true_iff in H as [Hc H]. apply IH. exact H.
Qed.

Lemma digits_zeros m : string_forallb is_digit (Number.zeros m) = true.
Proof. induction m as [|m IH]; [reflexivity|]. cbn. exact IH. Qed.

Lemma digits_append a b :
  string_forallb is_digit a = true -> string_forallb is_digit b = true ->
  string_forallb is_digit (a ++ b) = true.
Proof.
  intros Ha Hb. induction a as [|c a IH]; [exact Hb|].
  cbn [string_forallb append] in *. apply andb_true_iff in Ha as [Hc Ha].
  rewrite Hc, (IH Ha). reflexivity.
Qed.

Lemma length_zeros m : String.length (Number.zeros m) = m.
Proof. induction m as [|m IH]; cbn; congruence. Qed.

Lemma length_append (a b : string) :
  String.length (a ++ b) = (String.length a + String.length b)%nat.
Proof. induction a as [|c a IH]; cbn; congruence. Qed.

Lemma strip_zeros_significand s :
  significand s = true -> Number.strip_zeros s = s.
Proof.
  unfold significand. intros H. apply andb_true_iff in H as [H _].
  apply andb_true_iff in H as [_ H]. destruct s as [|c s]; [reflexivity|].
  cbn [Number.strip_zeros]. apply negb_true_iff in H. rewrite H. reflexivity.
Qed.

Lemma strip_zeros_zeros m s :
  Number.strip_zeros (Number.zeros m ++ s) = Number.strip_zeros s.
Proof. induction m as [|m IH]; [reflexivity|]. cbn. exact IH. Qed.

(** A literal read from its parts. *)
Lemma read_literal (neg : bool) body ds s2 fs s3 e s4 :
  span is_digit body = (ds, s2) ->
  Number.canonical_digits ds = true ->
  Number.read_fraction s2 = Some (fs, s3) ->
  Number.read_exponent s3 = Some (e, s4) ->
  Number.read ((if neg then "-" else "") ++ body)
  = Some ({| Number.negative := neg; Number.integer := ds;
             Number.fraction := fs; Number.exponent := e |}, s4).
Proof.
  intros Hs Hc Hf He. unfold Number.read. destruct neg.
  - change ("-" ++ body) with (String "-" body). cbv iota.
    rewrite Hs, Hc, Hf, He. reflexivity.
  - change ("" ++ body) with body.
    assert (E : (match body with
                 | String "-" r => (true, r)
                 | _ => (false, body)
                 end) = (false, body)).
    { destruct body as [|c r]; [reflexivity|]. cbn [span] in Hs.
      destruct (is_digit c) eqn:Ed.
      - destruct c as [[] [] [] [] [] [] [] []]; try reflexivity; discriminate Ed.
      - injection Hs as <- <-. discriminate Hc. }
    rewrite E, Hs, Hc, Hf, He. reflexivity.
Qed.

(** The number of a literal that is no integer below 10^21. *)
Lemma of_literal_float l s n :
  String.eqb (Number.fraction l) "" && (Number.exponent l =? 0) = false ->
  Number.normal l = (s, n) -> s <> "" ->
  (Z.of_nat (String.length s) <=? n) && (n <=? 21) = false ->
  Number.of_literal l
  = JFloat ((if Number.negative l then "-" else "") ++ Number.text s n).
Proof.
  intros Hp Hn Hs Hk. unfold Number.of_literal. rewrite Hp, Hn. cbn [andb].
  destruct s as [|c s]; [congruence|]. rewrite Hk. reflexivity.
Qed.

Lemma float_text_of_literal (neg : bool) body l s n :
  Number.read ((if neg then "-" else "") ++ body) = Some (l, "") ->
  Number.negative l = neg ->
  String.eqb (Number.fraction l) "" && (Number.exponent l =? 0) = false ->
  Number.normal l = (s, n) -> s <> "" ->
  (Z.of_nat (String.length s) <=? n) && (n <=? 21) = false ->
  body = Number.text s n ->
  float_text ((if neg then "-" else "") ++ body) = true.
Proof.
  intros Hr Hneg Hp Hn Hs Hk ->. unfold float_text, parse_number.
  rewrite Hr, (of_literal_float l s n Hp Hn Hs Hk), Hneg. apply String.eqb_refl.
Qed.

Lemma significand_parts s :
  significand s = true ->
  string_forallb is_digit s = true
  /\ (exists c r, s = String c r /\ (ascii_N c =? 48)%N = false)
  /\ Number.drop_trailing_zeros s = s.
Proof.
  unfold significand. intros H. apply andb_true_iff in H as [H Ht].
  apply andb_true_iff in H as [Hd Hh]. apply String.eqb_eq in Ht.
  split; [exact Hd|]. split; [|exact Ht].
  destruct s as [|c r]; [discriminate|]. exists c, r. split; [reflexivity|].
  apply negb_true_iff. exact Hh.
Qed.

(** Every text that [Number::toString] writes for a number that is no
    integer below 10^21, from significant digits [s] and a power [n], is
    read back as the number of that text. *)
Lemma float_text_of_number (neg : bool) s n :
  significand s = true ->
  (Z.of_nat (String.length s) <=? n) && (n <=? 21) = false ->
  float_text ((if neg then "-" else "") ++ Number.text s n) = true.
Proof.
  intros Hsig Hk.
  destruct (significand_parts s Hsig) as (Hd & (c & r & Es & Hc) & Ht).
  pose proof (strip_zeros_significand s Hsig) as Hz.
  assert (Hne : s <> "") by (rewrite Es; discriminate).
  assert (Hdc : is_digit c = true /\ string_forallb is_digit r = true).
  { rewrite Es in Hd. cbn [string_forallb] in Hd. apply andb_true_iff in Hd. exact Hd. }
  destruct Hdc as [Hdc Hdr].
  destruct ((0 <? n) && (n <=? 21)) eqn:E1.
  - (* a point among the digits *)
    apply andb_true_iff in E1 as [Hn0 Hn21]. apply Z.ltb_lt in Hn0.
    rewrite Hn21, andb_true_r in Hk. apply Z.leb_gt in Hk.
    set (k := Z.to_nat n).
    assert (Hkl : (k < String.length s)%nat) by (unfold k; lia).
    assert (Hdrop : Number.drop k s <> "").
    { intros E. pose proof (length_drop k s) as H. rewrite E in H. cbn in H. lia. }
    eapply (float_text_of_literal neg _
              {| Number.negative := neg; Number.integer := Number.take k s;
                 Number.fraction := Number.drop k s; Number.exponent := 0 |} s n).
    + eapply read_literal.
      * unfold Number.text. replace ((0 <? n) && (n <=? 21)) with true
          by (symmetry; apply andb_true_iff; split; [apply Z.ltb_lt; lia|exact Hn21]).
        fold k. change ("." ++ Number.drop k s) with (String "." (Number.drop k s)).
        apply span_digits_then; [apply digits_take; exact Hd|reflexivity].
      * destruct k as [|k'] eqn:Ek; [unfold k in Ek; lia|].
        rewrite Es. cbn [Number.take Number.canonical_digits].
        rewrite Hc. destruct (Number.take k' r); reflexivity.
      * unfold Number.read_fraction.
        rewrite (span_digits_all _ (digits_drop k s Hd)).
        destruct (Number.drop k s); [congruence|reflexivity].
      * reflexivity.
    + reflexivity.
    + cbn [Number.fraction]. destruct (Number.drop k s); [congruence|reflexivity].
    + unfold Number.normal. cbn [Number.integer Number.fraction Number.exponent].
      rewrite take_drop, Hz, Ht. f_equal.
      rewrite length_take by lia. unfold k. lia.
    + exact Hne.
    + apply andb_false_iff. left. apply Z.leb_gt. lia.
    + reflexivity.
  - destruct ((-6 <? n) && (n <=? 0)) eqn:E2.
    + (* zeros after the point *)
      apply andb_true_iff in E2 as [Hn6 Hn0]. apply Z.leb_le in Hn0.
      set (m := Z.to_nat (- n)).
      eapply (float_text_of_literal neg _
                {| Number.negative := neg; Number.integer := "0";
                   Number.fraction := Number.zeros m ++ s; Number.exponent := 0 |} s n).
      * eapply read_literal.
        -- unfold Number.text. rewrite E1.
           replace ((-6 <? n) && (n <=? 0)) with true
             by (symmetry; apply andb_true_iff; split; [exact Hn6|apply Z.leb_le; lia]).
           fold m. reflexivity.
        -- reflexivity.
        -- unfold Number.read_fraction.
           rewrite (span_digits_all _ (digits_append _ _ (digits_zeros m) Hd)).
           destruct (Number.zeros m ++ s) eqn:E; [|reflexivity].
           destruct m; cbn in E; [congruence|discriminate].
        -- reflexivity.
      * reflexivity.
      * cbn [Number.fraction].
        destruct (Number.zeros m ++ s) eqn:E; [|reflexivity].
        destruct m; cbn in E; [congruence|discriminate].
      * unfold Number.normal. cbn [Number.integer Number.fraction Number.exponent].
        change ("0" ++ Number.zeros m ++ s) with (Number.zeros (S m) ++ s).
        rewrite strip_zeros_zeros, Hz, Ht. f_equal.
        rewrite length_append, length_zeros. cbn [String.length]. unfold m. lia.
      * exact Hne.
      * apply andb_false_iff. left. apply Z.leb_gt.
        rewrite Es. cbn [String.length]. lia.
      * reflexivity.
    + (* an exponent *)
      assert (Hn : n - 1 <> 0).
      { intros E. assert (n = 1) by lia. subst n. discriminate E1. }
      set (e := n - 1) in *.
      set (sg := if e <? 0 then "-" else "+").
      assert (Hexp : forall rest,
                 Number.read_exponent ("e" ++ sg ++ N_to_string (Z.abs_N e) ++ rest)
                 = match rest with
                   | EmptyString => Some (e, "")
                   | _ => Number.read_exponent ("e" ++ sg ++ N_to_string (Z.abs_N e) ++ rest)
                   end).
      { intros [|x rest]; [|reflexivity].
        unfold Number.read_exponent.
        change ("e" ++ sg ++ N_to_string (Z.abs_N e) ++ "")
          with (String "e" (sg ++ N_to_string (Z.abs_N e) ++ "")).
        cbv iota. cbn [ascii_N N.eqb orb].
        rewrite append_empty.
        pose proof (span_digits_all _ (N_to_string_digits (Z.abs_N e))) as Hsp.
        pose proof (N_to_string_nonempty (Z.abs_N e)) as Hnn.
        pose proof (digits_to_N_to_string (Z.abs_N e)) as Hv.
        unfold sg. destruct (e <? 0) eqn:Ee.
        - change ("-" ++ N_to_string (Z.abs_N e))
            with (String "-" (N_to_string (Z.abs_N e))). cbv iota.
          rewrite Hsp. destruct (N_to_string (Z.abs_N e)) eqn:EN; [congruence|].
          rewrite Hv. apply Z.ltb_lt in Ee. rewrite N2Z.inj_abs_N.
          change ((ascii_N "e" =? 101)%N || (ascii_N "e" =? 69)%N) with true.
          cbv iota. do 2 f_equal. lia.
        - change ("+" ++ N_to_string (Z.abs_N e))
            with (String "+" (N_to_string (Z.abs_N e))). cbv iota.
          rewrite Hsp. destruct (N_to_string (Z.abs_N e)) eqn:EN; [congruence|].
          rewrite Hv. apply Z.ltb_ge in Ee. rewrite N2Z.inj_abs_N.
          change ((ascii_N "e" =? 101)%N || (ascii_N "e" =? 69)%N) with true.
          cbv iota. do 2 f_equal. lia. }
      specialize (Hexp ""). cbv iota in Hexp.
      eapply (float_text_of_literal neg _
                {| Number.negative := neg; Number.integer := String c "";
                   Number.fraction := r; Number.exponent := e |} s n).
      * eapply read_literal with (s2 := match r with
                                        | EmptyString => _
                                        | _ => String "." (r ++ _)
                                        end).
        -- unfold Number.text. rewrite E1, E2. fold e. fold sg. rewrite Es.
           destruct r as [|d r'].
           ++ cbn [append span]. rewrite Hdc. reflexivity.
           ++ cbn [append span]. rewrite Hdc. reflexivity.
        -- reflexivity.
        -- destruct r as [|d r'].
           ++ reflexivity.
           ++ unfold Number.read_fraction.
              change ("e" ++ sg ++ N_to_string (Z.abs_N e))
                with (String "e" (sg ++ N_to_string (Z.abs_N e))).
              rewrite (span_digits_then _ "e" _ Hdr eq_refl). reflexivity.
        -- rewrite append_empty in Hexp. exact Hexp.
      * reflexivity.
      * cbn [Number.fraction Number.exponent].
        replace (e =? 0) with false by (symmetry; apply Z.eqb_neq; exact Hn).
        apply andb_false_r.
      * unfold Number.normal. cbn [Number.integer Number.fraction Number.exponent].
        change (String c "" ++ r) with (String c r). rewrite <- Es, Hz, Ht.
        f_equal. cbn [String.length]. unfold e. lia.
      * exact Hne.
      * exact Hk.
      * reflexivity.
Qed.

(** *** Values *)

Lemma jsval_induction (P : jsval -> Prop) :
  P JUndefined -> P JNull -> (forall b, P (JBool b)) -> (forall n, P (JNum n)) ->
  (forall lit, P (JFloat lit)) -> (forall s, P (JStr s)) ->
  (forall items, Forall P items -> P (JArr items)) ->
  (forall props, Forall (fun kv : string * jsval => P (snd kv)) props -> P (JObj props)) ->
  forall v, P v.
Proof.
  intros Hu Hn Hb Hi Hf Hs Ha Ho. fix IH 1.
  intros [ | |b|n|lit|s|items|props];
    [exact Hu|exact Hn|apply Hb|apply Hi|apply Hf|apply Hs| |].
  - apply Ha. induction items as [|x items IHi]; constructor; [apply IH|exact IHi].
  - apply Ho. induction props as [|[k x] props IHp]; constructor; [apply IH|exact IHp].
Qed.

Lemma parse_value_array f c tl :
  value_start c = true ->
  parse_value (S f) (String "[" (String c tl))
  = match parse_elements f (String c tl) with
    | Some (items, r') => Some (JArr items, r')
    | None => None
    end.
Proof.
  destruct c as [[] [] [] [] [] [] [] []]; intros H; try discriminate H; reflexivity.
Qed.

Lemma parse_value_object f tl :
  parse_value (S f) (String "{" (String dquote tl))
  = match parse_members f (String dquote tl) with
    | Some (props, r') => Some (JObj props, r')
    | None => None
    end.
Proof. reflexivity. Qed.

Lemma parse_value_number f c tl :
  is_digit c || (ascii_N c =? 45)%N = true ->
  parse_value (S f) (String c tl) = parse_number (String c tl).
Proof.
  destruct c as [[] [] [] [] [] [] [] []]; intros H; try discriminate H; reflexivity.
Qed.

Lemma parse_value_string f tl :
  parse_value (S f) (String dquote tl)
  = match parse_string_body None tl with
    | Some (t, r') => Some (JStr t, r')
    | None => None
    end.
Proof. reflexivity. Qed.

Lemma parse_elements_step f s :
  parse_elements (S f) s
  = match parse_value f s with
    | Some (v, r) =>
        match skip_ws r with
        | String "," r' =>
            match parse_elements f r' with
            | Some (vs, r'') => Some (v :: vs, r'')
            | None => None
            end
        | String "]" r' => Some ([v], r')
        | _ => None
        end
    | None => None
    end.
Proof. reflexivity. Qed.

Lemma parse_members_step f tl :
  parse_members (S f) (String dquote tl)
  = match parse_string_body None tl with
    | Some (k, r1) =>
        match skip_ws r1 with
        | String ":" r2 =>
            match parse_value f r2 with
            | Some (v, r3) =>
                match skip_ws r3 with
                | String "," r4 =>
                    match parse_members f r4 with
                    | Some (ps, r5) => Some ((k, v) :: ps, r5)
                    | None => None
                    end
                | String "}" r4 => Some ([(k, v)], r4)
                | _ => None
                end
            | None => None
            end
        | _ => None
        end
    | None => None
    end.
Proof. reflexivity. Qed.

Lemma Z_to_string_head z :
  exists c tl, Z_to_string z = String c tl
               /\ is_digit c || (ascii_N c =? 45)%N = true.
Proof.
  unfold Z_to_string. destruct (z <? 0).
  - exists "-"%char, (N_to_string (Z.abs_N z)). split; reflexivity.
  - pose proof (N_to_string_digits (Z.to_N z)) as Hd.
    pose proof (N_to_string_nonempty (Z.to_N z)) as Hne.
    destruct (N_to_string (Z.to_N z)) as [|c w]; [congruence|].
    cbn [string_forallb] in Hd. apply andb_true_iff in Hd as [Hd _].
    exists c, w. rewrite Hd. split; reflexivity.
Qed.

Lemma digit_value_start c :
  is_digit c || (ascii_N c =? 45)%N = true -> value_start c = true.
Proof.
  destruct c as [[] [] [] [] [] [] [] []]; intros H; try discriminate H; reflexivity.
Qed.

(** The text of a value begins with a character that is neither white
    space nor a closing bracket. *)
Lemma stringify_value_head v :
  json_data v = true ->
  exists c tl, stringify_value v = String c tl /\ value_start c = true.
Proof.
  destruct v as [ | |[]|n|lit|s|items|props]; cbn [json_data stringify_value];
    intros H; try discriminate H;
    try (eexists; eexists; split; reflexivity).
  - destruct (Z_to_string_head n) as (c & tl & E & Hc).
    exists c, tl. split; [exact E|apply digit_value_start; exact Hc].
  - destruct (float_text_head lit H) as (c & tl & E & Hc).
    exists c, tl. split; [exact E|apply digit_value_start; exact Hc].
Qed.

Lemma concat_cons_cons sep (x y : string) l :
  String.concat sep (x :: y :: l) = x ++ sep ++ String.concat sep (y :: l).
Proof. reflexivity. Qed.

Lemma parse_elements_text items :
  Forall reads_back items -> forallb json_data items = true -> items <> [] ->
  forall f rest,
    (fold_right (fun x n => S (weight x + n)) O items <= f)%nat ->
    parse_elements f (String.concat "," (map stringify_value items) ++ "]" ++ rest)
    = Some (items, rest).
Proof.
  induction 1 as [|v items Hv Hitems IH]; intros Hd Hne f rest Hf; [congruence|].
  cbn [forallb] in Hd. apply andb_true_iff in Hd as [Hdv Hd].
  cbn [fold_right] in Hf. destruct f as [|f]; [lia|].
  rewrite parse_elements_step. destruct items as [|v2 items].
  - cbn [map String.concat].
    rewrite (Hv Hdv f ("]" ++ rest)) by (reflexivity || lia).
    reflexivity.
  - cbn [map]. rewrite concat_cons_cons, !append_assoc.
    rewrite (Hv Hdv f) by (reflexivity || (cbn [fold_right] in *; lia)).
    change (skip_ws ("," ++ ?x)) with ("," ++ x). cbn [append]. cbv iota.
    assert (E := IH Hd ltac:(discriminate) f rest ltac:(lia)).
    cbn [map append] in E. rewrite E. reflexivity.
Qed.

Lemma parse_members_text props :
  Forall (fun kv : string * jsval => reads_back (snd kv)) props ->
  forallb (fun kv : string * jsval => json_data (snd kv)) props = true ->
  props <> [] ->
  forall f rest,
    (fold_right (fun (kv : string * jsval) n => S (weight (snd kv) + n)) O props <= f)%nat ->
    parse_members f (String.concat "," (map member_text props) ++ "}" ++ rest)
    = Some (props, rest).
Proof.
  induction 1 as [|[k v] props Hv Hprops IH]; intros Hd Hne f rest Hf; [congruence|].
  cbn [forallb snd] in Hd. apply andb_true_iff in Hd as [Hdv Hd].
  cbn [fold_right snd] in Hf. cbn [snd] in Hv. destruct f as [|f]; [lia|].
  destruct props as [|kv2 props].
  - cbn [map String.concat]. unfold member_text at 1, quote. cbn [fst snd].
    rewrite !append_assoc. change (dq ++ ?x) with (String dquote x).
    rewrite parse_members_step, parse_string_body_quote.
    change (skip_ws (":" ++ ?x)) with (":" ++ x). cbn [append]. cbv iota.
    rewrite (Hv Hdv f (String "}" rest)) by (reflexivity || lia).
    reflexivity.
  - cbn [map]. rewrite concat_cons_cons. unfold member_text at 1, quote. cbn [fst snd].
    rewrite !append_assoc. change (dq ++ ?x) with (String dquote x).
    rewrite parse_members_step, parse_string_body_quote.
    change (skip_ws (":" ++ ?x)) with (":" ++ x). cbn [append]. cbv iota.
    rewrite (Hv Hdv f) by (reflexivity || (cbn [fold_right] in *; lia)).
    change (skip_ws (String "," ?x)) with (String "," x). cbv iota.
    assert (E := IH Hd ltac:(discriminate) f rest ltac:(lia)).
    cbn [map append] in E. rewrite E. reflexivity.
Qed.

Lemma json_data_defined v : json_data v = true -> is_undefined v = false.
Proof. destruct v; try reflexivity; discriminate. Qed.

Lemma members_text props :
  forallb (fun kv : string * jsval => json_data (snd kv)) props = true ->
  somes (map (fun kv : string * jsval =>
                if is_undefined (snd kv) then None
                else Some (quote (fst kv) ++ ":" ++ stringify_value (snd kv))) props)
  = map member_text props.
Proof.
  induction props as [|kv props IH]; intros H; [reflexivity|].
  cbn [forallb] in H. apply andb_true_iff in H as [Hv H].
  cbn [map]. rewrite (json_data_defined _ Hv). cbn [somes]. rewrite (IH H).
  reflexivity.
Qed.

(** The text that [JSON.stringify] writes for a value is read back as that
    value, given fuel for its size. *)
Lemma parse_value_stringify v : reads_back v.
Proof.
  induction v as [ | |b|n|lit|s|items IH|props IH] using jsval_induction;
    intros Hd fuel rest Hf Hr; try discriminate Hd;
    cbn [weight] in Hf; (destruct fuel as [|f]; [lia|]).
  - reflexivity.
  - destruct b; reflexivity.
  - cbn [stringify_value].
    destruct (Z_to_string_head n) as (c & tl & E & Hc).
    cbn [json_data] in Hd. apply andb_true_iff in Hd as [Hlo Hhi].
    apply Z.ltb_lt in Hlo, Hhi.
    pose proof (parse_number_Z n rest Hr ltac:(split; assumption)) as Hn.
    rewrite E in *. cbn [append] in *.
    rewrite (parse_value_number f c _ Hc). exact Hn.
  - cbn [stringify_value]. cbn [json_data] in Hd.
    destruct (float_text_head lit Hd) as (c & tl & E & Hc).
    pose proof (parse_number_float lit rest Hd Hr) as Hn.
    rewrite E in *. cbn [append] in *.
    rewrite (parse_value_number f c _ Hc). exact Hn.
  - cbn [stringify_value]. unfold quote. rewrite !append_assoc.
    change (dq ++ ?x) with (String dquote x).
    rewrite parse_value_string, parse_string_body_quote. reflexivity.
  - cbn [stringify_value json_data] in *. destruct items as [|v items].
    + reflexivity.
    + rewrite !append_assoc.
      assert (E := parse_elements_text (v :: items) IH Hd ltac:(discriminate) f rest
                     ltac:(lia)).
      inversion IH as [|? ? Hv _]; subst.
      cbn [forallb] in Hd. apply andb_true_iff in Hd as [Hdv _].
      destruct (stringify_value_head v Hdv) as (c & tl & Ec & Hc).
      destruct items as [|v2 items]; cbn [map] in *.
      * cbn [String.concat] in *. rewrite Ec in *. cbn [append] in *.
        rewrite (parse_value_array f c _ Hc), E. reflexivity.
      * rewrite concat_cons_cons in *. rewrite !append_assoc in *.
        rewrite Ec in *. cbn [append] in *.
        rewrite (parse_value_array f c _ Hc), E. reflexivity.
  - cbn [stringify_value json_data] in *.
    apply andb_true_iff in Hd as [Hd _]. rewrite (members_text props Hd).
    destruct props as [|[k v] props].
    + reflexivity.
    + rewrite !append_assoc.
      assert (E := parse_members_text ((k, v) :: props) IH Hd ltac:(discriminate) f rest
                     ltac:(lia)).
      destruct props as [|kv2 props]; cbn [map] in *;
        unfold member_text at 1, quote in E;
        unfold member_text at 1, quote; cbn [fst snd] in *.
      * cbn [String.concat] in *. rewrite !append_assoc in *.
        change (dq ++ ?x) with (String dquote x) in *. cbn [append] in *.
        rewrite parse_value_object, E. reflexivity.
      * rewrite concat_cons_cons in *. rewrite !append_assoc in *.
        change (dq ++ ?x) with (String dquote x) in *. cbn [append] in *.
        rewrite parse_value_object, E. reflexivity.
Qed.

(** *** Fuel *)

Lemma weight_elements items :
  Forall (fun v => json_data v = true ->
                   (weight v <= String.length (stringify_value v))%nat) items ->
  forallb json_data items = true ->
  (fold_right (fun x n => S (weight x + n)) O items
   <= String.length (String.concat "," (map stringify_value items)) + 1)%nat.
Proof.
  induction 1 as [|v items Hv _ IH]; intros Hd; [cbn; lia|].
  cbn [forallb] in Hd. apply andb_true_iff in Hd as [Hdv Hd].
  specialize (Hv Hdv). specialize (IH Hd). cbn [fold_right].
  destruct items as [|v2 items].
  - cbn [map String.concat fold_right]. lia.
  - cbn [map] in *. rewrite concat_cons_cons, !length_append.
    cbn [String.length]. lia.
Qed.

Lemma weight_members props :
  Forall (fun kv : string * jsval =>
            json_data (snd kv) = true ->
            (weight (snd kv) <= String.length (stringify_value (snd kv)))%nat) props ->
  forallb (fun kv : string * jsval => json_data (snd kv)) props = true ->
  (fold_right (fun (kv : string * jsval) n => S (weight (snd kv) + n)) O props
   <= String.length (String.concat "," (map member_text props)) + 1)%nat.
Proof.
  induction 1 as [|kv props Hv _ IH]; intros Hd; [cbn; lia|].
  cbn [forallb] in Hd. apply andb_true_iff in Hd as [Hdv Hd].
  specialize (Hv Hdv). specialize (IH Hd). cbn [fold_right].
  assert (Hm : (String.length (stringify_value (snd kv))
                <= String.length (member_text kv))%nat).
  { unfold member_text. rewrite !length_append. lia. }
  destruct props as [|kv2 props].
  - cbn [map String.concat fold_right]. lia.
  - cbn [map] in *. rewrite concat_cons_cons, !length_append.
    cbn [String.length]. lia.
Qed.

Lemma weight_le_length v :
  json_data v = true -> (weight v <= String.length (stringify_value v))%nat.
Proof.
  induction v as [ | |b|n|lit|s|items IH|props IH] using jsval_induction;
    intros Hd; try discriminate Hd.
  - cbn. lia.
  - destruct b; cbn; lia.
  - cbn [weight stringify_value].
    destruct (Z_to_string_head n) as (c & tl & -> & _). cbn [String.length]. lia.
  - cbn [weight stringify_value]. cbn [json_data] in Hd.
    destruct (float_text_head lit Hd) as (c & tl & -> & _). cbn [String.length]. lia.
  - cbn [weight stringify_value]. unfold quote, dq. cbn [append String.length]. lia.
  - cbn [weight stringify_value json_data] in *.
    pose proof (weight_elements items IH Hd) as H.
    rewrite !length_append. cbn [String.length]. lia.
  - cbn [weight stringify_value json_data] in *.
    apply andb_true_iff in Hd as [Hd _]. rewrite (members_text props Hd).
    pose proof (weight_members props IH Hd) as H.
    rewrite !length_append. cbn [String.length]. lia.
Qed.

(** *** Keys *)

Lemma obj_set_fresh (o : object) k v :
  existsb (fun k' => String.eqb k' k) (map fst o) = false ->
  obj_set o k v = (o ++ [(k, v)])%list.
Proof.
  induction o as [|[k' v'] o IH]; intros H; [reflexivity|].
  cbn [map fst existsb] in H. apply orb_false_iff in H as [Hk H].
  cbn [obj_set app]. rewrite Hk, (IH H). reflexivity.
Qed.

Lemma distinct_app_fresh a k b :
  distinct (a ++ k :: b) = true -> existsb (fun k' => String.eqb k' k) a = false.
Proof.
  induction a as [|x a IH]; intros H; [reflexivity|].
  cbn [app distinct] in H. apply andb_true_iff in H as [Hx H].
  cbn [existsb]. rewrite (IH H), orb_false_r.
  apply negb_true_iff in Hx. rewrite existsb_app in Hx.
  apply orb_false_iff in Hx as [_ Hx]. cbn [existsb] in Hx.
  apply orb_false_iff in Hx as [Hx _]. exact Hx.
Qed.

Lemma fold_obj_set_distinct (l acc : object) :
  distinct (map fst acc ++ map fst l) = true ->
  fold_left (fun a kv => obj_set a (fst kv) (snd kv)) l acc = (acc ++ l)%list.
Proof.
  revert acc. induction l as [|[k v] l IH]; intros acc H.
  - cbn [fold_left]. rewrite List.app_nil_r. reflexivity.
  - cbn [fold_left fst snd]. cbn [map fst] in H.
    rewrite (obj_set_fresh acc k v (distinct_app_fresh _ _ _ H)).
    rewrite IH.
    + rewrite <- List.app_assoc. reflexivity.
    + rewrite List.map_app, <- List.app_assoc. exact H.
Qed.

Lemma normalize_data v : json_data v = true -> normalize v = v.
Proof.
  induction v as [ | |b|n|lit|s|items IH|props IH] using jsval_induction;
    intros Hd; try reflexivity.
  - cbn [normalize json_data] in *. f_equal.
    induction IH as [|v items Hv _ IHi]; [reflexivity|].
    cbn [forallb] in Hd. apply andb_true_iff in Hd as [Hdv Hd].
    cbn [map]. rewrite (Hv Hdv), (IHi Hd). reflexivity.
  - cbn [normalize json_data] in *. apply andb_true_iff in Hd as [Hd Hk].
    assert (E : map (fun kv : string * jsval => (fst kv, normalize (snd kv))) props
                = props).
    { clear Hk. induction IH as [|[k v] props Hv _ IHp]; [reflexivity|].
      cbn [forallb snd] in Hd. apply andb_true_iff in Hd as [Hdv Hd].
      cbn [map fst snd] in *. rewrite (Hv Hdv), (IHp Hd). reflexivity. }
    rewrite E, fold_obj_set_distinct by exact Hk. reflexivity.
Qed.

(** [JSON.parse(JSON.stringify(v))] is [v]. *)
Lemma parse_stringify v :
  json_data v = true -> JSON.parse (stringify_value v) = Returned v.
Proof.
  intros Hd. unfold JSON.parse.
  pose proof (parse_value_stringify v Hd (S (String.length (stringify_value v))) ""
                ltac:(pose proof (weight_le_length v Hd); lia) eq_refl) as H.
  rewrite append_nil_r in H. rewrite H. cbn [skip_ws].
  rewrite (normalize_data v Hd). reflexivity.
Qed.

End Json_facts.

Section Timestamps_facts.

Import Date.

(** ** Timestamps read back *)

Lemma digit_is_digit q :
  0 <= q <= 9 ->
  is_digit (digit q) = true /\ Z.of_N (ascii_N (digit q)) - 48 = q.
Proof.
  intros H.
  assert (E : q = 0 \/ q = 1 \/ q = 2 \/ q = 3 \/ q = 4 \/ q = 5 \/ q = 6 \/ q = 7
              \/ q = 8 \/ q = 9) by lia.
  repeat (destruct E as [->|E]; [split; reflexivity|]). subst. split; reflexivity.
Qed.

Lemma read_digits_pad w n acc rest :
  0 <= n ->
  read_digits w acc (pad w n ++ rest)
  = Some (acc * 10 ^ Z.of_nat w + n mod 10 ^ Z.of_nat w, rest).
Proof.
  intros Hn. revert acc. induction w as [|w IH]; intros acc.
  - cbn [pad append read_digits]. change (10 ^ Z.of_nat 0) with 1.
    rewrite Z.mod_1_r. f_equal. f_equal. lia.
  - cbn [pad append read_digits].
    assert (Hq : 0 <= (n / 10 ^ Z.of_nat w) mod 10 <= 9).
    { pose proof (Z.mod_pos_bound (n / 10 ^ Z.of_nat w) 10). lia. }
    destruct (digit_is_digit _ Hq) as [-> ->]. rewrite IH.
    f_equal. f_equal.
    rewrite Nat2Z.inj_succ, Z.pow_succ_r by lia.
    assert (Hp : 0 < 10 ^ Z.of_nat w) by (apply Z.pow_pos_nonneg; lia).
    rewrite (Z.mul_comm 10), Z.rem_mul_r by lia. ring.
Qed.

Lemma read_digits_small w n rest :
  0 <= n < 10 ^ Z.of_nat w ->
  read_digits w 0 (pad w n ++ rest) = Some (n, rest).
Proof.
  intros H. rewrite read_digits_pad by lia. rewrite Z.mod_small by exact H.
  reflexivity.
Qed.

Lemma read_year_text y rest :
  -999999 <= y <= 999999 -> read_year (year_text y ++ rest) = Some (y, rest).
Proof.
  intros Hy. unfold year_text.
  destruct ((0 <=? y) && (y <=? 9999)) eqn:E.
  - apply andb_true_iff in E as [E1 E2]. apply Z.leb_le in E1, E2.
    pose proof (read_digits_small 4 y rest ltac:(change (10 ^ Z.of_nat 4) with 10000; lia))
      as H.
    cbn [pad append] in *. unfold read_year.
    assert (Hq : 0 <= (y / 10 ^ Z.of_nat 3) mod 10 <= 9).
    { pose proof (Z.mod_pos_bound (y / 10 ^ Z.of_nat 3) 10). lia. }
    rewrite (proj1 (digit_is_digit _ Hq)). exact H.
  - destruct (y <? 0) eqn:E1.
    + apply Z.ltb_lt in E1.
      change (("-" ++ pad 6 (- y)) ++ rest) with (String "-" (pad 6 (- y) ++ rest)).
      unfold read_year.
      change (is_digit "-") with false. change (ascii_N "-" =? 43)%N with false.
      change (ascii_N "-" =? 45)%N with true. cbv iota.
      rewrite read_digits_small
        by (change (10 ^ Z.of_nat 6) with 1000000; lia).
      destruct (Z.eqb_spec (- y) 0); [lia|]. f_equal. f_equal. lia.
    + apply Z.ltb_ge in E1.
      change (("+" ++ pad 6 y) ++ rest) with (String "+" (pad 6 y ++ rest)).
      unfold read_year.
      change (is_digit "+") with false. change (ascii_N "+" =? 43)%N with true.
      cbv iota.
      apply read_digits_small. change (10 ^ Z.of_nat 6) with 1000000. lia.
Qed.

Lemma read_month_day_text m d rest :
  0 <= m < 100 -> 0 <= d < 100 ->
  read_month_day ("-" ++ pad 2 m ++ "-" ++ pad 2 d ++ rest) = Some (m, d, rest).
Proof.
  intros Hm Hd.
  change ("-" ++ pad 2 m ++ "-" ++ pad 2 d ++ rest)
    with (String "-" (pad 2 m ++ String "-" (pad 2 d ++ rest))).
  unfold read_month_day.
  rewrite (read_digits_small 2 m) by (change (10 ^ Z.of_nat 2) with 100; lia).
  rewrite (read_digits_small 2 d) by (change (10 ^ Z.of_nat 2) with 100; lia).
  reflexivity.
Qed.

Lemma read_time_text h mi s ms :
  0 <= h < 24 -> 0 <= mi < 60 -> 0 <= s < 60 -> 0 <= ms < 1000 ->
  read_time ("T" ++ pad 2 h ++ ":" ++ pad 2 mi ++ ":" ++ pad 2 s ++ "." ++ pad 3 ms ++ "Z")
  = Some (h * 3600000 + mi * 60000 + s * 1000 + ms).
Proof.
  intros Hh Hmi Hs Hms.
  change ("T" ++ pad 2 h ++ ":" ++ pad 2 mi ++ ":" ++ pad 2 s ++ "." ++ pad 3 ms ++ "Z")
    with (String "T" (pad 2 h ++ String ":" (pad 2 mi ++ String ":"
            (pad 2 s ++ String "." (pad 3 ms ++ "Z"))))).
  unfold read_time.
  rewrite (read_digits_small 2 h) by (change (10 ^ Z.of_nat 2) with 100; lia).
  rewrite (read_digits_small 2 mi) by (change (10 ^ Z.of_nat 2) with 100; lia).
  unfold read_seconds.
  rewrite (read_digits_small 2 s) by (change (10 ^ Z.of_nat 2) with 100; lia).
  rewrite (read_digits_small 3 ms) by (change (10 ^ Z.of_nat 3) with 1000; lia).
  change (read_offset "Z") with (Some 0).
  destruct (Z.ltb_spec h 24); [|lia]. destruct (Z.ltb_spec mi 60); [|lia].
  destruct (Z.ltb_spec (s * 1000 + ms) 60000); [|lia].
  cbn [andb orb]. f_equal. lia.
Qed.

(** *** Civil dates *)

Lemma month_day_table : forallb month_day_ok (map Z.of_nat (seq 0 366)) = true.
Proof. vm_compute. reflexivity. Qed.

Lemma month_day_of doy : 0 <= doy <= 365 -> month_day_ok doy = true.
Proof.
  intros H. pose proof month_day_table as T. rewrite forallb_forall in T.
  apply T. apply in_map_iff. exists (Z.to_nat doy). split; [lia|].
  apply in_seq. lia.
Qed.

Lemma year_of_day doe :
  0 <= doe <= 146096 ->
  let yoe := (doe - doe / 1460 + doe / 36524 - doe / 146096) / 365 in
  let doy := doe - (365 * yoe + yoe / 4 - yoe / 100) in
  0 <= yoe <= 399 /\ 0 <= doy <= 365
  /\ (doy = 365 ->
      (yoe + 1) mod 4 = 0 /\ ((yoe + 1) mod 100 <> 0 \/ (yoe + 1) mod 400 = 0)).
Proof. intros H. cbv zeta. Z.div_mod_to_equations. lia. Qed.

Lemma is_leap_true y :
  y mod 4 = 0 /\ (y mod 100 <> 0 \/ y mod 400 = 0) -> is_leap y = true.
Proof.
  intros [H4 H]. unfold is_leap. rewrite H4. cbn [Z.eqb andb].
  destruct H as [H|H].
  - destruct (Z.eqb_spec (y mod 100) 0); [contradiction|reflexivity].
  - rewrite H. apply orb_true_r.
Qed.

Lemma is_leap_shift y e : is_leap (y + e * 400) = is_leap y.
Proof.
  unfold is_leap.
  replace ((y + e * 400) mod 4) with (y mod 4)
    by (Z.div_mod_to_equations; lia).
  replace ((y + e * 400) mod 100) with (y mod 100)
    by (Z.div_mod_to_equations; lia).
  replace ((y + e * 400) mod 400) with (y mod 400)
    by (Z.div_mod_to_equations; lia).
  reflexivity.
Qed.

Lemma days_from_civil_shift y m d e :
  days_from_civil (y + e * 400) m d = days_from_civil y m d + e * 146097.
Proof.
  unfold days_from_civil. destruct (m <=? 2); cbv zeta;
    Z.div_mod_to_equations; lia.
Qed.

(** The civil date of a day within an era is a valid date, of that day. *)
Lemma civil_of_doe_valid doe :
  0 <= doe <= 146096 ->
  let '(y, m, d) := civil_of_doe doe in
  1 <= m <= 12 /\ 1 <= d <= days_in_month y m /\ 0 <= y <= 400
  /\ days_from_civil y m d = doe - 719468.
Proof.
  intros H. unfold civil_of_doe.
  destruct (year_of_day doe H) as (Hy & Hdoy & Hleap). cbv zeta in Hy, Hdoy, Hleap.
  set (yoe := (doe - doe / 1460 + doe / 36524 - doe / 146096) / 365) in *.
  set (doy := doe - (365 * yoe + yoe / 4 - yoe / 100)) in *.
  pose proof (month_day_of doy Hdoy) as Hmd. unfold month_day_ok in Hmd.
  cbv zeta in Hmd |- *.
  set (mp := (5 * doy + 2) / 153) in *.
  set (d := doy - (153 * mp + 2) / 5 + 1) in *.
  apply andb_true_iff in Hmd as [Hmd Hd4]. apply andb_true_iff in Hmd as [Hmd Hd3].
  apply andb_true_iff in Hmd as [Hd1 Hd2].
  apply Z.leb_le in Hd1, Hd2, Hd3, Hd4.
  assert (Hm : 1 <= (if mp <? 10 then mp + 3 else mp - 9) <= 12)
    by (destruct (Z.ltb_spec mp 10); lia).
  set (m := if mp <? 10 then mp + 3 else mp - 9) in *.
  split; [exact Hm|]. split; [|split].
  - split; [exact Hd3|].
    destruct (Z.eqb_spec m 2) as [E|E].
    + assert (Hle : (m <=? 2) = true) by (apply Z.leb_le; lia). rewrite Hle.
      unfold days_in_month. rewrite E. cbn [Z.eqb Pos.eqb].
      destruct (Z.eq_dec doy 365) as [E5|E5].
      * rewrite (is_leap_true _ (Hleap E5)).
        rewrite (proj2 (Z.eqb_eq _ _) E5) in Hd4. exact Hd4.
      * rewrite (proj2 (Z.eqb_neq _ _) E5) in Hd4.
        destruct (is_leap (yoe + 1)); lia.
    + unfold days_in_month in *. destruct (Z.eqb_spec m 2); [contradiction|exact Hd4].
  - destruct (m <=? 2); lia.
  - unfold days_from_civil. cbv zeta.
    assert (Ey : (if m <=? 2 then (if m <=? 2 then yoe + 1 else yoe) - 1
                  else (if m <=? 2 then yoe + 1 else yoe)) = yoe)
      by (destruct (m <=? 2); lia).
    rewrite Ey.
    assert (Em : (if 2 <? m then m - 3 else m + 9) = mp).
    { subst m. destruct (Z.ltb_spec mp 10).
      - destruct (Z.ltb_spec 2 (mp + 3)); lia.
      - destruct (Z.ltb_spec 2 (mp - 9)); lia. }
    rewrite Em. rewrite (Z.div_small yoe 400) by lia.
    rewrite Z.mul_0_l, Z.sub_0_r. subst d doy. lia.
Qed.

Lemma civil_from_days_valid z :
  let '(y, m, d) := civil_from_days z in
  1 <= m <= 12 /\ 1 <= d <= days_in_month y m
  /\ days_from_civil y m d = z
  /\ (-100000000 <= z <= 100000000 -> -999999 <= y <= 999999).
Proof.
  unfold civil_from_days. cbv zeta.
  set (era := (z + 719468) / 146097).
  assert (Hdoe : 0 <= z + 719468 - era * 146097 <= 146096)
    by (subst era; Z.div_mod_to_equations; lia).
  pose proof (civil_of_doe_valid _ Hdoe) as H.
  destruct (civil_of_doe (z + 719468 - era * 146097)) as [[y m] d].
  destruct H as (Hm & Hd & Hy & Hz).
  split; [exact Hm|]. split; [|split].
  - unfold days_in_month in *. rewrite is_leap_shift. exact Hd.
  - rewrite days_from_civil_shift, Hz. lia.
  - intros Hr. subst era. Z.div_mod_to_equations. lia.
Qed.

(** The text of a time value is read back as that time value. *)
Lemma parse_iso_string tv :
  - maxTime <= tv <= maxTime -> Date.parse (iso_string tv) = Some tv.
Proof.
  intros Ht. unfold maxTime in Ht. unfold iso_string. cbv zeta.
  pose proof (civil_from_days_valid (tv / msPerDay)) as H.
  destruct (civil_from_days (tv / msPerDay)) as [[y m] d].
  destruct H as (Hm & Hd & Hday & Hy).
  assert (Hyr : -999999 <= y <= 999999).
  { apply Hy. unfold msPerDay. Z.div_mod_to_equations. lia. }
  assert (Hd31 : days_in_month y m <= 31).
  { unfold days_in_month.
    destruct (m =? 2); [destruct (is_leap y); lia|].
    destruct ((m =? 4) || (m =? 6) || (m =? 9) || (m =? 11)); lia. }
  set (ms := tv mod msPerDay).
  assert (Hms : 0 <= ms < 86400000) by (apply Z.mod_pos_bound; reflexivity).
  unfold Date.parse. rewrite read_year_text by exact Hyr.
  rewrite read_month_day_text by lia.
  rewrite read_time_text
    by (Z.div_mod_to_equations; lia).
  destruct (Z.leb_spec 1 m); [|lia]. destruct (Z.leb_spec m 12); [|lia].
  destruct (Z.leb_spec 1 d); [|lia]. destruct (Z.leb_spec d (days_in_month y m)); [|lia].
  cbn [andb]. rewrite Hday.
  assert (E : tv / msPerDay * msPerDay
              + (ms / 3600000 * 3600000 + ms / 60000 mod 60 * 60000
                 + ms / 1000 mod 60 * 1000 + ms mod 1000) = tv).
  { subst ms. unfold msPerDay. Z.div_mod_to_equations. lia. }
  rewrite E.
  replace ((- maxTime <=? tv) && (tv <=? maxTime)) with true; [reflexivity|].
  symmetry. apply andb_true_iff. split; apply Z.leb_le; unfold maxTime; lia.
Qed.

End Timestamps_facts.

Section Base64_facts.

Import Base64.

(** ** Base64 text read back *)

Lemma chr_ascii_N c : chr (ascii_N c) = c.
Proof. apply ascii_N_embedding. Qed.

Lemma ascii_N_chr n : (n < 256)%N -> ascii_N (chr n) = n.
Proof. apply N_ascii_embedding. Qed.

Lemma ascii_N_bound c : (ascii_N c < 256)%N.
Proof. apply N_ascii_bounded. Qed.

Lemma shiftr_div n k : N.shiftr n k = (n / 2 ^ k)%N.
Proof. apply N.shiftr_div_pow2. Qed.

Lemma land_63 n : N.land n 63 = (n mod 64)%N.
Proof. change 63%N with (N.ones 6). rewrite N.land_ones. reflexivity. Qed.

Lemma land_15 n : N.land n 15 = (n mod 16)%N.
Proof. change 15%N with (N.ones 4). rewrite N.land_ones. reflexivity. Qed.

Lemma land_3 n : N.land n 3 = (n mod 4)%N.
Proof. change 3%N with (N.ones 2). rewrite N.land_ones. reflexivity. Qed.

Ltac bits :=
  rewrite ?shiftr_div, ?land_63, ?land_15, ?land_3;
  change (2 ^ 2)%N with 4%N; change (2 ^ 4)%N with 16%N; change (2 ^ 6)%N with 64%N.

Lemma utf8_two_bytes c c2 :
  ((ascii_N c =? 194) || (ascii_N c =? 195))%N = true ->
  ((128 <=? ascii_N c2) && (ascii_N c2 <? 192))%N = true ->
  utf8_encode ((ascii_N c - 192) * 64 + (ascii_N c2 - 128)) = String c (String c2 "").
Proof.
  intros Hc Hm. apply andb_true_iff in Hm as [H1 H2].
  apply N.leb_le in H1. apply N.ltb_lt in H2.
  set (n := ascii_N c) in *. set (m := ascii_N c2) in *.
  assert (Hn : n = 194%N \/ n = 195%N).
  { apply orb_true_iff in Hc as [H|H]; apply N.eqb_eq in H; auto. }
  set (cp := ((n - 192) * 64 + (m - 128))%N).
  assert (Hq : (cp / 64 = n - 192)%N).
  { symmetry. apply (N.div_unique cp 64 (n - 192) (m - 128)); unfold cp; lia. }
  assert (Hr : (cp mod 64 = m - 128)%N).
  { symmetry. apply (N.mod_unique cp 64 (n - 192) (m - 128)); unfold cp; lia. }
  unfold utf8_encode.
  replace (cp <? 128)%N with false by (symmetry; apply N.ltb_ge; unfold cp; lia).
  replace (cp <? 2048)%N with true by (symmetry; apply N.ltb_lt; unfold cp; lia).
  bits. rewrite Hq, Hr.
  replace (192 + (n - 192))%N with n by lia.
  replace (128 + (m - 128))%N with m by lia.
  unfold n, m. rewrite !chr_ascii_N. reflexivity.
Qed.

Lemma latin1_bytes_fuel_text fuel : forall s bs,
  latin1_bytes_fuel fuel s = Some bs ->
  bytes_to_text bs = s /\ Forall (fun b => (b < 256)%N) bs.
Proof.
  induction fuel as [|fuel IH]; intros s bs H; [discriminate|].
  cbn [latin1_bytes_fuel] in H. destruct s as [|c r].
  - injection H as <-. split; [reflexivity|constructor].
  - cbv zeta in H. destruct (ascii_N c <? 128)%N eqn:E.
    + destruct (latin1_bytes_fuel fuel r) as [bs'|] eqn:E'; [|discriminate].
      injection H as <-. destruct (IH _ _ E') as [Ht Hb].
      apply N.ltb_lt in E. split.
      * cbn [bytes_to_text]. unfold utf8_encode.
        replace (ascii_N c <? 128)%N with true by (symmetry; apply N.ltb_lt; exact E).
        rewrite chr_ascii_N, Ht. reflexivity.
      * constructor; [lia|exact Hb].
    + destruct ((ascii_N c =? 194) || (ascii_N c =? 195))%N eqn:E2; [|discriminate].
      destruct r as [|c2 r']; [discriminate|].
      destruct ((128 <=? ascii_N c2) && (ascii_N c2 <? 192))%N eqn:E3; [|discriminate].
      destruct (latin1_bytes_fuel fuel r') as [bs'|] eqn:E'; [|discriminate].
      injection H as <-. destruct (IH _ _ E') as [Ht Hb]. split.
      * cbn [bytes_to_text]. rewrite (utf8_two_bytes c c2 E2 E3), Ht. reflexivity.
      * constructor; [|exact Hb].
        apply andb_true_iff in E3 as [H1 H2]. apply N.ltb_lt in H2.
        apply orb_true_iff in E2 as [H|H]; apply N.eqb_eq in H; rewrite H; lia.
Qed.

(** *** Sextets *)

Lemma below_64 (P : N -> bool) :
  forallb P (map N.of_nat (seq 0 64)) = true -> forall x, (x < 64)%N -> P x = true.
Proof.
  intros H x Hx. rewrite forallb_forall in H. apply H.
  rewrite <- (N2Nat.id x). apply in_map. apply in_seq. lia.
Qed.

Lemma sextet_alphabet x : (x < 64)%N -> sextet (alphabet x) = Some x.
Proof.
  intros Hx.
  apply (below_64 (fun x => match sextet (alphabet x) with
                            | Some y => N.eqb y x
                            | None => false
                            end)) in Hx; [|vm_compute; reflexivity].
  destruct (sextet (alphabet x)); [|discriminate]. apply N.eqb_eq in Hx. congruence.
Qed.

Lemma alphabet_not_ws x : (x < 64)%N -> is_ascii_ws (alphabet x) = false.
Proof.
  intros Hx.
  apply (below_64 (fun x => negb (is_ascii_ws (alphabet x)))) in Hx;
    [|vm_compute; reflexivity].
  apply negb_true_iff in Hx. exact Hx.
Qed.

Lemma alphabet_not_pad x : (x < 64)%N -> Ascii.eqb (alphabet x) "=" = false.
Proof.
  intros Hx.
  apply (below_64 (fun x => negb (Ascii.eqb (alphabet x) "="))) in Hx;
    [|vm_compute; reflexivity].
  apply negb_true_iff in Hx. exact Hx.
Qed.

Lemma list_ind3 {A : Type} (P : list A -> Prop) :
  P [] -> (forall a, P [a]) -> (forall a b, P [a; b]) ->
  (forall a b c r, P r -> P (a :: b :: c :: r)) ->
  forall l, P l.
Proof.
  intros H0 H1 H2 H3.
  fix IH 1. intros [|a [|b [|c r]]].
  - exact H0.
  - apply H1.
  - apply H2.
  - apply H3. apply IH.
Qed.

Lemma strip_padding_tail (u p : list ascii) :
  Forall (fun c => Ascii.eqb c "=" = false) u ->
  p = [] \/ p = ["="%char] \/ p = ["="%char; "="%char] ->
  (Nat.modulo (List.length (u ++ p)) 4 =? 0)%nat = true ->
  strip_padding (u ++ p) = u.
Proof.
  intros Hu Hp Hlen. unfold strip_padding. rewrite Hlen. rewrite rev_app_distr.
  destruct Hp as [->|[->| ->]].
  - cbn [rev app]. rewrite app_nil_r.
    destruct (rev u) as [|x l] eqn:E; [reflexivity|].
    assert (Hx : Ascii.eqb x "=" = false).
    { rewrite Forall_forall in Hu. apply Hu. apply in_rev. rewrite E. left. reflexivity. }
    destruct x as [[] [] [] [] [] [] [] []]; try reflexivity; discriminate Hx.
  - cbn [rev app].
    destruct (rev u) as [|x l] eqn:E.
    + apply (f_equal (@rev ascii)) in E. rewrite rev_involutive in E. subst u. reflexivity.
    + assert (Hx : Ascii.eqb x "=" = false).
      { rewrite Forall_forall in Hu. apply Hu. apply in_rev. rewrite E. left. reflexivity. }
      apply (f_equal (@rev ascii)) in E. rewrite rev_involutive in E. subst u.
      destruct x as [[] [] [] [] [] [] [] []]; try reflexivity; discriminate Hx.
  - cbn [rev app]. apply rev_involutive.
Qed.

(** *** Bytes *)

Lemma byte_split_first a b :
  (a < 256)%N -> (b < 256)%N ->
  (N.shiftr a 2 < 64
   /\ N.land a 3 * 16 + N.shiftr b 4 < 64
   /\ N.land a 3 * 16 < 64
   /\ N.shiftr a 2 * 4 + N.shiftr (N.land a 3 * 16 + N.shiftr b 4) 4 = a
   /\ N.shiftr a 2 * 4 + N.shiftr (N.land a 3 * 16) 4 = a)%N.
Proof.
  intros Ha Hb. bits.
  assert (a = 4 * (a / 4) + a mod 4)%N by (apply N.div_mod; lia).
  assert (a mod 4 < 4)%N by (apply N.mod_upper_bound; lia).
  assert (b = 16 * (b / 16) + b mod 16)%N by (apply N.div_mod; lia).
  assert (b mod 16 < 16)%N by (apply N.mod_upper_bound; lia).
  assert (b / 16 < 16)%N by (apply N.Div0.div_lt_upper_bound; lia).
  assert (a / 4 < 64)%N by (apply N.Div0.div_lt_upper_bound; lia).
  assert (K3 : ((a mod 4 * 16 + b / 16) / 16 = a mod 4)%N).
  { symmetry. apply (N.div_unique _ 16 _ (b / 16)); lia. }
  assert (K4 : ((a mod 4 * 16) / 16 = a mod 4)%N) by (apply N.div_mul; lia).
  rewrite K3, K4. repeat split; lia.
Qed.

Lemma byte_split_second b c :
  (b < 256)%N -> (c < 256)%N ->
  (N.land b 15 * 4 + N.shiftr c 6 < 64
   /\ N.land b 15 * 4 < 64
   /\ forall a,
        N.land (N.land a 3 * 16 + N.shiftr b 4) 15 * 16
        + N.shiftr (N.land b 15 * 4 + N.shiftr c 6) 2 = b
        /\ N.land (N.land a 3 * 16 + N.shiftr b 4) 15 * 16
           + N.shiftr (N.land b 15 * 4) 2 = b)%N.
Proof.
  intros Hb Hc. bits.
  assert (b = 16 * (b / 16) + b mod 16)%N by (apply N.div_mod; lia).
  assert (b mod 16 < 16)%N by (apply N.mod_upper_bound; lia).
  assert (c = 64 * (c / 64) + c mod 64)%N by (apply N.div_mod; lia).
  assert (c mod 64 < 64)%N by (apply N.mod_upper_bound; lia).
  assert (c / 64 < 4)%N by (apply N.Div0.div_lt_upper_bound; lia).
  assert (b / 16 < 16)%N by (apply N.Div0.div_lt_upper_bound; lia).
  assert (K3 : ((b mod 16 * 4 + c / 64) / 4 = b mod 16)%N).
  { symmetry. apply (N.div_unique _ 4 _ (c / 64)); lia. }
  assert (K4 : ((b mod 16 * 4) / 4 = b mod 16)%N) by (apply N.div_mul; lia).
  split; [lia|]. split; [lia|]. intros a. bits.
  assert (K5 : ((a mod 4 * 16 + b / 16) mod 16 = b / 16)%N).
  { symmetry. apply (N.mod_unique _ 16 (a mod 4) (b / 16)); lia. }
  rewrite K3, K4, K5. split; lia.
Qed.

Lemma byte_split_third b c :
  (c < 256)%N ->
  (N.land c 63 < 64
   /\ N.land (N.land b 15 * 4 + N.shiftr c 6) 3 * 64 + N.land c 63 = c)%N.
Proof.
  intros Hc. bits.
  assert (c = 64 * (c / 64) + c mod 64)%N by (apply N.div_mod; lia).
  assert (c mod 64 < 64)%N by (apply N.mod_upper_bound; lia).
  assert (c / 64 < 4)%N by (apply N.Div0.div_lt_upper_bound; lia).
  assert (K5 : ((b mod 16 * 4 + c / 64) mod 4 = c / 64)%N).
  { symmetry. apply (N.mod_unique _ 4 (b mod 16) (c / 64)); lia. }
  rewrite K5. split; lia.
Qed.

Lemma mod4_add4 n : Nat.modulo (S (S (S (S n)))) 4 = Nat.modulo n 4.
Proof.
  replace (S (S (S (S n)))) with (n + 1 * 4)%nat by lia. apply Nat.Div0.mod_add.
Qed.

(** The characters of [encode bs]: sextets of the alphabet, then padding. *)
Lemma encode_chars bs :
  Forall (fun b => (b < 256)%N) bs ->
  exists u p ns,
    strip_ws (encode bs) = (u ++ p)%list
    /\ Forall (fun c => Ascii.eqb c "=" = false) u
    /\ (p = [] \/ p = ["="%char] \/ p = ["="%char; "="%char])
    /\ Nat.modulo (List.length (u ++ p)) 4 = 0%nat
    /\ Nat.modulo (List.length u) 4 <> 1%nat
    /\ sextets u = Some ns
    /\ decode ns = bs.
Proof.
  induction bs as [|a|a b|a b c r IH] using list_ind3; intros Hb.
  - exists [], [], []. repeat split; auto; try (cbn; lia).
  - apply Forall_cons_iff in Hb as [Ha _].
    destruct (byte_split_first a 0 Ha ltac:(lia)) as (H1 & _ & H2 & _ & H3).
    exists [alphabet (N.shiftr a 2); alphabet (N.land a 3 * 16)], ["="%char; "="%char],
      [N.shiftr a 2; (N.land a 3 * 16)%N].
    split.
    { cbn [encode strip_ws]. rewrite !alphabet_not_ws by assumption. reflexivity. }
    split.
    { repeat constructor; apply alphabet_not_pad; assumption. }
    split; [auto|]. split; [reflexivity|]. split; [cbn; lia|].
    split.
    { cbn [sextets]. rewrite !sextet_alphabet by assumption. reflexivity. }
    cbn [decode]. rewrite H3. reflexivity.
  - apply Forall_cons_iff in Hb as [Ha Hb]. apply Forall_cons_iff in Hb as [Hb _].
    destruct (byte_split_first a b Ha Hb) as (H1 & H2 & _ & H3 & _).
    destruct (byte_split_second b 0 Hb ltac:(lia)) as (_ & H4 & H5).
    destruct (H5 a) as [_ H6].
    exists [alphabet (N.shiftr a 2); alphabet (N.land a 3 * 16 + N.shiftr b 4);
            alphabet (N.land b 15 * 4)], ["="%char],
      [N.shiftr a 2; (N.land a 3 * 16 + N.shiftr b 4)%N; (N.land b 15 * 4)%N].
    split.
    { cbn [encode strip_ws]. rewrite !alphabet_not_ws by assumption. reflexivity. }
    split.
    { repeat constructor; apply alphabet_not_pad; assumption. }
    split; [auto|]. split; [reflexivity|]. split; [cbn; lia|].
    split.
    { cbn [sextets]. rewrite !sextet_alphabet by assumption. reflexivity. }
    cbn [decode]. rewrite H3, H6. reflexivity.
  - apply Forall_cons_iff in Hb as [Ha Hb]. apply Forall_cons_iff in Hb as [Hb Hc].
    apply Forall_cons_iff in Hc as [Hc Hr].
    destruct (IH Hr) as (u & p & ns & Hs & Hu & Hp & Hlen & Hlu & Hsx & Hd).
    destruct (byte_split_first a b Ha Hb) as (H1 & H2 & _ & H3 & _).
    destruct (byte_split_second b c Hb Hc) as (H4 & _ & H5).
    destruct (H5 a) as [H6 _].
    destruct (byte_split_third b c Hc) as (H7 & H8).
    exists (alphabet (N.shiftr a 2) :: alphabet (N.land a 3 * 16 + N.shiftr b 4)
              :: alphabet (N.land b 15 * 4 + N.shiftr c 6)
              :: alphabet (N.land c 63) :: u), p,
      (N.shiftr a 2 :: (N.land a 3 * 16 + N.shiftr b 4)%N
         :: (N.land b 15 * 4 + N.shiftr c 6)%N :: N.land c 63 :: ns).
    split.
    { cbn [encode strip_ws]. rewrite !alphabet_not_ws by assumption.
      rewrite Hs. reflexivity. }
    split.
    { repeat (constructor; [apply alphabet_not_pad; assumption|]). exact Hu. }
    split; [exact Hp|].
    split.
    { cbn [app List.length]. rewrite mod4_add4. exact Hlen. }
    split.
    { cbn [List.length]. rewrite mod4_add4. exact Hlu. }
    split.
    { cbn [sextets]. rewrite !sextet_alphabet by assumption. rewrite Hsx. reflexivity. }
    cbn [decode]. rewrite H3, H6, H8, Hd. reflexivity.
Qed.

Lemma atob_encode bs :
  Forall (fun b => (b < 256)%N) bs ->
  atob (encode bs) = Returned (bytes_to_text bs).
Proof.
  intros Hb. destruct (encode_chars bs Hb) as (u & p & ns & Hs & Hu & Hp & Hlen & Hlu & Hsx & Hd).
  unfold atob. cbv zeta. rewrite Hs.
  rewrite (strip_padding_tail u p Hu Hp) by (apply Nat.eqb_eq; exact Hlen).
  replace (Nat.modulo (List.length u) 4 =? 1)%nat with false
    by (symmetry; apply Nat.eqb_neq; exact Hlu).
  rewrite Hsx, Hd. reflexivity.
Qed.

(** Whatever [btoa] accepts, [atob] gives back. *)
Lemma atob_btoa s e : btoa s = Returned e -> atob e = Returned s.
Proof.
  unfold btoa, latin1_bytes. intros H.
  destruct (latin1_bytes_fuel (S (String.length s)) s) as [bs|] eqn:E; [|discriminate].
  injection H as <-. destruct (latin1_bytes_fuel_text _ _ _ E) as [Ht Hb].
  rewrite (atob_encode bs Hb), Ht. reflexivity.
Qed.

End Base64_facts.

(** ** Cursors read back *)

Lemma decode_encoded_cursor id c :
  json_data id = true ->
  Base64.btoa (match JSON.stringify (JObj [("id", id)]) with
               | Some text => text
               | None => "undefined"
               end) = Returned c ->
  decodeCursor c = Returned (JObj [("id", id)]).
Proof.
  intros Hd He. unfold decodeCursor.
  cbn [JSON.stringify] in He. rewrite (atob_btoa _ _ He). cbn [bind].
  rewrite parse_stringify; [reflexivity|].
  cbn [json_data forallb snd map fst distinct existsb negb]. rewrite Hd. reflexivity.
Qed.

(** The cursors of [buildPageInfo] are those of the first and of the last
    record of the page. *)
Lemma buildPageInfo_cursors rows limit args recs info :
  buildPageInfo rows limit args = Returned (recs, info) ->
  match recs with
  | r :: _ => exists c, encodeCursor (obj_get r "id") = Returned c
                        /\ startCursor info = Some c
  | [] => startCursor info = None
  end
  /\ match rev recs with
     | r :: _ => exists c, encodeCursor (obj_get r "id") = Returned c
                           /\ endCursor info = Some c
     | [] => endCursor info = None
     end.
Proof.
  unfold buildPageInfo. cbv zeta.
  set (trimmed := if some_nonzero (last args) && negb (some_nonzero (first args))
                  then _ else _).
  intros H.
  destruct (match trimmed with
            | [] => Returned None
            | r :: _ => let* c := encodeCursor (obj_get r "id") in Returned (Some c)
            end) as [sc|] eqn:Es; [|discriminate].
  cbn [bind] in H.
  destruct (match rev trimmed with
            | [] => Returned None
            | r :: _ => let* c := encodeCursor (obj_get r "id") in Returned (Some c)
            end) as [ec|] eqn:Ee; [|discriminate].
  cbn [bind] in H. injection H as <- <-. cbn [startCursor endCursor]. split.
  - destruct trimmed as [|r tl]; [congruence|].
    destruct (encodeCursor (obj_get r "id")) as [c|] eqn:Ec; [|discriminate].
    cbn [bind] in Es. exists c. split; [reflexivity|congruence].
  - destruct (rev trimmed) as [|r tl]; [congruence|].
    destruct (encodeCursor (obj_get r "id")) as [c|] eqn:Ec; [|discriminate].
    cbn [bind] in Ee. exists c. split; [reflexivity|congruence].
Qed.

Lemma executeSelect_pageInfo db table ws options res :
  executeSelect db table ws options = Returned res ->
  exists rows limit args, buildPageInfo rows limit args = Returned (records res, pageInfo res).
Proof.
  unfold executeSelect. cbv zeta.
  destruct (buildWhereClause (opt_filter options) ws) as [whereClause params].
  destruct (buildPaginationClause _) as [paginationClause limit].
  destruct (select_params _ _ _) as [ps|]; [|discriminate]. cbn [bind].
  destruct (D1.all _ _) as [rows|]; [|discriminate]. cbn [bind].
  destruct (D1.first _ _) as [cnt|]; [|discriminate]. cbn [bind].
  destruct (buildPageInfo rows limit _) as [[recs info]|] eqn:E; [|discriminate].
  cbn [bind]. intros [= <-]. cbn [records pageInfo]. eauto.
Qed.

Lemma to_edges_inv recs : forall es,
  to_edges recs = Returned es ->
  map Connection.node es = recs
  /\ Forall (fun e => encodeCursor (obj_get (Connection.node e) "id")
                      = Returned (Connection.cursor e)) es.
Proof.
  induction recs as [|r recs IH]; intros es H; cbn [to_edges] in H.
  - injection H as <-. split; [reflexivity|constructor].
  - destruct (Base64.btoa _) as [c|] eqn:Ec; [|discriminate]. cbn [bind] in H.
    destruct (to_edges recs) as [es'|]; [|discriminate]. cbn [bind] in H.
    injection H as <-. destruct (IH es' eq_refl) as [Hm Hf]. split.
    + cbn [map Connection.node]. rewrite Hm. reflexivity.
    + constructor; [exact Ec|exact Hf].
Qed.

Lemma hd_error_map {A B : Type} (f : A -> B) (l : list A) :
  hd_error (map f l) = option_map f (hd_error l).
Proof. destruct l; reflexivity. Qed.

(** ** Reads that return *)

Lemma arity_app a b : arity (a ++ b) = (arity a + arity b)%nat.
Proof.
  unfold arity. induction a as [|c a IH]; cbn [app fold_right]; [reflexivity|].
  rewrite IH. lia.
Qed.

Lemma arity_entry e : arity (entry_conds e) = List.length (entry_params e).
Proof.
  destruct e as [f v]. unfold entry_conds, entry_params.
  destruct v as [ | |b|n|lit|s|items|ops]; try reflexivity.
  rewrite !arity_app, !length_app.
  destruct (obj_has ops "eq"), (obj_has ops "neq"), (obj_has ops "in"),
    (obj_has ops "like"); cbn [arity fold_right cond_arity List.length];
    try (destruct (obj_get ops "in"); cbn [arity fold_right cond_arity List.length]);
    lia.
Qed.

(** One placeholder for each value bound. *)
Lemma arity_where filter :
  arity (where_conds filter) = S (List.length (where_params filter)).
Proof.
  unfold where_conds, where_params.
  assert (H : forall l, arity (flat_map entry_conds l)
                        = List.length (flat_map entry_params l)).
  { induction l as [|e l IH]; [reflexivity|].
    cbn [flat_map]. rewrite arity_app, length_app, IH, arity_entry. reflexivity. }
  unfold arity at 1. cbn [fold_right cond_arity]. fold (arity (flat_map entry_conds (filter_entries filter))).
  rewrite H. reflexivity.
Qed.

Lemma to_sql_all_length vs : forall vals,
  D1.to_sql_all vs = Returned vals -> List.length vals = List.length vs.
Proof.
  induction vs as [|v vs IH]; intros vals H.
  - injection H as <-. reflexivity.
  - apply to_sql_all_cons in H as (x & xs & _ & Hxs & ->).
    cbn [List.length]. rewrite (IH xs Hxs). reflexivity.
Qed.

(** A statement that reads, bound with as many values as it has
    placeholders, returns the selected rows and leaves the database as it
    was. *)
Lemma D1_execute_select db q vals cols t cond order limit tbl l :
  D1.to_sql_all (D1.bound q) = Returned vals ->
  prepare (D1.sql q) = Some (Select cols t cond order limit, List.length vals) ->
  get_table (data db) t = Some tbl ->
  selected vals cond order limit tbl = Returned l ->
  D1.execute db q = Returned ({| rows := project vals cols l; changes := 0 |}, db).
Proof.
  intros Hv Hp Hg Hs. unfold D1.execute. rewrite Hv. cbn [bind]. rewrite Hp.
  rewrite Nat.ltb_irrefl, andb_false_r. unfold exec. rewrite Hg, Hs. cbn [bind].
  destruct db; reflexivity.
Qed.

Lemma executeSelectOne_run db table ws filter vals tbl :
  no_dquote table = true ->
  fields_ok (Some filter) = true ->
  D1.to_sql_all (where_params (Some filter)) = Returned vals ->
  get_table (data db) table = Some tbl ->
  executeSelectOne db table ws filter
  = Returned (match matching (SText ws :: vals) (Some filter) tbl with
              | r :: _ => Some (D1.of_row r)
              | [] => None
              end).
Proof.
  intros Ht Hf Hv Hg. unfold executeSelectOne.
  rewrite buildWhereClause_text. unfold D1.first.
  erewrite D1_execute_select with (vals := SText ws :: vals) (tbl := tbl);
    [| cbn [D1.bound D1.to_sql_all D1.to_sql bind]; rewrite Hv; reflexivity
     | cbn [D1.sql]; rewrite (prepare_select_one table (Some filter) Ht Hf);
       rewrite arity_where; cbn [List.length];
       rewrite (to_sql_all_length _ _ Hv); reflexivity
     | exact Hg
     | unfold selected; rewrite sort_rows_unordered; reflexivity ].
  cbn [bind rows project]. unfold matching.
  destruct (List.filter _ tbl) as [|r tl]; reflexivity.
Qed.

Lemma holds_live_by_id ws id r :
  holds [SText ws; SText id] r (Some (where_expr (where_conds (Some [("id", JStr id)]))))
  = is_row ws id r && live r.
Proof.
  unfold holds, is_row, live. cbn [where_conds filter_entries flat_map entry_conds app
    where_expr conj cond_expr cond_arity Nat.add eval nth nocase collation_of].
  rewrite !truth_of_truth.
  rewrite <- (eq3_text (row_get r "workspaceId") ws), <- (eq3_text (row_get r "id") id).
  destruct (eq3 false (row_get r "workspaceId") (SText ws)) as [[]|],
    (eq3 false (row_get r "id") (SText id)) as [[]|],
    (is_null (row_get r "deletedAt")); reflexivity.
Qed.

Lemma executeSelectOne_by_id db table ws id tbl :
  no_dquote table = true ->
  get_table (data db) table = Some tbl ->
  executeSelectOne db table ws [("id", JStr id)] = Returned (find_live ws id tbl).
Proof.
  intros Ht Hg.
  rewrite (executeSelectOne_run db table ws [("id", JStr id)] [SText id] tbl Ht
             eq_refl eq_refl Hg).
  unfold matching, find_live.
  rewrite (filter_ext _ (fun r => is_row ws id r && live r))
    by (intros r; apply holds_live_by_id).
  reflexivity.
Qed.

(** ** The total count *)

Lemma length_apply_limit ps limit l l' :
  apply_limit ps limit l = Returned l' -> (List.length l' <= List.length l)%nat.
Proof.
  unfold apply_limit. destruct limit as [e|]; [|intros [= <-]; lia].
  destruct (eval ps [] e) as [|n| |]; try discriminate.
  intros [= <-]. destruct (n <? 0); [lia|]. rewrite length_firstn. lia.
Qed.

Lemma length_slice0 {A : Type} (l : list A) (e : Z) :
  (List.length (slice0 l e) <= List.length l)%nat.
Proof. unfold slice0. rewrite length_firstn. lia. Qed.

Lemma length_buildPageInfo rows limit args recs info :
  buildPageInfo rows limit args = Returned (recs, info) ->
  (List.length recs <= List.length rows)%nat.
Proof.
  unfold buildPageInfo. unbind. intros [= <- _].
  assert (H : (List.length (if Z.of_nat (List.length rows) >? limit
                            then slice0 rows limit else rows)
               <= List.length rows)%nat).
  { destruct (Z.of_nat (List.length rows) >? limit); [apply length_slice0|lia]. }
  destruct (some_nonzero (last args) && negb (some_nonzero (first args)));
    [rewrite length_rev|]; exact H.
Qed.

Lemma holds_matching vals filter tbl r :
  In r (matching vals filter tbl) ->
  In r tbl /\ row_get r "workspaceId" = nth 0 vals SNull
  /\ row_get r "deletedAt" = SNull.
Proof.
  unfold matching. intros H. apply filter_In in H as [Hin Hh].
  apply holds_where in Hh. tauto.
Qed.

Lemma executeSelect_count db table ws options res :
  no_dquote table = true ->
  fields_ok (opt_filter options) = true ->
  opt_columns options = None ->
  executeSelect db table ws options = Returned res ->
  exists ps vals tbl,
    select_params (JStr ws :: where_params (opt_filter options)) ws (pagination_of options)
    = Returned ps
    /\ D1.to_sql_all ps = Returned vals
    /\ get_table (data db) table = Some tbl
    /\ totalCount res
       = JNum (Z.of_nat (List.length (matching vals (opt_filter options) tbl)))
    /\ (List.length (records res)
        <= List.length (matching vals (opt_filter options) tbl))%nat
    /\ nth 0 vals SNull = SText ws.
Proof.
  intros Ht Hf Hc. unfold executeSelect.
  rewrite buildWhereClause_text, buildPaginationClause_text, Hc.
  fold (pagination_of options). set (p := pagination_of options).
  destruct (select_params _ ws p) as [ps|] eqn:Eps; [|discriminate]. cbn [bind].
  destruct (select_params_head _ _ _ _ Eps) as (tl & Etl).
  destruct (D1.all db _) as [result|] eqn:Ea; [|discriminate]. cbn [bind].
  destruct (D1.first db _) as [cnt|] eqn:Ec; [|discriminate]. cbn [bind].
  destruct (buildPageInfo result (page_limit p) p) as [[recs info]|] eqn:Eb;
    [|discriminate].
  cbn [bind]. intros [= <-]. cbn [records totalCount].
  (* the count *)
  unfold D1.first in Ec.
  destruct (D1.execute db _) as [[cres db1]|] eqn:Ee; [|discriminate].
  cbn [bind] in Ec. injection Ec as <-.
  apply D1_execute_inv in Ee as (vals & st & n & Hv & Hp & _ & s' & He & _).
  cbn [D1.sql D1.bound] in Hp, Hv.
  rewrite (prepare_count table (opt_filter options) Ht Hf) in Hp.
  injection Hp as <- <-. unfold count_stmt in He.
  apply exec_select_inv in He as (tbl & l & Hg & Hsel & Hr & _).
  unfold selected in Hsel. rewrite sort_rows_unordered in Hsel.
  cbn [apply_limit] in Hsel. injection Hsel as <-.
  fold (matching vals (opt_filter options) tbl) in Hr.
  exists ps, vals, tbl. split; [reflexivity|]. split; [exact Hv|].
  split; [exact Hg|]. split.
  { rewrite Hr. cbn [project D1.of_row map fst snd D1.of_sql obj_get String.eqb
      Ascii.eqb Bool.eqb]. reflexivity. }
  split.
  { (* the page *)
    apply length_buildPageInfo in Eb.
    unfold D1.all in Ea.
    destruct (D1.execute db _) as [[qres db2]|] eqn:Ee; [|discriminate].
    cbn [bind] in Ea. injection Ea as <-.
    apply D1_execute_inv in Ee as (vals2 & st & n & Hv2 & Hp & _ & s2 & He & _).
    cbn [D1.sql D1.bound] in Hp, Hv2.
    assert (vals2 = vals) as -> by congruence.
    destruct (buildOrderByClause_head (opt_orderBy options)) as (tail & Etail).
    rewrite Etail, select_query_head in Hp.
    apply (prepare_select_where table _ _ _ _ Ht Hf) in Hp as (order & limit & ->).
    apply exec_select_inv in He as (tbl2 & l & Hg2 & Hsel & Hr2 & _).
    assert (tbl2 = tbl) as -> by congruence.
    rewrite Hr2 in Eb. cbn [project] in Eb. rewrite length_map in Eb.
    unfold selected in Hsel. apply length_apply_limit in Hsel.
    rewrite length_sort_rows in Hsel. unfold matching. lia. }
  subst ps. apply (to_sql_all_tenant _ _ _ Hv).
Qed.

(** ** ASCII text always encodes *)

Lemma string_forallb_app p a b :
  string_forallb p (a ++ b) = string_forallb p a && string_forallb p b.
Proof.
  induction a as [|c a IH]; [reflexivity|].
  cbn [append string_forallb]. rewrite IH, andb_assoc. reflexivity.
Qed.

Lemma string_forallb_impl (p q : ascii -> bool) s :
  (forall c, p c = true -> q c = true) ->
  string_forallb p s = true -> string_forallb q s = true.
Proof.
  intros Hpq. induction s as [|c s IH]; [reflexivity|].
  cbn [string_forallb]. intros H. apply andb_true_iff in H as [Hc Hs].
  rewrite (Hpq c Hc), (IH Hs). reflexivity.
Qed.

Lemma ascii_text_app a b : ascii_text (a ++ b) = ascii_text a && ascii_text b.
Proof. apply string_forallb_app. Qed.

Lemma ascii_quote_char c :
  (ascii_N c <? 128)%N = true -> ascii_text (JSON.quote_char c) = true.
Proof.
  destruct c as [[] [] [] [] [] [] [] []]; intros H; try discriminate H; reflexivity.
Qed.

Lemma ascii_quote_body s : ascii_text s = true -> ascii_text (JSON.quote_body s) = true.
Proof.
  induction s as [|c s IH]; [reflexivity|].
  unfold ascii_text at 1. cbn [string_forallb JSON.quote_body]. intros H.
  apply andb_true_iff in H as [Hc Hs].
  rewrite ascii_text_app, (ascii_quote_char c Hc), (IH Hs). reflexivity.
Qed.

Lemma ascii_N_to_string n : ascii_text (N_to_string n) = true.
Proof.
  apply (string_forallb_impl is_digit); [|apply N_to_string_digits].
  intros c. destruct c as [[] [] [] [] [] [] [] []]; intros H; try discriminate H;
    reflexivity.
Qed.

Lemma ascii_Z_to_string z : ascii_text (Z_to_string z) = true.
Proof.
  unfold Z_to_string. destruct (z <? 0).
  - rewrite ascii_text_app, ascii_N_to_string. reflexivity.
  - apply ascii_N_to_string.
Qed.

Lemma latin1_ascii s : forall fuel,
  ascii_text s = true -> (String.length s < fuel)%nat ->
  exists bs, Base64.latin1_bytes_fuel fuel s = Some bs.
Proof.
  induction s as [|c s IH]; intros fuel Ha Hf.
  - destruct fuel; [lia|]. exists []. reflexivity.
  - destruct fuel as [|fuel]; [lia|]. cbn [String.length] in Hf.
    unfold ascii_text in Ha. cbn [string_forallb] in Ha.
    apply andb_true_iff in Ha as [Hc Hs].
    destruct (IH fuel Hs ltac:(lia)) as (bs & Hbs).
    cbn [Base64.latin1_bytes_fuel]. cbv zeta. rewrite Hc, Hbs.
    eexists. reflexivity.
Qed.

Lemma btoa_ascii s : ascii_text s = true -> exists e, Base64.btoa s = Returned e.
Proof.
  intros Ha. unfold Base64.btoa, Base64.latin1_bytes.
  destruct (latin1_ascii s (S (String.length s)) Ha ltac:(lia)) as (bs & ->).
  eexists. reflexivity.
Qed.

Lemma encodeCursor_ascii v :
  ascii_id v = true -> exists c, encodeCursor v = Returned c.
Proof.
  intros Hs. unfold encodeCursor. apply btoa_ascii.
  destruct v as [ | |[]|n|lit|s|items|props]; try discriminate Hs;
    cbn [JSON.stringify JSON.stringify_value map snd fst JSON.is_undefined
         JSON.somes String.concat ascii_id] in *;
    try reflexivity.
  - rewrite !ascii_text_app, ascii_Z_to_string. reflexivity.
  - rewrite !ascii_text_app, Hs. reflexivity.
  - unfold JSON.quote. rewrite !ascii_text_app, (ascii_quote_body s Hs). reflexivity.
Qed.

Lemma buildPageInfo_returns rows limit args :
  Forall (fun rec => exists c, encodeCursor (obj_get rec "id") = Returned c) rows ->
  exists recs info, buildPageInfo rows limit args = Returned (recs, info).
Proof.
  intros Hall. unfold buildPageInfo. cbv zeta.
  set (trimmed := if some_nonzero (last args) && negb (some_nonzero (first args))
                  then _ else _).
  assert (Hin : forall y, In y trimmed -> In y rows).
  { intros y Hy. unfold trimmed in Hy.
    assert (Hy' : In y (if Z.of_nat (List.length rows) >? limit
                        then slice0 rows limit else rows)).
    { destruct (some_nonzero (last args) && negb (some_nonzero (first args)));
        [apply in_rev in Hy|]; exact Hy. }
    destruct (Z.of_nat (List.length rows) >? limit);
      [apply In_slice0 in Hy'|]; exact Hy'. }
  rewrite Forall_forall in Hall.
  assert (H1 : exists sc, match trimmed with
                          | [] => Returned None
                          | r :: _ =>
                              let* c := encodeCursor (obj_get r "id") in Returned (Some c)
                          end = Returned sc).
  { destruct trimmed as [|r tl]; [eauto|].
    destruct (Hall r (Hin r (or_introl eq_refl))) as (c & ->). cbn [bind]. eauto. }
  assert (H2 : exists ec, match rev trimmed with
                          | [] => Returned None
                          | r :: _ =>
                              let* c := encodeCursor (obj_get r "id") in Returned (Some c)
                          end = Returned ec).
  { destruct (rev trimmed) as [|r tl] eqn:E; [eauto|].
    assert (Hr : In r trimmed) by (apply in_rev; rewrite E; left; reflexivity).
    destruct (Hall r (Hin r Hr)) as (c & ->). cbn [bind]. eauto. }
  destruct H1 as (sc & ->), H2 as (ec & ->). cbn [bind]. eauto.
Qed.

Lemma to_sql_all_bindable vs :
  forallb bindable vs = true -> exists vals, D1.to_sql_all vs = Returned vals.
Proof.
  induction vs as [|v vs IH]; [intros _; exists []; reflexivity|].
  cbn [forallb]. intros H. apply andb_true_iff in H as [Hv Hvs].
  destruct (IH Hvs) as (vals & Hvals).
  cbn [D1.to_sql_all]. rewrite Hvals.
  destruct v; try discriminate Hv; cbn [D1.to_sql bind]; eauto.
Qed.

(** ** The statements of the writes *)

(** *** Lexing the lists of columns and assignments *)

Lemma Lexes_dquoted_then c f :
  no_dquote f = true ->
  c = ","%char \/ c = ")"%char ->
  Lexes LNormal (dquoted f ++ String c "") LNormal [TIdent f; TSym c].
Proof.
  intros Hf Hc.
  change [TIdent f; TSym c] with ([] ++ [TIdent f; TSym c])%list.
  eapply Lexes_app; [apply Lexes_dquoted; exact Hf|].
  destruct Hc as [-> | ->]; reflexivity.
Qed.

Lemma Lexes_columns ks rest st' out :
  ks <> [] -> forallb no_dquote ks = true ->
  Lexes LNormal rest st' out ->
  Lexes LNormal (String.concat ", " (map dquoted ks) ++ String ")" rest) st'
    (commas (map TIdent ks) ++ TSym ")" :: out).
Proof.
  intros Hne Hok Hrest. induction ks as [|k ks IH]; [congruence|].
  cbn [forallb] in Hok. apply andb_true_iff in Hok as [Hk Hks].
  destruct ks as [|k2 ks].
  - cbn [map String.concat commas app].
    change (dquoted k ++ String ")" rest) with (dquoted k ++ String ")" "" ++ rest).
    rewrite <- append_assoc.
    change (TIdent k :: TSym ")" :: out) with ([TIdent k; TSym ")"] ++ out)%list.
    eapply Lexes_app; [apply Lexes_dquoted_then; auto|exact Hrest].
  - change (map dquoted (k :: k2 :: ks)) with (dquoted k :: dquoted k2 :: map dquoted ks).
    rewrite concat_cons2.
    change (commas (map TIdent (k :: k2 :: ks)))
      with ([TIdent k; TSym ","] ++ commas (map TIdent (k2 :: ks)))%list.
    rewrite <- app_assoc, !append_assoc.
    change (", " ++ ?x) with (String "," "" ++ " " ++ x).
    rewrite <- (append_assoc (dquoted k)).
    eapply Lexes_app; [apply Lexes_dquoted_then; auto|].
    change (" " ++ ?x) with (String " " x).
    change (commas (map TIdent (k2 :: ks)) ++ TSym ")" :: out)%list
      with ([] ++ (commas (map TIdent (k2 :: ks)) ++ TSym ")" :: out))%list.
    eapply (Lexes_app _ " " LNormal); [reflexivity|].
    apply IH; [discriminate|exact Hks].
Qed.

Lemma Lexes_assignment k :
  no_dquote k = true ->
  Lexes LNormal (dquoted k ++ " = ?") LNormal [TIdent k; TSym "="; TParam].
Proof.
  intros Hk.
  change [TIdent k; TSym "="; TParam] with ([] ++ [TIdent k; TSym "="; TParam])%list.
  eapply Lexes_app; [apply Lexes_dquoted; exact Hk|reflexivity].
Qed.

Lemma Lexes_sets ks :
  forallb no_dquote ks = true ->
  Lexes LNormal (String.concat ", " (map (fun key => dquoted key ++ " = ?") ks)) LNormal
    (set_tokens ks).
Proof.
  induction ks as [|k ks IH]; intros Hok; [reflexivity|].
  cbn [forallb] in Hok. apply andb_true_iff in Hok as [Hk Hks].
  destruct ks as [|k2 ks].
  - cbn [map String.concat set_tokens]. apply Lexes_assignment; exact Hk.
  - change (map (fun key => dquoted key ++ " = ?") (k :: k2 :: ks))
      with ((dquoted k ++ " = ?")
              :: map (fun key => dquoted key ++ " = ?") (k2 :: ks)).
    cbn [map]. rewrite concat_cons2.
    change (set_tokens (k :: k2 :: ks))
      with ([TIdent k; TSym "="; TParam] ++ [TSym ","] ++ set_tokens (k2 :: ks))%list.
    eapply Lexes_app; [apply Lexes_assignment; exact Hk|].
    eapply Lexes_app; [reflexivity|]. apply IH. exact Hks.
Qed.

(** *** Parsing them *)

Section Parser_insert.

#[local] Arguments collations : simpl never.
#[local] Arguments chain : simpl never.
#[local] Arguments comma_list : simpl never.
#[local] Arguments parse_operand : simpl never.

Lemma parse_or_param_where sub ts n :
  parse_or sub (TParam :: TWord "WHERE" :: ts) n
  = Some (EParam n, TWord "WHERE" :: ts, S n).
Proof.
  unfold parse_or, parse_and, parse_cmp.
  rewrite parse_operand_param by reflexivity; simpl;
    rewrite !chain_stop by reflexivity; reflexivity.
Qed.

Lemma parse_expr_param t ts n :
  t = TSym "," \/ t = TSym ")" \/ t = TWord "WHERE" ->
  parse_expr (TParam :: t :: ts) n = Some (EParam n, t :: ts, S n).
Proof.
  intros Ht.
  change (parse_expr (TParam :: t :: ts) n)
    with (parse_or (parse_expr_depth (S (List.length (TParam :: t :: ts))))
            (TParam :: t :: ts) n).
  generalize (parse_expr_depth (S (List.length (TParam :: t :: ts)))). intros sub.
  destruct Ht as [->|[->| ->]].
  - apply parse_or_param. left. reflexivity.
  - apply parse_or_param. right. reflexivity.
  - apply parse_or_param_where.
Qed.

#[local] Arguments parse_expr : simpl never.

Lemma comma_list_values k : forall K rest n,
  (k <= K)%nat -> (0 < k)%nat ->
  comma_list parse_expr K (commas (repeat TParam k) ++ TSym ")" :: rest)%list n
  = Some (map EParam (seq n k), TSym ")" :: rest, (n + k)%nat).
Proof.
  induction k as [|k IH]; intros K rest n HK Hk; [lia|].
  destruct K as [|K]; [lia|].
  destruct k as [|k].
  - cbn [repeat commas app]. rewrite comma_list_S.
    rewrite parse_expr_param by (right; left; reflexivity).
    simpl. replace (n + 1)%nat with (S n) by lia. reflexivity.
  - change (commas (repeat TParam (S (S k))) ++ TSym ")" :: rest)%list
      with (TParam :: TSym "," :: (commas (repeat TParam (S k)) ++ TSym ")" :: rest))%list.
    rewrite comma_list_S, parse_expr_param by (left; reflexivity).
    rewrite IH by lia. simpl. replace (n + S (S k))%nat with (S (n + S k)) by lia.
    reflexivity.
Qed.

Lemma comma_list_columns ks : forall K rest n,
  (List.length ks <= K)%nat -> ks <> [] ->
  comma_list parse_column_name K (commas (map TIdent ks) ++ TSym ")" :: rest)%list n
  = Some (ks, TSym ")" :: rest, n).
Proof.
  induction ks as [|k ks IH]; intros K rest n HK Hne; [congruence|].
  destruct K as [|K]; [cbn [List.length] in HK; lia|].
  destruct ks as [|k2 ks].
  - cbn [map commas app]. rewrite comma_list_S. reflexivity.
  - change (commas (map TIdent (k :: k2 :: ks)) ++ TSym ")" :: rest)%list
      with (TIdent k :: TSym "," :: (commas (map TIdent (k2 :: ks)) ++ TSym ")" :: rest))%list.
    rewrite comma_list_S. cbn [parse_column_name parse_name].
    rewrite IH; [reflexivity|cbn [List.length] in HK |- *; lia|discriminate].
Qed.

Lemma comma_list_sets ks : forall K rest n,
  (List.length ks <= K)%nat -> ks <> [] ->
  comma_list parse_set K (set_tokens ks ++ TWord "WHERE" :: rest)%list n
  = Some (combine ks (map EParam (seq n (List.length ks))), TWord "WHERE" :: rest,
          (n + List.length ks)%nat).
Proof.
  induction ks as [|k ks IH]; intros K rest n HK Hne; [congruence|].
  destruct K as [|K]; [cbn [List.length] in HK; lia|].
  destruct ks as [|k2 ks].
  - cbn [set_tokens app]. rewrite comma_list_S. cbn [parse_set parse_name].
    rewrite parse_expr_param by (right; right; reflexivity).
    cbn [List.length seq map combine]. replace (n + 1)%nat with (S n) by lia.
    reflexivity.
  - change (set_tokens (k :: k2 :: ks) ++ TWord "WHERE" :: rest)%list
      with (TIdent k :: TSym "=" :: TParam :: TSym ","
              :: (set_tokens (k2 :: ks) ++ TWord "WHERE" :: rest))%list.
    rewrite comma_list_S. cbn [parse_set parse_name].
    rewrite parse_expr_param by (left; reflexivity).
    rewrite IH; [|cbn [List.length] in HK |- *; lia|discriminate].
    cbn [List.length seq map combine].
    replace (S n + S (List.length ks))%nat with (n + S (S (List.length ks)))%nat by lia.
    reflexivity.
Qed.

Lemma length_columns ks rest :
  (List.length ks <= List.length (commas (map TIdent ks) ++ rest)%list)%nat.
Proof.
  induction ks as [|k ks IH]; [cbn; lia|].
  destruct ks as [|k2 ks]; [cbn; lia|].
  change (commas (map TIdent (k :: k2 :: ks)) ++ rest)%list
    with (TIdent k :: TSym "," :: (commas (map TIdent (k2 :: ks)) ++ rest))%list.
  cbn [List.length] in IH |- *. lia.
Qed.

Lemma length_set_tokens ks rest :
  (List.length ks <= List.length (set_tokens ks ++ rest)%list)%nat.
Proof.
  induction ks as [|k ks IH]; [cbn; lia|].
  destruct ks as [|k2 ks]; [cbn; lia|].
  change (set_tokens (k :: k2 :: ks) ++ rest)%list
    with (TIdent k :: TSym "=" :: TParam :: TSym ","
            :: (set_tokens (k2 :: ks) ++ rest))%list.
  cbn [List.length] in IH |- *. lia.
Qed.

(** *** INSERT *)

Lemma lex_insert table record :
  no_dquote table = true ->
  record <> [] ->
  forallb no_dquote (Object_keys record) = true ->
  lex (D1.sql (insert_statement table record))
  = Some ([TWord "INSERT"; TWord "INTO"; TIdent table; TSym "("]
            ++ commas (map TIdent (Object_keys record))
            ++ TSym ")" :: TWord "VALUES" :: TSym "("
            :: commas (repeat TParam (List.length record)) ++ [TSym ")"])%list.
Proof.
  intros Ht Hne Hk. unfold insert_statement. cbn [D1.sql].
  rewrite map_const_repeat.
  replace (List.length (Object_keys record)) with (List.length record)
    by (unfold Object_keys; symmetry; apply length_map).
  assert (E : exists out,
             Lexes LNormal
               (nl ++ "    INSERT INTO " ++ dquoted table ++ " ("
                  ++ String.concat ", " (map dquoted (Object_keys record)) ++ ")" ++ nl
                  ++ "    VALUES (" ++ String.concat ", " (repeat "?" (List.length record))
                  ++ ")" ++ nl ++ "  ") LNormal out
             /\ out = ([TWord "INSERT"; TWord "INTO"; TIdent table; TSym "("]
                         ++ commas (map TIdent (Object_keys record))
                         ++ TSym ")" :: TWord "VALUES" :: TSym "("
                         :: commas (repeat TParam (List.length record)) ++ [TSym ")"])%list).
  { eexists. split.
    - eapply Lexes_app; [vm_compute; reflexivity|].
      eapply Lexes_app; [vm_compute; reflexivity|].
      eapply Lexes_app; [apply Lexes_dquoted; exact Ht|].
      eapply Lexes_app; [vm_compute; reflexivity|].
      change (")" ++ ?x) with (String ")" x).
      apply Lexes_columns;
        [intros E; destruct record; [congruence|discriminate E]|exact Hk|].
      eapply Lexes_app; [vm_compute; reflexivity|].
      eapply Lexes_app; [vm_compute; reflexivity|].
      eapply Lexes_app; [apply Lexes_placeholders|].
      vm_compute. reflexivity.
    - simpl. rewrite ?app_nil_r. reflexivity. }
  destruct E as (out & E & ->).
  rewrite (lex_of_Lexes _ _ _ [] E eq_refl), app_nil_r. reflexivity.
Qed.

Lemma parse_insert table ks k :
  ks <> [] -> (0 < k)%nat ->
  parse_stmt ([TWord "INSERT"; TWord "INTO"; TIdent table; TSym "("]
                ++ commas (map TIdent ks)
                ++ TSym ")" :: TWord "VALUES" :: TSym "("
                :: commas (repeat TParam k) ++ [TSym ")"])%list O
  = Some (Insert table ks (map EParam (seq 0 k)), [], k).
Proof.
  intros Hne Hk.
  change ([TWord "INSERT"; TWord "INTO"; TIdent table; TSym "("] ++ ?x)%list
    with (TWord "INSERT" :: TWord "INTO" :: TIdent table :: TSym "(" :: x).
  cbn [parse_stmt toUpperCase string_map upper_char String.eqb Ascii.eqb Bool.eqb
         is_kw parse_name].
  rewrite comma_list_columns by (apply length_columns || exact Hne).
  cbn [is_kw toUpperCase string_map String.eqb].
  change (is_kw "VALUES" (TWord "VALUES")) with true. cbv iota.
  rewrite comma_list_values by (apply length_commas_params || exact Hk).
  reflexivity.
Qed.

Lemma prepare_insert table record :
  no_dquote table = true ->
  record <> [] ->
  forallb no_dquote (Object_keys record) = true ->
  prepare (D1.sql (insert_statement table record))
  = Some (Insert table (Object_keys record) (map EParam (seq 0 (List.length record))),
          List.length record).
Proof.
  intros Ht Hne Hk. unfold prepare. rewrite lex_insert by assumption.
  rewrite parse_insert; [reflexivity| |destruct record; [congruence|cbn; lia]].
  intros E. destruct record; [congruence|discriminate E].
Qed.

(** *** Rows of records *)

Lemma to_sql_all_map vs : forall vals,
  D1.to_sql_all vs = Returned vals ->
  vals = map sql_of vs /\ forallb bindable vs = true.
Proof.
  induction vs as [|v vs IH]; intros vals H.
  - injection H as <-. split; reflexivity.
  - apply to_sql_all_cons in H as (x & xs & Hx & Hxs & ->).
    destruct (IH xs Hxs) as [-> Hb]. cbn [map forallb]. rewrite Hb.
    destruct v; try discriminate Hx; injection Hx as <-; split; reflexivity.
Qed.

Lemma to_sql_all_bindable_map vs :
  forallb bindable vs = true -> D1.to_sql_all vs = Returned (map sql_of vs).
Proof.
  induction vs as [|v vs IH]; [reflexivity|].
  cbn [forallb]. intros H. apply andb_true_iff in H as [Hv Hvs].
  cbn [D1.to_sql_all map]. rewrite (IH Hvs).
  destruct v; try discriminate Hv; reflexivity.
Qed.

Lemma to_sql_all_unbindable vs :
  forallb bindable vs = false -> D1.to_sql_all vs = Thrown D1.type_error.
Proof.
  induction vs as [|v vs IH]; [discriminate|].
  cbn [forallb D1.to_sql_all]. intros H.
  destruct v; cbn [bindable D1.to_sql bind andb] in *; try reflexivity;
    rewrite (IH H); reflexivity.
Qed.

Lemma row_of_combine record :
  combine (Object_keys record) (map sql_of (Object_values record)) = row_of record.
Proof.
  unfold Object_keys, Object_values, row_of.
  induction record as [|[k v] r IH]; [reflexivity|].
  cbn [map combine fst snd]. rewrite IH. reflexivity.
Qed.

Lemma row_get_row_of record k : row_get (row_of record) k = sql_of (obj_get record k).
Proof.
  induction record as [|[k' v] r IH]; [reflexivity|].
  cbn [row_of map fst snd row_get obj_get]. fold (row_of r).
  destruct (String.eqb k' k); [reflexivity|exact IH].
Qed.


(** *** Keys of records *)

Lemma keys_obj_set (o : object) k v :
  map fst (obj_set o k v)
  = if existsb (fun k' => String.eqb k' k) (map fst o) then map fst o
    else (map fst o ++ [k])%list.
Proof.
  induction o as [|[k' v'] o IH]; [reflexivity|].
  cbn [obj_set map fst existsb]. destruct (String.eqb k' k); [reflexivity|].
  cbn [map fst orb]. rewrite IH.
  destruct (existsb _ (map fst o)); reflexivity.
Qed.

Lemma distinct_snoc l k :
  distinct l = true -> existsb (fun k' => String.eqb k' k) l = false ->
  distinct (l ++ [k]) = true.
Proof.
  induction l as [|x l IH]; [reflexivity|].
  cbn [distinct existsb app]. intros Hd Hk.
  apply andb_true_iff in Hd as [Hx Hd]. apply orb_false_iff in Hk as [Hxk Hk].
  rewrite (IH Hd Hk), andb_true_r. rewrite existsb_app. cbn [existsb].
  apply negb_true_iff in Hx. rewrite Hx, Hxk. reflexivity.
Qed.

Lemma distinct_obj_set (o : object) k v :
  distinct (map fst o) = true -> distinct (map fst (obj_set o k v)) = true.
Proof.
  intros H. rewrite keys_obj_set.
  destruct (existsb _ (map fst o)) eqn:E; [exact H|apply distinct_snoc; assumption].
Qed.

Lemma distinct_obj_spread (b a : object) :
  distinct (map fst a) = true -> distinct (map fst (obj_spread a b)) = true.
Proof.
  unfold obj_spread. revert a. induction b as [|[k v] b IH]; intros a H; [exact H|].
  cbn [fold_left fst snd]. apply IH. apply distinct_obj_set. exact H.
Qed.

Lemma distinct_insert_record id d ws now :
  distinct (Object_keys (insert_record id d ws now)) = true.
Proof.
  unfold insert_record, Object_keys.
  repeat apply distinct_obj_set. apply distinct_obj_spread. reflexivity.
Qed.

Lemma forallb_keys_obj_set p (o : object) k v :
  forallb p (map fst o) = true -> p k = true ->
  forallb p (map fst (obj_set o k v)) = true.
Proof.
  intros Ho Hk. rewrite keys_obj_set.
  destruct (existsb _ (map fst o)); [exact Ho|].
  rewrite forallb_app, Ho. cbn [forallb]. rewrite Hk. reflexivity.
Qed.

Lemma forallb_keys_obj_spread p (b a : object) :
  forallb p (map fst a) = true -> forallb p (map fst b) = true ->
  forallb p (map fst (obj_spread a b)) = true.
Proof.
  unfold obj_spread. revert a. induction b as [|[k v] b IH]; intros a Ha Hb; [exact Ha|].
  cbn [map fst forallb] in Hb. apply andb_true_iff in Hb as [Hk Hb].
  cbn [fold_left fst snd]. apply IH; [apply forallb_keys_obj_set; assumption|exact Hb].
Qed.

Lemma keys_ok_insert_record id d ws now :
  forallb no_dquote (Object_keys d) = true ->
  forallb no_dquote (Object_keys (insert_record id d ws now)) = true.
Proof.
  intros Hd. unfold insert_record, Object_keys.
  repeat (apply forallb_keys_obj_set; [|reflexivity]).
  apply forallb_keys_obj_spread; [reflexivity|exact Hd].
Qed.

Lemma obj_set_nonempty (o : object) k v : obj_set o k v <> [].
Proof. destruct o as [|[k' v'] o]; cbn [obj_set]; [|destruct (String.eqb k' k)]; discriminate. Qed.

Lemma obj_get_set_same (o : object) k v : obj_get (obj_set o k v) k = v.
Proof.
  induction o as [|[k' v'] o IH]; cbn [obj_set obj_get].
  - rewrite String.eqb_refl. reflexivity.
  - destruct (String.eqb k' k) eqn:E; cbn [obj_get]; rewrite E; auto.
Qed.

Lemma obj_get_set_other (o : object) k k' v :
  k' <> k -> obj_get (obj_set o k v) k' = obj_get o k'.
Proof.
  intros Hne. induction o as [|[x w] o IH]; cbn [obj_set obj_get].
  - destruct (String.eqb k k') eqn:E; [apply String.eqb_eq in E; congruence|reflexivity].
  - destruct (String.eqb x k) eqn:E; cbn [obj_get].
    + apply String.eqb_eq in E. subst x.
      destruct (String.eqb k k') eqn:E'; [apply String.eqb_eq in E'; congruence|].
      reflexivity.
    + destruct (String.eqb x k'); auto.
Qed.

(** *** What INSERT does *)

Lemma fold_row_set_distinct (l acc : row) :
  distinct (map fst acc ++ map fst l) = true ->
  fold_left (fun a kv => row_set a (fst kv) (snd kv)) l acc = (acc ++ l)%list.
Proof.
  assert (Hfresh : forall (o : row) k v,
             existsb (fun k' => String.eqb k' k) (map fst o) = false ->
             row_set o k v = (o ++ [(k, v)])%list).
  { induction o as [|[k' v'] o IH]; intros k v H; [reflexivity|].
    cbn [map fst existsb] in H. apply orb_false_iff in H as [Hk H].
    cbn [row_set app]. rewrite Hk, (IH _ _ H). reflexivity. }
  revert acc. induction l as [|[k v] l IH]; intros acc H.
  - cbn [fold_left]. rewrite List.app_nil_r. reflexivity.
  - cbn [fold_left fst snd]. cbn [map fst] in H.
    rewrite (Hfresh acc k v (distinct_app_fresh _ _ _ H)).
    rewrite IH.
    + rewrite <- List.app_assoc. reflexivity.
    + rewrite List.map_app, <- List.app_assoc. exact H.
Qed.

Lemma map_nth_seq (params : list sqlval) :
  map (fun i => nth i params SNull) (seq 0 (List.length params)) = params.
Proof.
  induction params as [|p ps IH]; [reflexivity|].
  cbn [List.length seq map nth]. rewrite <- seq_shift, map_map.
  cbn [nth]. rewrite IH. reflexivity.
Qed.

Lemma inserted_row ks (params : list sqlval) :
  List.length ks = List.length params ->
  distinct ks = true ->
  fold_left (fun acc cv => row_set acc (fst cv) (eval params [] (snd cv)))
    (combine ks (map EParam (seq 0 (List.length params)))) []
  = combine ks params.
Proof.
  intros Hlen Hd.
  assert (E : forall (l : list (string * expr)) acc,
             fold_left (fun acc cv => row_set acc (fst cv) (eval params [] (snd cv))) l acc
             = fold_left (fun a kv => row_set a (fst kv) (snd kv))
                 (map (fun cv : string * expr => (fst cv, eval params [] (snd cv))) l) acc).
  { induction l as [|x l IH]; intros acc; [reflexivity|]. cbn [fold_left map fst snd].
    apply IH. }
  rewrite E.
  assert (E2 : map (fun cv : string * expr => (fst cv, eval params [] (snd cv)))
                 (combine ks (map EParam (seq 0 (List.length params))))
               = combine ks params).
  { rewrite <- (map_nth_seq params) at 2.
    generalize (seq 0 (List.length params)). clear.
    induction ks as [|k ks IH]; intros l; [reflexivity|].
    destruct l as [|i l]; [reflexivity|]. cbn [map combine fst snd eval]. rewrite IH.
    reflexivity. }
  rewrite E2. rewrite fold_row_set_distinct; [reflexivity|].
  cbn [map app]. clear E E2. revert params Hlen.
  induction ks as [|k ks IH]; intros params Hlen; [reflexivity|].
  destruct params as [|p ps]; [discriminate|].
  cbn [combine map fst]. cbn [distinct] in Hd |- *.
  apply andb_true_iff in Hd as [Hk Hd].
  injection Hlen as Hlen.
  assert (Hkeys : map fst (combine ks ps) = ks).
  { clear -Hlen. revert ps Hlen. induction ks as [|x ks IH]; intros ps H; [reflexivity|].
    destruct ps; [discriminate|]. cbn [combine map fst]. injection H as H.
    rewrite (IH _ H). reflexivity. }
  rewrite Hkeys, Hk, Hd. reflexivity.
Qed.

Lemma run_insert db table record t :
  no_dquote table = true ->
  record <> [] ->
  forallb no_dquote (Object_keys record) = true ->
  distinct (Object_keys record) = true ->
  get_table (data db) table = Some t ->
  D1.run db (insert_statement table record)
  = if forallb bindable (Object_values record) then
      if id_taken t (row_of record) then Thrown unique_failed
      else Returned (1, with_data db (set_table (data db) table (t ++ [row_of record])%list))
    else Thrown D1.type_error.
Proof.
  intros Ht Hne Hk Hd Hg. unfold D1.run, D1.execute.
  change (D1.bound (insert_statement table record)) with (Object_values record).
  destruct (forallb bindable (Object_values record)) eqn:Hb.
  2:{ rewrite (to_sql_all_unbindable _ Hb). reflexivity. }
  rewrite (to_sql_all_bindable_map _ Hb). cbn [bind].
  rewrite (prepare_insert table record Ht Hne Hk).
  assert (Hlen : List.length (map sql_of (Object_values record)) = List.length record)
    by (unfold Object_values; rewrite !length_map; reflexivity).
  rewrite Hlen, Nat.ltb_irrefl, andb_false_r.
  unfold exec. rewrite Hg.
  assert (Hcols : (List.length (Object_keys record)
                   =? List.length (map EParam (seq 0 (List.length record))))%nat = true).
  { apply Nat.eqb_eq. unfold Object_keys. rewrite !length_map, length_seq. reflexivity. }
  rewrite Hcols. cbn [negb].
  assert (Hrow : fold_left
                   (fun (acc : row) (cv : string * expr) =>
                      row_set acc (fst cv)
                        (eval (map sql_of (Object_values record)) [] (snd cv)))
                   (combine (Object_keys record)
                      (map EParam (seq 0 (List.length record)))) []
                 = row_of record).
  { rewrite <- Hlen.
    rewrite inserted_row;
      [|unfold Object_keys, Object_values; rewrite !length_map; reflexivity|exact Hd].
    apply row_of_combine. }
  rewrite !Hrow.
  destruct (id_taken t (row_of record)); [reflexivity|].
  cbn [bind changes]. reflexivity.
Qed.

Lemma insert_record_nonempty id d ws now : insert_record id d ws now <> [].
Proof. unfold insert_record. apply obj_set_nonempty. Qed.

Lemma executeInsert_run env db table ws d t :
  no_dquote table = true ->
  forallb no_dquote (Object_keys d) = true ->
  get_table (data db) table = Some t ->
  executeInsert env db table ws d
  = let record :=
      insert_record (randomUUID env 0) d ws (Date.iso_string (clock env)) in
    if forallb bindable (Object_values record) then
      if id_taken t (row_of record) then Thrown unique_failed
      else Returned (record,
                     with_data db (set_table (data db) table (t ++ [row_of record])%list))
    else Thrown D1.type_error.
Proof.
  intros Ht Hk Hg. unfold executeInsert. cbv zeta.
  rewrite (run_insert db table _ t Ht (insert_record_nonempty _ _ _ _)
             (keys_ok_insert_record _ _ _ _ Hk) (distinct_insert_record _ _ _ _) Hg).
  destruct (forallb bindable _); [|reflexivity].
  destruct (id_taken t _); reflexivity.
Qed.

Lemma run_insert_no_table db table record :
  no_dquote table = true ->
  record <> [] ->
  forallb no_dquote (Object_keys record) = true ->
  get_table (data db) table = None ->
  D1.run db (insert_statement table record)
  = if forallb bindable (Object_values record) then Thrown no_such_table
    else Thrown D1.type_error.
Proof.
  intros Ht Hne Hk Hg. unfold D1.run, D1.execute.
  change (D1.bound (insert_statement table record)) with (Object_values record).
  destruct (forallb bindable (Object_values record)) eqn:Hb.
  2:{ rewrite (to_sql_all_unbindable _ Hb). reflexivity. }
  rewrite (to_sql_all_bindable_map _ Hb). cbn [bind].
  rewrite (prepare_insert table record Ht Hne Hk).
  assert (Hlen : List.length (map sql_of (Object_values record)) = List.length record)
    by (unfold Object_values; rewrite !length_map; reflexivity).
  rewrite Hlen, Nat.ltb_irrefl, andb_false_r.
  unfold exec. rewrite Hg. reflexivity.
Qed.

Lemma executeInsert_inv env db table ws d rec db' :
  no_dquote table = true ->
  forallb no_dquote (Object_keys d) = true ->
  executeInsert env db table ws d = Returned (rec, db') ->
  rec = insert_record (randomUUID env 0) d ws (Date.iso_string (clock env))
  /\ forallb bindable (Object_values rec) = true
  /\ exists t,
       get_table (data db) table = Some t
       /\ id_taken t (row_of rec) = false
       /\ db' = with_data db (set_table (data db) table (t ++ [row_of rec])%list).
Proof.
  intros Ht Hk H. destruct (get_table (data db) table) as [t|] eqn:Hg.
  - rewrite (executeInsert_run env db table ws d t Ht Hk Hg) in H. cbv zeta in H.
    destruct (forallb bindable _) eqn:Hb; [|discriminate].
    destruct (id_taken t _) eqn:Hid; [discriminate|].
    injection H as <- <-. split; [reflexivity|]. split; [exact Hb|].
    exists t. auto.
  - unfold executeInsert in H. cbv zeta in H.
    rewrite (run_insert_no_table db table _ Ht (insert_record_nonempty _ _ _ _)
               (keys_ok_insert_record _ _ _ _ Hk) Hg) in H.
    destruct (forallb bindable _); discriminate.
Qed.


Lemma filter_none {A : Type} (p : A -> bool) (l : list A) :
  (forall x, In x l -> p x = false) -> List.filter p l = [].
Proof.
  induction l as [|x l IH]; intros H; [reflexivity|].
  cbn [List.filter]. rewrite (H x (or_introl eq_refl)). apply IH.
  intros y Hy. apply H. right. exact Hy.
Qed.

Lemma unsupported_unbindable vs :
  existsb unsupported vs = true -> forallb bindable vs = false.
Proof.
  induction vs as [|v vs IH]; [discriminate|].
  cbn [existsb forallb]. destruct v; cbn [unsupported bindable orb andb]; auto.
Qed.


Lemma insert_record_workspace id d ws now :
  obj_get (insert_record id d ws now) "workspaceId" = JStr ws.
Proof.
  unfold insert_record.
  rewrite !obj_get_set_other by discriminate. apply obj_get_set_same.
Qed.

End Parser_insert.

(** *** UPDATE *)

Lemma lex_update table updates :
  no_dquote table = true ->
  forallb no_dquote (Object_keys updates) = true ->
  lex (D1.sql (update_statement table "" "" updates))
  = Some ([TWord "UPDATE"; TIdent table; TWord "SET"]
            ++ set_tokens (Object_keys updates)
            ++ [TWord "WHERE"; TWord "workspaceId"; TSym "="; TParam; TWord "AND";
                TWord "id"; TSym "="; TParam])%list.
Proof.
  intros Ht Hk. unfold update_statement. cbn [D1.sql].
  assert (E : exists out,
             Lexes LNormal
               (nl ++ "    UPDATE " ++ dquoted table ++ nl ++ "    SET "
                  ++ String.concat ", "
                       (map (fun key => dquoted key ++ " = ?") (Object_keys updates))
                  ++ nl ++ "    WHERE workspaceId = ? AND id = ?" ++ nl ++ "  ")
               LNormal out
             /\ out = ([TWord "UPDATE"; TIdent table; TWord "SET"]
                         ++ set_tokens (Object_keys updates)
                         ++ [TWord "WHERE"; TWord "workspaceId"; TSym "="; TParam;
                             TWord "AND"; TWord "id"; TSym "="; TParam])%list).
  { eexists. split.
    - eapply Lexes_app; [vm_compute; reflexivity|].
      eapply Lexes_app; [vm_compute; reflexivity|].
      eapply Lexes_app; [apply Lexes_dquoted; exact Ht|].
      eapply Lexes_app; [vm_compute; reflexivity|].
      eapply Lexes_app; [vm_compute; reflexivity|].
      eapply Lexes_app; [apply Lexes_sets; exact Hk|].
      vm_compute. reflexivity.
    - simpl. rewrite ?app_nil_r. reflexivity. }
  destruct E as (out & E & ->).
  rewrite (lex_of_Lexes _ _ _ [] E eq_refl), app_nil_r. reflexivity.
Qed.

Section Parser_update.

#[local] Arguments collations : simpl never.
#[local] Arguments chain : simpl never.
#[local] Arguments comma_list : simpl never.
#[local] Arguments parse_operand : simpl never.

Lemma parse_tenant_and_id k :
  parse_expr [TWord "workspaceId"; TSym "="; TParam; TWord "AND"; TWord "id";
              TSym "="; TParam] k
  = Some (by_tenant_and_id_after k, [], S (S k)).
Proof. reflexivity. Qed.

#[local] Arguments parse_expr : simpl never.

Lemma parse_update table ks :
  ks <> [] ->
  parse_stmt ([TWord "UPDATE"; TIdent table; TWord "SET"]
                ++ set_tokens ks
                ++ [TWord "WHERE"; TWord "workspaceId"; TSym "="; TParam; TWord "AND";
                    TWord "id"; TSym "="; TParam])%list O
  = Some (Update table (combine ks (map EParam (seq 0 (List.length ks))))
            (Some (by_tenant_and_id_after (List.length ks))),
          [], S (S (List.length ks))).
Proof.
  intros Hne.
  change ([TWord "UPDATE"; TIdent table; TWord "SET"] ++ ?x)%list
    with (TWord "UPDATE" :: TIdent table :: TWord "SET" :: x).
  cbn [parse_stmt toUpperCase string_map upper_char String.eqb Ascii.eqb Bool.eqb
         parse_name].
  change (is_kw "SET" (TWord "SET")) with true. cbv iota.
  change ([TWord "WHERE"; TWord "workspaceId"; TSym "="; TParam; TWord "AND";
           TWord "id"; TSym "="; TParam])
    with (TWord "WHERE" :: [TWord "workspaceId"; TSym "="; TParam; TWord "AND";
                            TWord "id"; TSym "="; TParam]).
  rewrite comma_list_sets by (apply length_set_tokens || exact Hne).
  cbn [parse_where]. change (is_kw "WHERE" (TWord "WHERE")) with true. cbv iota.
  rewrite parse_tenant_and_id. reflexivity.
Qed.

Lemma prepare_update table ws id updates :
  no_dquote table = true ->
  updates <> [] ->
  forallb no_dquote (Object_keys updates) = true ->
  prepare (D1.sql (update_statement table ws id updates))
  = Some (Update table
            (combine (Object_keys updates)
               (map EParam (seq 0 (List.length updates))))
            (Some (by_tenant_and_id_after (List.length updates))),
          S (S (List.length updates))).
Proof.
  intros Ht Hne Hk. unfold prepare.
  change (D1.sql (update_statement table ws id updates))
    with (D1.sql (update_statement table "" "" updates)).
  rewrite lex_update by assumption.
  rewrite parse_update by (intros E; destruct updates; [congruence|discriminate E]).
  unfold Object_keys. rewrite length_map. reflexivity.
Qed.

(** *** What UPDATE does *)

Lemma nth_params_app (vals extra : list sqlval) i :
  (i < List.length vals)%nat -> nth i (vals ++ extra) SNull = nth i vals SNull.
Proof. intros H. apply app_nth1. exact H. Qed.

Lemma assigned_values ks (vals extra : list sqlval) r :
  List.length ks = List.length vals ->
  map (fun cv : string * expr => (fst cv, eval (vals ++ extra) r (snd cv)))
    (combine ks (map EParam (seq 0 (List.length vals))))
  = combine ks vals.
Proof.
  intros Hlen.
  assert (E : forall l,
             Forall (fun i => (i < List.length vals)%nat) l ->
             forall ks,
               map (fun cv : string * expr => (fst cv, eval (vals ++ extra) r (snd cv)))
                 (combine ks (map EParam l))
               = combine ks (map (fun i => nth i vals SNull) l)).
  { induction l as [|i l IH]; intros Hl ks0.
    - destruct ks0; reflexivity.
    - destruct ks0 as [|k ks0]; [reflexivity|].
      apply Forall_cons_iff in Hl as [Hi Hl].
      cbn [map combine fst snd eval]. rewrite (IH Hl), (nth_params_app _ _ _ Hi).
      reflexivity. }
  rewrite E.
  - rewrite map_nth_seq. reflexivity.
  - apply Forall_forall. intros i Hi. apply in_seq in Hi. lia.
Qed.

Lemma holds_by_tenant_and_id_after (vals : list sqlval) ws id r :
  holds (vals ++ [SText ws; SText id]) r
    (Some (by_tenant_and_id_after (List.length vals)))
  = is_row ws id r.
Proof.
  unfold holds, by_tenant_and_id_after, is_row. cbn [eval nocase collation_of].
  assert (H1 : nth (List.length vals) (vals ++ [SText ws; SText id]) SNull = SText ws).
  { rewrite app_nth2 by lia. rewrite Nat.sub_diag. reflexivity. }
  assert (H2 : nth (S (List.length vals)) (vals ++ [SText ws; SText id]) SNull = SText id).
  { rewrite app_nth2 by lia.
    replace (S (List.length vals) - List.length vals)%nat with 1%nat by lia.
    reflexivity. }
  rewrite H1, H2, truth_of_truth.
  rewrite <- (eq3_text (row_get r "workspaceId") ws), <- (eq3_text (row_get r "id") id).
  destruct (eq3 false (row_get r "workspaceId") (SText ws)) as [[]|],
    (eq3 false (row_get r "id") (SText id)) as [[]|]; reflexivity.
Qed.

Lemma to_sql_all_app vs ws id :
  forallb bindable vs = true ->
  D1.to_sql_all (vs ++ [JStr ws; JStr id])
  = Returned (map sql_of vs ++ [SText ws; SText id])%list.
Proof.
  intros H. rewrite to_sql_all_bindable_map.
  - rewrite map_app. reflexivity.
  - rewrite forallb_app, H. reflexivity.
Qed.

Lemma to_sql_all_app_unbindable vs ws id :
  forallb bindable vs = false ->
  D1.to_sql_all (vs ++ [JStr ws; JStr id]) = Thrown D1.type_error.
Proof.
  intros H. apply to_sql_all_unbindable. rewrite forallb_app, H. reflexivity.
Qed.

Lemma run_update db table ws id updates t :
  no_dquote table = true ->
  updates <> [] ->
  forallb no_dquote (Object_keys updates) = true ->
  get_table (data db) table = Some t ->
  D1.run db (update_statement table ws id updates)
  = if forallb bindable (Object_values updates) then
      Returned (Z.of_nat (List.length (List.filter (is_row ws id) t)),
                with_data db
                  (set_table (data db) table (update_table ws id (row_of updates) t)))
    else Thrown D1.type_error.
Proof.
  intros Ht Hne Hk Hg. unfold D1.run, D1.execute.
  change (D1.bound (update_statement table ws id updates))
    with (Object_values updates ++ [JStr ws; JStr id])%list.
  destruct (forallb bindable (Object_values updates)) eqn:Hb.
  2:{ rewrite (to_sql_all_app_unbindable _ _ _ Hb). reflexivity. }
  rewrite (to_sql_all_app _ _ _ Hb). cbn [bind].
  rewrite (prepare_update table ws id updates Ht Hne Hk).
  set (vals := map sql_of (Object_values updates)).
  assert (Hlen : List.length vals = List.length updates)
    by (unfold vals, Object_values; rewrite !length_map; reflexivity).
  assert (Hn : List.length (vals ++ [SText ws; SText id]) = S (S (List.length updates)))
    by (rewrite length_app, Hlen; cbn [List.length]; lia).
  rewrite Hn, Nat.ltb_irrefl, andb_false_r.
  unfold exec. rewrite Hg. cbn [bind changes].
  rewrite <- Hlen.
  rewrite (filter_ext _ (is_row ws id))
    by (intros r; apply holds_by_tenant_and_id_after).
  replace (map _ t) with (update_table ws id (row_of updates) t); [reflexivity|].
  unfold update_table. apply map_ext. intros r.
  rewrite holds_by_tenant_and_id_after.
  destruct (is_row ws id r); [|reflexivity].
  unfold assign.
  assert (E : forall (l : list (string * expr)) acc,
             fold_left (fun acc cv => row_set acc (fst cv)
                                        (eval (vals ++ [SText ws; SText id]) r (snd cv)))
               l acc
             = fold_left (fun a kv => row_set a (fst kv) (snd kv))
                 (map (fun cv : string * expr =>
                         (fst cv, eval (vals ++ [SText ws; SText id]) r (snd cv))) l)
                 acc).
  { induction l as [|x l IH]; intros acc; [reflexivity|]. cbn [fold_left map fst snd].
    apply IH. }
  rewrite E, assigned_values
    by (unfold Object_keys; rewrite length_map; symmetry; exact Hlen).
  unfold vals. rewrite row_of_combine. reflexivity.
Qed.

Lemma keys_ok_updates env d :
  forallb no_dquote (Object_keys d) = true ->
  forallb no_dquote (Object_keys (updates_of env d)) = true.
Proof.
  intros Hd. unfold updates_of, Object_keys.
  apply forallb_keys_obj_set; [|reflexivity].
  apply forallb_keys_obj_spread; [reflexivity|exact Hd].
Qed.

Lemma executeUpdate_run env db table ws id d t :
  no_dquote table = true ->
  forallb no_dquote (Object_keys d) = true ->
  get_table (data db) table = Some t ->
  executeUpdate env db table ws id d
  = if forallb bindable (Object_values (updates_of env d)) then
      let t' := update_table ws id (row_of (updates_of env d)) t in
      Returned (find_live ws id t', with_data db (set_table (data db) table t'))
    else Thrown D1.type_error.
Proof.
  intros Ht Hk Hg. unfold executeUpdate. cbv zeta. fold (updates_of env d).
  rewrite (run_update db table ws id (updates_of env d) t Ht
             ltac:(unfold updates_of; apply obj_set_nonempty)
             (keys_ok_updates env d Hk) Hg).
  destruct (forallb bindable _); [|reflexivity]. cbn [bind].
  rewrite (executeSelectOne_by_id _ table ws id
             (update_table ws id (row_of (updates_of env d)) t) Ht)
    by (cbn [with_data data]; apply get_set_table).
  reflexivity.
Qed.

Lemma existsb_eqb_sym k l :
  existsb (fun k' => String.eqb k' k) l = existsb (String.eqb k) l.
Proof.
  induction l as [|x l IH]; [reflexivity|].
  cbn [existsb]. rewrite IH, String.eqb_sym. reflexivity.
Qed.

Lemma row_get_assign sets : forall r k,
  distinct (map fst sets) = true ->
  row_get (assign sets r) k
  = if existsb (fun k' => String.eqb k' k) (map fst sets) then row_get sets k
    else row_get r k.
Proof.
  unfold assign. induction sets as [|[k0 v0] sets IH]; intros r k Hd; [reflexivity|].
  cbn [map fst distinct] in Hd. apply andb_true_iff in Hd as [Hk0 Hd].
  apply negb_true_iff in Hk0.
  cbn [fold_left fst snd map existsb row_get]. rewrite (IH _ k Hd).
  destruct (String.eqb k0 k) eqn:E.
  - apply String.eqb_eq in E. subst k0. cbn [orb].
    assert (Hk : existsb (fun k' => String.eqb k' k) (map fst sets) = false).
    { rewrite <- Hk0. apply existsb_eqb_sym. }
    rewrite Hk. apply row_get_set_same.
  - cbn [orb].
    destruct (existsb (fun k' => String.eqb k' k) (map fst sets)); [reflexivity|].
    apply row_get_set_other. intros ->. rewrite String.eqb_refl in E. discriminate.
Qed.

Lemma keys_row_of (o : object) : map fst (row_of o) = map fst o.
Proof. unfold row_of. rewrite map_map. reflexivity. Qed.

Lemma distinct_updates env d : distinct (Object_keys (updates_of env d)) = true.
Proof.
  unfold updates_of, Object_keys. apply distinct_obj_set.
  apply distinct_obj_spread. reflexivity.
Qed.

Lemma has_key_obj_set (o : object) k v x :
  existsb (fun k' => String.eqb k' x) (map fst (obj_set o k v))
  = existsb (fun k' => String.eqb k' x) (map fst o) || String.eqb k x.
Proof.
  rewrite keys_obj_set. destruct (existsb (fun k' => String.eqb k' k) (map fst o)) eqn:E.
  - destruct (String.eqb k x) eqn:Ex; [|rewrite orb_false_r; reflexivity].
    apply String.eqb_eq in Ex. subst x. rewrite E. reflexivity.
  - rewrite existsb_app. cbn [existsb]. rewrite orb_false_r. reflexivity.
Qed.

Lemma has_key_obj_spread (b a : object) x :
  existsb (fun k' => String.eqb k' x) (map fst (obj_spread a b))
  = existsb (fun k' => String.eqb k' x) (map fst a)
    || existsb (fun k' => String.eqb k' x) (map fst b).
Proof.
  unfold obj_spread. revert a. induction b as [|[k v] b IH]; intros a.
  - cbn [fold_left map existsb]. rewrite orb_false_r. reflexivity.
  - cbn [fold_left fst snd map existsb]. rewrite IH, has_key_obj_set.
    rewrite <- orb_assoc. reflexivity.
Qed.

Lemma obj_has_keys (o : object) k :
  obj_has o k = existsb (fun k' => String.eqb k' k) (map fst o).
Proof.
  induction o as [|[k' v] o IH]; [reflexivity|].
  cbn [obj_has map fst existsb]. rewrite IH. reflexivity.
Qed.

(** A row that the UPDATE rewrites gets the time of update. *)
Lemma assign_updatedAt env d r :
  row_get (assign (row_of (updates_of env d)) r) "updatedAt"
  = SText (Date.iso_string (clock env)).
Proof.
  rewrite row_get_assign by (rewrite keys_row_of; apply distinct_updates).
  rewrite keys_row_of. unfold updates_of at 1.
  rewrite has_key_obj_set, String.eqb_refl, orb_true_r.
  rewrite row_get_row_of. unfold updates_of. rewrite obj_get_set_same. reflexivity.
Qed.

(** A key that the data does not name keeps its value. *)
Lemma assign_other env d r k :
  obj_has d k = false -> k <> "updatedAt" ->
  row_get (assign (row_of (updates_of env d)) r) k = row_get r k.
Proof.
  intros Hk Hne.
  rewrite row_get_assign by (rewrite keys_row_of; apply distinct_updates).
  rewrite keys_row_of. unfold updates_of.
  rewrite has_key_obj_set, has_key_obj_spread. cbn [map existsb orb].
  rewrite <- obj_has_keys, Hk.
  destruct (String.eqb "updatedAt" k) eqn:E; [|reflexivity].
  apply String.eqb_eq in E. congruence.
Qed.

Lemma nth_error_update_table ws id sets t n :
  nth_error (update_table ws id sets t) n
  = option_map (fun r => if is_row ws id r then assign sets r else r) (nth_error t n).
Proof. unfold update_table. apply nth_error_map. Qed.

(** A column that no key names is no key. *)
Lemma names_column_has (d : object) c :
  names_column (Object_keys d) c = false -> obj_has d c = false.
Proof.
  unfold names_column, Object_keys. intros H.
  induction d as [|[k v] d IH]; [reflexivity|].
  cbn [map fst existsb] in H. apply orb_false_iff in H as [Hk H].
  cbn [obj_has]. rewrite (IH H), orb_false_r.
  destruct (String.eqb k c) eqn:E; [|reflexivity].
  apply String.eqb_eq in E. subst k. unfold same_column in Hk.
  rewrite String.eqb_refl in Hk. discriminate.
Qed.

End Parser_update.

(** ** Deletes *)

Lemma some_row_counted {A : Type} (p : A -> bool) (l : list A) :
  (Z.of_nat (List.length (List.filter p l)) >? 0) = existsb p l.
Proof.
  induction l as [|x l IH]; [reflexivity|].
  cbn [List.filter existsb]. destruct (p x); [|exact IH].
  cbn [List.length orb]. apply Z.gtb_lt. lia.
Qed.

Lemma hard_delete_table_none ws id t :
  existsb (is_row ws id) t = false -> hard_delete_table ws id t = t.
Proof.
  unfold hard_delete_table. induction t as [|r t IH]; [reflexivity|].
  cbn [existsb List.filter]. intros H. apply orb_false_iff in H as [Hr Ht].
  rewrite Hr, (IH Ht). reflexivity.
Qed.

Lemma hard_delete_table_clean ws id t :
  existsb (is_row ws id) (hard_delete_table ws id t) = false.
Proof.
  unfold hard_delete_table. induction t as [|r t IH]; [reflexivity|].
  cbn [List.filter]. destruct (is_row ws id r) eqn:E; cbn [negb]; [exact IH|].
  cbn [existsb]. rewrite E, IH. reflexivity.
Qed.

Lemma find_live_none ws id t :
  (forall r, In r t -> is_row ws id r = true -> live r = false) ->
  find_live ws id t = None.
Proof.
  intros H. unfold find_live. rewrite filter_none; [reflexivity|].
  intros r Hr. destruct (is_row ws id r) eqn:E; [|reflexivity].
  rewrite (H r Hr E). reflexivity.
Qed.

Lemma reread_none ws id t :
  reread ws id t = None <-> (forall r, In r t -> is_row ws id r = false).
Proof.
  unfold reread. split.
  - intros H r Hr. destruct (is_row ws id r) eqn:E; [|reflexivity].
    assert (Hin : In r (List.filter (is_row ws id) t)) by (apply filter_In; auto).
    destruct (List.filter (is_row ws id) t); [destruct Hin|discriminate].
  - intros H. rewrite filter_none; [reflexivity|exact H].
Qed.

Lemma is_row_soft_delete_table ws id now t :
  (forall r, In r (soft_delete_table ws id now t) -> is_row ws id r = false)
  <-> (forall r, In r t -> is_row ws id r = false).
Proof.
  unfold soft_delete_table. split.
  - intros H r Hr.
    specialize (H _ (in_map _ _ _ Hr)). cbv beta in H.
    destruct (is_row ws id r && live r) eqn:E; [|exact H].
    rewrite is_row_mark_deleted in H. exact H.
  - intros H r Hr. apply in_map_iff in Hr as (r0 & <- & Hr0).
    destruct (is_row ws id r0 && live r0);
      [rewrite is_row_mark_deleted|]; apply H; exact Hr0.
Qed.

(** ** Batches of inserts *)

Lemma set_table_twice s n (x y : table) :
  set_table (set_table s n x) n y = set_table s n y.
Proof.
  induction s as [|[m z] s IH]; cbn [set_table].
  - rewrite String.eqb_refl. reflexivity.
  - destruct (String.eqb m n) eqn:E; cbn [set_table]; rewrite E; [reflexivity|].
    rewrite IH. reflexivity.
Qed.

Lemma run_all_inserts table recs : forall db t db',
  no_dquote table = true ->
  Forall (fun rec => rec <> [] /\ forallb no_dquote (Object_keys rec) = true
                     /\ distinct (Object_keys rec) = true) recs ->
  get_table (data db) table = Some t ->
  D1.run_all db (map (insert_statement table) recs) = Returned db' ->
  db' = with_data db (set_table (data db) table (t ++ map row_of recs)%list).
Proof.
  induction recs as [|rec recs IH]; intros db t db' Ht Hall Hg H.
  - cbn [map D1.run_all] in H. injection H as <-. cbn [map].
    rewrite List.app_nil_r, (set_table_same _ _ _ Hg), with_data_same. reflexivity.
  - apply Forall_cons_iff in Hall as [(Hne & Hk & Hd) Hall].
    cbn [map D1.run_all] in H.
    rewrite (run_insert db table rec t Ht Hne Hk Hd Hg) in H.
    destruct (forallb bindable (Object_values rec)); [|discriminate].
    destruct (id_taken t (row_of rec)); [discriminate|].
    cbn [bind] in H.
    apply (IH _ (t ++ [row_of rec])%list _ Ht Hall) in H;
      [|cbn [with_data data]; apply get_set_table].
    rewrite H. cbn [with_data data reject_surplus map].
    rewrite set_table_twice, <- List.app_assoc. reflexivity.
Qed.

(** A batch that returns was not empty, and ran its statements in order. *)
Lemma batch_inserts table recs db t db' :
  no_dquote table = true ->
  Forall (fun rec => rec <> [] /\ forallb no_dquote (Object_keys rec) = true
                     /\ distinct (Object_keys rec) = true) recs ->
  get_table (data db) table = Some t ->
  D1.batch db (map (insert_statement table) recs) = Returned db' ->
  recs <> []
  /\ db' = with_data db (set_table (data db) table (t ++ map row_of recs)%list).
Proof.
  intros Ht Hall Hg H. destruct recs as [|rec recs]; [discriminate|].
  split; [discriminate|].
  exact (run_all_inserts table (rec :: recs) db t db' Ht Hall Hg H).
Qed.

Lemma insert_records_facts env ws now ds : forall k,
  forallb (fun d => forallb no_dquote (Object_keys d)) ds = true ->
  List.length (insert_records env k ws now ds) = List.length ds
  /\ Forall (fun rec => rec <> [] /\ forallb no_dquote (Object_keys rec) = true
                        /\ distinct (Object_keys rec) = true)
       (insert_records env k ws now ds)
  /\ Forall (fun rec => obj_get rec "workspaceId" = JStr ws
                        /\ obj_get rec "createdAt" = JStr now
                        /\ obj_get rec "updatedAt" = JStr now)
       (insert_records env k ws now ds).
Proof.
  induction ds as [|d ds IH]; intros k Hk.
  - cbn [insert_records]. repeat split; constructor.
  - cbn [forallb] in Hk. apply andb_true_iff in Hk as [Hd Hds].
    destruct (IH (S k) Hds) as (Hlen & Hall & Hrec).
    cbn [insert_records List.length]. rewrite Hlen.
    split; [reflexivity|]. split; constructor; try assumption.
    + split; [apply insert_record_nonempty|].
      split; [apply keys_ok_insert_record; exact Hd|apply distinct_insert_record].
    + unfold insert_record. split; [|split].
      * rewrite !obj_get_set_other by discriminate. apply obj_get_set_same.
      * rewrite obj_get_set_other by discriminate. apply obj_get_set_same.
      * apply obj_get_set_same.
Qed.

(** ** When the search fails *)

(** No table of the resolvers has an inherited name for key. *)
Lemma lookup_inherited {A : Type} (table : list (string * A)) name :
  forallb (fun k => negb (inherited_name k)) (map fst table) = true ->
  inherited_name name = true -> lookup table name = None.
Proof.
  induction table as [|[k v] table IH]; intros Hk Hn; [reflexivity|].
  cbn [map fst forallb] in Hk. apply andb_true_iff in Hk as [Hk Hr].
  cbn [lookup]. destruct (String.eqb k name) eqn:E; [|apply IH; assumption].
  apply String.eqb_eq in E. subst k. rewrite Hn in Hk. discriminate.
Qed.

Lemma property_inherited {A : Type} (table : list (string * A)) name :
  forallb (fun k => negb (inherited_name k)) (map fst table) = true ->
  inherited_name name = true -> property table name = Inherited.
Proof.
  intros Hk Hn. unfold property. rewrite (lookup_inherited table name Hk Hn).
  unfold inherited_name in Hn. rewrite Hn. reflexivity.
Qed.

Lemma property_not_inherited {A : Type} (table : list (string * A)) name :
  inherited_name name = false -> property table name <> Inherited.
Proof.
  intros Hn. unfold property. destruct (lookup table name); [discriminate|].
  unfold inherited_name in Hn. rewrite Hn. discriminate.
Qed.

(** A turn of the loop for a name that is not inherited returns. *)
Lemma search_step_returns db ws q lim name acc0 :
  inherited_name name = false ->
  exists acc1, search_step db ws q lim (Returned acc0) name = Returned acc1.
Proof.
  intros Hn. unfold search_step. cbn [bind].
  pose proof (property_not_inherited SEARCHABLE_FIELDS name Hn) as Hs.
  destruct (property STANDARD_OBJECTS name) as [config| |];
    destruct (property SEARCHABLE_FIELDS name) as [fields| |];
    try congruence; try (eexists; reflexivity);
    destruct (buildSearchQuery _ _ _ _ _ _) as [sql params];
    destruct (D1.all db _) as [items|e]; cbn [bind try_catch]; eexists; reflexivity.
Qed.

(** A turn of the loop for an inherited name throws. *)
Lemma search_step_throws db ws q lim name acc0 :
  inherited_name name = true ->
  search_step db ws q lim (Returned acc0) name = Thrown TypeError.
Proof.
  intros Hn. unfold search_step. cbn [bind].
  rewrite (property_inherited STANDARD_OBJECTS name eq_refl Hn).
  rewrite (property_inherited SEARCHABLE_FIELDS name eq_refl Hn). reflexivity.
Qed.

Lemma search_fold_thrown db ws q lim names e :
  fold_left (search_step db ws q lim) names (Thrown e) = Thrown e.
Proof. induction names as [|name names IH]; [reflexivity|exact IH]. Qed.

Lemma search_fold_returns db ws q lim names : forall acc0,
  existsb inherited_name names = false ->
  exists res, fold_left (search_step db ws q lim) names (Returned acc0) = Returned res.
Proof.
  induction names as [|name names IH]; intros acc0 Hn; [exists acc0; reflexivity|].
  cbn [existsb] in Hn. apply orb_false_iff in Hn as [Hn Hr].
  cbn [fold_left].
  destruct (search_step_returns db ws q lim name acc0 Hn) as (acc1 & ->).
  apply IH. exact Hr.
Qed.

Lemma search_fold_throws db ws q lim names : forall acc0,
  existsb inherited_name names = true ->
  fold_left (search_step db ws q lim) names (Returned acc0) = Thrown TypeError.
Proof.
  induction names as [|name names IH]; intros acc0 Hn; [discriminate|].
  cbn [existsb] in Hn. cbn [fold_left].
  destruct (inherited_name name) eqn:E.
  - rewrite (search_step_throws db ws q lim name acc0 E). apply search_fold_thrown.
  - destruct (search_step_returns db ws q lim name acc0 E) as (acc1 & ->).
    apply IH. exact Hn.
Qed.

(** The filter on the requested names keeps the inherited ones. *)
Lemma existsb_inherited_present names :
  existsb inherited_name
    (List.filter (fun name => present (property STANDARD_OBJECTS name)) names)
  = existsb inherited_name names.
Proof.
  induction names as [|name names IH]; [reflexivity|].
  cbn [List.filter existsb]. destruct (inherited_name name) eqn:E.
  - rewrite (property_inherited STANDARD_OBJECTS name eq_refl E).
    cbn [present existsb]. rewrite E. reflexivity.
  - destruct (present _); cbn [existsb]; rewrite ?E; exact IH.
Qed.

Lemma length_slice0_limit {A : Type} (l : list A) (n : Z) :
  0 <= n -> (List.length (slice0 l n) <= Z.to_nat n)%nat.
Proof.
  intros Hn. rewrite slice0_firstn by exact Hn. rewrite length_firstn. lia.
Qed.

Lemma search_unfold db ws args :
  search db ws args
  = if blank args then Returned []
    else
      let* allResults :=
        fold_left
          (search_step db ws (query args)
             (ceil_div (limit_of args) (Z.of_nat (List.length (searched args)))))
          (searched args) (Returned []) in
      Returned (slice0 (sort_by_score allResults) (limit_of args)).
Proof. reflexivity. Qed.

Lemma searched_inherited args :
  existsb inherited_name (searched args) = existsb inherited_name (asked args).
Proof.
  unfold searched, asked. destruct (objectNames args) as [[|name names]|];
    [reflexivity| |reflexivity].
  apply existsb_inherited_present.
Qed.

(** ** What the patterns of the LIKE helpers match *)








(** *** Prefixes and lower case *)







(** ** The other transformers *)

Lemma filter_is_string_data items :
  json_data (JArr (List.filter is_string items)) = true.
Proof.
  cbn [json_data]. induction items as [|v items IH]; [reflexivity|].
  cbn [List.filter]. destruct v; cbn [is_string]; exact IH.
Qed.

Lemma filter_is_string_idem items :
  List.filter is_string (List.filter is_string items) = List.filter is_string items.
Proof.
  induction items as [|v items IH]; [reflexivity|].
  cbn [List.filter]. destruct (is_string v) eqn:E; [|exact IH].
  cbn [List.filter]. rewrite E, IH. reflexivity.
Qed.

Lemma forallb_filter_is_string items :
  forallb is_string (List.filter is_string items) = true.
Proof.
  induction items as [|v items IH]; [reflexivity|].
  cbn [List.filter]. destruct (is_string v) eqn:E; [|exact IH].
  cbn [forallb]. rewrite E, IH. reflexivity.
Qed.

(** ** Workspace scoping *)

Lemma obj_spread_distinct (o : object) :
  distinct (map fst o) = true -> obj_spread [] o = o.
Proof.
  intros H. unfold obj_spread. rewrite fold_obj_set_distinct; [reflexivity|exact H].
Qed.

Lemma obj_set_twice (o : object) k v w : obj_set (obj_set o k v) k w = obj_set o k w.
Proof.
  induction o as [|[k' v'] o IH]; cbn [obj_set].
  - rewrite String.eqb_refl. reflexivity.
  - destruct (String.eqb k' k) eqn:E; cbn [obj_set]; rewrite E; [reflexivity|].
    rewrite IH. reflexivity.
Qed.

Lemma distinct_scoped c ws : distinct (map fst (scoped c ws)) = true.
Proof. unfold scoped. apply distinct_obj_set. apply distinct_obj_spread. reflexivity. Qed.

Lemma scoped_twice c ws ws' : scoped (scoped c ws') ws = scoped c ws.
Proof.
  unfold scoped at 1. rewrite (obj_spread_distinct _ (distinct_scoped c ws')).
  unfold scoped. apply obj_set_twice.
Qed.

Lemma scoped_workspaceId c ws : obj_get (scoped c ws) "workspaceId" = JStr ws.
Proof. unfold scoped. apply obj_get_set_same. Qed.

Lemma scoped_other c ws k :
  distinct (map fst c) = true -> k <> "workspaceId" ->
  obj_get (scoped c ws) k = obj_get c k.
Proof.
  intros Hd Hk. unfold scoped. rewrite (obj_spread_distinct c Hd).
  apply obj_get_set_other. exact Hk.
Qed.

Lemma obj_has_set_same (o : object) k v : obj_has (obj_set o k v) k = true.
Proof.
  induction o as [|[k' v'] o IH]; cbn [obj_set obj_has].
  - rewrite String.eqb_refl. reflexivity.
  - destruct (String.eqb k' k) eqn:E; cbn [obj_has]; rewrite E; [reflexivity|exact IH].
Qed.

(** *** The raw clause *)



(** ** The order of a read *)

Lemma ascii_compare_refl a : Ascii.compare a a = Eq.
Proof. unfold Ascii.compare. apply N.compare_refl. Qed.


Lemma string_compare_refl s : String.compare s s = Eq.
Proof.
  induction s as [|c s IH]; [reflexivity|].
  cbn [String.compare]. rewrite ascii_compare_refl. exact IH.
Qed.


(** *** Numbers are compared by value *)




Lemma number_compare_refl a : Number.compare a a = Eq.
Proof. unfold Number.compare. apply Z.compare_refl. Qed.




(** *** The order of values *)

Lemma compare_values_refl a : compare_values a a = Eq.
Proof.
  destruct a; cbn [compare_values number_of rank];
    auto using Z.compare_refl, string_compare_refl, number_compare_refl.
Qed.





Lemma compare_term_keys ps t a b :
  compare_term ps t a b
  = compare_keys t (eval ps a (ord_expr t)) (eval ps b (ord_expr t)).
Proof. reflexivity. Qed.

Lemma compare_keys_refl t a : compare_keys t a a = Eq.
Proof.
  unfold compare_keys. destruct (is_null a); [reflexivity|].
  rewrite compare_values_refl. destruct (ord_desc t); reflexivity.
Qed.






Lemma compare_rows_refl ps ts a : compare_rows ps ts a a = Eq.
Proof.
  induction ts as [|t ts IH]; [reflexivity|].
  cbn [compare_rows]. rewrite compare_term_keys, compare_keys_refl. exact IH.
Qed.









Section Insertion_sort.

Variable le : row -> row -> bool.

Hypothesis le_total : forall a b, le a b = false -> le b a = true.

Hypothesis le_trans : forall a b c, le a b = true -> le b c = true -> le a c = true.






End Insertion_sort.







Lemma D1_all_of_rows db q :
  D1.all db q
  = let* rs := (let* (res, _) := D1.execute db q in Returned (rows res)) in
    Returned (map D1.of_row rs).
Proof.
  unfold D1.all. destruct (D1.execute db q) as [[res db']|e]; reflexivity.
Qed.

Lemma D1_first_of_rows db q :
  D1.first db q
  = let* rs := (let* (res, _) := D1.execute db q in Returned (rows res)) in
    Returned (match rs with r :: _ => Some (D1.of_row r) | [] => None end).
Proof.
  unfold D1.first. destruct (D1.execute db q) as [[res db']|e]; reflexivity.
Qed.

(** ** Page sizes that are not positive *)

(** The page cut by [buildPageInfo] when the page size is not positive and
    [first] carries it. *)
Lemma buildPageInfo_small rows n args recs info :
  n <= 0 ->
  first args = Some n ->
  buildPageInfo rows n args = Returned (recs, info) ->
  recs = (if n =? 0 then []
          else firstn (List.length rows - Z.to_nat (- n)) rows)
  /\ hasNextPage info = (if n =? 0 then some_nonempty (before args) else true).
Proof.
  intros Hn Hf. unfold buildPageInfo. rewrite Hf. cbn [some_nonzero].
  assert (Hcut : (if Z.of_nat (List.length rows) >? n then slice0 rows n else rows)
                 = (if n =? 0 then []
                    else firstn (List.length rows - Z.to_nat (- n)) rows)).
  { destruct (Z.eqb_spec n 0) as [->|Hz].
    - destruct rows as [|r rows]; [reflexivity|].
      replace (Z.of_nat (List.length (r :: rows)) >? 0) with true
        by (symmetry; apply Z.gtb_lt; cbn [List.length]; lia).
      reflexivity.
    - replace (Z.of_nat (List.length rows) >? n) with true
        by (symmetry; apply Z.gtb_lt; lia).
      unfold slice0. replace (n <? 0) with true by (symmetry; apply Z.ltb_lt; lia).
      f_equal. lia. }
  rewrite Hcut. destruct (Z.eqb_spec n 0) as [->|Hz].
  - destruct (some_nonzero (last args) && _); cbn [rev app bind];
      intros [= <- <-]; cbn [hasNextPage Z.eqb negb]; auto.
  - replace (negb (n =? 0)) with true by (symmetry; apply negb_true_iff, Z.eqb_neq; lia).
    cbn [negb]. rewrite andb_false_r. unbind. intros [= <- <-].
    cbn [hasNextPage]. split; [reflexivity|]. apply Z.gtb_lt. lia.
Qed.

(** ** What a filter keeps *)

Lemma holds_is_true3 ps r e : holds ps r (Some e) = is_true3 (truth (eval ps r e)).
Proof. unfold holds, is_true3. destruct (truth _) as [[]|]; reflexivity. Qed.

Lemma holds_EAnd ps r a b :
  holds ps r (Some (EAnd a b)) = holds ps r (Some a) && holds ps r (Some b).
Proof.
  rewrite !holds_is_true3. cbn [eval]. rewrite truth_of_truth.
  destruct (truth (eval ps r a)) as [[]|], (truth (eval ps r b)) as [[]|]; reflexivity.
Qed.

Lemma holds_conj_all ps r cs : forall lhs n,
  holds ps r (Some (conj lhs cs n)) = holds ps r (Some lhs) && conds_hold ps r cs n.
Proof.
  induction cs as [|c cs IH]; intros lhs n; cbn [conj conds_hold].
  - rewrite andb_true_r. reflexivity.
  - rewrite IH, holds_EAnd, andb_assoc. reflexivity.
Qed.

Lemma conds_hold_app ps r cs1 cs2 : forall n,
  conds_hold ps r (cs1 ++ cs2) n
  = conds_hold ps r cs1 n && conds_hold ps r cs2 (n + arity cs1).
Proof.
  induction cs1 as [|c cs1 IH]; intros n; cbn [app conds_hold].
  - unfold arity. cbn [fold_right]. rewrite Nat.add_0_r. reflexivity.
  - rewrite IH, andb_assoc. do 2 f_equal.
    unfold arity. cbn [fold_right]. lia.
Qed.

(** Conditions read their own placeholders only. *)
Lemma conds_hold_segment pre xs1 xs2 post cs1 cs2 r :
  arity cs1 = List.length xs1 ->
  conds_hold (pre ++ (xs1 ++ xs2) ++ post) r (cs1 ++ cs2) (List.length pre)
  = conds_hold (pre ++ xs1 ++ (xs2 ++ post)) r cs1 (List.length pre)
    && conds_hold ((pre ++ xs1) ++ xs2 ++ post) r cs2 (List.length (pre ++ xs1)).
Proof.
  intros Ha. rewrite conds_hold_app, Ha, length_app.
  rewrite <- !app_assoc. reflexivity.
Qed.

Lemma eq3_plain a b : is_true3 (eq3 false a b) = sql_equal a b.
Proof.
  destruct a, b; try reflexivity; unfold eq3, sql_equal;
    cbn [is_null orb negb andb fold_case is_true3];
    destruct (sql_eqb _ _); reflexivity.
Qed.

Lemma neq3_plain a b : is_true3 (option_map negb (eq3 false a b)) = sql_differ a b.
Proof.
  destruct a, b; try reflexivity; unfold eq3, sql_differ;
    cbn [is_null orb negb andb fold_case option_map is_true3];
    destruct (sql_eqb _ _); reflexivity.
Qed.

Lemma holds_eq_piece pre x post r f :
  holds (pre ++ x :: post) r (Some (cond_expr (CEq f) (List.length pre)))
  = sql_equal (row_get r f) x.
Proof.
  rewrite holds_is_true3. cbn [cond_expr eval]. rewrite nth_middle, truth_of_truth.
  apply eq3_plain.
Qed.

Lemma holds_neq_piece pre x post r f :
  holds (pre ++ x :: post) r (Some (cond_expr (CNeq f) (List.length pre)))
  = sql_differ (row_get r f) x.
Proof.
  rewrite holds_is_true3. cbn [cond_expr eval]. rewrite nth_middle, truth_of_truth.
  apply neq3_plain.
Qed.

Lemma holds_like_piece pre p post r f :
  holds (pre ++ SText p :: post) r (Some (cond_expr (CLike f) (List.length pre)))
  = negb (is_null (row_get r f)) && like_match None p (text_of (row_get r f)).
Proof.
  rewrite holds_is_true3. cbn [cond_expr eval]. rewrite nth_middle.
  cbn [is_null text_of]. rewrite orb_false_r.
  destruct (is_null (row_get r f)); [reflexivity|].
  destruct (like_match None p _); reflexivity.
Qed.

Lemma window_values xs : forall pre post,
  map (fun i => nth i (pre ++ xs ++ post) SNull) (seq (List.length pre) (List.length xs))
  = xs.
Proof.
  induction xs as [|x xs IH]; intros pre post; [reflexivity|].
  cbn [List.length seq map app]. rewrite nth_middle. f_equal.
  specialize (IH (pre ++ [x])%list post).
  rewrite length_app, Nat.add_1_r, <- app_assoc in IH. exact IH.
Qed.

Lemma fold_in_values ps r v l : forall acc,
  fold_left (fun acc x => or3 acc (eq3 false v (eval ps r x))) (map EParam l) acc
  = fold_left (fun acc y => or3 acc (eq3 false v y))
      (map (fun i => nth i ps SNull) l) acc.
Proof. induction l as [|i l IH]; intros acc; [reflexivity|]. cbn. apply IH. Qed.

Lemma fold_or3 v ys : forall acc,
  is_true3 (fold_left (fun acc y => or3 acc (eq3 false v y)) ys acc)
  = is_true3 acc || existsb (sql_equal v) ys.
Proof.
  induction ys as [|y ys IH]; intros acc; cbn [fold_left existsb].
  - rewrite orb_false_r. reflexivity.
  - rewrite IH, orb_assoc. f_equal. rewrite <- eq3_plain.
    destruct acc as [[]|], (eq3 false v y) as [[]|]; reflexivity.
Qed.

Lemma holds_in_piece pre xs post r f :
  holds (pre ++ xs ++ post) r
    (Some (cond_expr (CIn f (List.length xs)) (List.length pre)))
  = existsb (sql_equal (row_get r f)) xs.
Proof.
  rewrite holds_is_true3. cbn [cond_expr eval]. rewrite truth_of_truth.
  rewrite fold_in_values, window_values, fold_or3. reflexivity.
Qed.

Lemma conds_hold_none ps r n : conds_hold ps r [] n = true.
Proof. reflexivity. Qed.

Lemma conds_hold_one ps r c n :
  conds_hold ps r [c] n = holds ps r (Some (cond_expr c n)).
Proof. cbn [conds_hold]. apply andb_true_r. Qed.

Lemma existsb_map {A B : Type} (p : B -> bool) (g : A -> B) (l : list A) :
  existsb p (map g l) = existsb (fun x => p (g x)) l.
Proof. induction l as [|x l IH]; cbn [map existsb]; [reflexivity|]. rewrite IH. reflexivity. Qed.

(** The conditions of one entry hold on the rows that the entry keeps. *)
Lemma conds_hold_entry pre post r e :
  conds_hold (pre ++ map sql_of (entry_params e) ++ post) r (entry_conds e)
    (List.length pre)
  = entry_keeps r e.
Proof.
  destruct e as [f v]. unfold entry_conds, entry_params, entry_keeps. cbv zeta.
  destruct v as [ | |b|n|lit|s|items|ops];
    try (cbn [map app]; rewrite conds_hold_one; apply holds_eq_piece).
  - cbn [map app]. rewrite conds_hold_one, holds_is_true3. cbn [cond_expr eval].
    destruct (is_null (row_get r f)); reflexivity.
  - reflexivity.
  - rewrite !map_app.
    rewrite conds_hold_segment
      by (destruct (obj_has ops "eq"); reflexivity).
    rewrite conds_hold_segment
      by (destruct (obj_has ops "neq"); reflexivity).
    rewrite conds_hold_segment
      by (destruct (obj_has ops "in"); [|reflexivity];
          destruct (obj_get ops "in"); try reflexivity;
          unfold arity; cbn [fold_right cond_arity]; rewrite length_map; lia).
    f_equal; [|f_equal; [|f_equal]].
    + destruct (obj_has ops "eq"); [|reflexivity].
      cbn [map app]. rewrite conds_hold_one. apply holds_eq_piece.
    + destruct (obj_has ops "neq"); [|reflexivity].
      cbn [map app]. rewrite conds_hold_one. apply holds_neq_piece.
    + destruct (obj_has ops "in"); [|reflexivity].
      destruct (obj_get ops "in") as [ | | | | | |items|]; try reflexivity.
      rewrite conds_hold_one, <- (length_map sql_of items), holds_in_piece.
      apply existsb_map.
    + destruct (obj_has ops "like"); [|reflexivity].
      cbn [map app sql_of]. rewrite conds_hold_one.
      rewrite <- (app_nil_r (_ ++ _ :: post)), <- app_assoc. cbn [app].
      apply holds_like_piece.
Qed.

Lemma conds_hold_entries post r es : forall pre,
  conds_hold (pre ++ map sql_of (flat_map entry_params es) ++ post) r
    (flat_map entry_conds es) (List.length pre)
  = forallb (entry_keeps r) es.
Proof.
  induction es as [|e es IH]; intros pre; [reflexivity|].
  cbn [flat_map forallb]. rewrite map_app.
  rewrite conds_hold_segment by (rewrite length_map; apply arity_entry).
  rewrite conds_hold_entry, IH. reflexivity.
Qed.

(** The WHERE clause of a scoped read holds on the rows that the filter
    keeps, whatever is bound after its own parameters. *)
Lemma holds_keeps ws filter post r :
  holds (SText ws :: map sql_of (where_params filter) ++ post) r
    (Some (where_expr (where_conds filter)))
  = keeps ws filter r.
Proof.
  unfold where_conds, where_expr, where_params, keeps.
  cbn [cond_arity conj]. rewrite holds_conj_all, holds_EAnd.
  f_equal; [f_equal|].
  - apply (holds_eq_piece [] (SText ws)).
  - rewrite holds_is_true3. cbn [cond_expr eval]. unfold live.
    destruct (is_null (row_get r "deletedAt")); reflexivity.
  - apply (conds_hold_entries post r (filter_entries filter) [SText ws]).
Qed.

Lemma select_params_app ps ws p ps' :
  select_params ps ws p = Returned ps' -> exists post, ps' = (ps ++ post)%list.
Proof.
  unfold select_params.
  assert (H0 : exists post, ps = (ps ++ post)%list)
    by (exists []; symmetry; apply app_nil_r).
  destruct (after p) as [c|]; [|intros [= <-]; exact H0].
  destruct (negb (String.eqb c "")); [|intros [= <-]; exact H0].
  destruct (decodeCursor c) as [d|]; [|discriminate]. cbn [bind].
  destruct (truthy d); [|intros [= <-]; exact H0].
  destruct (buildWhereClause _ ws). unfold push_all. intros [= <-]. eauto.
Qed.

(** The values bound by a read and the rows that its WHERE clause keeps. *)
Lemma matching_keeps ws filter p ps vals tbl :
  select_params (JStr ws :: where_params filter) ws p = Returned ps ->
  D1.to_sql_all ps = Returned vals ->
  matching vals filter tbl = List.filter (keeps ws filter) tbl.
Proof.
  intros Hps Hv. apply select_params_app in Hps as (post & ->).
  apply to_sql_all_map in Hv as [-> _].
  unfold matching. apply filter_ext. intros r.
  cbn [app map sql_of]. rewrite map_app. apply holds_keeps.
Qed.

(** The table that a read that returned has read. *)
Lemma executeSelect_table db table ws options res :
  no_dquote table = true ->
  fields_ok (opt_filter options) = true ->
  opt_columns options = None ->
  executeSelect db table ws options = Returned res ->
  exists tbl, get_table (data db) table = Some tbl.
Proof.
  intros Ht Hf Hc Hres.
  destruct (executeSelect_count db table ws options res Ht Hf Hc Hres)
    as (_ & _ & tbl & _ & _ & Hg & _).
  exists tbl. exact Hg.
Qed.

(** The count of a read is the number of rows that the filter keeps. *)
Lemma executeSelect_counts_kept db table ws options res tbl :
  no_dquote table = true ->
  fields_ok (opt_filter options) = true ->
  opt_columns options = None ->
  executeSelect db table ws options = Returned res ->
  get_table (data db) table = Some tbl ->
  totalCount res
  = JNum (Z.of_nat (List.length (List.filter (keeps ws (opt_filter options)) tbl))).
Proof.
  intros Ht Hf Hc Hres Hg.
  destruct (executeSelect_count db table ws options res Ht Hf Hc Hres)
    as (ps & vals & tbl' & Hps & Hv & Hg' & Hcount & _).
  assert (tbl' = tbl) by congruence. subst tbl'.
  rewrite (matching_keeps _ _ _ _ _ tbl Hps Hv) in Hcount. exact Hcount.
Qed.

(** The records of a read are rows that the filter keeps. *)
Lemma executeSelect_reads_kept db table ws options res tbl rec :
  no_dquote table = true ->
  fields_ok (opt_filter options) = true ->
  order_ok (opt_orderBy options) = true ->
  opt_columns options = None ->
  executeSelect db table ws options = Returned res ->
  get_table (data db) table = Some tbl ->
  In rec (records res) ->
  exists r, In r tbl /\ keeps ws (opt_filter options) r = true /\ rec = D1.of_row r.
Proof.
  intros Ht Hf Ho Hc Hres Hg Hrec.
  destruct (executeSelect_inv db table ws options res Ht Hf Ho Hc Hres)
    as (ps & vals & tbl' & l & Hps & Hv & Hg' & Hl & Hb).
  assert (tbl' = tbl) by congruence. subst tbl'.
  apply (In_buildPageInfo _ _ _ _ _ _ Hb) in Hrec.
  apply in_map_iff in Hrec as (r & <- & Hr).
  apply (In_apply_limit _ _ _ _ _ Hl) in Hr.
  unfold ordered_rows in Hr. apply In_sort_rows in Hr.
  fold (matching vals (opt_filter options) tbl) in Hr.
  rewrite (matching_keeps _ _ _ _ _ tbl Hps Hv) in Hr.
  apply filter_In in Hr as [Hin Hk]. exists r. auto.
Qed.

Lemma keeps_entry ws filter r e :
  In e (filter_entries filter) -> keeps ws filter r = true -> entry_keeps r e = true.
Proof.
  unfold keeps. intros Hin H. apply andb_true_iff in H as [_ H].
  rewrite forallb_forall in H. auto.
Qed.

Lemma filter_nothing {A : Type} (p : A -> bool) (l : list A) :
  (forall x, In x l -> p x = false) -> List.filter p l = [].
Proof.
  induction l as [|x l IH]; intros H; [reflexivity|].
  cbn [List.filter]. rewrite (H x (or_introl eq_refl)). apply IH.
  intros y Hy. apply H. right. exact Hy.
Qed.

(** ** What a soft delete writes *)




(** ** Writes of one workspace and reads of another *)

Lemma filter_implied {A : Type} (p q : A -> bool) (l : list A) :
  (forall x, p x = true -> q x = true) ->
  List.filter p l = List.filter p (List.filter q l).
Proof.
  intros H. induction l as [|x l IH]; [reflexivity|].
  cbn [List.filter]. destruct (p x) eqn:Hp.
  - rewrite (H x Hp). cbn [List.filter]. rewrite Hp, IH. reflexivity.
  - destruct (q x); [cbn [List.filter]; rewrite Hp|]; exact IH.
Qed.

Lemma filter_map_kept {A : Type} (q : A -> bool) (f : A -> A) (l : list A) :
  (forall x, f x = x \/ (q x = false /\ q (f x) = false)) ->
  List.filter q (map f l) = List.filter q l.
Proof.
  intros H. induction l as [|x l IH]; [reflexivity|].
  cbn [map List.filter]. rewrite IH.
  destruct (H x) as [->|[H1 H2]]; [reflexivity|]. rewrite H1, H2. reflexivity.
Qed.

(** The WHERE clause of a read scoped to a workspace keeps rows of that
    workspace only. *)
Lemma holds_of_workspace ws filter ps r :
  nth 0 ps SNull = SText ws ->
  holds ps r (Some (where_expr (where_conds filter))) = true ->
  of_workspace ws r = true.
Proof.
  intros Hps H. apply holds_where in H as [H _].
  unfold of_workspace. rewrite H, Hps. cbn [sql_eqb]. apply String.eqb_refl.
Qed.

Lemma selected_rows_of ws filter ps order limit t :
  nth 0 ps SNull = SText ws ->
  selected ps (Some (where_expr (where_conds filter))) order limit t
  = selected ps (Some (where_expr (where_conds filter))) order limit (rows_of ws t).
Proof.
  intros Hps. unfold selected, rows_of. do 2 f_equal.
  apply filter_implied. intros r. apply holds_of_workspace. exact Hps.
Qed.

(** A statement that reads under the WHERE clause of a workspace returns
    the same on two databases that hold the same rows of the workspace. *)
Lemma D1_execute_scoped db1 db2 q ws bound cols table filter order limit n :
  D1.bound q = JStr ws :: bound ->
  prepare (D1.sql q)
  = Some (Select cols table (Some (where_expr (where_conds filter))) order limit, n) ->
  same_rows_of ws table db1 db2 ->
  (let* (res, _) := D1.execute db1 q in Returned (rows res))
  = (let* (res, _) := D1.execute db2 q in Returned (rows res)).
Proof.
  intros Hb Hq [Hr Hs]. unfold D1.execute. rewrite Hb.
  destruct (D1.to_sql_all (JStr ws :: bound)) as [ps|e] eqn:Eps; [|reflexivity].
  apply to_sql_all_tenant in Eps. cbn [bind]. rewrite Hq, Hr.
  destruct (List.length ps <? n)%nat; [reflexivity|].
  destruct (reject_surplus db2 && (n <? List.length ps)%nat); [reflexivity|].
  unfold exec.
  destruct (get_table (data db1) table) as [t1|], (get_table (data db2) table) as [t2|];
    try contradiction; [|reflexivity].
  rewrite (selected_rows_of ws filter ps order limit t1 Eps).
  rewrite (selected_rows_of ws filter ps order limit t2 Eps).
  rewrite Hs.
  destruct (selected ps _ order limit (rows_of ws t2)); reflexivity.
Qed.

(** A read depends on the rows of its workspace only. *)
Lemma executeSelect_same_rows db1 db2 table ws options :
  no_dquote table = true ->
  fields_ok (opt_filter options) = true ->
  order_ok (opt_orderBy options) = true ->
  opt_columns options = None ->
  same_rows_of ws table db1 db2 ->
  executeSelect db1 table ws options = executeSelect db2 table ws options.
Proof.
  intros Ht Hf Ho Hc Hs. unfold executeSelect.
  rewrite buildWhereClause_text, buildPaginationClause_text, Hc.
  fold (pagination_of options). set (p := pagination_of options).
  destruct (select_params _ ws p) as [ps|e] eqn:Eps; [|reflexivity]. cbn [bind].
  apply select_params_head in Eps as (tl & ->).
  change (String.concat ", " ["*"]) with "*".
  rewrite !D1_all_of_rows, !D1_first_of_rows.
  match goal with
  | |- context [D1.execute db1 ?q] =>
      rewrite (D1_execute_scoped db1 db2 q ws tl SelStar table (opt_filter options)
                 (order_terms (opt_orderBy options)) (Some (ENum (page_limit p + 1)))
                 (arity (where_conds (opt_filter options))) eq_refl
                 (prepare_select table (opt_filter options) (opt_orderBy options) p
                    Ht Hf Ho) Hs)
  end.
  match goal with
  | |- context [D1.execute db1 ?q] =>
      rewrite (D1_execute_scoped db1 db2 q ws tl (SelCount "count") table
                 (opt_filter options) [] None
                 (arity (where_conds (opt_filter options))) eq_refl
                 (prepare_count table (opt_filter options) Ht Hf) Hs)
  end.
  reflexivity.
Qed.

(** Replacing a table by one with the same rows of a workspace. *)
Lemma same_rows_after_set db table t t' ws table2 :
  get_table (data db) table = Some t ->
  rows_of ws t' = rows_of ws t ->
  same_rows_of ws table2 (with_data db (set_table (data db) table t')) db.
Proof.
  intros Hg Hrows. split; [reflexivity|]. cbn [with_data data].
  destruct (String.eqb_spec table2 table) as [->|Hne].
  - rewrite get_set_table, Hg. exact Hrows.
  - rewrite (get_set_table_other _ table table2 t' Hne).
    destruct (get_table (data db) table2); [reflexivity|exact I].
Qed.

Lemma other_workspace ws ws2 r :
  ws2 <> ws -> sql_eqb (row_get r "workspaceId") (SText ws) = true ->
  of_workspace ws2 r = false.
Proof.
  intros Hne H. apply sql_eqb_eq in H. unfold of_workspace. rewrite H.
  cbn [sql_eqb]. apply String.eqb_neq. congruence.
Qed.

Lemma is_row_other_workspace ws ws2 id r :
  ws2 <> ws -> is_row ws id r = true -> of_workspace ws2 r = false.
Proof.
  intros Hne H. unfold is_row in H. apply andb_true_iff in H as [H _].
  apply (other_workspace ws ws2 r Hne H).
Qed.

Lemma rows_of_app ws (t1 t2 : table) :
  rows_of ws (t1 ++ t2)%list = (rows_of ws t1 ++ rows_of ws t2)%list.
Proof. apply filter_app. Qed.

Lemma rows_of_records ws ws2 recs :
  ws2 <> ws ->
  Forall (fun rec => obj_get rec "workspaceId" = JStr ws) recs ->
  rows_of ws2 (map row_of recs) = [].
Proof.
  intros Hne. induction 1 as [|rec recs Hrec _ IH]; [reflexivity|].
  cbn [map]. unfold rows_of in *. cbn [List.filter].
  replace (of_workspace ws2 (row_of rec)) with false; [exact IH|].
  symmetry. apply (other_workspace ws). { exact Hne. }
  rewrite row_get_row_of, Hrec. cbn [sql_of sql_eqb]. apply String.eqb_refl.
Qed.

Lemma rows_of_soft_delete ws ws2 id now t :
  ws2 <> ws -> rows_of ws2 (soft_delete_table ws id now t) = rows_of ws2 t.
Proof.
  intros Hne. unfold rows_of, soft_delete_table. apply filter_map_kept. intros r.
  destruct (is_row ws id r && live r) eqn:E; [right|left; reflexivity].
  apply andb_true_iff in E as [E _]. split.
  - apply (is_row_other_workspace ws ws2 id r Hne E).
  - apply (is_row_other_workspace ws ws2 id _ Hne).
    rewrite is_row_mark_deleted. exact E.
Qed.

Lemma rows_of_update ws ws2 id env d t :
  ws2 <> ws -> obj_has d "workspaceId" = false ->
  rows_of ws2 (update_table ws id (row_of (updates_of env d)) t) = rows_of ws2 t.
Proof.
  intros Hne Hd. unfold rows_of, update_table. apply filter_map_kept. intros r.
  destruct (is_row ws id r) eqn:E; [right|left; reflexivity].
  pose proof (is_row_other_workspace ws ws2 id r Hne E) as Hr.
  split; [exact Hr|].
  unfold of_workspace in *. rewrite assign_other by (exact Hd || discriminate).
  exact Hr.
Qed.

(** A database whose written table has the same rows of the other
    workspace is read the same by that workspace. *)
Lemma read_after_set db table t t' ws2 table2 options :
  get_table (data db) table = Some t ->
  no_dquote table2 = true ->
  fields_ok (opt_filter options) = true ->
  order_ok (opt_orderBy options) = true ->
  opt_columns options = None ->
  rows_of ws2 t' = rows_of ws2 t ->
  executeSelect (with_data db (set_table (data db) table t')) table2 ws2 options
  = executeSelect db table2 ws2 options.
Proof.
  intros Hg Ht2 Hf Ho Hc Hrows.
  apply (executeSelect_same_rows _ _ table2 ws2 options Ht2 Hf Ho Hc).
  apply (same_rows_after_set db table t t' ws2 table2 Hg Hrows).
Qed.

(* ================================================================= *)
(** * Part III. The claims *)
(* ================================================================= *)

(** ** C1: tenant scoping of reads under adversarial filters *)

(** C1 (the code departs from the claim). A filter whose field name contains
    a double quote ends the quoted identifier it is written into and
    continues the WHERE clause. With the key [breaking_field] the clause has
    a last disjunct that no longer mentions the tenant, and a read scoped to
    tenant T1 returns the company of tenant T2, from [executeSelectOne] and
    from [executeSelect] alike. *)
Theorem C1_field_name_escapes_tenant_scope :
  fst (buildWhereClause (Some [(Scenario.breaking_field, JNull)]) "T1")
  = "workspaceId = ? AND (" ++ dquoted "deletedAt" ++ " IS NULL) AND "
    ++ dquoted "deletedAt" ++ " IS NULL OR " ++ dquoted "deletedAt" ++ " IS NULL"
  /\ executeSelectOne Scenario.other_tenant "company" "T1"
       [(Scenario.breaking_field, JNull)]
     = Returned (Some (D1.of_row Scenario.acme))
  /\ (exists res,
        executeSelect Scenario.other_tenant "company" "T1"
          {| opt_filter := Some [(Scenario.breaking_field, JNull)];
             opt_orderBy := None; opt_pagination := None; opt_columns := None |}
        = Returned res
        /\ records res = [D1.of_row Scenario.acme]
        /\ obj_get (D1.of_row Scenario.acme) "workspaceId" = JStr "T2").
Proof.
  split; [vm_compute; reflexivity|].
  split; [vm_compute; reflexivity|].
  eexists. split; [vm_compute; reflexivity|].
  vm_compute. split; reflexivity.
Qed.

(** ** C2: scenario B, two pages over three rows *)

(** C2 (the code departs from the claim). Three tasks, page size 2, newest
    first: the first read returns r3 and r2 with [hasNextPage = true] and the
    end cursor of r2. The second read, given that cursor as [after], builds
    the condition for the cursor but adds only its parameter to the
    statement, never its text: an engine that rejects surplus bindings (as D1
    does) fails the read, and one that ignores them returns r3 and r2 again.
    The third row is returned in neither case. *)
Theorem C2_second_page_never_reaches_third_row :
  forall strict : bool,
  exists page1,
    executeSelect (Scenario.three_tasks strict) "task" "T1" (Scenario.page 2 None)
    = Returned page1
    /\ Scenario.ids (records page1) = [JStr "r3"; JStr "r2"]
    /\ hasNextPage (pageInfo page1) = true
    /\ endCursor (pageInfo page1) = Some Scenario.cursor_r2
    /\ decodeCursor Scenario.cursor_r2 = Returned (JObj [("id", JStr "r2")])
    /\ match executeSelect (Scenario.three_tasks strict) "task" "T1"
               (Scenario.page 2 (Some Scenario.cursor_r2)) with
       | Thrown e => strict = true /\ e = D1.wrong_bindings
       | Returned page2 =>
           strict = false
           /\ Scenario.ids (records page2) = [JStr "r3"; JStr "r2"]
           /\ hasNextPage (pageInfo page2) = true
       end.
Proof.
  intros [|]; eexists.
  - split; [vm_compute; reflexivity|].
    vm_compute. repeat split.
  - split; [vm_compute; reflexivity|].
    vm_compute. repeat split.
Qed.

(** ** C3: page size and page information *)

(** C3 as stated fails for a backward page. Three tasks, newest first,
    [last: 2]: the statement still reads from the start of the ordering, the
    page is r2, r3 and [hasNextPage] is false, although r1 follows the page
    in the ordered result. *)
Lemma C3_backward_page_hides_following_row :
  exists res whole,
    executeSelect (Scenario.three_tasks true) "task" "T1" (Scenario.last_page 2)
    = Returned res
    /\ Scenario.ids (records res) = [JStr "r2"; JStr "r3"]
    /\ hasNextPage (pageInfo res) = false
    /\ executeSelect (Scenario.three_tasks true) "task" "T1" (Scenario.page 10 None)
       = Returned whole
    /\ Scenario.ids (records whole) = [JStr "r3"; JStr "r2"; JStr "r1"].
Proof.
  do 2 eexists. split; [vm_compute; reflexivity|].
  split; [vm_compute; reflexivity|]. split; [vm_compute; reflexivity|].
  split; [vm_compute; reflexivity|]. vm_compute. reflexivity.
Qed.

(** C3, amended. Take a read whose table name, filter fields and order
    fields hold no double quote, which reads the default column list, and
    whose page size [n] is at least 1 and below 2^53. When it returns, the
    statement asks for [n + 1] rows, and the connection holds at most [n]
    records. With [first: n] they are the first [n] rows of the ordered
    result and [hasNextPage] tells whether the ordered result has more than
    [n] rows. With [last: n] alone they are the same first [n] rows in
    reverse order, [hasPreviousPage] tells whether the result has more than
    [n] rows, and [hasNextPage] tells only whether a [before] cursor was
    given. *)
Theorem C3_page_holds_first_rows_of_ordered_result db table ws options res n :
  no_dquote table = true ->
  fields_ok (opt_filter options) = true ->
  order_ok (opt_orderBy options) = true ->
  opt_columns options = None ->
  0 < n < 2 ^ 53 ->
  first (pagination_of options) = Some n
  \/ (first (pagination_of options) = None /\ last (pagination_of options) = Some n) ->
  executeSelect db table ws options = Returned res ->
  fst (buildPaginationClause (pagination_of options)) = "LIMIT " ++ Z_to_string (n + 1)
  /\ (List.length (records res) <= Z.to_nat n)%nat
  /\ exists ps vals tbl,
       select_params (JStr ws :: where_params (opt_filter options)) ws
         (pagination_of options) = Returned ps
       /\ D1.to_sql_all ps = Returned vals
       /\ get_table (data db) table = Some tbl
       /\ let ordered :=
            ordered_rows vals (opt_filter options) (opt_orderBy options) tbl in
          (first (pagination_of options) = Some n ->
           records res = map D1.of_row (firstn (Z.to_nat n) ordered)
           /\ hasNextPage (pageInfo res) = (Z.to_nat n <? List.length ordered)%nat)
          /\ (first (pagination_of options) = None ->
              records res = rev (map D1.of_row (firstn (Z.to_nat n) ordered))
              /\ hasPreviousPage (pageInfo res)
                 = (Z.to_nat n <? List.length ordered)%nat
              /\ hasNextPage (pageInfo res)
                 = some_nonempty (before (pagination_of options))).
Proof.
  intros Ht Hf Ho Hc Hn Hp Hres.
  assert (Hlim : page_limit (pagination_of options) = n).
  { unfold page_limit. destruct Hp as [-> | [-> ->]]; reflexivity. }
  destruct (executeSelect_page db table ws options res n Ht Hf Ho Hc Hlim
              (Z.lt_le_incl _ _ (proj1 Hn)) Hres)
    as (ps & vals & tbl & Hps & Hv & Hg & Hrecs & Hnext & Hprev).
  assert (Hnz : negb (n =? 0) = true).
  { destruct (Z.eqb_spec n 0); [lia|reflexivity]. }
  split; [rewrite buildPaginationClause_text, Hlim; reflexivity|]. split.
  - rewrite Hrecs.
    destruct (some_nonzero (last (pagination_of options))
              && negb (some_nonzero (first (pagination_of options))));
      rewrite ?length_rev, length_map, length_firstn; lia.
  - exists ps, vals, tbl. repeat (split; [assumption|]). cbv zeta. split.
    + intros Hfirst. rewrite Hfirst in Hrecs, Hnext. cbn [some_nonzero] in Hrecs, Hnext.
      rewrite Hnz, andb_false_r in Hrecs. rewrite Hnz in Hnext. auto.
    + intros Hfirst. destruct Hp as [Hp|[_ Hlast]]; [congruence|].
      rewrite Hfirst, Hlast in Hrecs. rewrite Hfirst in Hnext. rewrite Hlast in Hprev.
      cbn [some_nonzero negb] in Hrecs, Hnext, Hprev.
      rewrite Hnz in Hrecs, Hprev. cbn [andb] in Hrecs. auto.
Qed.

(** The first page of scenario B. *)
Lemma C3_page_holds_first_rows_of_ordered_result_witness :
  no_dquote "task" = true
  /\ 0 < 2 < 2 ^ 53
  /\ first (pagination_of (Scenario.page 2 None)) = Some 2
  /\ exists res,
       executeSelect (Scenario.three_tasks true) "task" "T1" (Scenario.page 2 None)
       = Returned res
       /\ fst (buildPaginationClause (pagination_of (Scenario.page 2 None))) = "LIMIT 3"
       /\ (List.length (records res) <= 2)%nat.
Proof.
  split; [reflexivity|]. split; [lia|]. split; [reflexivity|].
  destruct (executeSelect (Scenario.three_tasks true) "task" "T1" (Scenario.page 2 None))
    as [res|e] eqn:E; [|vm_compute in E; discriminate].
  exists res. split; [reflexivity|].
  destruct (C3_page_holds_first_rows_of_ordered_result
              (Scenario.three_tasks true) "task" "T1" (Scenario.page 2 None) res 2
              eq_refl eq_refl eq_refl eq_refl ltac:(lia) (or_introl eq_refl) E)
    as (Hlimit & Hlen & _).
  split; [exact Hlimit|exact Hlen].
Defined.

(** ** C4: round trips of the transformers *)




(** ** C5: identity and tenant of a row *)

(** C5 (the code departs from the claim). [executeUpdate] writes every key
    of the caller's data into the SET clause. Data that carries
    [workspaceId] moves the row to another tenant, and data that carries
    [id] changes the row's identifier; [executeInsert], which does overwrite
    a caller-supplied [workspaceId], lets a caller-supplied [id] replace the
    generated one. *)
Theorem C5_update_rewrites_tenant_and_id :
  map (fun r => SQLite.row_get r "workspaceId")
    (Scenario.stored_rows Scenario.one_task "task") = [SQLite.SText "T1"]
  /\ (exists res db',
        executeUpdate (Scenario.env_at "unused" 1700000000009) Scenario.one_task
          "task" "T1" "r1" [("workspaceId", JStr "T2")] = Returned (res, db')
        /\ map (fun r => (SQLite.row_get r "id", SQLite.row_get r "workspaceId"))
             (Scenario.stored_rows db' "task")
           = [(SQLite.SText "r1", SQLite.SText "T2")])
  /\ (exists res db',
        executeUpdate (Scenario.env_at "unused" 1700000000009) Scenario.one_task
          "task" "T1" "r1" [("id", JStr "r9")] = Returned (res, db')
        /\ map (fun r => (SQLite.row_get r "id", SQLite.row_get r "workspaceId"))
             (Scenario.stored_rows db' "task")
           = [(SQLite.SText "r9", SQLite.SText "T1")])
  /\ (exists rec db',
        executeInsert (Scenario.env_at "fresh" 1700000000009) Scenario.one_task
          "task" "T1" [("id", JStr "chosen"); ("workspaceId", JStr "T2")]
        = Returned (rec, db')
        /\ obj_get rec "id" = JStr "chosen"
        /\ obj_get rec "workspaceId" = JStr "T1").
Proof.
  split; [vm_compute; reflexivity|].
  split; [eexists; eexists; split; [vm_compute; reflexivity|vm_compute; reflexivity]|].
  split; [eexists; eexists; split; [vm_compute; reflexivity|vm_compute; reflexivity]|].
  eexists; eexists. split; [vm_compute; reflexivity|].
  vm_compute. split; reflexivity.
Qed.

(** ** C6: search and filter literals *)




(** ** C7: malformed stored text *)

(** C7 as stated fails for the list transformer: stored text that is JSON
    but not an array is read as a list of that one value, not as the empty
    list. *)
Lemma C7_list_of_non_array_text_is_not_empty :
  JSON.parse "5" = Returned (JNum 5)
  /\ arrayTransformer.from (Some "5") = Returned (JArr [JNum 5])
  /\ arrayTransformer.from (Some "{}") = Returned (JArr [JObj []])
  /\ typedArrayTransformer.from (Some "5") = Returned (JArr []).
Proof. repeat split; vm_compute; reflexivity. Qed.

(** C7, amended. Reading stored text never raises, for any text. Text that
    is not JSON is read as [null] by the document transformer and as the
    empty list by both list transformers; JSON that is not an array is read
    by [arrayTransformer] as the list of that one value and by the typed list
    transformer as the empty list; text that is not a timestamp is read as
    [null]. *)
Theorem C7_reading_stored_text_never_raises (text : stored) :
  (exists v, jsonTransformer.from text = Returned v)
  /\ (exists items, arrayTransformer.from text = Returned (JArr items))
  /\ (exists items, typedArrayTransformer.from text = Returned (JArr items))
  /\ (exists d, timestampTransformer.from text = Returned d)
  /\ (forall s e,
        text = Some s -> JSON.parse s = Thrown e ->
        jsonTransformer.from text = Returned JNull
        /\ arrayTransformer.from text = Returned (JArr [])
        /\ typedArrayTransformer.from text = Returned (JArr []))
  /\ (forall s v,
        text = Some s -> JSON.parse s = Returned v -> is_array v = false ->
        arrayTransformer.from text = Returned (JArr [v])
        /\ typedArrayTransformer.from text = Returned (JArr []))
  /\ (forall s,
        text = Some s -> Date.isNaN (Date.getTime (Date.of_string s)) = true ->
        timestampTransformer.from text = Returned None).
Proof.
  split.
  { destruct text as [s|]; cbn; [|eauto]. destruct (JSON.parse s); cbn; eauto. }
  split.
  { destruct text as [s|]; cbn; [|eauto].
    destruct (JSON.parse s) as [v|]; cbn; [|eauto]. destruct v; eauto. }
  split.
  { destruct text as [s|]; cbn; [|eauto].
    destruct (JSON.parse s) as [v|]; cbn; [|eauto]. destruct v; eauto. }
  split.
  { destruct text as [s|]; cbn; [|eauto].
    destruct (Date.isNaN (Date.getTime (Date.of_string s))); cbn; eauto. }
  split.
  { intros s e -> H. cbn. rewrite H. cbn. auto. }
  split.
  { intros s v -> H Hv. cbn. rewrite H. cbn. destruct v; try discriminate; auto. }
  intros s -> H. cbn. rewrite H. reflexivity.
Qed.

(** Stored text that is not JSON. *)
Lemma C7_reading_stored_text_never_raises_witness :
  JSON.parse "{oops" = Thrown SyntaxError
  /\ jsonTransformer.from (Some "{oops") = Returned JNull
  /\ arrayTransformer.from (Some "{oops") = Returned (JArr [])
  /\ typedArrayTransformer.from (Some "{oops") = Returned (JArr []).
Proof.
  assert (H : JSON.parse "{oops" = Thrown SyntaxError) by (vm_compute; reflexivity).
  split; [exact H|].
  exact (proj1 (proj2 (proj2 (proj2 (proj2
           (C7_reading_stored_text_never_raises (Some "{oops"))))))
           "{oops" SyntaxError eq_refl H).
Defined.

(** ** C8: soft-deleted rows under adversarial filters *)

(** C8 (the code departs from the claim). A default read whose filter has
    a field name that closes its quote returns a soft-deleted row. Of two
    tasks of the tenant, r2 is soft-deleted; with the field name
    [title" IS NULL OR "id] and the value r2, [executeSelect] and
    [executeSelectOne] both return r2, with its [deletedAt] set: the
    condition on [deletedAt] stands under the AND and the OR of the field
    name is outside it. *)
Theorem C8_field_name_brings_back_soft_deleted_row :
  map (fun r => (row_get r "id", is_null (row_get r "deletedAt")))
    (Scenario.stored_rows two_tasks_one_deleted "task")
  = [(SText "r1", true); (SText "r2", false)]
  /\ fst (buildWhereClause (opt_filter (by_closing_field "r2")) "T1")
     = "workspaceId = ? AND (" ++ dquoted "deletedAt" ++ " IS NULL) AND "
       ++ dquoted "title" ++ " IS NULL OR " ++ dquoted "id" ++ " = ?"
  /\ (exists res rec,
        executeSelect two_tasks_one_deleted "task" "T1" (by_closing_field "r2")
        = Returned res
        /\ records res = [rec]
        /\ obj_get rec "id" = JStr "r2"
        /\ obj_get rec "workspaceId" = JStr "T1"
        /\ obj_get rec "deletedAt" = JStr "2023-11-14T22:13:20.005Z")
  /\ exists rec,
       executeSelectOne two_tasks_one_deleted "task" "T1" [(closing_field, JStr "r2")]
       = Returned (Some rec)
       /\ obj_get rec "id" = JStr "r2"
       /\ obj_get rec "deletedAt" = JStr "2023-11-14T22:13:20.005Z".
Proof.
  split; [vm_compute; reflexivity|]. split; [vm_compute; reflexivity|]. split.
  - do 2 eexists. split; [vm_compute; reflexivity|].
    split; [reflexivity|]. repeat split; reflexivity.
  - eexists. split; [vm_compute; reflexivity|]. split; reflexivity.
Qed.

(** ** C9: soft delete twice *)

(** C9. [executeSoftDelete] rewrites exactly the rows that match tenant,
    identifier and [deletedAt IS NULL], and leaves every other row and every
    other table as they were. When no such row is live the call returns the
    record and the database unchanged; hence a second call, at any later
    time, returns the same record as the first and the same database. *)
Theorem C9_soft_delete_is_idempotent env db table ws id t :
  no_dquote table = true ->
  get_table (data db) table = Some t ->
  ((forall r, In r t -> is_row ws id r = true -> live r = false) ->
   executeSoftDelete env db table ws id = Returned (reread ws id t, db))
  /\ exists rec db1,
       executeSoftDelete env db table ws id = Returned (rec, db1)
       /\ get_table (data db1) table
          = Some (map (fun r => if is_row ws id r && live r
                                then mark_deleted (Date.iso_string (clock env)) r
                                else r) t)
       /\ (forall other, other <> table ->
             get_table (data db1) other = get_table (data db) other)
       /\ forall env2, executeSoftDelete env2 db1 table ws id = Returned (rec, db1).
Proof.
  intros Ht Hg. split.
  - intros Hdone. rewrite (executeSoftDelete_run env db table ws id t Ht Hg). cbv zeta.
    rewrite (soft_delete_table_settled ws id _ t Hdone).
    rewrite (set_table_same _ _ _ Hg), with_data_same. reflexivity.
  - rewrite (executeSoftDelete_run env db table ws id t Ht Hg). cbv zeta.
    set (t1 := soft_delete_table ws id (Date.iso_string (clock env)) t).
    do 2 eexists. split; [reflexivity|].
    assert (Hg1 : get_table (data (with_data db (set_table (data db) table t1))) table
                  = Some t1) by apply get_set_table.
    split; [exact Hg1|]. split.
    + intros other Hne. apply get_set_table_other. exact Hne.
    + intros env2.
      rewrite (executeSoftDelete_run env2 _ table ws id t1 Ht Hg1). cbv zeta.
      rewrite (soft_delete_table_settled ws id _ t1)
        by (intros r; apply soft_delete_table_after).
      rewrite (set_table_same _ _ _ Hg1), with_data_same. reflexivity.
Qed.

(** Deleting the one task of the scenario twice. *)
Lemma C9_soft_delete_is_idempotent_witness :
  no_dquote "task" = true
  /\ get_table (data Scenario.one_task) "task"
     = Some (Scenario.stored_rows Scenario.one_task "task")
  /\ exists rec db1,
       executeSoftDelete (Scenario.env_at "unused" 1700000000005) Scenario.one_task
         "task" "T1" "r1" = Returned (rec, db1)
       /\ forall env2, executeSoftDelete env2 db1 "task" "T1" "r1" = Returned (rec, db1).
Proof.
  split; [reflexivity|]. split; [reflexivity|].
  destruct (proj2 (C9_soft_delete_is_idempotent
                     (Scenario.env_at "unused" 1700000000005) Scenario.one_task
                     "task" "T1" "r1" (Scenario.stored_rows Scenario.one_task "task")
                     eq_refl eq_refl))
    as (rec & db1 & H1 & _ & _ & H2).
  exists rec, db1. split; [exact H1|exact H2].
Defined.

(** ** C10: cursors that do not decode *)

(** C10 as stated fails: a cursor that is not Base64 decodes to [null] and
    the read returns the first page, with no error. *)
Lemma C10_undecodable_cursor_is_accepted :
  decodeCursor "!!!" = Returned JNull
  /\ exists res,
       executeSelect (Scenario.three_tasks true) "task" "T1"
         (Scenario.page 2 (Some "!!!")) = Returned res
       /\ Scenario.ids (records res) = [JStr "r3"; JStr "r2"]
       /\ hasNextPage (pageInfo res) = true.
Proof.
  split; [vm_compute; reflexivity|].
  eexists. split; [vm_compute; reflexivity|].
  split; vm_compute; reflexivity.
Qed.

(** C10, amended. [decodeCursor] throws for no text. When the Base64
    decoding of an [after] cursor or the JSON parse of the decoded text
    throws, [decodeCursor] returns [null], the read binds no parameter for
    the cursor, and [executeSelect] returns what the read without the cursor
    returns, or fails as it fails, except that [hasPreviousPage] of a read
    whose [last] is absent or 0 tells whether the cursor is not empty. A
    [before] cursor is not decoded at all: with any text as [before] the
    read returns what the read without it returns, or fails as it fails,
    except that [hasNextPage] of a read whose [first] is absent or 0 tells
    whether the cursor is not empty. *)
Theorem C10_cursor_that_fails_to_decode_is_ignored db table ws options cursor e :
  decoded cursor = Thrown e ->
  (forall c, exists d, decodeCursor c = Returned d)
  /\ decodeCursor cursor = Returned JNull
  /\ select_params (snd (buildWhereClause (opt_filter options) ws)) ws
       (pagination_of (with_after options (Some cursor)))
     = Returned (snd (buildWhereClause (opt_filter options) ws))
  /\ executeSelect db table ws (with_after options (Some cursor))
     = match executeSelect db table ws (with_after options None) with
       | Returned r => Returned (seen_after (pagination_of options) cursor r)
       | Thrown e => Thrown e
       end
  /\ forall c,
       executeSelect db table ws (with_before options (Some c))
       = match executeSelect db table ws (with_before options None) with
         | Returned r => Returned (seen_before (pagination_of options) c r)
         | Thrown e => Thrown e
         end.
Proof.
  intros He. pose proof (decodeCursor_null cursor e He) as Hd.
  split; [exact decodeCursor_returns|]. split; [exact Hd|]. split; [|split].
  - apply (select_params_ignored _ ws _ cursor JNull); [reflexivity|exact Hd|reflexivity].
  - exact (executeSelect_ignores_cursor db table ws options cursor JNull Hd eq_refl).
  - intros c. apply executeSelect_ignores_before.
Qed.

(** Scenario B read with the cursor [!!!], which is not Base64. *)
Lemma C10_cursor_that_fails_to_decode_is_ignored_witness :
  decoded "!!!" = Thrown InvalidCharacterError
  /\ decodeCursor "!!!" = Returned JNull
  /\ executeSelect (Scenario.three_tasks true) "task" "T1"
       (with_after (Scenario.page 2 None) (Some "!!!"))
     = match executeSelect (Scenario.three_tasks true) "task" "T1"
               (with_after (Scenario.page 2 None) None) with
       | Returned r =>
           Returned (seen_after (pagination_of (Scenario.page 2 None)) "!!!" r)
       | Thrown e => Thrown e
       end.
Proof.
  assert (He : decoded "!!!" = Thrown InvalidCharacterError) by (vm_compute; reflexivity).
  split; [exact He|].
  destruct (C10_cursor_that_fails_to_decode_is_ignored
              (Scenario.three_tasks true) "task" "T1" (Scenario.page 2 None) "!!!"
              InvalidCharacterError He) as (_ & Hd & _ & Hread & _).
  split; [exact Hd|exact Hread].
Defined.

(* ================================================================= *)
(** * Part IV. Further properties of the code *)
(* ================================================================= *)

(** ** X1: cursors of records *)

(** X1. A cursor decodes to the identifier it was made from: whenever
    [encodeCursor] returns a cursor for an identifier that JSON text can
    carry (a string, [null], a safe integer), [decodeCursor] of that cursor
    is the object whose [id] is the identifier. *)
Theorem X1_cursor_decodes_to_its_id (id : jsval) (c : string) :
  json_data id = true ->
  encodeCursor id = Returned c ->
  decodeCursor c = Returned (JObj [("id", id)]).
Proof.
  intros Hd He. apply decode_encoded_cursor; assumption.
Qed.

Lemma X1_cursor_decodes_to_its_id_witness :
  json_data (JStr "r2") = true
  /\ encodeCursor (JStr "r2") = Returned Scenario.cursor_r2
  /\ decodeCursor Scenario.cursor_r2 = Returned (JObj [("id", JStr "r2")]).
Proof.
  assert (He : encodeCursor (JStr "r2") = Returned Scenario.cursor_r2)
    by (vm_compute; reflexivity).
  split; [reflexivity|]. split; [exact He|].
  exact (X1_cursor_decodes_to_its_id (JStr "r2") Scenario.cursor_r2 eq_refl He).
Defined.

(** ** X2: edges of the list resolver *)

(** X2. The connection of the list resolver holds the records of
    [executeSelect] in their order, each in an edge whose cursor decodes to
    the record's [id]; the page's [startCursor] and [endCursor] are the
    cursors of the first and of the last edge, and are absent exactly when
    there is no edge. *)
Theorem X2_edges_pair_records_with_their_cursors table args ws db conn :
  createFindManyResolver table args ws db = Returned conn ->
  (exists res,
      executeSelect db table ws (select_options args) = Returned res
      /\ map Connection.node (Connection.edges conn) = records res
      /\ Connection.totalCount conn = totalCount res)
  /\ (forall e,
        In e (Connection.edges conn) ->
        json_data (obj_get (Connection.node e) "id") = true ->
        decodeCursor (Connection.cursor e)
        = Returned (JObj [("id", obj_get (Connection.node e) "id")]))
  /\ startCursor (Connection.pageInfo conn)
     = option_map Connection.cursor (hd_error (Connection.edges conn))
  /\ endCursor (Connection.pageInfo conn)
     = option_map Connection.cursor (hd_error (rev (Connection.edges conn))).
Proof.
  unfold createFindManyResolver. fold (select_options args). intros H.
  destruct (executeSelect db table ws (select_options args)) as [res|] eqn:Er;
    [|discriminate].
  cbn [bind] in H. destruct (to_edges (records res)) as [es|] eqn:Ee; [|discriminate].
  cbn [bind] in H. injection H as <-.
  cbn [Connection.edges Connection.pageInfo Connection.totalCount].
  destruct (to_edges_inv _ _ Ee) as [Hm Hf].
  split; [exists res; auto|].
  split.
  { intros e Hin Hd. rewrite Forall_forall in Hf.
    apply decode_encoded_cursor; [exact Hd|]. exact (Hf e Hin). }
  destruct (executeSelect_pageInfo _ _ _ _ _ Er) as (rows & limit & p & Hp).
  destruct (buildPageInfo_cursors _ _ _ _ _ Hp) as [Hs Hl].
  rewrite <- Hm in Hs, Hl. rewrite <- map_rev in Hl. split.
  - destruct es as [|e es]; [exact Hs|].
    cbn [map] in Hs. destruct Hs as (c & Hc & ->).
    apply Forall_inv in Hf. cbn [hd_error option_map]. congruence.
  - assert (Hf' : Forall (fun e => encodeCursor (obj_get (Connection.node e) "id")
                                   = Returned (Connection.cursor e)) (rev es))
      by (apply Forall_rev; exact Hf).
    destruct (rev es) as [|e tl]; [exact Hl|].
    cbn [map] in Hl. destruct Hl as (c & Hc & ->).
    apply Forall_inv in Hf'. cbn [hd_error option_map]. congruence.
Qed.

Lemma X2_edges_pair_records_with_their_cursors_witness :
  exists conn,
    createFindManyResolver "task" (first_page 2) "T1" (Scenario.three_tasks true)
    = Returned conn
    /\ map (fun r => obj_get r "id") (map Connection.node (Connection.edges conn))
       = [JStr "r3"; JStr "r2"]
    /\ startCursor (Connection.pageInfo conn)
       = option_map Connection.cursor (hd_error (Connection.edges conn))
    /\ endCursor (Connection.pageInfo conn)
       = option_map Connection.cursor (hd_error (rev (Connection.edges conn))).
Proof.
  destruct (createFindManyResolver "task" (first_page 2) "T1" (Scenario.three_tasks true))
    as [conn|e] eqn:E; [|vm_compute in E; discriminate].
  exists conn. split; [reflexivity|].
  split; [vm_compute in E; injection E as <-; reflexivity|].
  exact (proj2 (proj2 (X2_edges_pair_records_with_their_cursors
                         "task" (first_page 2) "T1" (Scenario.three_tasks true) conn E))).
Defined.

(** ** X3: the total count *)

(** X3. [totalCount] is the number of rows that the filter keeps among the
    live rows of the tenant, whatever the page size and the order: it is
    the count over the whole table of the rows under the WHERE clause, each
    of them a row of the workspace with no [deletedAt], and the page never
    holds more records than that. *)
Theorem X3_total_count_is_the_number_of_matching_rows db table ws options res :
  no_dquote table = true ->
  fields_ok (opt_filter options) = true ->
  opt_columns options = None ->
  executeSelect db table ws options = Returned res ->
  exists ps vals tbl,
    select_params (JStr ws :: where_params (opt_filter options)) ws (pagination_of options)
    = Returned ps
    /\ D1.to_sql_all ps = Returned vals
    /\ get_table (data db) table = Some tbl
    /\ totalCount res
       = JNum (Z.of_nat (List.length (matching vals (opt_filter options) tbl)))
    /\ (List.length (records res)
        <= List.length (matching vals (opt_filter options) tbl))%nat
    /\ forall r, In r (matching vals (opt_filter options) tbl) ->
                 In r tbl /\ row_get r "workspaceId" = SText ws
                 /\ row_get r "deletedAt" = SNull.
Proof.
  intros Ht Hf Hc Hres.
  destruct (executeSelect_count db table ws options res Ht Hf Hc Hres)
    as (ps & vals & tbl & Hps & Hv & Hg & Hcount & Hlen & Hws).
  exists ps, vals, tbl. repeat (split; [assumption|]).
  intros r Hr. apply holds_matching in Hr. rewrite Hws in Hr. exact Hr.
Qed.

Lemma X3_total_count_is_the_number_of_matching_rows_witness :
  no_dquote "task" = true
  /\ exists res,
       executeSelect (Scenario.three_tasks true) "task" "T1" first_two = Returned res
       /\ List.length (records res) = 2%nat
       /\ totalCount res = JNum 3
       /\ exists ps vals tbl,
            D1.to_sql_all ps = Returned vals
            /\ get_table (data (Scenario.three_tasks true)) "task" = Some tbl
            /\ totalCount res
               = JNum (Z.of_nat (List.length (matching vals None tbl))).
Proof.
  split; [reflexivity|].
  destruct (executeSelect (Scenario.three_tasks true) "task" "T1" first_two)
    as [res|e] eqn:E; [|vm_compute in E; discriminate].
  exists res. split; [reflexivity|].
  split; [vm_compute in E; injection E as <-; reflexivity|].
  split; [vm_compute in E; injection E as <-; reflexivity|].
  destruct (X3_total_count_is_the_number_of_matching_rows
              (Scenario.three_tasks true) "task" "T1" first_two res
              eq_refl eq_refl eq_refl E)
    as (ps & vals & tbl & _ & Hv & Hg & Hc & _).
  exists ps, vals, tbl. auto.
Defined.

(** ** X4: page information for ASCII identifiers *)

(** X4. Page information is built whenever the identifiers are in ASCII.
    [encodeCursor] returns for an identifier that is a text in ASCII, a
    number, a boolean, [null] or [undefined], since the JSON text of
    [{ id }] is then in ASCII, which [btoa] accepts. [buildPageInfo]
    returns for every list of records whose identifiers are such, whatever
    the limit and the pagination arguments. *)
Theorem X4_page_information_is_built_for_ascii_identifiers
    (rows : list object) (limit : Z) (args : PaginationArgs) :
  forallb (fun rec => ascii_id (obj_get rec "id")) rows = true ->
  (forall rec, In rec rows -> exists c, encodeCursor (obj_get rec "id") = Returned c)
  /\ exists recs info, buildPageInfo rows limit args = Returned (recs, info).
Proof.
  intros Hall. rewrite forallb_forall in Hall.
  assert (Hc : forall rec, In rec rows ->
                 exists c, encodeCursor (obj_get rec "id") = Returned c).
  { intros rec Hin. apply encodeCursor_ascii, Hall, Hin. }
  split; [exact Hc|].
  apply buildPageInfo_returns. apply Forall_forall. exact Hc.
Qed.

(** Three records in ASCII; and a record whose identifier is a snowman,
    for which the page information is not built. *)
Lemma X4_page_information_is_built_for_ascii_identifiers_witness :
  forallb (fun rec => ascii_id (obj_get rec "id")) ascii_records = true
  /\ (exists recs info,
        buildPageInfo ascii_records 2 (pagination_of first_two) = Returned (recs, info))
  /\ buildPageInfo [snowman_record] 2 (pagination_of first_two)
     = Thrown InvalidCharacterError.
Proof.
  split; [reflexivity|]. split; [|vm_compute; reflexivity].
  exact (proj2 (X4_page_information_is_built_for_ascii_identifiers ascii_records 2
                  (pagination_of first_two) eq_refl)).
Defined.

(** ** X5: insert, then find *)



(** ** X6: what an insert writes *)

(** X6. What [executeInsert] writes. Take a table name and data keys
    without double quote, and an insert that returns a record whose keys
    name different columns. The record is the data with the fresh [id]
    before it (an [id] of the data replaces it), with the caller's
    workspace as [workspaceId], whatever the data said, and with the
    current time as [createdAt] and [updatedAt]. The table holds the rows
    it had, as they were, and after them one new row, whose [workspaceId]
    is the caller's workspace; every other table is as it was. *)
Theorem X6_insert_appends_one_row_of_the_tenant env db table ws d rec db' :
  no_dquote table = true ->
  forallb no_dquote (Object_keys d) = true ->
  executeInsert env db table ws d = Returned (rec, db') ->
  columns_distinct (Object_keys rec) = true ->
  rec = insert_record (randomUUID env 0) d ws (Date.iso_string (clock env))
  /\ obj_get rec "workspaceId" = JStr ws
  /\ obj_get rec "createdAt" = JStr (Date.iso_string (clock env))
  /\ obj_get rec "updatedAt" = JStr (Date.iso_string (clock env))
  /\ (exists t r,
        get_table (data db) table = Some t
        /\ get_table (data db') table = Some (t ++ [r])%list
        /\ row_get r "workspaceId" = SText ws)
  /\ (forall other, other <> table ->
        get_table (data db') other = get_table (data db) other).
Proof.
  intros Ht Hk H _.
  destruct (executeInsert_inv env db table ws d rec db' Ht Hk H)
    as (Hrec & Hb & t & Hg & Hid & ->).
  assert (Hws : obj_get rec "workspaceId" = JStr ws)
    by (subst rec; apply insert_record_workspace).
  split; [exact Hrec|]. split; [exact Hws|].
  split; [subst rec; unfold insert_record;
          rewrite obj_get_set_other by discriminate; apply obj_get_set_same|].
  split; [subst rec; apply obj_get_set_same|].
  split.
  - exists t, (row_of rec). split; [exact Hg|].
    split; [cbn [with_data data]; apply get_set_table|].
    rewrite row_get_row_of, Hws. reflexivity.
  - intros other Hne. cbn [with_data data]. apply get_set_table_other. exact Hne.
Qed.

Lemma X6_insert_appends_one_row_of_the_tenant_witness :
  exists rec db',
    executeInsert (Scenario.env_at "r9" 1700000000009) (Scenario.three_tasks true)
      "task" "T1" [("title", JStr "nine"); ("workspaceId", JStr "T2")]
    = Returned (rec, db')
    /\ columns_distinct (Object_keys rec) = true
    /\ Object_keys rec = ["id"; "title"; "workspaceId"; "createdAt"; "updatedAt"]
    /\ obj_get rec "workspaceId" = JStr "T1".
Proof.
  destruct (executeInsert (Scenario.env_at "r9" 1700000000009) (Scenario.three_tasks true)
              "task" "T1" [("title", JStr "nine"); ("workspaceId", JStr "T2")])
    as [[rec db']|e] eqn:E; [|vm_compute in E; discriminate].
  assert (Hk : Object_keys rec = ["id"; "title"; "workspaceId"; "createdAt"; "updatedAt"])
    by (vm_compute in E; injection E as <- _; reflexivity).
  assert (Hc : columns_distinct (Object_keys rec) = true)
    by (rewrite Hk; vm_compute; reflexivity).
  exists rec, db'. split; [reflexivity|]. split; [exact Hc|]. split; [exact Hk|].
  exact (proj1 (proj2 (X6_insert_appends_one_row_of_the_tenant _ _ "task" "T1"
                         [("title", JStr "nine"); ("workspaceId", JStr "T2")] rec db'
                         eq_refl eq_refl E Hc))).
Defined.

(** ** X7: inserts that fail *)

(** X7. How [executeInsert] fails, for a table name and data keys without
    double quote. When a value of the record is [undefined] or an object
    that is no list, the insert throws the type error of the binding,
    whatever the database holds. When every value is [null], a boolean, a
    number or a text: the insert throws if a row of the table already has
    the [id] of the record, a text; and it throws "no such table" if the
    table is missing. *)
Theorem X7_insert_fails_on_bad_value_taken_id_or_missing_table env db table ws d :
  no_dquote table = true ->
  forallb no_dquote (Object_keys d) = true ->
  let record := insert_record (randomUUID env 0) d ws (Date.iso_string (clock env)) in
  (existsb unsupported (Object_values record) = true ->
   executeInsert env db table ws d = Thrown D1.type_error)
  /\ (forall t i,
        forallb bindable (Object_values record) = true ->
        get_table (data db) table = Some t ->
        obj_get record "id" = JStr i ->
        existsb (fun r => sql_eqb (row_get r "id") (SText i)) t = true ->
        exists e, executeInsert env db table ws d = Thrown e)
  /\ (forallb bindable (Object_values record) = true ->
      get_table (data db) table = None ->
      executeInsert env db table ws d = Thrown no_such_table).
Proof.
  intros Ht Hk record. split; [|split].
  - intros Hb. apply unsupported_unbindable in Hb.
    unfold executeInsert. cbv zeta. fold record.
    unfold D1.run, D1.execute.
    change (D1.bound (insert_statement table record)) with (Object_values record).
    rewrite (to_sql_all_unbindable _ Hb). reflexivity.
  - intros t i Hb Hg Hi Hid.
    rewrite (executeInsert_run env db table ws d t Ht Hk Hg). cbv zeta.
    fold record. rewrite Hb.
    assert (Htaken : id_taken t (row_of record) = true).
    { unfold id_taken. rewrite row_get_row_of, Hi. cbn [sql_of]. exact Hid. }
    rewrite Htaken. eexists. reflexivity.
  - intros Hb Hg. unfold executeInsert. cbv zeta. fold record.
    rewrite (run_insert_no_table db table record Ht (insert_record_nonempty _ _ _ _)
               (keys_ok_insert_record _ _ _ _ Hk) Hg).
    rewrite Hb. reflexivity.
Qed.

Lemma X7_insert_fails_on_bad_value_taken_id_or_missing_table_witness :
  executeInsert (Scenario.env_at "r9" 1700000000009) (Scenario.three_tasks true)
    "task" "T1" [("body", JObj [("text", JStr "a")])] = Thrown D1.type_error
  /\ (exists e,
        executeInsert (Scenario.env_at "r2" 1700000000009) (Scenario.three_tasks true)
          "task" "T1" [("title", JStr "again")] = Thrown e)
  /\ executeInsert (Scenario.env_at "r9" 1700000000009) (Scenario.three_tasks true)
       "missing" "T1" [("title", JStr "none")] = Thrown no_such_table.
Proof.
  split; [|split].
  - exact (proj1 (X7_insert_fails_on_bad_value_taken_id_or_missing_table
                    (Scenario.env_at "r9" 1700000000009) (Scenario.three_tasks true)
                    "task" "T1" [("body", JObj [("text", JStr "a")])] eq_refl eq_refl)
             eq_refl).
  - destruct (get_table (data (Scenario.three_tasks true)) "task") as [t|] eqn:Hg;
      [|vm_compute in Hg; discriminate].
    refine (proj1 (proj2 (X7_insert_fails_on_bad_value_taken_id_or_missing_table
                            (Scenario.env_at "r2" 1700000000009)
                            (Scenario.three_tasks true)
                            "task" "T1" [("title", JStr "again")] eq_refl eq_refl))
              t "r2" eq_refl Hg eq_refl _).
    vm_compute in Hg. injection Hg as <-. vm_compute. reflexivity.
  - exact (proj2 (proj2 (X7_insert_fails_on_bad_value_taken_id_or_missing_table
                           (Scenario.env_at "r9" 1700000000009)
                           (Scenario.three_tasks true)
                           "missing" "T1" [("title", JStr "none")] eq_refl eq_refl))
             eq_refl eq_refl).
Defined.

(** ** X8: what an update rewrites *)

(** X8. What [executeUpdate] rewrites. Take a table name and data keys
    without double quote, data whose keys, together with [updatedAt],
    name different columns, and an update that returns. The table keeps
    its length; every row that is not a row of the workspace with the
    identifier stays in its place as it was; each row of the workspace
    with the identifier gets the current time as [updatedAt]; every other
    table is as it was; and the result is the live row of the workspace
    with the identifier after the update, or [null] when there is none. *)
Theorem X8_update_rewrites_only_the_rows_of_the_id env db table ws id d rec db' t :
  no_dquote table = true ->
  forallb no_dquote (Object_keys d) = true ->
  columns_distinct (Object_keys (updates_of env d)) = true ->
  get_table (data db) table = Some t ->
  executeUpdate env db table ws id d = Returned (rec, db') ->
  exists t',
    get_table (data db') table = Some t'
    /\ List.length t' = List.length t
    /\ (forall n r,
          nth_error t n = Some r -> is_row ws id r = false -> nth_error t' n = Some r)
    /\ (forall n r,
          nth_error t n = Some r -> is_row ws id r = true ->
          exists r', nth_error t' n = Some r'
                     /\ row_get r' "updatedAt" = SText (Date.iso_string (clock env)))
    /\ (forall other, other <> table ->
          get_table (data db') other = get_table (data db) other)
    /\ rec = find_live ws id t'.
Proof.
  intros Ht Hk _ Hg H.
  rewrite (executeUpdate_run env db table ws id d t Ht Hk Hg) in H.
  destruct (forallb bindable _); [|discriminate]. cbv zeta in H.
  injection H as <- <-.
  exists (update_table ws id (row_of (updates_of env d)) t).
  split; [cbn [with_data data]; apply get_set_table|].
  split; [unfold update_table; apply length_map|].
  split.
  { intros n r Hn Hr. rewrite nth_error_update_table, Hn. cbn [option_map].
    rewrite Hr. reflexivity. }
  split.
  { intros n r Hn Hr. rewrite nth_error_update_table, Hn. cbn [option_map].
    rewrite Hr. eexists. split; [reflexivity|apply assign_updatedAt]. }
  split; [|reflexivity].
  intros other Hne. cbn [with_data data]. apply get_set_table_other. exact Hne.
Qed.

Lemma X8_update_rewrites_only_the_rows_of_the_id_witness :
  exists t rec db' t',
    get_table (data (Scenario.three_tasks true)) "task" = Some t
    /\ executeUpdate (Scenario.env_at "unused" 1700000000009) (Scenario.three_tasks true)
         "task" "T1" "r2" retitled = Returned (rec, db')
    /\ get_table (data db') "task" = Some t'
    /\ List.length t' = List.length t
    /\ rec = find_live "T1" "r2" t'
    /\ option_map (fun r => obj_get r "title") rec = Some (JStr "two, again").
Proof.
  destruct (get_table (data (Scenario.three_tasks true)) "task") as [t|] eqn:Hg;
    [|vm_compute in Hg; discriminate].
  destruct (executeUpdate (Scenario.env_at "unused" 1700000000009)
              (Scenario.three_tasks true) "task" "T1" "r2" retitled)
    as [[rec db']|e] eqn:E; [|vm_compute in E; discriminate].
  destruct (X8_update_rewrites_only_the_rows_of_the_id
              (Scenario.env_at "unused" 1700000000009) (Scenario.three_tasks true)
              "task" "T1" "r2" retitled rec db' t eq_refl eq_refl eq_refl Hg E)
    as (t' & Hg' & Hlen & _ & _ & _ & Hrec).
  exists t, rec, db', t'. repeat (split; [assumption || reflexivity|]).
  vm_compute in E. injection E as <- _. reflexivity.
Defined.

(** ** X9: update of a missing row *)

(** X9. An update of a row that is not there. Take a table name and data
    keys without double quote and a table in which no row of the workspace
    has the identifier. When [executeUpdate] returns, it returns [null]
    and the database is exactly as it was. *)
Theorem X9_update_of_a_missing_row_changes_nothing env db table ws id d t rec db' :
  no_dquote table = true ->
  forallb no_dquote (Object_keys d) = true ->
  get_table (data db) table = Some t ->
  (forall r, In r t -> is_row ws id r = false) ->
  executeUpdate env db table ws id d = Returned (rec, db') ->
  rec = None /\ db' = db.
Proof.
  intros Ht Hk Hg Hnone H.
  rewrite (executeUpdate_run env db table ws id d t Ht Hk Hg) in H.
  destruct (forallb bindable _); [|discriminate]. cbv zeta in H.
  assert (Hsame : update_table ws id (row_of (updates_of env d)) t = t).
  { unfold update_table. rewrite <- (map_id t) at 2. apply map_ext_in.
    intros r Hr. rewrite (Hnone r Hr). reflexivity. }
  rewrite Hsame, (set_table_same _ _ _ Hg), with_data_same in H.
  injection H as <- <-. split; [|reflexivity].
  unfold find_live. rewrite filter_none; [reflexivity|].
  intros r Hr. rewrite (Hnone r Hr). reflexivity.
Qed.

Lemma X9_update_of_a_missing_row_changes_nothing_witness :
  exists t,
    get_table (data (Scenario.three_tasks true)) "task" = Some t
    /\ (forall r, In r t -> is_row "T2" "r2" r = false)
    /\ executeUpdate (Scenario.env_at "unused" 1700000000009) (Scenario.three_tasks true)
         "task" "T2" "r2" retitled = Returned (None, Scenario.three_tasks true).
Proof.
  destruct (get_table (data (Scenario.three_tasks true)) "task") as [t|] eqn:Hg;
    [|vm_compute in Hg; discriminate].
  assert (Hnone : forall r, In r t -> is_row "T2" "r2" r = false).
  { assert (Hall : forallb (fun r => negb (is_row "T2" "r2" r)) t = true)
      by (vm_compute in Hg; injection Hg as <-; vm_compute; reflexivity).
    rewrite forallb_forall in Hall. intros r Hr. apply negb_true_iff. apply Hall, Hr. }
  exists t. split; [reflexivity|]. split; [exact Hnone|].
  destruct (executeUpdate (Scenario.env_at "unused" 1700000000009)
              (Scenario.three_tasks true) "task" "T2" "r2" retitled)
    as [[rec db']|e] eqn:E; [|vm_compute in E; discriminate].
  destruct (X9_update_of_a_missing_row_changes_nothing
              (Scenario.env_at "unused" 1700000000009) (Scenario.three_tasks true)
              "task" "T2" "r2" retitled t rec db' eq_refl eq_refl Hg Hnone E)
    as [-> ->].
  reflexivity.
Defined.

(** ** X10: update of a soft-deleted row *)

(** X10. [executeUpdate] does not look at [deletedAt]. Take a table name
    and data keys without double quote, data whose keys, together with
    [updatedAt], name different columns, none of them [id], [workspaceId]
    or [deletedAt], and a table in which the rows of the workspace with
    the identifier are all soft-deleted. When the update returns, it has
    rewritten those rows all the same (each has the current time as
    [updatedAt], and is still a soft-deleted row of the workspace with the
    identifier) and its result is [null]. *)
Theorem X10_update_rewrites_a_soft_deleted_row_and_returns_null
    env db table ws id d t rec db' :
  no_dquote table = true ->
  forallb no_dquote (Object_keys d) = true ->
  columns_distinct (Object_keys (updates_of env d)) = true ->
  names_column (Object_keys d) "id" = false ->
  names_column (Object_keys d) "workspaceId" = false ->
  names_column (Object_keys d) "deletedAt" = false ->
  get_table (data db) table = Some t ->
  (forall r, In r t -> is_row ws id r = true -> live r = false) ->
  executeUpdate env db table ws id d = Returned (rec, db') ->
  rec = None
  /\ exists t',
       get_table (data db') table = Some t'
       /\ forall n r,
            nth_error t n = Some r -> is_row ws id r = true ->
            exists r', nth_error t' n = Some r'
                       /\ row_get r' "updatedAt" = SText (Date.iso_string (clock env))
                       /\ is_row ws id r' = true /\ live r' = false.
Proof.
  intros Ht Hk _ Hid Hws Hdel Hg Hdead H.
  apply names_column_has in Hid, Hws, Hdel.
  rewrite (executeUpdate_run env db table ws id d t Ht Hk Hg) in H.
  destruct (forallb bindable _); [|discriminate]. cbv zeta in H.
  injection H as <- <-.
  set (sets := row_of (updates_of env d)).
  assert (Hrow : forall r, is_row ws id (assign sets r) = is_row ws id r).
  { intros r. unfold is_row, sets.
    rewrite !assign_other by (assumption || discriminate). reflexivity. }
  assert (Hlive : forall r, live (assign sets r) = live r).
  { intros r. unfold live, sets.
    rewrite assign_other by (assumption || discriminate). reflexivity. }
  split.
  - unfold find_live. rewrite filter_none; [reflexivity|].
    intros r Hr. unfold update_table in Hr. apply in_map_iff in Hr as (r0 & <- & Hr0).
    destruct (is_row ws id r0) eqn:E.
    + rewrite Hrow, Hlive, E, (Hdead r0 Hr0 E). reflexivity.
    + rewrite E. reflexivity.
  - eexists. split; [cbn [with_data data]; apply get_set_table|].
    intros n r Hn Hr. rewrite nth_error_update_table, Hn. cbn [option_map].
    rewrite Hr. eexists. split; [reflexivity|].
    split; [apply assign_updatedAt|].
    apply nth_error_In in Hn.
    split; [rewrite Hrow; exact Hr|rewrite Hlive; exact (Hdead r Hn Hr)].
Qed.

Lemma X10_update_rewrites_a_soft_deleted_row_and_returns_null_witness :
  exists t db' t',
    get_table (data two_tasks_one_deleted) "task" = Some t
    /\ map live t = [true; false]
    /\ executeUpdate (Scenario.env_at "unused" 1700000000009) two_tasks_one_deleted
         "task" "T1" "r2" retitled = Returned (None, db')
    /\ get_table (data db') "task" = Some t'
    /\ map (fun r => row_get r "title") t' = [SText "one"; SText "two, again"].
Proof.
  destruct (get_table (data two_tasks_one_deleted) "task") as [t|] eqn:Hg;
    [|vm_compute in Hg; discriminate].
  assert (Hdead : forall r, In r t -> is_row "T1" "r2" r = true -> live r = false).
  { assert (Hall : forallb (fun r => negb (is_row "T1" "r2" r) || negb (live r)) t = true)
      by (vm_compute in Hg; injection Hg as <-; vm_compute; reflexivity).
    rewrite forallb_forall in Hall. intros r Hr Hrow.
    specialize (Hall r Hr). rewrite Hrow in Hall. apply negb_true_iff. exact Hall. }
  destruct (executeUpdate (Scenario.env_at "unused" 1700000000009) two_tasks_one_deleted
              "task" "T1" "r2" retitled) as [[rec db']|e] eqn:E;
    [|vm_compute in E; discriminate].
  destruct (X10_update_rewrites_a_soft_deleted_row_and_returns_null
              (Scenario.env_at "unused" 1700000000009) two_tasks_one_deleted
              "task" "T1" "r2" retitled t rec db' eq_refl eq_refl eq_refl eq_refl
              eq_refl eq_refl Hg Hdead E) as (-> & t' & Hg' & _).
  exists t, db', t'. split; [reflexivity|].
  split; [vm_compute in Hg; injection Hg as <-; vm_compute; reflexivity|].
  split; [reflexivity|]. split; [exact Hg'|].
  vm_compute in E. injection E as <-. vm_compute in Hg'. injection Hg' as <-.
  reflexivity.
Defined.

(** ** X11: what a hard delete reports *)

(** X11. What [executeHardDelete] reports. Take a table name without
    double quote, a table that exists and a hard delete that returns. It
    returns [true] exactly when the workspace had a row with the
    identifier; afterwards the table has no row of the workspace with the
    identifier; when there was none the database is exactly as it was; and
    a second call returns [false] and changes nothing. *)
Theorem X11_hard_delete_reports_what_it_removed db table ws id t changed db' :
  no_dquote table = true ->
  get_table (data db) table = Some t ->
  executeHardDelete db table ws id = Returned (changed, db') ->
  changed = existsb (is_row ws id) t
  /\ (exists t',
        get_table (data db') table = Some t' /\ existsb (is_row ws id) t' = false)
  /\ (changed = false -> db' = db)
  /\ executeHardDelete db' table ws id = Returned (false, db').
Proof.
  intros Ht Hg H.
  rewrite (executeHardDelete_run db table ws id t Ht Hg), some_row_counted in H.
  injection H as <- <-.
  split; [reflexivity|]. split.
  { exists (hard_delete_table ws id t).
    split; [cbn [with_data data]; apply get_set_table|apply hard_delete_table_clean]. }
  split.
  { intros Hnone. rewrite (hard_delete_table_none _ _ _ Hnone).
    rewrite (set_table_same _ _ _ Hg). apply with_data_same. }
  rewrite (executeHardDelete_run _ table ws id (hard_delete_table ws id t) Ht)
    by (cbn [with_data data]; apply get_set_table).
  rewrite some_row_counted, hard_delete_table_clean.
  rewrite (hard_delete_table_none _ _ _ (hard_delete_table_clean ws id t)).
  cbn [with_data data reject_surplus].
  rewrite (set_table_same _ _ _ (get_set_table _ _ _)). reflexivity.
Qed.

Lemma X11_hard_delete_reports_what_it_removed_witness :
  exists t db',
    get_table (data (Scenario.three_tasks true)) "task" = Some t
    /\ executeHardDelete (Scenario.three_tasks true) "task" "T1" "r2"
       = Returned (true, db')
    /\ executeHardDelete db' "task" "T1" "r2" = Returned (false, db')
    /\ executeHardDelete (Scenario.three_tasks true) "task" "T2" "r2"
       = Returned (false, Scenario.three_tasks true).
Proof.
  destruct (get_table (data (Scenario.three_tasks true)) "task") as [t|] eqn:Hg;
    [|vm_compute in Hg; discriminate].
  destruct (executeHardDelete (Scenario.three_tasks true) "task" "T1" "r2")
    as [[changed db']|e] eqn:E; [|vm_compute in E; discriminate].
  destruct (executeHardDelete (Scenario.three_tasks true) "task" "T2" "r2")
    as [[changed2 db2]|e] eqn:E2; [|vm_compute in E2; discriminate].
  destruct (X11_hard_delete_reports_what_it_removed (Scenario.three_tasks true)
              "task" "T1" "r2" t changed db' eq_refl Hg E) as (Hc & _ & _ & Hagain).
  destruct (X11_hard_delete_reports_what_it_removed (Scenario.three_tasks true)
              "task" "T2" "r2" t changed2 db2 eq_refl Hg E2) as (Hc2 & _ & Hsame & _).
  assert (H1 : existsb (is_row "T1" "r2") t = true)
    by (vm_compute in Hg; injection Hg as <-; vm_compute; reflexivity).
  assert (H2 : existsb (is_row "T2" "r2") t = false)
    by (vm_compute in Hg; injection Hg as <-; vm_compute; reflexivity).
  rewrite H1 in Hc. rewrite H2 in Hc2. subst changed changed2.
  rewrite (Hsame eq_refl).
  exists t, db'. split; [reflexivity|]. split; [reflexivity|].
  split; [exact Hagain|reflexivity].
Defined.

(** ** X12: delete, then find *)

(** X12. After the delete resolver, the find resolver no longer finds the
    record: [executeSelectOne] with the filter [{ id }] returns [null] on
    the database that [executeSoftDelete] leaves. The delete itself
    returns [null] exactly when the workspace has no row with the
    identifier, soft-deleted or not. *)
Theorem X12_deleted_record_is_no_longer_found env db table ws id t rec db' :
  no_dquote table = true ->
  get_table (data db) table = Some t ->
  createDeleteOneResolver env table id ws db = Returned (rec, db') ->
  createFindOneResolver table [("id", JStr id)] ws db' = Returned None
  /\ (rec = None <-> forall r, In r t -> is_row ws id r = false).
Proof.
  unfold createDeleteOneResolver, createFindOneResolver. intros Ht Hg H.
  rewrite (executeSoftDelete_run env db table ws id t Ht Hg) in H. cbv zeta in H.
  injection H as <- <-. split.
  - rewrite (executeSelectOne_by_id _ table ws id
               (soft_delete_table ws id (Date.iso_string (clock env)) t) Ht)
      by (cbn [with_data data]; apply get_set_table).
    rewrite find_live_none; [reflexivity|].
    intros r Hr. apply (soft_delete_table_after _ _ _ _ _ Hr).
  - rewrite reread_none. apply is_row_soft_delete_table.
Qed.

Lemma X12_deleted_record_is_no_longer_found_witness :
  exists t rec db',
    get_table (data (Scenario.three_tasks true)) "task" = Some t
    /\ createFindOneResolver "task" [("id", JStr "r2")] "T1" (Scenario.three_tasks true)
       <> Returned None
    /\ createDeleteOneResolver (Scenario.env_at "unused" 1700000000009) "task" "r2" "T1"
         (Scenario.three_tasks true) = Returned (rec, db')
    /\ createFindOneResolver "task" [("id", JStr "r2")] "T1" db' = Returned None.
Proof.
  destruct (get_table (data (Scenario.three_tasks true)) "task") as [t|] eqn:Hg;
    [|vm_compute in Hg; discriminate].
  destruct (createDeleteOneResolver (Scenario.env_at "unused" 1700000000009) "task" "r2"
              "T1" (Scenario.three_tasks true)) as [[rec db']|e] eqn:E;
    [|vm_compute in E; discriminate].
  exists t, rec, db'. split; [reflexivity|].
  split; [vm_compute; discriminate|]. split; [reflexivity|].
  exact (proj1 (X12_deleted_record_is_no_longer_found
                  (Scenario.env_at "unused" 1700000000009) (Scenario.three_tasks true)
                  "task" "T1" "r2" t rec db' eq_refl Hg E)).
Defined.

(** ** X13: when the search resolver throws *)

(** X13. When the search resolver throws. With a query that is not blank
    and an object name that every object inherits from [Object.prototype]
    ([toString], [constructor], [__proto__], ...) among the requested ones,
    the resolver throws a [TypeError], whatever the database holds: the
    name passes the filter on the object types and its searchable fields
    are no list. In every other case the resolver returns, whatever the
    database holds (a table that is missing or a statement that fails only
    leaves its object type out), and with a limit that is not negative it
    returns at most that many results. *)
Theorem X13_search_throws_for_inherited_names_only db ws args :
  (blank args = false -> existsb inherited_name (asked args) = true ->
   search db ws args = Thrown TypeError)
  /\ (blank args = true \/ existsb inherited_name (asked args) = false ->
      exists items,
        search db ws args = Returned items
        /\ (0 <= limit_of args ->
            (List.length items <= Z.to_nat (limit_of args))%nat)).
Proof.
  rewrite search_unfold. split.
  - intros Hb Hn. rewrite Hb.
    rewrite search_fold_throws by (rewrite searched_inherited; exact Hn).
    reflexivity.
  - intros H. destruct (blank args) eqn:Hb.
    + exists []. split; [reflexivity|]. intros _. cbn [List.length]. lia.
    + destruct H as [H|H]; [discriminate|].
      destruct (search_fold_returns db ws (query args)
                  (ceil_div (limit_of args) (Z.of_nat (List.length (searched args))))
                  (searched args) []) as (res & Hres);
        [rewrite searched_inherited; exact H|].
      rewrite Hres. cbn [bind]. eexists. split; [reflexivity|].
      apply length_slice0_limit.
Qed.

(** A search for notes and for [toString], and a search for notes. *)
Lemma X13_search_throws_for_inherited_names_only_witness :
  search Scenario.one_task "T1"
    {| query := "one"; objectNames := Some ["note"; "toString"]; limit := None |}
  = Thrown TypeError
  /\ exists items,
       search Scenario.one_task "T1"
         {| query := "one"; objectNames := Some ["task"]; limit := Some 5 |}
       = Returned items
       /\ (List.length items <= 5)%nat.
Proof.
  split.
  - exact (proj1 (X13_search_throws_for_inherited_names_only Scenario.one_task "T1"
                    {| query := "one"; objectNames := Some ["note"; "toString"];
                       limit := None |}) eq_refl eq_refl).
  - destruct (proj2 (X13_search_throws_for_inherited_names_only Scenario.one_task "T1"
                       {| query := "one"; objectNames := Some ["task"];
                          limit := Some 5 |}) (or_intror eq_refl))
      as (items & Hs & Hl).
    exists items. split; [exact Hs|]. apply Hl. cbn. lia.
Defined.

(** ** X14: batch insert *)

(** X14. What a batch insert writes. Take a table name and data keys
    without double quote, a table that exists, and a batch insert that
    returns records each of whose keys name different columns. The data
    was not empty and there is one record for each of its items; the
    table holds the rows it had, as they were, and after them one new row
    for each item, each with the caller's workspace as [workspaceId];
    every other table is as it was; and every returned record carries the
    caller's workspace and the one time of the call as [createdAt] and
    [updatedAt]. *)
Theorem X14_batch_insert_appends_one_row_per_item env db table ws ds t recs db' :
  no_dquote table = true ->
  forallb (fun d => forallb no_dquote (Object_keys d)) ds = true ->
  get_table (data db) table = Some t ->
  executeInsertMany env db table ws ds = Returned (recs, db') ->
  forallb (fun rec => columns_distinct (Object_keys rec)) recs = true ->
  ds <> []
  /\ List.length recs = List.length ds
  /\ (exists rs,
        get_table (data db') table = Some (t ++ rs)%list
        /\ List.length rs = List.length ds
        /\ forall r, In r rs -> row_get r "workspaceId" = SText ws)
  /\ (forall other, other <> table ->
        get_table (data db') other = get_table (data db) other)
  /\ forall rec, In rec recs ->
       obj_get rec "workspaceId" = JStr ws
       /\ obj_get rec "createdAt" = JStr (Date.iso_string (clock env))
       /\ obj_get rec "updatedAt" = JStr (Date.iso_string (clock env)).
Proof.
  intros Ht Hk Hg H _. unfold executeInsertMany in H. cbv zeta in H.
  destruct (insert_records_facts env ws (Date.iso_string (clock env)) ds 0%nat Hk)
    as (Hlen & Hall & Hrec).
  destruct (D1.batch db _) as [db1|] eqn:Eb; [|discriminate].
  cbn [bind] in H. injection H as <- <-.
  apply (batch_inserts table _ db t db1 Ht Hall Hg) in Eb as [Hne ->].
  rewrite Forall_forall in Hrec.
  split.
  { intros ->. apply Hne. reflexivity. }
  split; [exact Hlen|]. split.
  { eexists. split; [cbn [with_data data]; apply get_set_table|].
    split; [rewrite length_map; exact Hlen|].
    intros r Hr. apply in_map_iff in Hr as (rec & <- & Hin).
    rewrite row_get_row_of, (proj1 (Hrec rec Hin)). reflexivity. }
  split; [intros other Hne'; cbn [with_data data]; apply get_set_table_other; exact Hne'|].
  exact Hrec.
Qed.

Lemma X14_batch_insert_appends_one_row_per_item_witness :
  exists t recs db',
    get_table (data (Scenario.three_tasks true)) "task" = Some t
    /\ executeInsertMany counting_env (Scenario.three_tasks true) "task" "T1"
         two_new_tasks = Returned (recs, db')
    /\ forallb (fun rec => columns_distinct (Object_keys rec)) recs = true
    /\ map (fun rec => obj_get rec "id") recs = [JStr "n0"; JStr "n1"]
    /\ map (fun rec => obj_get rec "workspaceId") recs = [JStr "T1"; JStr "T1"]
    /\ List.length recs = 2%nat
    /\ executeInsertMany counting_env (Scenario.three_tasks true) "task" "T1" []
       = Thrown D1.no_statements.
Proof.
  destruct (get_table (data (Scenario.three_tasks true)) "task") as [t|] eqn:Hg;
    [|vm_compute in Hg; discriminate].
  destruct (executeInsertMany counting_env (Scenario.three_tasks true) "task" "T1"
              two_new_tasks) as [[recs db']|e] eqn:E; [|vm_compute in E; discriminate].
  assert (Hc : forallb (fun rec => columns_distinct (Object_keys rec)) recs = true)
    by (vm_compute in E; injection E as <- _; vm_compute; reflexivity).
  exists t, recs, db'. split; [reflexivity|]. split; [reflexivity|].
  split; [exact Hc|].
  split; [vm_compute in E; injection E as <- _; reflexivity|].
  split; [vm_compute in E; injection E as <- _; reflexivity|].
  split; [|reflexivity].
  exact (proj1 (proj2 (X14_batch_insert_appends_one_row_per_item counting_env
                         (Scenario.three_tasks true) "task" "T1" two_new_tasks t recs db'
                         eq_refl eq_refl Hg E Hc))).
Defined.

(** ** X15: the LIKE helpers *)



(** ** X16: the list of strings *)

(** X16. The list-of-strings transformer keeps exactly the strings: a
    list written and read back is the list of its string elements in
    their order (a list of strings comes back unchanged), and reading any
    stored text, or NULL, returns a list of strings and never throws. *)
Theorem X16_string_list_transformer_keeps_the_strings
    (items : list jsval) (text : stored) :
  bind (stringArrayTransformer.to (JArr items)) stringArrayTransformer.from
  = Returned (JArr (List.filter is_string items))
  /\ (forallb is_string items = true ->
      bind (stringArrayTransformer.to (JArr items)) stringArrayTransformer.from
      = Returned (JArr items))
  /\ exists strings,
       stringArrayTransformer.from text = Returned (JArr strings)
       /\ forallb is_string strings = true.
Proof.
  assert (H : bind (stringArrayTransformer.to (JArr items)) stringArrayTransformer.from
              = Returned (JArr (List.filter is_string items))).
  { unfold stringArrayTransformer.to, JSON.stringify.
    cbn [bind stringArrayTransformer.from].
    rewrite (parse_stringify _ (filter_is_string_data items)).
    cbn [bind try_catch]. rewrite filter_is_string_idem. reflexivity. }
  split; [exact H|]. split.
  - intros Hs. rewrite H. f_equal. f_equal.
    clear H. induction items as [|v items IH]; [reflexivity|].
    cbn [forallb] in Hs. apply andb_true_iff in Hs as [Hv Hs].
    cbn [List.filter]. rewrite Hv, (IH Hs). reflexivity.
  - destruct text as [s|]; cbn [stringArrayTransformer.from].
    + destruct (JSON.parse s) as [v|e]; cbn [bind try_catch].
      * destruct v; try (exists []; split; reflexivity).
        eexists. split; [reflexivity|apply forallb_filter_is_string].
      * exists []. split; reflexivity.
    + exists []. split; reflexivity.
Qed.

(** ** X17: timestamps with a default *)

(** X17. The timestamp transformer with default never writes NULL for a
    missing value: it writes the current time, which is read back as that
    instant; a valid [Date] is read back as itself, also when the plain
    string variant wrote it and the first transformer reads it. Stored
    text that is no date is read back as an invalid [Date], where the
    first transformer gives [null]. *)
Theorem X17_timestamp_variants_read_back_the_instant (env : Env) (tv : Z) :
  - Date.maxTime <= tv <= Date.maxTime ->
  - Date.maxTime <= clock env <= Date.maxTime ->
  timestampWithDefaultTransformer.to env TsNullish
  = Returned (JStr (Date.iso_string (clock env)))
  /\ bind (timestampWithDefaultTransformer.to env TsNullish)
       (fun w => timestampWithDefaultTransformer.from (as_stored w))
     = Returned (Some (Some (clock env)))
  /\ bind (timestampWithDefaultTransformer.to env (TsDate (Some tv)))
       (fun w => timestampWithDefaultTransformer.from (as_stored w))
     = Returned (Some (Some tv))
  /\ bind (timestampStringTransformer.to (TsDate (Some tv)))
       (fun w => timestampTransformer.from
                   (timestampStringTransformer.from (as_stored w)))
     = Returned (Some (Some tv))
  /\ forall s,
       Date.isNaN (Date.getTime (Date.of_string s)) = true ->
       timestampWithDefaultTransformer.from (Some s) = Returned (Some None)
       /\ timestampTransformer.from (Some s) = Returned None.
Proof.
  intros Htv Hclock.
  split; [reflexivity|].
  split.
  { cbn [timestampWithDefaultTransformer.to Date.toISOString bind as_stored
           timestampWithDefaultTransformer.from try_catch].
    unfold Date.of_string. rewrite (parse_iso_string _ Hclock). reflexivity. }
  split.
  { cbn [timestampWithDefaultTransformer.to Date.toISOString bind as_stored
           timestampWithDefaultTransformer.from try_catch].
    unfold Date.of_string. rewrite (parse_iso_string _ Htv). reflexivity. }
  split.
  { cbn [timestampStringTransformer.to Date.toISOString bind as_stored
           timestampStringTransformer.from timestampTransformer.from].
    unfold Date.of_string. rewrite (parse_iso_string _ Htv). reflexivity. }
  intros s Hs. split.
  - cbn [timestampWithDefaultTransformer.from try_catch].
    unfold Date.isNaN, Date.getTime in Hs.
    destruct (Date.of_string s); [discriminate|reflexivity].
  - cbn [timestampTransformer.from]. rewrite Hs. reflexivity.
Qed.

Lemma X17_timestamp_variants_read_back_the_instant_witness :
  - Date.maxTime <= 1700000000000 <= Date.maxTime
  /\ timestampWithDefaultTransformer.to (Scenario.env_at "unused" 1700000000000) TsNullish
     = Returned (JStr "2023-11-14T22:13:20.000Z")
  /\ bind (timestampWithDefaultTransformer.to (Scenario.env_at "unused" 1700000000000)
             TsNullish)
       (fun w => timestampWithDefaultTransformer.from (as_stored w))
     = Returned (Some (Some 1700000000000)).
Proof.
  assert (Ht : - Date.maxTime <= 1700000000000 <= Date.maxTime)
    by (unfold Date.maxTime; lia).
  split; [exact Ht|].
  destruct (X17_timestamp_variants_read_back_the_instant
              (Scenario.env_at "unused" 1700000000000) 0
              ltac:(unfold Date.maxTime; lia) Ht) as (H1 & H2 & _).
  split; [rewrite H1; vm_compute; reflexivity|exact H2].
Defined.

(** ** X18: boolean variants *)

(** X18. The boolean variants read back what they wrote: the text
    variant gives every value back, [null] included; the variant with
    default gives [false] for [null] and the flag otherwise, and on every
    column value it agrees with the first transformer except that it
    answers [false] where that one answers [null]. *)
Theorem X18_boolean_variants_read_back_the_flag (b : option bool) (f : flag) :
  booleanTextTransformer.from (booleanTextTransformer.to b) = b
  /\ booleanWithDefaultTransformer.from (FlagNumber (booleanWithDefaultTransformer.to b))
     = match b with Some x => x | None => false end
  /\ booleanWithDefaultTransformer.from f
     = match booleanTransformer.from (flag_value f) with
       | Some x => x
       | None => false
       end.
Proof.
  split; [destruct b as [[]|]; reflexivity|].
  split; [destruct b as [[]|]; reflexivity|].
  destruct f; reflexivity.
Qed.

(** ** X19: scoped where conditions *)

(** X19. In a D1 environment [addWorkspaceScopeToWhere] puts the caller's
    workspace into every condition, replacing a [workspaceId] that the
    condition carried; it keeps the number of conditions of a list and
    the other keys of each condition, and scoping again replaces the
    workspace of the first scoping (so scoping twice with the same
    workspace is scoping once). An absent [where] becomes the one
    condition on the workspace. *)
Theorem X19_where_is_scoped_to_the_workspace g w ws ws' :
  isD1Environment g = true ->
  (forall c, In c (conditions_of (addWorkspaceScopeToWhere g w ws)) ->
             obj_get c "workspaceId" = JStr ws)
  /\ conditions_of (addWorkspaceScopeToWhere g w ws)
     = match w with
       | WhereAbsent => [[("workspaceId", JStr ws)]]
       | _ => map (fun c => scoped c ws) (conditions_of w)
       end
  /\ (forall c k, distinct (map fst c) = true -> k <> "workspaceId" ->
                  obj_get (scoped c ws) k = obj_get c k)
  /\ addWorkspaceScopeToWhere g (addWorkspaceScopeToWhere g w ws') ws
     = addWorkspaceScopeToWhere g w ws.
Proof.
  intros Hd. unfold addWorkspaceScopeToWhere. rewrite Hd. cbn [negb].
  split.
  { destruct w as [|c0|cs]; cbn [conditions_of]; intros c Hc.
    - destruct Hc as [<-|[]]. reflexivity.
    - destruct Hc as [<-|[]]. apply scoped_workspaceId.
    - apply in_map_iff in Hc as (c1 & <- & _). apply scoped_workspaceId. }
  split; [destruct w; reflexivity|].
  split; [intros c k Hc Hk; apply scoped_other; assumption|].
  destruct w as [|c0|cs].
  - reflexivity.
  - rewrite scoped_twice. reflexivity.
  - rewrite map_map. f_equal. apply map_ext. intros c. apply scoped_twice.
Qed.

Lemma X19_where_is_scoped_to_the_workspace_witness :
  isD1Environment worker = true
  /\ addWorkspaceScopeToWhere worker
       (WhereMany [[("name", JStr "Acme")];
                   [("workspaceId", JStr "T2"); ("name", JStr "Bolt")]]) "T1"
     = WhereMany [[("name", JStr "Acme"); ("workspaceId", JStr "T1")];
                  [("workspaceId", JStr "T1"); ("name", JStr "Bolt")]]
  /\ forall c,
       In c (conditions_of
               (addWorkspaceScopeToWhere worker
                  (WhereMany [[("name", JStr "Acme")];
                              [("workspaceId", JStr "T2"); ("name", JStr "Bolt")]]) "T1")) ->
       obj_get c "workspaceId" = JStr "T1".
Proof.
  split; [reflexivity|]. split; [reflexivity|].
  exact (proj1 (X19_where_is_scoped_to_the_workspace worker
                  (WhereMany [[("name", JStr "Acme")];
                              [("workspaceId", JStr "T2"); ("name", JStr "Bolt")]])
                  "T1" "T1" eq_refl)).
Defined.

(** ** X20: scoped entities and options *)

(** X20. In a D1 environment every entity that [addWorkspaceIdToEntity]
    returns passes [hasWorkspaceId] and carries the caller's workspace,
    whatever [workspaceId] it had, one entity for each one given;
    [addWorkspaceScope] scopes the [where] option of find options exactly
    as [addWorkspaceScopeToWhere] does. Outside a D1 environment both
    return their argument as it is. *)
Theorem X20_entities_and_options_get_the_workspace g e o ws :
  (isD1Environment g = true ->
   entities_of (addWorkspaceIdToEntity g e ws)
   = map (fun x => scoped x ws) (entities_of e)
   /\ (forall x, In x (entities_of (addWorkspaceIdToEntity g e ws)) ->
                 hasWorkspaceId (JObj x) = true
                 /\ obj_get x "workspaceId" = JStr ws)
   /\ where_option (addWorkspaceScope g o ws)
      = addWorkspaceScopeToWhere g
          (match o with Some f => where_option f | None => WhereAbsent end) ws)
  /\ (isD1Environment g = false ->
      addWorkspaceIdToEntity g e ws = e
      /\ forall f, addWorkspaceScope g (Some f) ws = f).
Proof.
  split; intros Hd; unfold addWorkspaceIdToEntity, addWorkspaceScope,
    addWorkspaceScopeToWhere; rewrite Hd; cbn [negb].
  - assert (He : entities_of match e with
                             | OneEntity x => OneEntity (scoped x ws)
                             | ManyEntities es =>
                                 ManyEntities (map (fun x => scoped x ws) es)
                             end
                 = map (fun x => scoped x ws) (entities_of e))
      by (destruct e; reflexivity).
    split; [exact He|]. split.
    + rewrite He. intros x Hx. apply in_map_iff in Hx as (x0 & <- & _).
      unfold hasWorkspaceId, scoped.
      rewrite obj_has_set_same, obj_get_set_same. split; reflexivity.
    + destruct o as [f|]; reflexivity.
  - split; [reflexivity|]. intros f. reflexivity.
Qed.

Lemma X20_entities_and_options_get_the_workspace_witness :
  isD1Environment worker = true
  /\ isD1Environment node_process = false
  /\ addWorkspaceIdToEntity worker (OneEntity [("workspaceId", JStr "T2")]) "T1"
     = OneEntity [("workspaceId", JStr "T1")]
  /\ (forall x,
        In x (entities_of
                (addWorkspaceIdToEntity worker (OneEntity [("workspaceId", JStr "T2")])
                   "T1")) ->
        hasWorkspaceId (JObj x) = true /\ obj_get x "workspaceId" = JStr "T1")
  /\ addWorkspaceIdToEntity node_process (OneEntity [("workspaceId", JStr "T2")]) "T1"
     = OneEntity [("workspaceId", JStr "T2")].
Proof.
  split; [reflexivity|]. split; [reflexivity|]. split; [reflexivity|].
  destruct (X20_entities_and_options_get_the_workspace worker
              (OneEntity [("workspaceId", JStr "T2")]) None "T1") as [H _].
  destruct (X20_entities_and_options_get_the_workspace node_process
              (OneEntity [("workspaceId", JStr "T2")]) None "T1") as [_ H'].
  split; [exact (proj1 (proj2 (H eq_refl)))|exact (proj1 (H' eq_refl))].
Defined.

(** ** X21: the raw scope clause *)



(** ** X22: stable order of a read *)



(** ** X23: page sizes that are not positive *)

(** X23. Page sizes that are not positive. Take a read that returns,
    whose table name, filter fields and order fields hold no double quote,
    which reads the default column list and has [first: n] with [n] at
    most 0 and above -2^53. The statement has LIMIT [n + 1]. With
    [first: 0] the read returns no record, whatever the table holds, and
    reports a next page only when a [before] cursor was given. With a
    negative [first] it always reports a next page: with [first: -1] the
    page is empty, and with [n < -1] the engine returns the whole ordered
    result and the page holds all of it but its last [-n] rows. *)
Theorem X23_page_size_zero_or_negative db table ws options res n :
  no_dquote table = true ->
  fields_ok (opt_filter options) = true ->
  order_ok (opt_orderBy options) = true ->
  opt_columns options = None ->
  first (pagination_of options) = Some n ->
  - 2 ^ 53 < n <= 0 ->
  executeSelect db table ws options = Returned res ->
  fst (buildPaginationClause (pagination_of options)) = "LIMIT " ++ Z_to_string (n + 1)
  /\ (n = 0 ->
      records res = []
      /\ hasNextPage (pageInfo res) = some_nonempty (before (pagination_of options)))
  /\ (n = -1 -> records res = [] /\ hasNextPage (pageInfo res) = true)
  /\ (n < -1 ->
      hasNextPage (pageInfo res) = true
      /\ exists ps vals tbl,
           select_params (JStr ws :: where_params (opt_filter options)) ws
             (pagination_of options) = Returned ps
           /\ D1.to_sql_all ps = Returned vals
           /\ get_table (data db) table = Some tbl
           /\ let ordered :=
                ordered_rows vals (opt_filter options) (opt_orderBy options) tbl in
              records res
              = map D1.of_row
                  (firstn (List.length ordered - Z.to_nat (- n)) ordered)).
Proof.
  intros Ht Hf Ho Hc Hfirst [_ Hn] Hres.
  assert (Hlim : page_limit (pagination_of options) = n).
  { unfold page_limit. rewrite Hfirst. reflexivity. }
  destruct (executeSelect_inv db table ws options res Ht Hf Ho Hc Hres)
    as (ps & vals & tbl & l & Hps & Hv & Hg & Hl & Hb).
  rewrite Hlim in Hl, Hb.
  apply (buildPageInfo_small _ n _ _ _ Hn Hfirst) in Hb as [Hrecs Hnext].
  split; [rewrite buildPaginationClause_text, Hlim; reflexivity|].
  unfold apply_limit in Hl. cbn [eval] in Hl. injection Hl as Hl.
  split; [|split].
  - intros ->. rewrite Hrecs, Hnext. auto.
  - intros ->. rewrite Hnext. split; [|reflexivity].
    rewrite Hrecs. cbn [Z.eqb Z.add Z.ltb Z.compare Z.to_nat firstn] in *.
    subst l. reflexivity.
  - intros Hlt. replace (n =? 0) with false in Hrecs, Hnext
      by (symmetry; apply Z.eqb_neq; lia).
    split; [exact Hnext|]. exists ps, vals, tbl.
    repeat (split; [assumption|]). cbv zeta.
    replace (n + 1 <? 0) with true in Hl by (symmetry; apply Z.ltb_lt; lia).
    subst l. rewrite Hrecs, length_map, firstn_map. reflexivity.
Qed.

(** Scenario B read with [first: -2]: of the three tasks, newest first, the
    page holds the first one only, and claims a next page. *)
Lemma X23_page_size_zero_or_negative_witness :
  no_dquote "task" = true
  /\ first (pagination_of (Scenario.page (-2) None)) = Some (-2)
  /\ - 2 ^ 53 < -2 <= 0
  /\ exists res,
       executeSelect (Scenario.three_tasks true) "task" "T1" (Scenario.page (-2) None)
       = Returned res
       /\ fst (buildPaginationClause (pagination_of (Scenario.page (-2) None)))
          = "LIMIT -1"
       /\ Scenario.ids (records res) = [JStr "r3"]
       /\ hasNextPage (pageInfo res) = true.
Proof.
  split; [reflexivity|]. split; [reflexivity|]. split; [lia|].
  destruct (executeSelect (Scenario.three_tasks true) "task" "T1"
              (Scenario.page (-2) None)) as [res|] eqn:E;
    [|vm_compute in E; discriminate].
  exists res. split; [reflexivity|].
  destruct (X23_page_size_zero_or_negative (Scenario.three_tasks true) "task" "T1"
              (Scenario.page (-2) None) res (-2) eq_refl eq_refl eq_refl eq_refl
              eq_refl ltac:(lia) E) as (Hclause & _ & _ & Hneg).
  split; [exact Hclause|].
  destruct (Hneg ltac:(lia)) as [Hnext _]. split; [|exact Hnext].
  vm_compute in E. injection E as <-. reflexivity.
Defined.

(** ** X24: what a filter means *)

(** X24. What a filter means, on columns of text. Take a table name,
    filter fields and order fields without double quote, the default
    column list, a filter that compares with texts and [null] only, and a
    table in which every field of the filter is a column that holds a text
    or NULL in every row. A read that returns has counted and read the
    rows that the filter keeps: the rows of the workspace without
    [deletedAt] on which every entry of the filter is true as the engine
    decides it - [field: null] the column is NULL, [field: value] and [eq]
    the column equals the value, [neq] it differs from it, [in] it equals
    an item of the list, [like] it contains the text (LIKE, ASCII case
    ignored), a comparison with NULL being never true. [totalCount] is
    the number of these rows in the table and every record is one of
    them. *)
Theorem X24_read_returns_rows_that_every_filter_entry_keeps
    db table ws options res tbl :
  no_dquote table = true ->
  fields_ok (opt_filter options) = true ->
  order_ok (opt_orderBy options) = true ->
  opt_columns options = None ->
  forallb text_entry (filter_entries (opt_filter options)) = true ->
  get_table (data db) table = Some tbl ->
  text_columns (opt_filter options) tbl = true ->
  executeSelect db table ws options = Returned res ->
  totalCount res
  = JNum (Z.of_nat (List.length (List.filter (keeps ws (opt_filter options)) tbl)))
  /\ forall rec, In rec (records res) ->
       exists r, In r tbl /\ keeps ws (opt_filter options) r = true
                 /\ rec = D1.of_row r.
Proof.
  intros Ht Hf Ho Hc _ Hg _ Hres. split.
  - apply (executeSelect_counts_kept db table ws options res tbl); assumption.
  - intros rec Hrec.
    apply (executeSelect_reads_kept db table ws options res tbl rec); assumption.
Qed.

(** Scenario B read with the filter [title: neq "one"]: two of the three
    tasks are counted and returned. *)
Lemma X24_read_returns_rows_that_every_filter_entry_keeps_witness :
  no_dquote "task" = true
  /\ exists res tbl,
       executeSelect (Scenario.three_tasks true) "task" "T1" (filtered not_one)
       = Returned res
       /\ get_table (data (Scenario.three_tasks true)) "task" = Some tbl
       /\ text_columns (Some not_one) tbl = true
       /\ totalCount res
          = JNum (Z.of_nat (List.length (List.filter (keeps "T1" (Some not_one)) tbl)))
       /\ totalCount res = JNum 2
       /\ Scenario.ids (records res) = [JStr "r3"; JStr "r2"].
Proof.
  split; [reflexivity|].
  destruct (executeSelect (Scenario.three_tasks true) "task" "T1" (filtered not_one))
    as [res|] eqn:E; [|vm_compute in E; discriminate].
  destruct (get_table (data (Scenario.three_tasks true)) "task") as [tbl|] eqn:Hg;
    [|vm_compute in Hg; discriminate].
  assert (Hcols : text_columns (Some not_one) tbl = true)
    by (vm_compute in Hg; injection Hg as <-; vm_compute; reflexivity).
  destruct (X24_read_returns_rows_that_every_filter_entry_keeps
              (Scenario.three_tasks true) "task" "T1" (filtered not_one) res tbl
              eq_refl eq_refl eq_refl eq_refl eq_refl Hg Hcols E) as (Hcount & _).
  exists res, tbl. split; [reflexivity|]. split; [reflexivity|].
  split; [exact Hcols|]. split; [exact Hcount|].
  vm_compute in E. injection E as <-. split; reflexivity.
Defined.

(** ** X25: comparisons that no row passes *)

(** X25. Comparisons that no row passes. Take a table name, filter
    fields and order fields without double quote, the default column list
    and a read that returns. When an entry of its filter compares a field
    with [null] through [eq] or [neq], or asks for membership in the empty
    list, the read holds no record and counts none, whatever the table
    holds: [eq: null] is not [IS NULL]. And when every row of the table
    has the field for column, a read with [neq] on the field returns no
    row in which the field is NULL. *)
Theorem X25_null_comparisons_and_the_empty_list_match_no_row
    db table ws options res f ops :
  no_dquote table = true ->
  fields_ok (opt_filter options) = true ->
  order_ok (opt_orderBy options) = true ->
  opt_columns options = None ->
  In (f, JObj ops) (filter_entries (opt_filter options)) ->
  executeSelect db table ws options = Returned res ->
  ((obj_has ops "eq" = true /\ obj_get ops "eq" = JNull)
   \/ (obj_has ops "neq" = true /\ obj_get ops "neq" = JNull)
   \/ (obj_has ops "in" = true /\ obj_get ops "in" = JArr []) ->
   records res = [] /\ totalCount res = JNum 0)
  /\ (obj_has ops "neq" = true ->
      forall tbl,
        get_table (data db) table = Some tbl ->
        forallb (fun r => existsb (String.eqb f) (map fst r)) tbl = true ->
        forall rec, In rec (records res) ->
          exists r, In r tbl /\ rec = D1.of_row r /\ is_null (row_get r f) = false).
Proof.
  intros Ht Hf Ho Hc Hin Hres.
  destruct (executeSelect_table db table ws options res Ht Hf Hc Hres) as (tbl & Hg).
  pose proof (executeSelect_counts_kept db table ws options res tbl Ht Hf Hc Hres Hg)
    as Hcount.
  pose proof (fun rec =>
                executeSelect_reads_kept db table ws options res tbl rec
                  Ht Hf Ho Hc Hres Hg) as Hrecs.
  split.
  - intros Hcase.
    assert (Hno : forall r, keeps ws (opt_filter options) r = false).
    { intros r. destruct (keeps ws (opt_filter options) r) eqn:Hk; [|reflexivity].
      apply (keeps_entry _ _ _ _ Hin) in Hk. cbn [entry_keeps] in Hk.
      destruct Hcase as [[Hh Hv]|[[Hh Hv]|[Hh Hv]]]; rewrite Hh, Hv in Hk.
      - cbn [sql_of] in Hk. unfold sql_equal in Hk. cbn [is_null negb] in Hk.
        rewrite andb_false_r in Hk. discriminate.
      - apply andb_true_iff in Hk as [_ Hk]. apply andb_true_iff in Hk as [Hk _].
        cbn [sql_of] in Hk. unfold sql_differ in Hk. cbn [is_null negb] in Hk.
        rewrite andb_false_r in Hk. discriminate.
      - apply andb_true_iff in Hk as [_ Hk]. apply andb_true_iff in Hk as [_ Hk].
        apply andb_true_iff in Hk as [Hk _]. discriminate. }
    split.
    + destruct (records res) as [|rec recs]; [reflexivity|].
      destruct (Hrecs rec (or_introl eq_refl)) as (r & _ & Hk & _).
      rewrite Hno in Hk. discriminate.
    + rewrite Hcount, filter_nothing by (intros; apply Hno). reflexivity.
  - intros Hh tbl' Hg' _ rec Hrec.
    assert (tbl' = tbl) by congruence. subst tbl'.
    destruct (Hrecs rec Hrec) as (r & Hr & Hk & ->).
    exists r. split; [exact Hr|]. split; [reflexivity|].
    apply (keeps_entry _ _ _ _ Hin) in Hk. cbn [entry_keeps] in Hk. rewrite Hh in Hk.
    apply andb_true_iff in Hk as [_ Hk]. apply andb_true_iff in Hk as [Hk _].
    unfold sql_differ in Hk. destruct (is_null (row_get r f)); [discriminate|reflexivity].
Qed.

(** Scenario B read with [title: eq null] and with [title: in []]: no
    task is returned, none is counted. *)
Lemma X25_null_comparisons_and_the_empty_list_match_no_row_witness :
  no_dquote "task" = true
  /\ (exists res,
        executeSelect (Scenario.three_tasks true) "task" "T1" (filtered eq_null)
        = Returned res
        /\ records res = [] /\ totalCount res = JNum 0)
  /\ exists res,
       executeSelect (Scenario.three_tasks true) "task" "T1" (filtered in_nothing)
       = Returned res
       /\ records res = [] /\ totalCount res = JNum 0.
Proof.
  split; [reflexivity|]. split.
  - destruct (executeSelect (Scenario.three_tasks true) "task" "T1" (filtered eq_null))
      as [res|] eqn:E; [|vm_compute in E; discriminate].
    exists res. split; [reflexivity|].
    refine (proj1 (X25_null_comparisons_and_the_empty_list_match_no_row
                     (Scenario.three_tasks true) "task" "T1" (filtered eq_null) res
                     "title" [("eq", JNull)] eq_refl eq_refl eq_refl eq_refl
                     (or_introl eq_refl) E) _).
    left. split; reflexivity.
  - destruct (executeSelect (Scenario.three_tasks true) "task" "T1" (filtered in_nothing))
      as [res|] eqn:E; [|vm_compute in E; discriminate].
    exists res. split; [reflexivity|].
    refine (proj1 (X25_null_comparisons_and_the_empty_list_match_no_row
                     (Scenario.three_tasks true) "task" "T1" (filtered in_nothing) res
                     "title" [("in", JArr [])] eq_refl eq_refl eq_refl eq_refl
                     (or_introl eq_refl) E) _).
    right. right. split; reflexivity.
Defined.

(** ** X26: what a soft delete writes *)



(** ** X27: inserts and updates of one workspace, reads of another *)

(** X27. What one workspace inserts or updates does not change what
    another reads. Take two different workspaces, a table that exists and
    is written for the first, table names and data keys without double
    quote, and a read scoped to the second whose filter fields and order
    fields hold no double quote and which reads the default column list.
    After an insert or a batch insert that returns, the keys of the data
    that name the column [workspaceId] being spelled so, and after an
    update that returns, no key of its data naming that column, the read
    has the outcome it had before: the same records in the same order, the
    same page information and the same count. *)
Theorem X27_inserts_and_updates_leave_the_reads_of_another_workspace
    env db table t ws ws2 table2 options :
  ws2 <> ws ->
  no_dquote table = true ->
  get_table (data db) table = Some t ->
  no_dquote table2 = true ->
  fields_ok (opt_filter options) = true ->
  order_ok (opt_orderBy options) = true ->
  opt_columns options = None ->
  let unchanged db' :=
    executeSelect db' table2 ws2 options = executeSelect db table2 ws2 options in
  (forall d rec db',
      forallb no_dquote (Object_keys d) = true ->
      spelled "workspaceId" (Object_keys d) = true ->
      executeInsert env db table ws d = Returned (rec, db') -> unchanged db')
  /\ (forall ds recs db',
        forallb (fun d => forallb no_dquote (Object_keys d)) ds = true ->
        forallb (fun d => spelled "workspaceId" (Object_keys d)) ds = true ->
        executeInsertMany env db table ws ds = Returned (recs, db') -> unchanged db')
  /\ (forall id d rec db',
        forallb no_dquote (Object_keys d) = true ->
        names_column (Object_keys d) "workspaceId" = false ->
        executeUpdate env db table ws id d = Returned (rec, db') -> unchanged db').
Proof.
  intros Hne Ht Hg Ht2 Hf Ho Hc unchanged.
  assert (Hset : forall t', rows_of ws2 t' = rows_of ws2 t ->
                            unchanged (with_data db (set_table (data db) table t'))).
  { intros t' Hrows. apply (read_after_set db table t t'); assumption. }
  split; [|split].
  - intros d rec db' Hk _ H.
    destruct (executeInsert_inv env db table ws d rec db' Ht Hk H)
      as (Hrec & _ & t0 & Hg0 & _ & ->).
    assert (t0 = t) by congruence. subst t0. apply Hset.
    change [row_of rec] with (map row_of [rec]).
    rewrite rows_of_app, (rows_of_records ws ws2 [rec] Hne), app_nil_r; [reflexivity|].
    constructor; [|constructor]. rewrite Hrec. unfold insert_record.
    rewrite !obj_get_set_other by discriminate. apply obj_get_set_same.
  - intros ds recs db' Hk _ H. unfold executeInsertMany in H. cbv zeta in H.
    destruct (insert_records_facts env ws (Date.iso_string (clock env)) ds 0%nat Hk)
      as (_ & Hall & Hrec).
    destruct (D1.batch db _) as [db1|] eqn:Eb; [|discriminate].
    cbn [bind] in H. injection H as <- <-.
    apply (batch_inserts table _ db t db1 Ht Hall Hg) in Eb as [_ ->]. apply Hset.
    rewrite rows_of_app, (rows_of_records ws ws2 _ Hne), app_nil_r; [reflexivity|].
    apply (Forall_impl _ (fun rec H => proj1 H) Hrec).
  - intros id d rec db' Hk Hd H. apply names_column_has in Hd.
    rewrite (executeUpdate_run env db table ws id d t Ht Hk Hg) in H.
    destruct (forallb bindable _); [|discriminate]. cbv zeta in H.
    injection H as _ <-. apply Hset. apply rows_of_update; assumption.
Qed.

(** The company of T2 is read the same after T1 has inserted a company. *)
Lemma X27_inserts_and_updates_leave_the_reads_of_another_workspace_witness :
  exists t rec db1,
    get_table (data two_tenants) "company" = Some t
    /\ executeInsert (Scenario.env_at "c3" 1700000000009) two_tenants "company" "T1"
         [("name", JStr "Cord")] = Returned (rec, db1)
    /\ executeSelect db1 "company" "T2" all_rows
       = executeSelect two_tenants "company" "T2" all_rows
    /\ exists res,
         executeSelect two_tenants "company" "T2" all_rows = Returned res
         /\ Scenario.ids (records res) = [JStr "c2"].
Proof.
  destruct (get_table (data two_tenants) "company") as [t|] eqn:Hg;
    [|vm_compute in Hg; discriminate].
  destruct (executeInsert (Scenario.env_at "c3" 1700000000009) two_tenants "company"
              "T1" [("name", JStr "Cord")]) as [[rec db1]|] eqn:E1;
    [|vm_compute in E1; discriminate].
  assert (Hne : "T2" <> "T1") by discriminate.
  destruct (X27_inserts_and_updates_leave_the_reads_of_another_workspace
              (Scenario.env_at "c3" 1700000000009) two_tenants "company" t "T1" "T2"
              "company" all_rows Hne eq_refl Hg eq_refl eq_refl eq_refl eq_refl)
    as (Hins & _).
  exists t, rec, db1. split; [reflexivity|]. split; [reflexivity|].
  split; [exact (Hins [("name", JStr "Cord")] rec db1 eq_refl eq_refl E1)|].
  eexists. split; vm_compute; reflexivity.
Defined.

(** ** X28: soft delete of one workspace, reads of another *)

(** X28. What one workspace soft-deletes does not change what another
    reads. Take two different workspaces, a table that exists, table names
    without double quote, and a read scoped to the second workspace whose
    filter fields and order fields hold no double quote and which reads the
    default column list. After a soft delete made for the first workspace
    that returns, whatever the identifier, the read has the outcome it had
    before: the same records in the same order, the same page information
    and the same count. *)
Theorem X28_soft_delete_leaves_the_reads_of_another_workspace
    env db table t ws ws2 table2 options id rec db' :
  ws2 <> ws ->
  no_dquote table = true ->
  get_table (data db) table = Some t ->
  no_dquote table2 = true ->
  fields_ok (opt_filter options) = true ->
  order_ok (opt_orderBy options) = true ->
  opt_columns options = None ->
  executeSoftDelete env db table ws id = Returned (rec, db') ->
  executeSelect db' table2 ws2 options = executeSelect db table2 ws2 options.
Proof.
  intros Hne Ht Hg Ht2 Hf Ho Hc H.
  rewrite (executeSoftDelete_run env db table ws id t Ht Hg) in H. cbv zeta in H.
  injection H as _ <-. apply (read_after_set db table t); try assumption.
  apply rows_of_soft_delete. exact Hne.
Qed.

(** The company of T2 is read the same after T1 has soft-deleted its own,
    and after T1 has tried to soft-delete the company of T2. *)
Lemma X28_soft_delete_leaves_the_reads_of_another_workspace_witness :
  exists t rec1 db1 db2,
    get_table (data two_tenants) "company" = Some t
    /\ executeSoftDelete (Scenario.env_at "unused" 1700000000009) two_tenants
         "company" "T1" "c1" = Returned (Some rec1, db1)
    /\ executeSelect db1 "company" "T2" all_rows
       = executeSelect two_tenants "company" "T2" all_rows
    /\ executeSoftDelete (Scenario.env_at "unused" 1700000000009) two_tenants
         "company" "T1" "c2" = Returned (None, db2)
    /\ executeSelect db2 "company" "T2" all_rows
       = executeSelect two_tenants "company" "T2" all_rows.
Proof.
  destruct (get_table (data two_tenants) "company") as [t|] eqn:Hg;
    [|vm_compute in Hg; discriminate].
  destruct (executeSoftDelete (Scenario.env_at "unused" 1700000000009) two_tenants
              "company" "T1" "c1") as [[rec1 db1]|] eqn:E1;
    [|vm_compute in E1; discriminate].
  destruct (executeSoftDelete (Scenario.env_at "unused" 1700000000009) two_tenants
              "company" "T1" "c2") as [[rec2 db2]|] eqn:E2;
    [|vm_compute in E2; discriminate].
  assert (Hne : "T2" <> "T1") by discriminate.
  pose proof (X28_soft_delete_leaves_the_reads_of_another_workspace
                (Scenario.env_at "unused" 1700000000009) two_tenants "company" t
                "T1" "T2" "company" all_rows "c1" rec1 db1
                Hne eq_refl Hg eq_refl eq_refl eq_refl eq_refl E1) as H1.
  pose proof (X28_soft_delete_leaves_the_reads_of_another_workspace
                (Scenario.env_at "unused" 1700000000009) two_tenants "company" t
                "T1" "T2" "company" all_rows "c2" rec2 db2
                Hne eq_refl Hg eq_refl eq_refl eq_refl eq_refl E2) as H2.
  destruct rec1 as [rec1|]; [|vm_compute in E1; discriminate].
  destruct rec2 as [rec2|]; [vm_compute in E2; discriminate|].
  exists t, rec1, db1, db2. split; [reflexivity|]. split; [reflexivity|].
  split; [exact H1|]. split; [reflexivity|]. exact H2.
Defined.
